(* ===== verification/_CoqProject ===== *)
-Q . S2P
Prelude.v
Effects.v
GoString.v
Utf8.v
Rfc3339.v
Json.v
JsonText.v
JsonString.v
GoTime.v
Env.v
Events.v
Runtime.v
Metrics.v
Kafka.v
Postgres.v
Outbox.v
Processed.v
Ticket.v
Handler.v
Codec.v
CodecLaws.v
Router.v
World.v
Relay.v
Consumer.v
System.v
Safety.v
Follows.v
Solo.v
Concrete.v
Wiring.v
Lifecycle.v
Settings.v
Claims.v
Producing.v
Delivery.v
Redelivery.v
Api.v
Http.v
Stores.v
Wire.v
Bodies.v
Anomalies.v
Pipeline.v
Monitoring.v
