(* ===== verification/Prelude.v ===== *)
(** * A verification development for servicedesk-lite

    servicedesk-lite is a ticket service in Go with a transactional outbox.  Three
    programs share one Postgres database and one Kafka broker:

    - ticket-service answers POST /tickets and GET /tickets/{id}; a POST writes the
      ticket and an event row of the table [outbox] in one transaction;
    - outbox-relay polls that table: it resets rows whose relay died, claims a batch,
      publishes each event to Kafka and marks its row [sent], or puts it back with a
      backoff, or gives it up as [failed] with a dead letter;
    - notification-service consumes the topic: it records each event in
      [processed_events], notifies, marks it [done] and commits the offset, retrying
      the same message until it succeeds or its attempts are used up.

    ** How programs are modelled

    A Go function that calls the outside world is a tree of calls ([prog], Effects.v):
    [Vis] is one call - a SQL statement, a Kafka write, a reading of the clock - and
    [Ret] the result; [x ← p; q] sequences them.  Errors are values of [result] or
    [option goerr], as in Go.  Each component has a signature of its calls and an
    executable [exec] that says what a call does to its part of the world, steered by a
    [choice] of the environment: a call is carried out and answered ([Done]), refused
    ([Refused]), or carried out while its answer is lost ([Lost]); the choice also
    gives the clock, the rows a query plan picks and those other transactions lock,
    the UUIDs, the partition and the offset the broker delivers, whether the group was
    rebalanced, how often a write tries and what of it lands late, and whether the
    context is cancelled.
    So one definition of a program has two readings: [run] executes it to the end
    under a sequence of choices, and [step] interleaves any number of programs in a
    pool, call by call, with starts and crashes at any point.  [wp] is a rely/guarantee
    predicate that is sound for both ([wp_run], [pool_sound]).  Fuel is needed for the
    iterations of the inner loop of the consumer ([handle_turns]), where it is the number
    of turns a theorem speaks about, and for the scanner and the strings of JSON, where
    it is derived from the length of the text, which is proved to be enough; the endless
    loops of [main] are bodies that return the next body to run.

    ** Files

    - Prelude.v: errors, results, durations, tactics; this header.
    - Effects.v: programs, environments, [run], [wp], pools, schedules.
    - GoString.v, GoTime.v: strings as bytes ([TrimSpace], [EqualFold], [Contains],
      runes), and what is computed on binary64 numbers: the interval that
      [fmt.Sprintf("%fs")] prints, [EXTRACT(EPOCH FROM ...)], [SetToCurrentTime].
    - Utf8.v, Rfc3339.v: which bytes are UTF-8; [time.Time]'s text, printed and parsed.
    - Json.v, JsonText.v, JsonString.v: the scanner of encoding/json as a grammar that
      gives the compact form of a value ([value_enough], [value_none]: the fuel of the
      text decides), and its strings: [quote], [unquote], [unquote_quote].
    - Env.v: internal/shared/env/env.go and internal/shared/config: environment
      variables with defaults (with [strconv.Atoi], [ParseBool] and
      [time.ParseDuration]), the .env file, [Load].
    - Events.v: internal/shared/events; the JSON functions the services call, as the
      interface [Json] with the laws [JsonLaws].
    - Runtime.v: clock, context, UUIDs, metrics registry, the log of notifications.
    - Metrics.v: internal/outbox/metrics.go and the other metrics: what each service
      declares, registers and creates, and when the Prometheus library panics.
    - Kafka.v: internal/shared/kafkax/producer.go and consumer.go, and the broker:
      partitions, readers with their positions, cumulative commits, the tries of a
      writer and the batches that land after their caller has gone ([KLand]).
    - Postgres.v: what is used of the server and its driver ([PostgresLaws]).
    - Outbox.v: internal/outbox/store.go: the table, each statement as a function on
      it, the methods as programs; the specification [claim_spec] of a claim.
    - Processed.v: internal/notify/store.go, likewise.
    - Ticket.v: internal/ticket/model.go, store.go, store_postgres.go.
    - Handler.v: internal/ticket/handler.go and errors.go, against the class
      [TicketStore] (the Go interface [Store]) with its two instances.
    - Codec.v, CodecLaws.v: [json.Marshal], [json.Unmarshal] and [json.Decoder] on the
      types of the program: the instances [go_json] of [Json] and [go_decoder] of
      [JsonDecoder], and the proof of [JsonLaws].
    - Router.v: internal/shared/httpx: [http.ServeMux] with the patterns of [NewRouter],
      request ids, access log and request metrics around the handlers; and the metrics
      servers of the other two programs.
    - World.v: the shared world and the calls of all components on it.
    - Relay.v: cmd/outbox-relay/main.go: [tick], [maybeDead], [backoff], the loop.
    - Consumer.v: cmd/notification-service/main.go: [handleMessage], the inner and the
      outer loop as a state machine, [backoff], [wrapDLQ].
    - System.v: the processes - relays, consumers, requests to each server through its
      router, [main] functions that set the metrics up, the goroutines of the Kafka writers -,
      the invariant [inv] of the whole system and what every process may rely on
      ([grows]).  A deployment is given by its topic, its limit on attempts and whether
      its consumers start at the first offset ([from_first]).  Safety.v: every call
      keeps the invariant under its precondition.  Follows.v: every program establishes
      those preconditions; hence [reachable_inv] and [reachable_grows].
    - Solo.v: tools for one process at a time.
    - Concrete.v: executable instances of the interfaces and a run of the whole
      pipeline; they show that the hypotheses can hold and let the witnesses compute.
    - Wiring.v: internal/shared/db and the [main] functions up to their loops: from an
      environment to a process of System.v, or the way the start fails.
    - Lifecycle.v: internal/shared/httpx/shutdown.go: the life of the HTTP server,
      statement by statement, as a state machine: its connections, the signal, the
      closing of the listener and the polls of [http.Server.Shutdown], while the
      handlers run among other processes.
    - Bodies.v: the bytes of the responses of internal/ticket.
    - Settings.v, Claims.v, Producing.v, Delivery.v, Redelivery.v, Api.v, Http.v,
      Stores.v, Wire.v, Anomalies.v, Pipeline.v, Monitoring.v:
      the properties, with their witnesses.

    ** What the theorems show

    - Pipeline.v, for every reachable state of any number of concurrent requests,
      relays and consumers with arbitrary failures and crashes: tickets and outbox
      rows are in one-to-one correspondence; a [sent] row is in the topic and the topic
      holds only events of committed tickets; [failed] means the attempts are used up;
      what a group has committed of a partition has been notified, from where it began
      to read, and so has every [done] or [failed] event; every
      notification is for a committed ticket; the API answers only committed tickets;
      rows are well formed; nothing recorded is lost later.
    - Claims.v: a claim meets [claim_spec], is exclusive for the processing timeout,
      [ResetStuck] releases exactly the stuck rows, [LagSeconds] is the oldest age, in the
      seconds of a float64.
    - Producing.v: [Produce] calls the writer at most twice, which bounds the copies of
      its message by twenty, late ones included; there is one at least when it answers nil.
    - Delivery.v: a tick whose calls succeed sends everything due or stuck; a refused
      event goes back with the text of its error and exactly its backoff, or is given up
      with a dead letter; every claimed
      event is counted once; the backoff is bounded.
    - Redelivery.v: handling a message again after success notifies nobody; retries are
      bounded by the limit on attempts; a message whose turn's calls succeed is consumed
      ([message_is_consumed]); what one turn of the outer loop keeps; and a defect: a
      poison pill blocks the consumer.
    - Api.v: validation; exactly when a POST is answered 405, 400, 201 and 500, by the
      request and the answer of the store; GET; their round trip: against any store that
      keeps the promise [StoreLaws], which both stores do; [Create] is atomic.
    - Http.v: through the router and its middleware, a ticket answered to a POST is
      answered to a GET of its path; every request whose route and method are UTF-8 is
      counted once and every answer carries its request id.  Stores.v: the same requests get the same answers from
      the in-memory store and from Postgres, and where not.
    - Wire.v, Bodies.v: envelopes and response bodies survive encoding and decoding, for
      every string of valid UTF-8 and every time of a year up to 9999; what any request
      body at all decodes to; each message of the topic decodes to a row of the outbox; a message that cannot be
      decoded is committed, and its dead letter is empty when the message is not JSON.
    - Lifecycle.v: a shutdown drops no request that has begun: when it ends because the
      server was idle all are answered, otherwise its timeout has passed since the signal;
      polls come within 0.55 s; a server that cannot listen lingers.
    - Monitoring.v: no process is ever about to use a metric in a way that panics
      (requests with a label that is not UTF-8 are aborted before), and every sample is of
      a declared metric; a relay and a consumer start with their series; the metrics
      servers change nothing.
    - Wiring.v, Settings.v: what [main] starts is what the theorems about the system
      assume; a .env file is read back and never overrides the environment; integers and
      durations are read exactly, and give the default when they do not fit the 64 bits of
      Go's types (which the integers of Env.v, being Z, keep by [numbers_fit]); a poll interval of zero crashes the relay.
    - Anomalies.v: computed runs in which statements without a guard on the status
      reopen a [sent] row and notify a [done] event again.

    ** Assumptions and limits

    The dead letter topic differs from the event topic, and all relays share one limit
    on attempts (definition [start] of System.v).  A transaction's statements act at
    once; conflicts with other transactions are found at COMMIT.  The broker keeps
    every message.  A reader of a group delivers each partition in order, from its position,
    else from the offset the group has committed, else from its configured start; a
    reader that starts at the end may begin anywhere.  A fetch may find the group
    rebalanced, which makes the reader begin again from the committed offsets.
    Committing an offset commits every earlier one of its partition.  A write may append
    up to ten copies, some of them after it has been answered.  The default of
    KAFKA_START_OFFSET is "last", with which a new group may skip the messages before its
    first fetch; at [from_first] it skips none.  Times are nanoseconds since 1970; Postgres's rounding is [pg_time], the
    types INT and BIGINT are bounded where the code computes on them.  Logging is left
    out, but for the line that is the notification.

    Times are in UTC; an empty [json.RawMessage] is a nil one.  The texts of the errors
    of encoding/json are the class [JsonTexts], Unicode's tables beyond ASCII the class
    [UnicodeTables], the page of the Prometheus handler and the library's collectors the
    class [Prometheus].  A handler that panics has written its response before, so the
    client may have got it; the model says [Aborted].

    Not modelled: the logger; the page of /metrics, the header fields of responses other
    than X-Request-Id, and the timeouts of net/http on reading and writing (a connection
    on which no handler runs may close at any time); the closing
    of the connection pools and of the metrics servers when a program ends. *)

From stdpp Require Export prelude gmap strings sorting.
From Stdlib Require Export Lia ZArith.

#[global] Set Default Goal Selector "!".
#[global] Open Scope Z_scope.

(** ** Go values shared by every component *)

(** An [error] value.  The sentinels the code compares against are constructors
    of their own; [EMsg] is any other error, known by its text only, [EWrap] an
    error with a text and an [Unwrap] method, and [ETagged] the [taggedErr] of
    cmd/notification-service. *)
Inductive goerr : Type :=
| ErrNotFound
| ErrNoRows
| EOF
| Canceled
| DeadlineExceeded
| EValidation (msg : string)
| EMsg (msg : string)
| EWrap (msg : string) (inner : goerr)
| ETagged (tag : string) (inner : goerr).

(** [err.Error()]. *)
Fixpoint Error (e : goerr) : string :=
  match e with
  | ErrNotFound => "ticket not found"
  | ErrNoRows => "sql: no rows in result set"
  | EOF => "EOF"
  | Canceled => "context canceled"
  | DeadlineExceeded => "context deadline exceeded"
  | EValidation s => s
  | EMsg s => s
  | EWrap s _ => s
  | ETagged tag e => tag +:+ ": " +:+ Error e
  end.

#[export] Instance goerr_eq_dec : EqDecision goerr.
Proof. solve_decision. Defined.

(** [errors.Is(e, target)] for a sentinel target: the chain of [Unwrap]s is
    searched for a value equal to it. *)
Fixpoint errors_Is (e target : goerr) : bool :=
  bool_decide (e = target) ||
  match e with
  | EWrap _ inner => errors_Is inner target
  | ETagged _ inner => errors_Is inner target
  | _ => false
  end.

(** The pair [(value, err)] a Go function returns: the value when [err] is nil. *)
Inductive result (A : Type) : Type :=
| Ok (a : A)
| Err (e : goerr).
Arguments Ok {A} a.
Arguments Err {A} e.

Definition is_ok {A} (r : result A) : bool :=
  match r with Ok _ => true | Err _ => false end.

(** A result whose value is dropped, as an [error] that may be nil. *)
Definition err_of {A} (r : result A) : option goerr :=
  match r with Ok _ => None | Err e => Some e end.

(** ** Durations: [time.Duration] counts nanoseconds *)

Definition Millisecond : Z := 1000000.
Definition Second : Z := 1000000000.

(** [time.Time{}]: 1 January of year 1, in nanoseconds since 1970. *)
Definition zero_time : Z := -62135596800 * Second.

(** ** Lists *)

Lemma forallb_elem_of {A} (f : A -> bool) l :
  forallb f l = true <-> forall x, x ∈ l -> f x = true.
Proof. rewrite List.forallb_forall. by setoid_rewrite list_elem_of_In. Qed.

Lemma existsb_elem_of {A} (f : A -> bool) l :
  existsb f l = true <-> exists x, x ∈ l /\ f x = true.
Proof. rewrite List.existsb_exists. by setoid_rewrite list_elem_of_In. Qed.

Lemma existsb_false_elem_of {A} (f : A -> bool) l :
  existsb f l = false <-> forall x, x ∈ l -> f x = false.
Proof.
  rewrite <- not_true_iff_false, existsb_elem_of. split.
  - intros H x Hx. apply not_true_iff_false. eauto.
  - intros H (x&Hx&Hf). rewrite (H x Hx) in Hf. done.
Qed.

(** ** Tactics *)

(** Split a [match] of the goal, remembering the equation. *)
Ltac case_on t := let E := fresh "E" in destruct t eqn:E.

(** Replace a closed term by its value. *)
Ltac evaluate t := let v := eval vm_compute in t in change t with v.

(** An element of a list that is written out. *)
Ltac in_list := first [by left | right; in_list].

(** Turn the boolean tests of the hypotheses into propositions. *)
Ltac bool_props :=
  repeat match goal with
  | H : (_ && _) = true |- _ => apply andb_prop in H; destruct H
  | H : bool_decide _ = true |- _ => apply bool_decide_eq_true in H
  | H : bool_decide _ = false |- _ => apply bool_decide_eq_false in H
  | H : (_ <=? _) = true |- _ => apply Z.leb_le in H
  | H : (_ <=? _) = false |- _ => apply Z.leb_gt in H
  | H : (_ <? _) = true |- _ => apply Z.ltb_lt in H
  | H : (_ <? _) = false |- _ => apply Z.ltb_ge in H
  | H : (_ =? _)%string = true |- _ => apply String.eqb_eq in H
  | H : (_ =? _)%string = false |- _ => apply String.eqb_neq in H
  end.
