(* ===== verification/Effects.v ===== *)
(** * Programs that call the outside world

    The services are sequences of calls to Postgres, Kafka, the clock and the
    metrics registry.  A program is a tree of such calls ([prog]); the world
    answers each call with a state change and a reply ([exec]), steered by the
    choices the environment makes ([choice]).  The file gives the two readings
    of a program - a run to the end by one process, and one call at a time in a
    pool of processes with crashes - and a rely/guarantee predicate [wp] that is
    sound for both. *)

From S2P Require Import Prelude.

(** ** Signatures and programs *)

Record sig : Type := Sig { op : Type; #[canonical=no] ans : op -> Type }.

Inductive prog (S : sig) (A : Type) : Type :=
| Ret (a : A)
| Vis (o : op S) (k : ans S o -> prog S A).
Arguments Ret {S A} a.
Arguments Vis {S A} o k.

Fixpoint prog_bind {S A B} (f : A -> prog S B) (p : prog S A) : prog S B :=
  match p with
  | Ret a => f a
  | Vis o k => Vis o (fun r => prog_bind f (k r))
  end.

#[export] Instance prog_mret S : MRet (prog S) := fun A a => Ret a.
#[export] Instance prog_mbind S : MBind (prog S) := @prog_bind S.

(** [for _, x := range xs { ... }] over a variable the body updates. *)
Fixpoint for_fold {S A T} (xs : list A) (st : T) (body : T -> A -> prog S T) : prog S T :=
  match xs with
  | [] => mret st
  | x :: xs => st ← body st x; for_fold xs st body
  end.

(** The calls of [S1] are among those of [S2]. *)
Class Sub (S1 S2 : sig) : Type := {
  inj_op : op S1 -> op S2;
  prj_ans : forall o, ans S2 (inj_op o) -> ans S1 o
}.

#[export] Instance sub_refl S : Sub S S := {| inj_op o := o; prj_ans o r := r |}.

Definition call {S1 S2 : sig} `{!Sub S1 S2} (o : op S1) : prog S2 (ans S1 o) :=
  Vis (inj_op o) (fun r => Ret (prj_ans o r)).

(** ** What the environment decides *)

(** A call that leaves the process is carried out and answered, refused with an
    error, or carried out while its answer is lost: the caller sees an error. *)
Inductive outcome : Type :=
| Done
| Refused (e : goerr)
| Lost (e : goerr).

(** One choice per call: its outcome, the reading of the clock, the rows a
    planner picks and those other transactions hold locked, the UUID and the
    random bytes drawn, and whether the context is cancelled; of Kafka, the offset the
    broker delivers or the batch that lands, the partition of a message, how often it is
    written at once and later, and whether the consumer group has rebalanced. *)
Record choice : Type := Choice {
  ch_out : outcome;
  ch_now : Z;
  ch_pick : list Z;
  ch_locked : list Z;
  ch_uuid : string;
  ch_rand : list Ascii.ascii;
  ch_offset : nat;
  ch_cancel : bool;
  ch_partition : nat;
  ch_copies : nat;
  ch_late : nat;
  ch_rebalanced : bool
}.

(** The effect of a call whose carrying out leads to [wr]. *)
Definition settle {W A} (out : outcome) (w : W) (wr : W * result A) : W * result A :=
  match out with
  | Done => wr
  | Refused e => (w, Err e)
  | Lost e => (wr.1, Err e)
  end.

Lemma settle_fst {W A} out (w : W) (wr : W * result A) :
  (settle out w wr).1 = w \/ (settle out w wr).1 = wr.1.
Proof. destruct out; simpl; auto. Qed.

(** A call that succeeds was carried out. *)
Lemma settle_ok {W A} out (w w' : W) (wr : W * result A) a :
  settle out w wr = (w', Ok a) -> wr = (w', Ok a).
Proof. by destruct out. Qed.

Class Exec (S : sig) (W : Type) : Type :=
  exec : choice -> W -> forall o : op S, W * ans S o.

Section Run.
Context {S : sig} {W : Type} `{!Exec S W}.

(** The run of one program by one process, from its [n]-th call on: [or n o] is
    the environment's choice when that call is [o]. *)
Fixpoint run {A} (or : nat -> op S -> choice) (n : nat) (w : W) (p : prog S A) : W * nat * A :=
  match p with
  | Ret a => (w, n, a)
  | Vis o k => let '(w', r) := exec (or n o) w o in run or (Datatypes.S n) w' (k r)
  end.

Lemma run_bind {A B} or n w (p : prog S A) (f : A -> prog S B) :
  run or n w (p ≫= f) = let '(w', n', a) := run or n w p in run or n' w' (f a).
Proof.
  revert n w; induction p as [a|o k IH]; intros n w; [done|].
  simpl. destruct (exec (or n o) w o) as [w' r]. apply IH.
Qed.
End Run.

(** ** A rely/guarantee predicate *)

(** What a proof about a program may assume and must ensure: the choices that
    can occur, the invariant of the world, what the other processes may do
    between two calls, and what each call of the program does. *)
Record protocol (S : sig) (W : Type) : Type := Protocol {
  pr_env : op S -> choice -> Prop;
  pr_inv : W -> Prop;
  pr_rely : W -> W -> Prop;
  pr_guar : W -> W -> Prop
}.
Arguments pr_env {S W}.
Arguments pr_inv {S W}.
Arguments pr_rely {S W}.
Arguments pr_guar {S W}.

(** A protocol in which the rely is a preorder and admits the guarantee: the
    processes of a pool that all follow it tolerate each other. *)
Class Concurrent {S W} (L : protocol S W) : Prop := {
  rely_preorder :: PreOrder (pr_rely L);
  guar_rely : forall w w', pr_guar L w w' -> pr_rely L w w'
}.

(** One process alone: nothing happens between two calls. *)
Definition solo {S W} (env : op S -> choice -> Prop) : protocol S W :=
  Protocol S W env (fun _ => True) eq (fun _ _ => True).

Section Wp.
Context {S : sig} {W : Type} `{!Exec S W} (L : protocol S W).

Fixpoint wp {A} (p : prog S A) (Q : A -> W -> Prop) (w : W) : Prop :=
  match p with
  | Ret a => Q a w
  | Vis o k =>
      forall w' ch, pr_rely L w w' -> pr_inv L w' -> pr_env L o ch ->
        pr_inv L (exec ch w' o).1 /\
        pr_guar L w' (exec ch w' o).1 /\
        wp (k (exec ch w' o).2) Q (exec ch w' o).1
  end.

Lemma wp_ret {A} (a : A) (Q : A -> W -> Prop) w : Q a w -> wp (mret a) Q w.
Proof. done. Qed.

Lemma wp_mono {A} (p : prog S A) (Q Q' : A -> W -> Prop) w :
  (forall a w, Q a w -> Q' a w) -> wp p Q w -> wp p Q' w.
Proof.
  intros HQ; revert w; induction p as [a|o k IH]; intros w; simpl; [by apply HQ|].
  intros H w' ch HR HI HC. destruct (H w' ch HR HI HC) as (?&?&?). eauto.
Qed.

Lemma wp_bind {A B} (p : prog S A) (f : A -> prog S B) (Q : B -> W -> Prop) w :
  wp p (fun a w => wp (f a) Q w) w -> wp (p ≫= f) Q w.
Proof.
  revert w; induction p as [a|o k IH]; intros w; [done|].
  intros H w' ch HR HI HC. destruct (H w' ch HR HI HC) as (?&?&?).
  repeat split; eauto.
Qed.

Lemma wp_for_fold {A T} (xs : list A) (st : T) body (J : list A -> T -> W -> Prop) w :
  J xs st w ->
  (forall x xs st w, J (x :: xs) st w -> wp (body st x) (fun st' w' => J xs st' w') w) ->
  wp (for_fold xs st body) (fun st' w' => J [] st' w') w.
Proof.
  intros HJ Hb; revert st w HJ; induction xs as [|x xs IH]; intros st w HJ; [done|].
  apply wp_bind. eapply wp_mono; [|by apply Hb]. intros st' w' HJ'. by apply IH.
Qed.

(** A property that the rely keeps can be carried along a program. *)
Lemma wp_stable {A} (p : prog S A) (Q : A -> W -> Prop) w w' :
  PreOrder (pr_rely L) -> (forall a w w', pr_rely L w w' -> Q a w -> Q a w') ->
  pr_rely L w w' -> wp p Q w -> wp p Q w'.
Proof.
  intros HP HQ HR. destruct p as [a|o k]; simpl; [by apply HQ|].
  intros H w'' ch HR' HI HC. apply (H w'' ch); [by etrans|done..].
Qed.

(** What the rely keeps is still there at the end. *)
Lemma wp_frame {A} (p : prog S A) (Q : A -> W -> Prop) (F : W -> Prop) w `{!Concurrent L} :
  (forall w w', pr_rely L w w' -> F w -> F w') -> F w ->
  wp p Q w -> wp p (fun a w' => Q a w' /\ F w') w.
Proof.
  intros HF. revert w. induction p as [a|o k IH]; intros w Hw; [by split|].
  intros H w' ch HR HI HC. destruct (H w' ch HR HI HC) as (HI'&HG&Hk).
  split; [done|]. split; [done|]. apply IH; [|done]. apply (HF w'); [by apply guar_rely|by eapply HF].
Qed.

Lemma wp_run {A} (p : prog S A) (Q : A -> W -> Prop) w or n :
  Reflexive (pr_rely L) -> (forall i o, pr_env L o (or i o)) -> pr_inv L w -> wp p Q w ->
  let '(w', _, a) := run or n w p in pr_inv L w' /\ Q a w'.
Proof.
  intros HR HC; revert n w; induction p as [a|o k IH]; intros n w HI; simpl; [done|].
  intros H. destruct (H w (or n o) (HR w) HI (HC n o)) as (HI'&_&H').
  destruct (exec (or n o) w o) as [w' r]. by apply IH.
Qed.
End Wp.
Arguments wp : simpl never.

(** *** Runs of one process *)
Section Solo.
Context {S : sig} {W : Type} `{!Exec S W} (env : op S -> choice -> Prop).

Lemma wp_solo_vis {A} (o : op S) (k : ans S o -> prog S A) (Q : A -> W -> Prop) w :
  (forall ch, env o ch -> wp (solo env) (k (exec ch w o).2) Q (exec ch w o).1) ->
  wp (solo env) (Vis o k) Q w.
Proof. by intros H w' ch <- _ HC; repeat split; apply H. Qed.

(** What holds whatever happens holds when less can happen. *)
Lemma wp_env (env' : op S -> choice -> Prop) {A} (p : prog S A) (Q : A -> W -> Prop) w :
  (forall o ch, env o ch -> env' o ch) -> wp (solo env') p Q w -> wp (solo env) p Q w.
Proof.
  intros HE. revert w. induction p as [a|o k IH]; intros w; [done|]. intros H.
  apply wp_solo_vis. intros ch HC. destruct (H w ch) as (_&_&Hk); [done|done|by apply HE|].
  by apply IH.
Qed.

Lemma wp_call {S1 : sig} `{!Sub S1 S} (o : op S1) (Q : ans S1 o -> W -> Prop) w :
  (forall ch, env (inj_op o) ch ->
     Q (prj_ans o (exec ch w (inj_op o)).2) (exec ch w (inj_op o)).1) ->
  wp (solo env) (call o) Q w.
Proof. intros H. apply wp_solo_vis. exact H. Qed.

Lemma run_solo {A} (p : prog S A) (Q : A -> W -> Prop) w or n :
  (forall i o, env o (or i o)) -> wp (solo env) p Q w ->
  let '(w', _, a) := run or n w p in Q a w'.
Proof.
  intros HC H. pose proof (wp_run (solo env) p Q w or n) as Hr.
  destruct (run or n w p) as [[w' m] a]. by apply Hr.
Qed.
End Solo.

(** *** Programs that make only some calls *)

(** Every call of the program satisfies [P], and every result [R]. *)
Fixpoint only {S : sig} {A} (P : op S -> Prop) (R : A -> Prop) (p : prog S A) : Prop :=
  match p with
  | Ret a => R a
  | Vis o k => P o /\ forall r, only P R (k r)
  end.

Lemma only_bind {S : sig} {A B} P R R' (p : prog S A) (f : A -> prog S B) :
  only P R p -> (forall a, R a -> only P R' (f a)) -> only P R' (p ≫= f).
Proof.
  intros Hp Hf. induction p as [a|o k IH]; simpl in *; [by apply Hf|].
  destruct Hp as [Ho Hk]. split; [done|]. intros r. by apply IH.
Qed.

Lemma only_for_fold {S : sig} {A T} P (R : T -> Prop) (xs : list A) (st : T)
    (body : T -> A -> prog S T) :
  R st -> (forall st x, R st -> only P R (body st x)) -> only P R (for_fold xs st body).
Proof.
  intros HR Hb. revert st HR. induction xs as [|x xs IH]; intros st HR; [done|].
  eapply only_bind; [by apply Hb|done].
Qed.

(** The first call of a program, of whose answer nothing is known. *)
Ltac only_call := eapply only_bind with (R := fun _ => True); [by split|].

Lemma only_mono {S : sig} {A} (P P' : op S -> Prop) (R R' : A -> Prop) (p : prog S A) :
  (forall o, P o -> P' o) -> (forall a, R a -> R' a) -> only P R p -> only P' R' p.
Proof. intros HP HR. induction p as [a|o k IH]; simpl; [by apply HR|]. intros [? ?]. auto. Qed.

(** A program keeps what each of its calls keeps. *)
Lemma wp_only {S : sig} {W : Type} `{!Exec S W} {A B} (env : op S -> choice -> Prop)
    (P : op S -> Prop) (R : A -> Prop) (f : W -> B) (p : prog S A) w :
  only P R p -> (forall o ch w, P o -> env o ch -> f (exec ch w o).1 = f w) ->
  wp (solo env) p (fun a w' => R a /\ f w' = f w) w.
Proof.
  intros Hp Hf. revert w. induction p as [a|o k IH]; intros w; [by apply wp_ret|].
  destruct Hp as [Ho Hk]. apply wp_solo_vis. intros ch HC.
  eapply wp_mono; [|by apply IH]. simpl. intros a w' [? ->]. auto.
Qed.

Lemma wp_and {S : sig} {W : Type} `{!Exec S W} {A} (env : op S -> choice -> Prop)
    (p : prog S A) (Q Q' : A -> W -> Prop) w :
  wp (solo env) p Q w -> wp (solo env) p Q' w -> wp (solo env) p (fun a w => Q a w /\ Q' a w) w.
Proof.
  revert w. induction p as [a|o k IH]; intros w; [by split|]. intros H H'.
  apply wp_solo_vis. intros ch HC.
  destruct (H w ch) as (_&_&Hk); [done..|]. destruct (H' w ch) as (_&_&Hk'); [done..|].
  by apply IH.
Qed.

(** ** A pool of processes *)

Section Pool.
Context {S : sig} {W : Type} `{!Exec S W} {N : Type}.
(** A process runs a body that returns the next body to run, or stops. *)
Context (body : N -> prog S (option N)) (start : N -> Prop).

Definition pool : Type := gmap nat (prog S (option N)).

Inductive step : W * pool -> W * pool -> Prop :=
| step_start w pl i n :
    pl !! i = None -> start n -> step (w, pl) (w, <[i := body n]> pl)
| step_call w pl i o k ch :
    pl !! i = Some (Vis o k) ->
    step (w, pl) ((exec ch w o).1, <[i := k (exec ch w o).2]> pl)
| step_next w pl i n :
    pl !! i = Some (Ret (Some n)) -> step (w, pl) (w, <[i := body n]> pl)
| step_exit w pl i :
    pl !! i = Some (Ret None) -> step (w, pl) (w, delete i pl)
| step_crash w pl i p :
    pl !! i = Some p -> step (w, pl) (w, delete i pl).

Definition reachable (w0 : W) (s : W * pool) : Prop := rtc step (w0, ∅) s.

Context (L : protocol S W) `{!Concurrent L} (good : N -> W -> Prop).

Definition next_good (n : option N) (w : W) : Prop :=
  match n with Some n => good n w | None => True end.

Definition pool_ok (s : W * pool) : Prop :=
  pr_inv L s.1 /\ map_Forall (fun _ p => wp L p next_good s.1) s.2.

Context (Henv : forall o ch, pr_env L o ch).
Context (Hstab : forall n w w', pr_rely L w w' -> good n w -> good n w').
Context (Hstart : forall n w, start n -> good n w).
Context (Hbody : forall n w, good n w -> wp L (body n) next_good w).

(** A step keeps the invariant and every process within the protocol. *)
Lemma step_ok s s' : pool_ok s -> step s s' -> pool_ok s'.
Proof.
  assert (HQ : forall a w w', pr_rely L w w' -> next_good a w -> next_good a w').
  { intros [n|] w w' HR; simpl; [by apply Hstab|done]. }
  intros [HI HF] Hs.
  destruct Hs as [w pl i n Hi Hn|w pl i o k ch Hi|w pl i n Hi|w pl i Hi|w pl i p Hi];
    simpl in *.
  - split; [done|]. apply map_Forall_insert_2; [auto|done].
  - destruct (HF i _ Hi w ch) as (HI'&HG&Hk); [done..|].
    split; [done|]. apply guar_rely in HG.
    apply map_Forall_insert_2; [done|].
    intros j p Hj. eapply wp_stable; eauto. apply _.
  - split; [done|]. apply map_Forall_insert_2; [|done].
    apply Hbody. by apply (HF i _ Hi).
  - split; [done|]. by apply map_Forall_delete.
  - split; [done|]. by apply map_Forall_delete.
Qed.

(** The world evolves as the rely allows. *)
Lemma step_evolves s s' : pool_ok s -> step s s' -> pr_rely L s.1 s'.1.
Proof.
  intros [HI HF] Hs.
  destruct Hs as [w pl i n Hi Hn|w pl i o k ch Hi|w pl i n Hi|w pl i Hi|w pl i p Hi]; simpl;
    try reflexivity.
  apply guar_rely. by destruct (HF i _ Hi w ch) as (_&HG&_).
Qed.

Lemma steps_sound s s' : pool_ok s -> rtc step s s' -> pool_ok s' /\ pr_rely L s.1 s'.1.
Proof.
  intros Hok Hr. induction Hr as [s|s1 s2 s3 Hs _ IH]; [done|].
  destruct (IH (step_ok _ _ Hok Hs)) as [Hok' HR]. split; [done|].
  etrans; [by eapply step_evolves|done].
Qed.

(** Soundness: every reachable state satisfies the invariant when each body
    follows the protocol. *)
Lemma pool_sound w0 s : pr_inv L w0 -> reachable w0 s -> pool_ok s.
Proof.
  intros Hinit Hr. apply (steps_sound (w0, ∅)); [|done].
  split; [done|apply map_Forall_empty].
Qed.

(** *** Schedules: reachable states that can be computed *)

Inductive directive : Type :=
| DStart (i : nat) (n : N)
| DRun (i : nat) (ch : choice)
| DCrash (i : nat).

Definition follow (s : W * pool) (d : directive) : W * pool :=
  let '(w, pl) := s in
  match d with
  | DStart i n => match pl !! i with None => (w, <[i := body n]> pl) | Some _ => s end
  | DRun i ch =>
      match pl !! i with
      | Some (Vis o k) => ((exec ch w o).1, <[i := k (exec ch w o).2]> pl)
      | Some (Ret (Some n)) => (w, <[i := body n]> pl)
      | Some (Ret None) => (w, delete i pl)
      | None => s
      end
  | DCrash i => match pl !! i with Some _ => (w, delete i pl) | None => s end
  end.

Definition may_start (d : directive) : Prop :=
  match d with DStart _ n => start n | _ => True end.

Lemma follow_steps s ds : Forall may_start ds -> rtc step s (foldl follow s ds).
Proof.
  intros Hd. revert s. induction Hd as [|d ds Hd _ IH]; intros s; [done|]. simpl.
  etrans; [|apply IH]. destruct s as [w pl], d as [i n|i ch|i]; simpl in *.
  - destruct (pl !! i) eqn:E; [done|]. by apply rtc_once, step_start.
  - destruct (pl !! i) as [[[n|]|o k]|] eqn:E; [| | |done]; apply rtc_once.
    + by apply step_next.
    + by apply step_exit.
    + by apply step_call.
  - destruct (pl !! i) eqn:E; [|done]. by eapply rtc_once, step_crash.
Qed.
End Pool.
