(* ===== verification/GoString.v ===== *)
(** * Go strings

    A Go string is a sequence of bytes ([String.string], one [ascii] per byte).
    The functions of the packages [strings], [unicode/utf8] and [encoding/hex]
    that the services call, with the laws the other files use.  What Unicode's
    tables say about characters outside ASCII is the class [UnicodeTables]. *)

From S2P Require Import Prelude.
From Stdlib Require Import Ascii.
Import Ascii.

Abbreviation bytes := (list ascii).
Definition to_bytes (s : string) : bytes := String.list_ascii_of_string s.
Definition of_bytes (l : bytes) : string := String.string_of_list_ascii l.

Lemma of_to_bytes s : of_bytes (to_bytes s) = s.
Proof. apply String.string_of_list_ascii_of_string. Qed.
Lemma to_of_bytes l : to_bytes (of_bytes l) = l.
Proof. apply String.list_ascii_of_string_of_list_ascii. Qed.

Lemma to_bytes_inj s t : to_bytes s = to_bytes t -> s = t.
Proof. intros H. by rewrite <- (of_to_bytes s), H, of_to_bytes. Qed.

(** [len(s)]: the number of bytes. *)
Definition len (s : string) : Z := Z.of_nat (length (to_bytes s)).

Definition code (c : ascii) : Z := Z.of_N (N_of_ascii c).
Definition between (lo hi b : Z) : bool := (lo <=? b) && (b <=? hi).

(** ** UTF-8 *)

Definition RuneError : Z := 65533.

Definition cont (b : Z) : bool := between 128 191 b.

(** [utf8.DecodeRuneInString]: the first rune and its width; an invalid
    sequence is [RuneError] of width one. *)
Definition decode_rune (s : bytes) : Z * nat :=
  match map code s with
  | [] => (RuneError, 0%nat)
  | b0 :: s1 =>
      if b0 <? 128 then (b0, 1%nat)
      else if between 194 223 b0 then
        match s1 with
        | b1 :: _ =>
            if cont b1 then (Z.land b0 31 * 64 + Z.land b1 63, 2%nat) else (RuneError, 1%nat)
        | _ => (RuneError, 1%nat)
        end
      else if between 224 239 b0 then
        match s1 with
        | b1 :: b2 :: _ =>
            if between (if b0 =? 224 then 160 else 128) (if b0 =? 237 then 159 else 191) b1
               && cont b2
            then (Z.land b0 15 * 4096 + Z.land b1 63 * 64 + Z.land b2 63, 3%nat)
            else (RuneError, 1%nat)
        | _ => (RuneError, 1%nat)
        end
      else if between 240 244 b0 then
        match s1 with
        | b1 :: b2 :: b3 :: _ =>
            if between (if b0 =? 240 then 144 else 128) (if b0 =? 244 then 143 else 191) b1
               && cont b2 && cont b3
            then (Z.land b0 7 * 262144 + Z.land b1 63 * 4096 + Z.land b2 63 * 64 + Z.land b3 63,
                  4%nat)
            else (RuneError, 1%nat)
        | _ => (RuneError, 1%nat)
        end
      else (RuneError, 1%nat)
  end.

Fixpoint runes_fuel (n : nat) (s : bytes) : list Z :=
  match n, s with
  | S n, _ :: _ => let '(r, w) := decode_rune s in r :: runes_fuel n (drop w s)
  | _, _ => []
  end.

(** The runes a [for range] over the string visits; each takes a byte at least. *)
Definition runes (s : string) : list Z := runes_fuel (length (to_bytes s)) (to_bytes s).

Definition chr (z : Z) : ascii := ascii_of_N (Z.to_N z).

(** [utf8.AppendRune]. *)
Definition encode_rune (r : Z) : bytes :=
  if between 0 127 r then [chr r]
  else if between 128 2047 r then [chr (192 + r / 64); chr (128 + r mod 64)]
  else if between 55296 57343 r || (r <? 0) || (1114111 <? r) then map chr [239; 191; 189]
  else if r <=? 65535 then
    [chr (224 + r / 4096); chr (128 + r / 64 mod 64); chr (128 + r mod 64)]
  else [chr (240 + r / 262144); chr (128 + r / 4096 mod 64); chr (128 + r / 64 mod 64);
        chr (128 + r mod 64)].

(** ** Substrings *)

(** [strings.HasPrefix], [TrimPrefix] and [Contains]. *)
Fixpoint has_prefix (p s : bytes) : bool :=
  match p, s with
  | [], _ => true
  | a :: p, b :: s => bool_decide (a = b) && has_prefix p s
  | _, [] => false
  end.
Definition HasPrefix (s p : string) : bool := has_prefix (to_bytes p) (to_bytes s).
Definition TrimPrefix (s p : string) : string :=
  if HasPrefix s p then of_bytes (drop (length (to_bytes p)) (to_bytes s)) else s.

Fixpoint contains (s p : bytes) : bool :=
  has_prefix p s || match s with [] => false | _ :: s => contains s p end.
Definition Contains (s p : string) : bool := contains (to_bytes s) (to_bytes p).

(** [strings.Split] at a one-byte separator: one more part than separators. *)
Fixpoint split_at (sep : ascii) (s : bytes) : list bytes :=
  match s with
  | [] => [[]]
  | c :: s =>
      if bool_decide (c = sep) then [] :: split_at sep s
      else match split_at sep s with p :: ps => (c :: p) :: ps | [] => [[c]] end
  end.
Definition Split (s : string) (sep : ascii) : list string := map of_bytes (split_at sep (to_bytes s)).

(** [strings.Cut] at a one-byte separator: what precedes and what follows the
    first one, if there is one. *)
Fixpoint cut (sep : ascii) (s : bytes) : option (bytes * bytes) :=
  match s with
  | [] => None
  | c :: s =>
      if bool_decide (c = sep) then Some ([], s)
      else match cut sep s with Some (k, v) => Some (c :: k, v) | None => None end
  end.
Definition Cut (s : string) (sep : ascii) : option (string * string) :=
  match cut sep (to_bytes s) with Some (k, v) => Some (of_bytes k, of_bytes v) | None => None end.

(** ** Case *)

(** Unicode's tables for characters outside ASCII: the lower-case form, and
    whether two characters are equal under simple folding. *)
Class UnicodeTables : Type := {
  lower_table : Z -> Z;
  fold_table : Z -> Z -> bool
}.

Section Case.
Context {UT : UnicodeTables}.

Definition lower_rune (r : Z) : Z :=
  if r <? 128 then (if between 65 90 r then r + 32 else r) else lower_table r.

Definition ToLower (s : string) : string :=
  of_bytes (flat_map (fun r => encode_rune (lower_rune r)) (runes s)).

(** One step of [strings.EqualFold]. *)
Definition fold_rune (sr tr : Z) : bool :=
  if sr =? tr then true
  else
    let lo := Z.min sr tr in
    let hi := Z.max sr tr in
    if hi <? 128 then between 65 90 lo && (hi =? lo + 32) else fold_table lo hi.

Fixpoint fold_runes (s t : list Z) : bool :=
  match s, t with
  | [], [] => true
  | a :: s, b :: t => fold_rune a b && fold_runes s t
  | _, _ => false
  end.

Definition EqualFold (s t : string) : bool := fold_runes (runes s) (runes t).

Lemma EqualFold_refl s : EqualFold s s = true.
Proof.
  unfold EqualFold. induction (runes s) as [|a l IH]; [done|]. simpl.
  unfold fold_rune. by rewrite Z.eqb_refl.
Qed.
End Case.

(** ** strings.TrimSpace *)

(** The encodings of the characters of [unicode.IsSpace], by width. *)
Definition space1 (a : ascii) : bool := between 9 13 (code a) || (code a =? 32).
Definition space2 (a b : ascii) : bool :=
  (code a =? 194) && ((code b =? 133) || (code b =? 160)).
Definition space3 (a b c : ascii) : bool :=
  ((code a =? 225) && (code b =? 154) && (code c =? 128))
  || ((code a =? 226) && (code b =? 128)
      && (between 128 138 (code c) || (code c =? 168) || (code c =? 169) || (code c =? 175)))
  || ((code a =? 226) && (code b =? 129) && (code c =? 159))
  || ((code a =? 227) && (code b =? 128) && (code c =? 128)).

Section Strip.
Context (p1 : ascii -> bool) (p2 : ascii -> ascii -> bool) (p3 : ascii -> ascii -> ascii -> bool).

(** Drop the leading characters whose encoding satisfies [p1], [p2] or [p3]. *)
Fixpoint strip (s : bytes) : bytes :=
  match s with
  | a :: s1 =>
      if p1 a then strip s1 else
      match s1 with
      | b :: s2 =>
          if p2 a b then strip s2 else
          match s2 with
          | c :: s3 => if p3 a b c then strip s3 else s
          | [] => s
          end
      | [] => s
      end
  | [] => []
  end.

(** No leading character satisfies them. *)
Definition stripped (s : bytes) : bool :=
  match s with
  | [] => true
  | a :: s1 =>
      negb (p1 a) &&
      match s1 with
      | b :: s2 => negb (p2 a b) && match s2 with c :: _ => negb (p3 a b c) | [] => true end
      | [] => true
      end
  end.

Inductive all_stripped : bytes -> Prop :=
| as_nil : all_stripped []
| as_1 a s : p1 a = true -> all_stripped s -> all_stripped (a :: s)
| as_2 a b s : p2 a b = true -> all_stripped s -> all_stripped (a :: b :: s)
| as_3 a b c s : p3 a b c = true -> all_stripped s -> all_stripped (a :: b :: c :: s).

Lemma strip_spec s :
  exists pre, s = pre ++ strip s /\ all_stripped pre /\ stripped (strip s) = true.
Proof.
  induction s as [s IH] using (induction_ltof1 _ (@length ascii)); unfold ltof in IH.
  destruct s as [|a s1]; [by exists []; repeat constructor|]. simpl.
  destruct (p1 a) eqn:E1.
  { destruct (IH s1) as (pre&Hs&Hp&Hr); [simpl; lia|].
    exists (a :: pre). rewrite Hs at 1. repeat split; [by constructor|done]. }
  destruct s1 as [|b s2]; [exists []; simpl; rewrite E1; repeat constructor|].
  destruct (p2 a b) eqn:E2.
  { destruct (IH s2) as (pre&Hs&Hp&Hr); [simpl; lia|].
    exists (a :: b :: pre). rewrite Hs at 1. repeat split; [by constructor|done]. }
  destruct s2 as [|c s3]; [exists []; simpl; rewrite E1, E2; repeat constructor|].
  destruct (p3 a b c) eqn:E3; [|exists []; simpl; rewrite E1, E2, E3; repeat constructor].
  destruct (IH s3) as (pre&Hs&Hp&Hr); [simpl; lia|].
  exists (a :: b :: c :: pre). rewrite Hs at 1. repeat split; [by constructor|done].
Qed.

Lemma strip_id s : stripped s = true -> strip s = s.
Proof.
  destruct s as [|a [|b [|c s]]]; simpl; [done|..];
    repeat match goal with |- context [if ?b then _ else _] => destruct b end; done.
Qed.

(** A character that ends every space before it and starts none keeps a stripped
    string stripped. *)
Lemma stripped_stop k c r :
  (forall a, p2 a c = false) -> (forall a d, p3 a c d = false) -> (forall a b, p3 a b c = false) ->
  k <> [] -> stripped k = true -> stripped (k ++ c :: r) = true.
Proof.
  intros H2 H3 H3' Hk. destruct k as [|a [|b [|d k]]]; simpl; [done|..].
  - rewrite H2. destruct r; [done|]. by rewrite H3.
  - by rewrite H3'.
  - done.
Qed.

Lemma stripped_app s t : stripped (s ++ t) = true -> stripped s = true.
Proof.
  destruct s as [|a [|b [|c s]]]; simpl; [done|by destruct (p1 a)| |done].
  by destruct (p1 a), (p2 a b).
Qed.
End Strip.

Definition trim_left : bytes -> bytes := strip space1 space2 space3.
Definition trim_right (s : bytes) : bytes :=
  reverse (strip space1 (fun b a => space2 a b) (fun c b a => space3 a b c) (reverse s)).

Definition TrimSpace (s : string) : string := of_bytes (trim_right (trim_left (to_bytes s))).

Definition left_trimmed : bytes -> bool := stripped space1 space2 space3.
Definition right_trimmed (s : bytes) : bool :=
  stripped space1 (fun b a => space2 a b) (fun c b a => space3 a b c) (reverse s).

(** Neither end of the string is a whitespace character. *)
Definition trimmed (s : string) : bool :=
  left_trimmed (to_bytes s) && right_trimmed (to_bytes s).

(** Whitespace only. *)
Definition spaces (s : bytes) : Prop := all_stripped space1 space2 space3 s.

Lemma spaces_app s t : spaces s -> spaces t -> spaces (s ++ t).
Proof. intros Hs Ht. induction Hs; simpl; [done|constructor; done..]. Qed.

Lemma spaces_reverse s :
  all_stripped space1 (fun b a => space2 a b) (fun c b a => space3 a b c) s ->
  spaces (reverse s).
Proof.
  assert (Hn : spaces []) by constructor.
  induction 1; rewrite ?reverse_cons, <- ?(assoc_L (++)); [done|..];
    (apply spaces_app; [done|]); simpl;
    [by apply as_1|by apply as_2|by apply as_3].
Qed.

Lemma trim_right_spec s :
  exists post, s = trim_right s ++ post /\ spaces post /\ right_trimmed (trim_right s) = true.
Proof.
  unfold trim_right, right_trimmed.
  destruct (strip_spec space1 (fun b a => space2 a b) (fun c b a => space3 a b c) (reverse s))
    as (pre&Hs&Hp&Hr).
  exists (reverse pre). rewrite reverse_involutive. repeat split.
  - rewrite <- reverse_app, <- Hs. by rewrite reverse_involutive.
  - by apply spaces_reverse.
  - done.
Qed.

Lemma TrimSpace_spec s :
  exists pre post, to_bytes s = pre ++ to_bytes (TrimSpace s) ++ post /\
    spaces pre /\ spaces post /\ trimmed (TrimSpace s) = true.
Proof.
  unfold TrimSpace, trimmed. rewrite to_of_bytes.
  destruct (strip_spec space1 space2 space3 (to_bytes s)) as (pre&Hs&Hp&Hl).
  fold (trim_left (to_bytes s)) in *.
  destruct (trim_right_spec (trim_left (to_bytes s))) as (post&Ht&Hq&Hr).
  exists pre, post. rewrite <- Ht. repeat split; [done..|].
  rewrite Hr, andb_true_r. rewrite Ht in Hl. by apply stripped_app in Hl.
Qed.

Lemma TrimSpace_trimmed s : trimmed (TrimSpace s) = true.
Proof. by destruct (TrimSpace_spec s) as (?&?&?&?&?&?). Qed.

Lemma trimmed_TrimSpace s : trimmed s = true -> TrimSpace s = s.
Proof.
  unfold trimmed, TrimSpace, trim_right, trim_left. intros [Hl Hr]%andb_true_iff.
  rewrite (strip_id space1 space2 space3) by done.
  rewrite strip_id by done. by rewrite reverse_involutive, of_to_bytes.
Qed.

Lemma TrimSpace_idem s : TrimSpace (TrimSpace s) = TrimSpace s.
Proof. apply trimmed_TrimSpace, TrimSpace_trimmed. Qed.

Lemma len_nonneg s : 0 <= len s.
Proof. unfold len. lia. Qed.

Lemma len_TrimSpace s : len (TrimSpace s) <= len s.
Proof.
  destruct (TrimSpace_spec s) as (pre&post&Hs&_). unfold len. rewrite Hs.
  rewrite !length_app. lia.
Qed.

(** *** A plain ASCII character between trimmed strings *)

Definition plain (c : ascii) : bool := (code c <? 128) && negb (space1 c).

Lemma plain_not c n : plain c = true -> 128 <= n -> (code c =? n) = false.
Proof. unfold plain. intros [H _]%andb_true_iff Hn. apply Z.eqb_neq. bool_props. lia. Qed.

Lemma plain_between c lo hi : plain c = true -> 128 <= lo -> between lo hi (code c) = false.
Proof.
  unfold plain, between. intros [H _]%andb_true_iff Hn. bool_props.
  rewrite (proj2 (Z.leb_gt _ _)) by lia. done.
Qed.

Ltac plain_char c :=
  unfold space2, space3; intros;
  repeat first [rewrite (plain_not c) by (done || lia) | rewrite (plain_between c) by (done || lia)];
  repeat first [rewrite andb_false_r | rewrite orb_false_r | progress cbn [andb orb]].

Lemma left_trimmed_stop k c r :
  plain c = true -> k <> [] -> left_trimmed k = true -> left_trimmed (k ++ c :: r) = true.
Proof.
  intros Hc. apply stripped_stop; by plain_char c.
Qed.

Lemma right_trimmed_stop l c k :
  plain c = true -> k <> [] -> right_trimmed k = true -> right_trimmed (l ++ c :: k) = true.
Proof.
  intros Hc Hk. unfold right_trimmed. rewrite reverse_app, reverse_cons, <- (assoc_L (++)).
  apply stripped_stop; plain_char c; try done.
  intros H. apply Hk. by rewrite <- (reverse_involutive k), H.
Qed.

Lemma left_trimmed_first c s : plain c = true -> left_trimmed (c :: s) = true.
Proof.
  intros Hc. assert (H1 : space1 c = false).
  { unfold plain in Hc. by apply andb_true_iff in Hc as [_ Hc%negb_true_iff]. }
  destruct s as [|b [|d s]]; simpl; rewrite H1; plain_char c; done.
Qed.

Lemma right_trimmed_last l c : plain c = true -> right_trimmed (l ++ [c]) = true.
Proof.
  intros Hc. assert (H1 : space1 c = false).
  { unfold plain in Hc. by apply andb_true_iff in Hc as [_ Hc%negb_true_iff]. }
  unfold right_trimmed. rewrite reverse_app, reverse_singleton. simpl.
  destruct (reverse l) as [|b [|d s]]; simpl; rewrite H1; plain_char c; done.
Qed.

Lemma has_prefix_stop p c k r : c ∉ p -> has_prefix p (k ++ c :: r) = has_prefix p k.
Proof.
  revert k. induction p as [|a p IH]; intros k Hn; [done|].
  apply not_elem_of_cons in Hn as [Ha Hn]. destruct k as [|b k]; simpl.
  - by rewrite bool_decide_false.
  - by rewrite IH.
Qed.

(** *** Splitting what was joined *)

Lemma cut_first sep k v : sep ∉ k -> cut sep (k ++ sep :: v) = Some (k, v).
Proof.
  induction k as [|c k IH]; intros Hn; simpl.
  - by rewrite bool_decide_true.
  - apply not_elem_of_cons in Hn as [Hc Hn]. by rewrite bool_decide_false, IH by congruence.
Qed.

Lemma split_at_none sep s : sep ∉ s -> split_at sep s = [s].
Proof.
  induction s as [|c s IH]; intros Hn; [done|]. simpl.
  apply not_elem_of_cons in Hn as [Hc Hn]. by rewrite bool_decide_false, IH by congruence.
Qed.

Lemma split_at_first sep k v : sep ∉ k -> split_at sep (k ++ sep :: v) = k :: split_at sep v.
Proof.
  induction k as [|c k IH]; intros Hn; simpl.
  - by rewrite bool_decide_true.
  - apply not_elem_of_cons in Hn as [Hc Hn]. by rewrite bool_decide_false, IH by congruence.
Qed.

Create HintDb gostring.
Create Rewrite HintDb gostring.
#[export] Hint Rewrite TrimSpace_idem of_to_bytes to_of_bytes : gostring.
#[export] Hint Resolve TrimSpace_trimmed len_TrimSpace len_nonneg : gostring.
