(* ===== verification/Utf8.v ===== *)
(** * UTF-8

    A Go string is valid UTF-8 when it is a sequence of encoded characters; the
    decoder and the encoder of package unicode/utf8 are inverse on them. *)

From S2P Require Import Prelude GoString.
From Stdlib Require Import Ascii.
#[local] Open Scope Z_scope.

(** ** Bytes *)

Lemma code_range c : 0 <= code c < 256.
Proof. unfold code. pose proof (N_ascii_bounded c). lia. Qed.

Lemma code_chr z : 0 <= z < 256 -> code (chr z) = z.
Proof. intros H. unfold code, chr. rewrite N_ascii_embedding; lia. Qed.

Lemma chr_code c : chr (code c) = c.
Proof. unfold code, chr. by rewrite N2Z.id, ascii_N_embedding. Qed.

Lemma code_inj a b : code a = code b -> a = b.
Proof. intros H. by rewrite <- (chr_code a), H, chr_code. Qed.

(** The bits a continuation or a leading byte carries. *)
Lemma low_bits k z : 0 <= k -> Z.land z (2 ^ k - 1) = z mod 2 ^ k.
Proof. intros Hk. rewrite <- Z.land_ones by done. by rewrite Z.ones_equiv. Qed.

Lemma land_63 z : Z.land z 63 = z mod 64.
Proof. by apply (low_bits 6). Qed.
Lemma land_31 z : Z.land z 31 = z mod 32.
Proof. by apply (low_bits 5). Qed.
Lemma land_15 z : Z.land z 15 = z mod 16.
Proof. by apply (low_bits 4). Qed.
Lemma land_7 z : Z.land z 7 = z mod 8.
Proof. by apply (low_bits 3). Qed.

Lemma between_true lo hi b : lo <= b <= hi -> between lo hi b = true.
Proof. intros [? ?]. unfold between. apply andb_true_iff. by rewrite !Z.leb_le. Qed.

Lemma between_false lo hi b : b < lo \/ hi < b -> between lo hi b = false.
Proof. intros H. unfold between. apply andb_false_iff. rewrite !Z.leb_gt. lia. Qed.

Lemma between_iff lo hi b : between lo hi b = true <-> lo <= b <= hi.
Proof. unfold between. rewrite andb_true_iff, !Z.leb_le. done. Qed.

(** ** Characters *)

Definition valid_rune (r : Z) : bool := between 0 55295 r || between 57344 1114111 r.

Lemma valid_rune_cases r :
  valid_rune r = true <->
  0 <= r < 128 \/ 128 <= r < 2048 \/ 2048 <= r < 55296 \/ 57344 <= r < 65536 \/ 65536 <= r <= 1114111.
Proof. unfold valid_rune. rewrite orb_true_iff, !between_iff. lia. Qed.

Ltac bytes_arith := repeat rewrite code_chr by (Z.div_mod_to_equations; lia).
Ltac decide_range :=
  match goal with
  | |- context [between ?lo ?hi ?b] =>
      first [rewrite (between_true lo hi b) by (Z.div_mod_to_equations; lia)
            |rewrite (between_false lo hi b) by (Z.div_mod_to_equations; lia)]
  | |- context [?a <? ?b] =>
      first [rewrite (proj2 (Z.ltb_lt a b)) by (Z.div_mod_to_equations; lia)
            |rewrite (proj2 (Z.ltb_ge a b)) by (Z.div_mod_to_equations; lia)]
  | |- context [?a <=? ?b] =>
      first [rewrite (proj2 (Z.leb_le a b)) by (Z.div_mod_to_equations; lia)
            |rewrite (proj2 (Z.leb_gt a b)) by (Z.div_mod_to_equations; lia)]
  end.

(** The encoding of a character, by its length. *)
Lemma encode_rune_cases r :
  valid_rune r = true ->
  (0 <= r < 128 /\ encode_rune r = [chr r]) \/
  (128 <= r < 2048 /\ encode_rune r = [chr (192 + r / 64); chr (128 + r mod 64)]) \/
  ((2048 <= r < 55296 \/ 57344 <= r < 65536) /\
   encode_rune r = [chr (224 + r / 4096); chr (128 + r / 64 mod 64); chr (128 + r mod 64)]) \/
  (65536 <= r <= 1114111 /\
   encode_rune r = [chr (240 + r / 262144); chr (128 + r / 4096 mod 64); chr (128 + r / 64 mod 64);
                    chr (128 + r mod 64)]).
Proof.
  intros Hr. apply valid_rune_cases in Hr. unfold encode_rune.
  destruct Hr as [?|[?|[?|[?|?]]]]; repeat (decide_range; cbn [orb]); intuition.
Qed.

Lemma decode_encode r s :
  valid_rune r = true ->
  decode_rune (encode_rune r ++ s) = (r, length (encode_rune r)).
Proof.
  intros Hr. destruct (encode_rune_cases r Hr) as [[H ->]|[[H ->]|[[H ->]|[H ->]]]];
    unfold decode_rune, cont; cbn [app map length]; bytes_arith.
  - by repeat decide_range.
  - repeat (decide_range; cbn [andb]). rewrite land_31, land_63. f_equal. Z.div_mod_to_equations. lia.
  - repeat (decide_range; cbn [andb]). rewrite land_15, !land_63.
    assert (Hb : between (if 224 + r / 4096 =? 224 then 160 else 128)
      (if 224 + r / 4096 =? 237 then 159 else 191) (128 + r / 64 mod 64) = true).
    { apply between_true. repeat case_match; bool_props; Z.div_mod_to_equations; lia. }
    rewrite Hb. cbn [andb]. f_equal. Z.div_mod_to_equations. lia.
  - repeat (decide_range; cbn [andb]). rewrite land_7, !land_63.
    assert (Hb : between (if 240 + r / 262144 =? 240 then 144 else 128)
      (if 240 + r / 262144 =? 244 then 143 else 191) (128 + r / 4096 mod 64) = true).
    { apply between_true. repeat case_match; bool_props; Z.div_mod_to_equations; lia. }
    rewrite Hb. cbn [andb]. f_equal. Z.div_mod_to_equations. lia.
Qed.

Lemma encode_decode s r w :
  s <> [] -> decode_rune s = (r, w) ->
  (r = RuneError /\ w = 1%nat) \/
  (valid_rune r = true /\ s = encode_rune r ++ drop w s).
Proof.
  intros Hs. destruct s as [|c0 s]; [done|]. unfold decode_rune. cbn [map].
  pose proof (code_range c0) as H0.
  destruct (code c0 <? 128) eqn:E0.
  { intros [= <- <-]. right. bool_props. split; [apply valid_rune_cases; lia|].
    unfold encode_rune. decide_range. by rewrite chr_code. }
  destruct (between 194 223 (code c0)) eqn:E2; bool_props.
  { destruct s as [|c1 s]; [intros [= <- <-]; by left|]. cbn [map].
    destruct (cont (code c1)) eqn:E1; [|intros [= <- <-]; by left]. intros [= <- <-]. right.
    unfold cont in E1. apply between_iff in E2, E1. rewrite land_31, land_63.
    set (r := code c0 mod 32 * 64 + code c1 mod 64).
    assert (Hr : 128 <= r < 2048) by (subst r; Z.div_mod_to_equations; lia).
    split; [apply valid_rune_cases; lia|]. unfold encode_rune. repeat (decide_range; cbn [orb]).
    cbn [drop app]. f_equal; [|f_equal]; apply code_inj; subst r; bytes_arith;
      Z.div_mod_to_equations; lia. }
  destruct (between 224 239 (code c0)) eqn:E3.
  { destruct s as [|c1 [|c2 s]]; [intros [= <- <-]; by left..|]. cbn [map].
    destruct (_ && _) eqn:E1; [|intros [= <- <-]; by left]. intros [= <- <-]. right.
    apply andb_true_iff in E1 as [E1 E4]. unfold cont in E4. apply between_iff in E3, E1, E4.
    rewrite land_15, !land_63.
    set (r := code c0 mod 16 * 4096 + code c1 mod 64 * 64 + code c2 mod 64).
    assert (Hr : 2048 <= r < 55296 \/ 57344 <= r < 65536).
    { subst r. repeat case_match; bool_props; Z.div_mod_to_equations; lia. }
    assert (H1 : 128 <= code c1 <= 191) by (repeat case_match; lia).
    split; [apply valid_rune_cases; lia|]. unfold encode_rune. repeat (decide_range; cbn [orb]).
    cbn [drop app]. f_equal; [|f_equal; [|f_equal]]; apply code_inj; subst r; bytes_arith;
      Z.div_mod_to_equations; lia. }
  destruct (between 240 244 (code c0)) eqn:E4; [|intros [= <- <-]; by left].
  destruct s as [|c1 [|c2 [|c3 s]]]; [intros [= <- <-]; by left..|]. cbn [map].
  destruct (_ && _ && _) eqn:E1; [|intros [= <- <-]; by left]. intros [= <- <-]. right.
  apply andb_true_iff in E1 as [[E1 E5]%andb_true_iff E6].
  unfold cont in E5, E6. apply between_iff in E4, E1, E5, E6.
  rewrite land_7, !land_63.
  set (r := code c0 mod 8 * 262144 + code c1 mod 64 * 4096 + code c2 mod 64 * 64 + code c3 mod 64).
  assert (Hr : 65536 <= r <= 1114111).
  { subst r. repeat case_match; bool_props; Z.div_mod_to_equations; lia. }
  assert (H1 : 128 <= code c1 <= 191) by (repeat case_match; lia).
  split; [apply valid_rune_cases; lia|]. unfold encode_rune. repeat (decide_range; cbn [orb]).
  cbn [drop app]. f_equal; [|f_equal; [|f_equal; [|f_equal]]]; apply code_inj; subst r; bytes_arith;
    Z.div_mod_to_equations; lia.
Qed.

(** ** Strings *)

(** [utf8.ValidString]. *)
Fixpoint valid_utf8_fuel (n : nat) (s : bytes) : bool :=
  match n, s with
  | S n, _ :: _ =>
      let '(r, w) := decode_rune s in
      negb ((r =? RuneError) && (w =? 1)%nat) && valid_utf8_fuel n (drop w s)
  | _, _ => true
  end.
Definition valid_utf8 (s : string) : bool :=
  valid_utf8_fuel (length (to_bytes s)) (to_bytes s).

Definition encode_runes (rs : list Z) : bytes := flat_map encode_rune rs.
Definition valid_runes (rs : list Z) : Prop := Forall (fun r => valid_rune r = true) rs.

Lemma encode_rune_length r : (1 <= length (encode_rune r) <= 4)%nat.
Proof. unfold encode_rune. repeat case_match; simpl; lia. Qed.

Lemma encode_rune_cons r : exists c l, encode_rune r = c :: l.
Proof. pose proof (encode_rune_length r). destruct (encode_rune r) as [|c l]; [simpl in *; lia|eauto]. Qed.

(** No valid character is decoded as an error. *)
Lemma encode_no_error r : valid_rune r = true -> (r =? RuneError) && (length (encode_rune r) =? 1)%nat = false.
Proof.
  intros Hr. apply andb_false_iff. destruct (Z.eqb_spec r RuneError) as [->|]; [by right|by left].
Qed.

Lemma valid_utf8_encode n rs :
  valid_runes rs -> valid_utf8_fuel n (encode_runes rs) = true.
Proof.
  intros Hrs. revert n. induction Hrs as [|r rs Hr _ IH]; intros n; [by destruct n|].
  destruct n as [|n]; [done|]. simpl. destruct (encode_rune_cons r) as (c&l&E).
  rewrite E. cbn [app valid_utf8_fuel]. rewrite app_comm_cons, <- E, decode_encode by done.
  rewrite drop_app_length, IH, encode_no_error by done. done.
Qed.

Lemma valid_utf8_runes n s :
  (length s <= n)%nat -> valid_utf8_fuel n s = true -> exists rs, valid_runes rs /\ s = encode_runes rs.
Proof.
  revert s. induction n as [|n IH]; intros s Hn Hv.
  { destruct s; [|simpl in Hn; lia]. exists []. split; [constructor|done]. }
  destruct s as [|c s]; [exists []; split; [constructor|done]|]. cbn [valid_utf8_fuel] in Hv.
  destruct (decode_rune (c :: s)) as [r w] eqn:E. apply andb_true_iff in Hv as [Hne Hv].
  apply encode_decode in E as [[-> ->]|[Hr Hs]]; [done| |done].
  pose proof (encode_rune_length r) as Hl.
  assert (Hd : length (c :: s) = (length (encode_rune r) + length (drop w (c :: s)))%nat).
  { rewrite Hs at 1. by rewrite length_app. }
  destruct (IH (drop w (c :: s))) as (rs&Hrs&Hd'); [simpl in *; lia|done|].
  exists (r :: rs). split; [by constructor|]. simpl. by rewrite <- Hd'.
Qed.

(** A string is valid when it is a sequence of encoded characters. *)
Lemma valid_utf8_iff s :
  valid_utf8 s = true <-> exists rs, valid_runes rs /\ to_bytes s = encode_runes rs.
Proof.
  unfold valid_utf8. split; [by apply valid_utf8_runes|]. intros (rs&Hrs&->). by apply valid_utf8_encode.
Qed.

Lemma valid_runes_app rs rs' : valid_runes rs -> valid_runes rs' -> valid_runes (rs ++ rs').
Proof. apply Forall_app_2. Qed.

Lemma encode_runes_app rs rs' : encode_runes (rs ++ rs') = encode_runes rs ++ encode_runes rs'.
Proof. apply flat_map_app. Qed.

(** ASCII is valid. *)
Lemma ascii_valid s : Forall (fun c => code c < 128) (to_bytes s) -> valid_utf8 s = true.
Proof.
  intros Hs. apply valid_utf8_iff. exists (map code (to_bytes s)).
  induction Hs as [|c l Hc _ [IHv IHe]]; [by split; [constructor|]|].
  pose proof (code_range c). split.
  - constructor; [|done]. apply valid_rune_cases. lia.
  - simpl. rewrite IHe at 1. unfold encode_rune. rewrite between_true by lia. by rewrite chr_code.
Qed.
