(* ===== verification/Rfc3339.v ===== *)
(** * Times in JSON

    [Time.MarshalJSON] and [Time.UnmarshalJSON] of package time: RFC 3339 with
    nanoseconds, for times in UTC.  A time is its nanoseconds since 1970. *)

From S2P Require Import Prelude GoString Utf8.
From Stdlib Require Import Ascii.
#[local] Open Scope Z_scope.

(** ** The calendar *)

Definition is_leap (y : Z) : bool :=
  (y mod 4 =? 0) && (negb (y mod 100 =? 0) || (y mod 400 =? 0)).

Definition days_in (m y : Z) : Z :=
  if m =? 2 then if is_leap y then 29 else 28
  else if (m =? 4) || (m =? 6) || (m =? 9) || (m =? 11) then 30 else 31.

(** Days from 1 March of the year 0 to 1 January 1970. *)
Definition epoch : Z := 719468.

(** Years begin in March: the leap day is the last one. *)
Definition days_of_civil (y m d : Z) : Z :=
  let y := if m <=? 2 then y - 1 else y in
  let mp := if m <=? 2 then m + 9 else m - 3 in
  365 * y + y / 4 - y / 100 + y / 400 + (153 * mp + 2) / 5 + d - 1 - epoch.

Definition civil_of_days (n : Z) : Z * Z * Z :=
  let n := n + epoch in
  let n400 := n / 146097 in
  let d1 := n mod 146097 in
  let n100 := Z.min 3 (d1 / 36524) in
  let d2 := d1 - 36524 * n100 in
  let n4 := d2 / 1461 in
  let d3 := d2 mod 1461 in
  let n1 := Z.min 3 (d3 / 365) in
  let doy := d3 - 365 * n1 in
  let y := 400 * n400 + 100 * n100 + 4 * n4 + n1 in
  let mp := (5 * doy + 2) / 153 in
  let m := if mp <? 10 then mp + 3 else mp - 9 in
  (if m <=? 2 then y + 1 else y, m, doy - (153 * mp + 2) / 5 + 1).

(** The parts of a day number: centuries, fours of years, years and days. *)
Lemma day_parts n :
  let d1 := n mod 146097 in
  let n100 := Z.min 3 (d1 / 36524) in
  let d2 := d1 - 36524 * n100 in
  let n4 := d2 / 1461 in
  let d3 := d2 mod 1461 in
  let n1 := Z.min 3 (d3 / 365) in
  let doy := d3 - 365 * n1 in
  0 <= n100 <= 3 /\ 0 <= n4 <= 24 /\ 0 <= n1 <= 3 /\ 0 <= doy <= 365 /\
  (doy = 365 -> n1 = 3 /\ (n4 = 24 -> n100 = 3)) /\
  n = 146097 * (n / 146097) + 36524 * n100 + 1461 * n4 + 365 * n1 + doy.
Proof. cbv zeta. Z.div_mod_to_equations. lia. Qed.

(** The month and the day of a day of the year. *)
Lemma month_parts doy :
  0 <= doy <= 365 ->
  let mp := (5 * doy + 2) / 153 in
  let d := doy - (153 * mp + 2) / 5 + 1 in
  0 <= mp <= 11 /\ 1 <= d <= 31 /\ ((mp = 1 \/ mp = 3 \/ mp = 6 \/ mp = 8) -> d <= 30) /\
  (mp = 11 -> d <= 29 /\ (d = 29 -> doy = 365)).
Proof. cbv zeta. intros H. Z.div_mod_to_equations. lia. Qed.

(** A day number from its parts: [y] counts years from March. *)
Lemma days_of_parts n400 n100 n4 n1 :
  0 <= n100 <= 3 -> 0 <= n4 <= 24 -> 0 <= n1 <= 3 ->
  let y := 400 * n400 + 100 * n100 + 4 * n4 + n1 in
  365 * y + y / 4 - y / 100 + y / 400 = 146097 * n400 + 36524 * n100 + 1461 * n4 + 365 * n1.
Proof.
  intros H1 H2 H3 y.
  assert (E4 : y / 4 = 100 * n400 + 25 * n100 + n4) by (subst y; Z.div_mod_to_equations; lia).
  assert (E100 : y / 100 = 4 * n400 + n100) by (subst y; Z.div_mod_to_equations; lia).
  assert (E400 : y / 400 = n400) by (subst y; Z.div_mod_to_equations; lia).
  rewrite E4, E100, E400. subst y. lia.
Qed.

(** The leap years, by the same parts. *)
Lemma leap_parts n400 n100 n4 n1 :
  0 <= n100 <= 3 -> 0 <= n4 <= 24 -> 0 <= n1 <= 3 ->
  n1 = 3 -> (n4 = 24 -> n100 = 3) ->
  is_leap (400 * n400 + 100 * n100 + 4 * n4 + n1 + 1) = true.
Proof.
  intros H1 H2 H3 -> Hc. set (y := _ + 1). unfold is_leap.
  assert (E4 : y mod 4 = 0) by (subst y; Z.div_mod_to_equations; lia).
  rewrite E4. cbn [Z.eqb andb]. apply orb_true_iff.
  destruct (decide (n4 = 24)) as [->|Hn].
  - right. rewrite (Hc eq_refl) in *. apply Z.eqb_eq. subst y. Z.div_mod_to_equations. lia.
  - left. apply negb_true_iff, Z.eqb_neq. subst y. Z.div_mod_to_equations. lia.
Qed.

Lemma civil_roundtrip n y m d :
  civil_of_days n = (y, m, d) ->
  1 <= m <= 12 /\ 1 <= d <= days_in m y /\ days_of_civil y m d = n.
Proof.
  unfold civil_of_days. cbv zeta.
  destruct (day_parts (n + epoch)) as (H1&H2&H3&H4&Hc&Hn). revert H1 H2 H3 H4 Hc Hn.
  set (n400 := (n + epoch) / 146097).
  generalize (Z.min 3 ((n + epoch) mod 146097 / 36524)) as n100. intros n100.
  set (d2 := (n + epoch) mod 146097 - 36524 * n100).
  generalize (Z.min 3 (d2 mod 1461 / 365)) as n1. intros n1.
  generalize (d2 / 1461) as n4. intros n4.
  generalize (d2 mod 1461 - 365 * n1) as doy. intros doy H1 H2 H3 H4 Hc Hn.
  destruct (month_parts doy H4) as (Hm&Hd&H30&H28). revert Hm Hd H30 H28.
  pose proof (days_of_parts n400 n100 n4 n1 H1 H2 H3) as Hy. cbv zeta in Hy. revert Hy.
  pose proof (fun H H' => leap_parts n400 n100 n4 n1 H1 H2 H3 H H') as Hleap. revert Hleap.
  set (y0 := 400 * n400 + 100 * n100 + 4 * n4 + n1).
  generalize ((5 * doy + 2) / 153) as mp. intros mp Hleap Hy Hm Hd H30 H28.
  set (d0 := doy - (153 * mp + 2) / 5 + 1) in *.
  destruct (Z.ltb_spec mp 10) as [Hmp|Hmp]; intros [= <- <- <-].
  - assert (E : (mp + 3 <=? 2) = false) by (apply Z.leb_gt; lia). rewrite E.
    split; [lia|]. unfold days_of_civil. rewrite E. split.
    + unfold days_in. repeat case_match; bool_props; lia.
    + replace (mp + 3 - 3) with mp by lia. subst d0. lia.
  - assert (E : (mp - 9 <=? 2) = true) by (apply Z.leb_le; lia). rewrite E.
    split; [lia|]. unfold days_of_civil. rewrite E. split.
    + unfold days_in. destruct (Z.eqb_spec (mp - 9) 2); [|repeat case_match; bool_props; lia].
      destruct (is_leap (y0 + 1)) eqn:El; [lia|]. assert (doy <> 365); [|lia].
      intros Hdoy. destruct (Hc Hdoy) as [Hn1 Hn4]. specialize (Hleap Hn1 Hn4). congruence.
    + replace (mp - 9 + 9) with mp by lia. replace (y0 + 1 - 1) with y0 by lia. subst d0. lia.
Qed.

(** ** Digits *)

Definition is_digit (c : ascii) : bool := between 48 57 (code c).
Definition digit (z : Z) : ascii := chr (48 + z).

(** The last [n] decimal digits of a number. *)
Fixpoint digits (n : nat) (z : Z) : bytes :=
  match n with
  | O => []
  | S n => digits n (z / 10) ++ [digit (z mod 10)]
  end.

Fixpoint number (acc : Z) (s : bytes) : option Z :=
  match s with
  | [] => Some acc
  | c :: s => if is_digit c then number (10 * acc + (code c - 48)) s else None
  end.

(** The number of the first [n] bytes, and the rest. *)
Definition take_number (n : nat) (s : bytes) : option (Z * bytes) :=
  if (n <=? length s)%nat then
    match number 0 (take n s) with Some z => Some (z, drop n s) | None => None end
  else None.

Lemma code_digit z : 0 <= z <= 9 -> code (digit z) = 48 + z.
Proof. intros H. apply code_chr. lia. Qed.

Lemma is_digit_digit z : 0 <= z <= 9 -> is_digit (digit z) = true.
Proof. intros H. unfold is_digit. rewrite code_digit by lia. apply between_true. lia. Qed.

Lemma digits_length n z : length (digits n z) = n.
Proof. revert z. induction n as [|n IH]; intros z; [done|]. simpl. rewrite length_app, IH. simpl. lia. Qed.

Lemma number_app acc s t :
  number acc (s ++ t) = match number acc s with Some z => number z t | None => None end.
Proof.
  revert acc. induction s as [|c s IH]; intros acc; [done|]. simpl. case_match; [apply IH|done].
Qed.

Lemma number_digits acc n z :
  0 <= z < 10 ^ Z.of_nat n -> number acc (digits n z) = Some (acc * 10 ^ Z.of_nat n + z).
Proof.
  revert acc z. induction n as [|n IH]; intros acc z Hz.
  { simpl. f_equal. rewrite Z.pow_0_r in *. lia. }
  rewrite Nat2Z.inj_succ, Z.pow_succ_r in Hz by lia. cbn [digits].
  rewrite number_app, IH by (Z.div_mod_to_equations; lia).
  cbn [number]. rewrite is_digit_digit, code_digit by (Z.div_mod_to_equations; lia).
  f_equal. rewrite Nat2Z.inj_succ, Z.pow_succ_r by lia. Z.div_mod_to_equations. lia.
Qed.

Lemma take_number_digits n z s :
  0 <= z < 10 ^ Z.of_nat n -> take_number n (digits n z ++ s) = Some (z, s).
Proof.
  intros Hz. unfold take_number. rewrite length_app, digits_length.
  rewrite (proj2 (Nat.leb_le _ _)) by lia.
  rewrite take_app_length', drop_app_length', number_digits by first [done|by rewrite digits_length].
  done.
Qed.

Lemma digits_are_digits n z : 0 <= z -> Forall (fun c => is_digit c = true) (digits n z).
Proof.
  revert z. induction n as [|n IH]; intros z Hz; [constructor|]. simpl. apply Forall_app. split.
  - apply IH. by apply Z.div_pos.
  - constructor; [|constructor]. apply is_digit_digit. Z.div_mod_to_equations. lia.
Qed.

(** ** Formatting *)

(** Trailing zeros of a fraction are left out. *)
Fixpoint trim_zeros (s : bytes) : bytes :=
  match s with
  | [] => []
  | c :: s =>
      match trim_zeros s with
      | [] => if bool_decide (c = digit 0) then [] else [c]
      | s' => c :: s'
      end
  end.

Definition fraction (ns : Z) : bytes :=
  match trim_zeros (digits 9 ns) with [] => [] | ds => chr 46 :: ds end.

Definition dash : ascii := chr 45.
Definition colon : ascii := chr 58.

(** [appendStrictRFC3339]: the year must have four digits. *)
Definition format_rfc3339 (t : Z) : option bytes :=
  let secs := t / Second in
  let sod := secs mod 86400 in
  let '(y, m, d) := civil_of_days (secs / 86400) in
  if between 0 9999 y then
    Some (digits 4 y ++ dash :: digits 2 m ++ dash :: digits 2 d ++ chr 84 ::
          digits 2 (sod / 3600) ++ colon :: digits 2 (sod / 60 mod 60) ++ colon ::
          digits 2 (sod mod 60) ++ fraction (t mod Second) ++ [chr 90])
  else None.

(** ** Parsing *)

Definition expect (c : ascii) (s : bytes) : option bytes :=
  match s with c' :: s => if bool_decide (c' = c) then Some s else None | [] => None end.

Definition in_range (lo hi : Z) (r : option (Z * bytes)) : option (Z * bytes) :=
  match r with
  | Some (z, s) => if between lo hi z then Some (z, s) else None
  | None => None
  end.

Fixpoint span_digits (s : bytes) : bytes * bytes :=
  match s with
  | c :: s' => if is_digit c then let '(ds, r) := span_digits s' in (c :: ds, r) else ([], s)
  | [] => ([], [])
  end.

(** Nanoseconds of the digits after the point, those past the ninth ignored. *)
Definition nanos (ds : bytes) : option Z := number 0 (take 9 (ds ++ replicate 9 (digit 0))).

Definition parse_fraction (s : bytes) : option (Z * bytes) :=
  match s with
  | c :: s' =>
      if code c =? 46 then
        match span_digits s' with
        | ([], _) => None
        | (ds, r) => match nanos ds with Some ns => Some (ns, r) | None => None end
        end
      else Some (0, s)
  | [] => Some (0, [])
  end.

(** The offset of the zone in seconds; nothing may follow. *)
Definition parse_zone (s : bytes) : option Z :=
  match s with
  | [z] => if code z =? 90 then Some 0 else None
  | sign :: s =>
      '(h, s) ← in_range 0 23 (take_number 2 s);
      s ← expect colon s;
      '(m, s) ← in_range 0 59 (take_number 2 s);
      match s with
      | [] =>
          if code sign =? 45 then Some (- (h * 60 + m) * 60)
          else if code sign =? 43 then Some ((h * 60 + m) * 60) else None
      | _ => None
      end
  | [] => None
  end.

(** [parseStrictRFC3339]. *)
Definition parse_rfc3339 (s : bytes) : option Z :=
  '(y, s) ← take_number 4 s;
  s ← expect dash s;
  '(m, s) ← in_range 1 12 (take_number 2 s);
  s ← expect dash s;
  '(d, s) ← in_range 1 (days_in m y) (take_number 2 s);
  s ← expect (chr 84) s;
  '(hh, s) ← in_range 0 23 (take_number 2 s);
  s ← expect colon s;
  '(mm, s) ← in_range 0 59 (take_number 2 s);
  s ← expect colon s;
  '(ss, s) ← in_range 0 59 (take_number 2 s);
  '(ns, s) ← parse_fraction s;
  off ← parse_zone s;
  Some ((days_of_civil y m d * 86400 + hh * 3600 + mm * 60 + ss - off) * Second + ns).

Definition show_time (t : Z) : option string := of_bytes <$> format_rfc3339 t.
Example format_epoch : show_time 0 = Some "1970-01-01T00:00:00Z".
Proof. vm_compute. reflexivity. Qed.
Example format_leap : show_time (1709210096 * Second + 120500000) = Some "2024-02-29T12:34:56.1205Z".
Proof. vm_compute. reflexivity. Qed.
Example format_year_0 : show_time (-62135596800 * Second) = Some "0001-01-01T00:00:00Z".
Proof. vm_compute. reflexivity. Qed.
Example parse_zoned : parse_rfc3339 (to_bytes "2024-02-29T15:34:56+03:00") = Some (1709210096 * Second).
Proof. vm_compute. reflexivity. Qed.
Example parse_no_leap : parse_rfc3339 (to_bytes "2023-02-29T15:34:56Z") = None.
Proof. vm_compute. reflexivity. Qed.

(** ** What is formatted is parsed *)

Lemma trim_zeros_spec s : exists k, s = trim_zeros s ++ replicate k (digit 0).
Proof.
  induction s as [|c s [k IH]]; [by exists 0%nat|]. simpl.
  destruct (trim_zeros s) as [|c' s'] eqn:E.
  - case_bool_decide as Hc.
    + exists (S k). simpl in *. by rewrite Hc, IH at 1.
    + exists k. simpl in *. by rewrite IH at 1.
  - exists k. by rewrite IH at 1.
Qed.

Lemma span_digits_app ds s :
  Forall (fun c => is_digit c = true) ds -> (forall c r, s = c :: r -> is_digit c = false) ->
  span_digits (ds ++ s) = (ds, s).
Proof.
  intros Hds Hs. induction Hds as [|c ds Hc _ IH]; simpl.
  - destruct s as [|c r]; [done|]. simpl. by rewrite (Hs c r).
  - by rewrite Hc, IH.
Qed.

Lemma parse_format_fraction ns s :
  0 <= ns < Second -> (forall c r, s = c :: r -> is_digit c = false /\ code c <> 46) ->
  parse_fraction (fraction ns ++ s) = Some (ns, s).
Proof.
  intros Hns Hs. unfold fraction. destruct (trim_zeros_spec (digits 9 ns)) as [k Hk].
  pose proof (digits_length 9 ns) as Hlen.
  pose proof (number_digits 0 9 ns) as Hnum. specialize (Hnum ltac:(unfold Second in Hns; lia)).
  pose proof (digits_are_digits 9 ns ltac:(lia)) as Hd. revert Hk Hlen Hnum Hd.
  generalize (digits 9 ns) as ds0. intros ds0 Hk Hlen Hnum Hd.
  assert (Htake : take 9 (trim_zeros ds0 ++ replicate 9 (digit 0)) = ds0).
  { assert (Hl : length ds0 = (length (trim_zeros ds0) + k)%nat).
    { rewrite Hk at 1. by rewrite length_app, length_replicate. }
    assert (H9 : (9 = k + (9 - k))%nat) by lia. rewrite H9 at 2. rewrite replicate_add.
    rewrite (assoc_L (++)), <- Hk. apply take_app_length'. done. }
  destruct (trim_zeros ds0) as [|c ds] eqn:E.
  - simpl app in *. assert (Hz : ns = 0).
    { rewrite <- Htake in Hnum. vm_compute in Hnum. by injection Hnum. }
    subst ns. destruct s as [|c r]; [done|]. unfold parse_fraction.
    destruct (Hs c r eq_refl) as [_ Hc]. by rewrite (proj2 (Z.eqb_neq _ _) Hc).
  - assert (Hds : Forall (fun c => is_digit c = true) (c :: ds)).
    { rewrite Hk in Hd. by apply Forall_app in Hd as [? _]. }
    cbn [app]. unfold parse_fraction. rewrite code_chr by lia. cbn [Z.eqb Pos.eqb].
    rewrite app_comm_cons, span_digits_app; [|done|by intros; eapply Hs].
    cbn [app]. unfold nanos. rewrite Htake, Hnum. done.
Qed.

Lemma in_range_ok lo hi z s : lo <= z <= hi -> in_range lo hi (Some (z, s)) = Some (z, s).
Proof. intros H. simpl. by rewrite between_true. Qed.

Lemma expect_ok c s : expect c (c :: s) = Some s.
Proof. simpl. by rewrite bool_decide_true. Qed.

Lemma rfc3339_roundtrip t b : format_rfc3339 t = Some b -> parse_rfc3339 b = Some t.
Proof.
  unfold format_rfc3339. cbv zeta.
  destruct (civil_of_days _) as [[y m] d] eqn:Ec. apply civil_roundtrip in Ec as (Hm&Hd&Hdays).
  destruct (between 0 9999 y) eqn:Ey; [|done]. apply between_iff in Ey.
  intros H. apply Some_inj in H. subst b.
  assert (Hd31 : d <= 31) by (revert Hd; unfold days_in; repeat case_match; lia).
  set (sod := t / Second mod 86400) in *.
  assert (Hsod : 0 <= sod < 86400) by (subst sod; Z.div_mod_to_equations; lia).
  unfold parse_rfc3339. rewrite take_number_digits by lia. cbn [mbind option_bind].
  rewrite expect_ok. cbn [mbind option_bind]. rewrite take_number_digits, in_range_ok by lia.
  cbn [mbind option_bind]. rewrite expect_ok. cbn [mbind option_bind].
  rewrite take_number_digits, in_range_ok by lia. cbn [mbind option_bind]. rewrite expect_ok.
  cbn [mbind option_bind].
  rewrite take_number_digits, in_range_ok by (Z.div_mod_to_equations; lia).
  cbn [mbind option_bind]. rewrite expect_ok. cbn [mbind option_bind].
  rewrite take_number_digits, in_range_ok by (Z.div_mod_to_equations; lia).
  cbn [mbind option_bind]. rewrite expect_ok. cbn [mbind option_bind].
  rewrite take_number_digits, in_range_ok by (Z.div_mod_to_equations; lia).
  cbn [mbind option_bind].
  rewrite parse_format_fraction; [|unfold Second; Z.div_mod_to_equations; lia|].
  2:{ intros c r Hc. injection Hc as <- _. split; [done|by rewrite code_chr by lia]. }
  cbn [mbind option_bind]. change (parse_zone [chr 90]) with (Some 0).
  cbn [mbind option_bind]. rewrite Hdays. f_equal.
  assert (Hclock : sod / 3600 * 3600 + sod / 60 mod 60 * 60 + sod mod 60 = sod)
    by (Z.div_mod_to_equations; lia).
  pose proof (Z.div_mod t Second ltac:(done)). pose proof (Z.div_mod (t / Second) 86400 ltac:(done)).
  subst sod. unfold Second in *. lia.
Qed.
