(* ===== verification/Json.v ===== *)
(** * JSON text

    The grammar of package encoding/json: what its scanner accepts, with its limit on
    nesting, and the compact form of a value ([json.Compact] with the escapes of HTML);
    and the strings of the language, quoted and unquoted. *)

From S2P Require Import Prelude GoString Utf8 Rfc3339.
From Stdlib Require Import Ascii.
#[local] Open Scope Z_scope.

Definition isc (z : Z) (c : ascii) : bool := code c =? z.

Definition quote_mark : ascii := chr 34.
Definition backslash : ascii := chr 92.
Definition comma : ascii := chr 44.
Definition open_brace : ascii := chr 123.
Definition close_brace : ascii := chr 125.
Definition open_bracket : ascii := chr 91.
Definition close_bracket : ascii := chr 93.

(** ** The scanner *)

Definition json_space (c : ascii) : bool :=
  let z := code c in (z =? 32) || (z =? 9) || (z =? 13) || (z =? 10).

Fixpoint skip_ws (s : bytes) : bytes :=
  match s with
  | c :: s' => if json_space c then skip_ws s' else s
  | [] => []
  end.

Definition is_hex (c : ascii) : bool :=
  let z := code c in between 48 57 z || between 97 102 z || between 65 70 z.

(** The characters that may follow a backslash, other than [u]. *)
Definition short_escape (c : ascii) : bool :=
  let z := code c in
  (z =? 98) || (z =? 102) || (z =? 110) || (z =? 114) || (z =? 116) || (z =? 92) || (z =? 47) || (z =? 34).

(** The text of a string up to its closing quote, and what follows. *)
Fixpoint scan_string (s : bytes) : option (bytes * bytes) :=
  match s with
  | [] => None
  | c :: s1 =>
      if isc 34 c then Some ([], s1)
      else if isc 92 c then
        match s1 with
        | e :: s2 =>
            if isc 117 e then
              match s2 with
              | h1 :: h2 :: h3 :: h4 :: s3 =>
                  if is_hex h1 && is_hex h2 && is_hex h3 && is_hex h4 then
                    match scan_string s3 with
                    | Some (raw, r) => Some (c :: e :: h1 :: h2 :: h3 :: h4 :: raw, r)
                    | None => None
                    end
                  else None
              | _ => None
              end
            else if short_escape e then
              match scan_string s2 with Some (raw, r) => Some (c :: e :: raw, r) | None => None end
            else None
        | [] => None
        end
      else if code c <? 32 then None
      else match scan_string s1 with Some (raw, r) => Some (c :: raw, r) | None => None end
  end.

(** Numbers, in three parts. *)
Definition digits1 (s : bytes) : option (bytes * bytes) :=
  match span_digits s with ([], _) => None | dr => Some dr end.

Definition int_part (s : bytes) : option (bytes * bytes) :=
  match s with
  | c :: s' => if isc 48 c then Some ([c], s') else digits1 s
  | [] => None
  end.

Definition frac_part (s : bytes) : option (bytes * bytes) :=
  match s with
  | c :: s' =>
      if isc 46 c then match digits1 s' with Some (ds, r) => Some (c :: ds, r) | None => None end
      else Some ([], s)
  | [] => Some ([], [])
  end.

Definition exp_part (s : bytes) : option (bytes * bytes) :=
  match s with
  | c :: s' =>
      if isc 101 c || isc 69 c then
        match s' with
        | sg :: s'' =>
            if isc 43 sg || isc 45 sg
            then match digits1 s'' with Some (ds, r) => Some (c :: sg :: ds, r) | None => None end
            else match digits1 s' with Some (ds, r) => Some (c :: ds, r) | None => None end
        | [] => None
        end
      else Some ([], s)
  | [] => Some ([], [])
  end.

Definition unsigned (s : bytes) : option (bytes * bytes) :=
  '(i, s) ← int_part s;
  '(f, s) ← frac_part s;
  '(e, s) ← exp_part s;
  Some (i ++ f ++ e, s).

Definition scan_number (s : bytes) : option (bytes * bytes) :=
  match s with
  | c :: s' =>
      if isc 45 c then match unsigned s' with Some (l, r) => Some (c :: l, r) | None => None end
      else unsigned s
  | [] => None
  end.

(** What [compact] makes of the text of a string: no character that is special in HTML
    and no line separator is left. *)
Definition hex_digit (z : Z) : ascii := if z <? 10 then chr (48 + z) else chr (87 + z).
Definition u_escape (z : Z) : bytes :=
  [backslash; chr 117; hex_digit (z / 4096); hex_digit (z / 256 mod 16); hex_digit (z / 16 mod 16);
   hex_digit (z mod 16)].

Definition html_special (c : ascii) : bool := isc 60 c || isc 62 c || isc 38 c.

(** U+2028 and U+2029 in UTF-8, after their first byte. *)
Definition line_separator (s : bytes) : option (Z * bytes) :=
  match s with
  | b :: c :: s =>
      if isc 128 b && (isc 168 c || isc 169 c) then Some (8064 + code c, s) else None
  | _ => None
  end.

Fixpoint html_escape (s : bytes) : bytes :=
  match s with
  | [] => []
  | c :: s1 =>
      if html_special c then u_escape (code c) ++ html_escape s1
      else if isc 226 c then
        match s1 with
        | b :: d :: s2 =>
            if isc 128 b && (isc 168 d || isc 169 d) then u_escape (8064 + code d) ++ html_escape s2
            else c :: html_escape s1
        | _ => c :: html_escape s1
        end
      else c :: html_escape s1
  end.

(** *** Values *)

Definition word (w s : bytes) : option (bytes * bytes) :=
  if has_prefix w s then Some (w, drop (length w) s) else None.

Definition quoted (raw : bytes) : bytes := quote_mark :: raw ++ [quote_mark].

(** A member of an object: the text of its key, its value as it was sent, and compacted. *)
Record member : Type := Member { mb_key : bytes; mb_source : bytes; mb_compact : bytes }.

Definition member_text (m : member) : bytes :=
  quoted (html_escape (mb_key m)) ++ colon :: mb_compact m.

Fixpoint commas (ts : list bytes) : bytes :=
  match ts with
  | [] => []
  | [t] => t
  | t :: ts => t ++ comma :: commas ts
  end.

Definition array_text (es : list bytes) : bytes := open_bracket :: commas es ++ [close_bracket].
Definition object_text (ms : list member) : bytes :=
  open_brace :: commas (map member_text ms) ++ [close_brace].

(** The first value of a text in its compact form, and what follows it; [depth] is how
    many arrays and objects may still be opened.  The fuel bounds the recursion. *)
Fixpoint value (fuel : nat) (depth : Z) (s : bytes) : option (bytes * bytes) :=
  match fuel with
  | O => None
  | S fuel =>
      match skip_ws s with
      | [] => None
      | c :: s1 =>
          if isc 123 c then
            if depth <=? 0 then None
            else match skip_ws s1 with
                 | c2 :: s2 =>
                     if isc 125 c2 then Some (object_text [], s2)
                     else match members fuel (depth - 1) (c2 :: s2) with
                          | Some (ms, r) => Some (object_text ms, r)
                          | None => None
                          end
                 | [] => None
                 end
          else if isc 91 c then
            if depth <=? 0 then None
            else match skip_ws s1 with
                 | c2 :: s2 =>
                     if isc 93 c2 then Some (array_text [], s2)
                     else match elements fuel (depth - 1) (c2 :: s2) with
                          | Some (es, r) => Some (array_text es, r)
                          | None => None
                          end
                 | [] => None
                 end
          else if isc 34 c then
            match scan_string s1 with
            | Some (raw, r) => Some (quoted (html_escape raw), r)
            | None => None
            end
          else if isc 116 c then word (to_bytes "true") (c :: s1)
          else if isc 102 c then word (to_bytes "false") (c :: s1)
          else if isc 110 c then word (to_bytes "null") (c :: s1)
          else scan_number (c :: s1)
      end
  end
with elements (fuel : nat) (depth : Z) (s : bytes) : option (list bytes * bytes) :=
  match fuel with
  | O => None
  | S fuel =>
      match value fuel depth s with
      | Some (v, r) =>
          match skip_ws r with
          | c :: r =>
              if isc 44 c then
                match elements fuel depth r with Some (es, r) => Some (v :: es, r) | None => None end
              else if isc 93 c then Some ([v], r)
              else None
          | [] => None
          end
      | None => None
      end
  end
with members (fuel : nat) (depth : Z) (s : bytes) : option (list member * bytes) :=
  match fuel with
  | O => None
  | S fuel =>
      match skip_ws s with
      | q :: s1 =>
          if isc 34 q then
            match scan_string s1 with
            | Some (key, s2) =>
                match skip_ws s2 with
                | c :: s3 =>
                    if isc 58 c then
                      match value fuel depth s3 with
                      | Some (v, r) =>
                          let start := skip_ws s3 in
                          let m := Member key (take (length start - length r) start) v in
                          match skip_ws r with
                          | c :: r =>
                              if isc 44 c then
                                match members fuel depth r with
                                | Some (ms, r) => Some (m :: ms, r)
                                | None => None
                                end
                              else if isc 125 c then Some ([m], r)
                              else None
                          | [] => None
                          end
                      | None => None
                      end
                    else None
                | [] => None
                end
            | None => None
            end
          else None
      | [] => None
      end
  end.

(** The fuel of a text, and its first value at the greatest depth. *)
Definition fuel_of (s : bytes) : nat := (2 * length s + 1)%nat.
Definition max_depth : Z := 10000.

(** Texts with apostrophes for quotes. *)
Definition text (s : string) : bytes :=
  map (fun c => if isc 39 c then quote_mark else c) (to_bytes s).
Definition first_value (s : string) : option (bytes * bytes) :=
  value (fuel_of (text s)) max_depth (text s).

Example compacts : first_value " { 'a' : [ 1 , -2.5e+3 , '<x>' ] , 'b':null } tail"
  = Some (text "{'a':[1,-2.5e+3,'\u003cx\u003e'],'b':null}", text " tail").
Proof. vm_compute. reflexivity. Qed.
Example rejects : map first_value ["{'a':1,}"; "[1 2]"; "-"; "1."; "'\x'"; "tru"; ""; "{1:2}"]
  = replicate 8 None.
Proof. vm_compute. reflexivity. Qed.
Example reads_a_prefix : first_value "012" = Some (text "0", text "12").
Proof. vm_compute. reflexivity. Qed.

(** ** Laws of the scanner *)

Lemma isc_true z c : isc z c = true <-> code c = z.
Proof. apply Z.eqb_eq. Qed.
Lemma isc_false z c : code c <> z -> isc z c = false.
Proof. apply Z.eqb_neq. Qed.

Lemma skip_ws_length s : (length (skip_ws s) <= length s)%nat.
Proof. induction s as [|c s IH]; simpl; [done|]. destruct (json_space c); simpl; lia. Qed.

Lemma skip_ws_stop c s : json_space c = false -> skip_ws (c :: s) = c :: s.
Proof. simpl. by intros ->. Qed.

(** *** Strings *)

Fixpoint string_ok (s : bytes) : bool :=
  match s with
  | [] => true
  | c :: s1 =>
      if isc 92 c then
        match s1 with
        | e :: s2 =>
            if isc 117 e then
              match s2 with
              | h1 :: h2 :: h3 :: h4 :: s3 => is_hex h1 && is_hex h2 && is_hex h3 && is_hex h4 && string_ok s3
              | _ => false
              end
            else short_escape e && string_ok s2
        | [] => false
        end
      else negb (isc 34 c) && (32 <=? code c) && string_ok s1
  end.

(** Recursion over a text that may skip up to six characters. *)
Lemma bytes_ind (P : bytes -> Prop) :
  (forall s, (forall t, (length t < length s)%nat -> P t) -> P s) -> forall s, P s.
Proof.
  intros H s. remember (length s) as n eqn:En. revert s En.
  induction (Nat.lt_wf_0 n) as [n _ IH]. intros s ->. apply H. intros t Ht. by apply (IH (length t)).
Qed.

Lemma scan_string_spec s raw r :
  scan_string s = Some (raw, r) -> s = raw ++ quote_mark :: r /\ string_ok raw = true.
Proof.
  revert raw r. induction s as [s IH] using bytes_ind. intros raw r. destruct s as [|c s1]; [done|].
  simpl. destruct (isc 34 c) eqn:E34.
  { intros [= <- <-]. apply isc_true in E34. split; [|done]. simpl. f_equal. by apply code_inj. }
  destruct (isc 92 c) eqn:E92.
  - destruct s1 as [|e s2]; [done|]. destruct (isc 117 e) eqn:Eu.
    + destruct s2 as [|h1 [|h2 [|h3 [|h4 s3]]]]; try done.
      destruct (_ && _ && _ && _) eqn:Eh; [|done].
      destruct (scan_string s3) as [[raw' r']|] eqn:E3; [|done]. intros [= <- <-].
      apply IH in E3 as [-> Hok]; [|simpl; lia]. split; [done|]. simpl. by rewrite E92, Eu, Eh.
    + destruct (short_escape e) eqn:Ee; [|done].
      destruct (scan_string s2) as [[raw' r']|] eqn:E2; [|done]. intros [= <- <-].
      apply IH in E2 as [-> Hok]; [|simpl; lia]. split; [done|]. simpl. by rewrite E92, Eu, Ee.
  - destruct (code c <? 32) eqn:E32; [done|].
    destruct (scan_string s1) as [[raw' r']|] eqn:E1; [|done]. intros [= <- <-].
    apply IH in E1 as [-> Hok]; [|simpl; lia]. split; [done|]. simpl. rewrite E92, E34, Hok.
    bool_props. rewrite (proj2 (Z.leb_le _ _)) by lia. done.
Qed.

Lemma scan_string_ok raw r :
  string_ok raw = true -> scan_string (raw ++ quote_mark :: r) = Some (raw, r).
Proof.
  revert r. induction raw as [raw IH] using bytes_ind. intros r. destruct raw as [|c s1]; [done|].
  simpl. destruct (isc 92 c) eqn:E92.
  - assert (isc 34 c = false) as -> by (apply isc_true in E92; apply isc_false; lia).
    destruct s1 as [|e s2]; [done|]. simpl. destruct (isc 117 e) eqn:Eu.
    + destruct s2 as [|h1 [|h2 [|h3 [|h4 s3]]]]; try done. simpl. intros [Hh Hs]%andb_true_iff.
      rewrite Hh, IH by first [done|simpl; lia]. done.
    + intros [He Hs]%andb_true_iff. rewrite He, IH by first [done|simpl; lia]. done.
  - intros [[H34 H32]%andb_true_iff Hs]%andb_true_iff. apply negb_true_iff in H34. rewrite H34.
    bool_props. rewrite (proj2 (Z.ltb_ge _ _)) by lia. rewrite IH by first [done|simpl; lia]. done.
Qed.

Lemma scan_string_length s raw r : scan_string s = Some (raw, r) -> (length r < length s)%nat.
Proof. intros [-> _]%scan_string_spec. rewrite length_app. simpl. lia. Qed.

(** The characters of an escape are plain. *)
Lemma hex_digit_hex z : 0 <= z < 16 -> is_hex (hex_digit z) = true.
Proof.
  intros Hz. unfold hex_digit, is_hex. destruct (z <? 10) eqn:E; bool_props; rewrite code_chr by lia.
  - by rewrite (between_true 48 57) by lia.
  - by rewrite (between_true 97 102), orb_true_r by lia.
Qed.

Lemma u_escape_ok z s : 0 <= z < 65536 -> string_ok (u_escape z ++ s) = string_ok s.
Proof.
  intros Hz. unfold u_escape. cbn [app string_ok].
  rewrite !hex_digit_hex by (Z.div_mod_to_equations; lia). done.
Qed.

Lemma html_escape_ok raw : string_ok raw = true -> string_ok (html_escape raw) = true.
Proof.
  induction raw as [raw IH] using bytes_ind. destruct raw as [|c s1]; [done|].
  intros Hok. cbn [html_escape]. pose proof (code_range c) as Hc.
  destruct (html_special c) eqn:Es.
  { rewrite u_escape_ok by lia. apply IH; [simpl; lia|].
    cbn [string_ok] in Hok. unfold html_special in Es.
    destruct (isc 92 c) eqn:E92; [|by apply andb_true_iff in Hok as [_ ?]].
    apply isc_true in E92. unfold isc in Es. rewrite E92 in Es. done. }
  destruct (isc 226 c) eqn:E226.
  { apply isc_true in E226. cbn [string_ok] in Hok. rewrite (isc_false 92) in Hok by lia.
    apply andb_true_iff in Hok as [Hc1 Hok].
    assert (Hplain : string_ok (c :: html_escape s1) = true).
    { cbn [string_ok]. rewrite (isc_false 92), Hc1, IH by first [done|simpl; lia|lia]. done. }
    destruct s1 as [|b [|d s2]]; [exact Hplain..|].
    destruct (isc 128 b && _) eqn:Eb; [|exact Hplain].
    pose proof (code_range d). rewrite u_escape_ok by lia. apply IH; [simpl; lia|].
    apply andb_true_iff in Eb as [Eb Ed]. apply isc_true in Eb. cbn [string_ok] in Hok.
    rewrite (isc_false 92 b) in Hok by lia. apply andb_true_iff in Hok as [_ Hok].
    assert (code d <> 92) by (apply orb_true_iff in Ed as [Ed|Ed]; apply isc_true in Ed; lia).
    rewrite (isc_false 92 d) in Hok by lia. by apply andb_true_iff in Hok as [_ ?]. }
  cbn [string_ok] in Hok |- *. destruct (isc 92 c) eqn:E92.
  - destruct s1 as [|e s2]; [done|]. cbn [html_escape].
    assert (He : html_special e = false /\ isc 226 e = false).
    { unfold html_special. destruct (isc 117 e) eqn:Eu.
      - apply isc_true in Eu. by rewrite !isc_false by lia.
      - apply andb_true_iff in Hok as [Hok _]. unfold short_escape in Hok. cbv zeta in Hok.
        repeat apply orb_true_iff in Hok as [Hok|Hok]; apply Z.eqb_eq in Hok; by rewrite !isc_false by lia. }
    destruct He as [-> ->]. cbv beta iota. cbn [string_ok]. 
    destruct (isc 117 e) eqn:Eu.
    + destruct s2 as [|h1 [|h2 [|h3 [|h4 s3]]]]; try done.
      apply andb_true_iff in Hok as [Hh Hok].
      assert (Hx : forall h t, is_hex h = true -> html_escape (h :: t) = h :: html_escape t).
      { intros h t Hhex. cbn [html_escape]. unfold is_hex in Hhex. cbv zeta in Hhex.
        repeat apply orb_true_iff in Hhex as [Hhex|Hhex]; apply between_iff in Hhex;
          unfold html_special; by rewrite !isc_false by lia. }
      repeat apply andb_true_iff in Hh as [Hh ?].
      rewrite !Hx by done. rewrite Hh. repeat (match goal with H : is_hex _ = true |- _ => rewrite H end).
      cbn [andb]. apply IH; [simpl; lia|done].
    + apply andb_true_iff in Hok as [-> Hok]. cbn [andb]. apply IH; [simpl; lia|done].
  - apply andb_true_iff in Hok as [-> Hok]. cbn [andb]. apply IH; [simpl; lia|done].
Qed.

Definition starts_separator (s : bytes) : bool :=
  match s with b :: d :: _ => isc 128 b && (isc 168 d || isc 169 d) | _ => false end.

Lemma html_escape_plain c s :
  html_special c = false -> isc 226 c = false -> html_escape (c :: s) = c :: html_escape s.
Proof. simpl. by intros -> ->. Qed.

Lemma html_escape_226 c s :
  isc 226 c = true -> starts_separator s = false -> html_escape (c :: s) = c :: html_escape s.
Proof.
  intros Hc Hs. cbn [html_escape]. apply isc_true in Hc as Hc'. rewrite Hc.
  unfold html_special. rewrite !isc_false by lia. cbn [orb].
  destruct s as [|b [|d s]]; try done. simpl in Hs. by rewrite Hs.
Qed.

(** What an escaped text starts with. *)
Lemma html_escape_head c s :
  exists t, html_escape (c :: s) = backslash :: t \/ html_escape (c :: s) = c :: html_escape s.
Proof.
  destruct (html_special c) eqn:Es; [cbn [html_escape]; rewrite Es; eexists; by left|].
  destruct (isc 226 c) eqn:E; [|rewrite html_escape_plain by done; exists []; by right].
  destruct (starts_separator s) eqn:Esep; [|rewrite html_escape_226 by done; exists []; by right].
  cbn [html_escape]. rewrite Es, E. destruct s as [|b [|d s]]; try done. simpl in Esep. rewrite Esep.
  eexists. by left.
Qed.

Lemma html_escape_separator s :
  starts_separator (html_escape s) = true -> starts_separator s = true.
Proof.
  destruct s as [|b s]; [done|].
  destruct (html_escape_head b s) as [t [-> | ->]]; [by destruct t|].
  destruct s as [|d s]; [done|].
  destruct (html_escape_head d s) as [t' [-> | ->]]; [|done].
  simpl. by rewrite andb_false_r.
Qed.

Lemma html_escape_u z s :
  0 <= z < 65536 -> html_escape (u_escape z ++ s) = u_escape z ++ html_escape s.
Proof.
  intros Hz. unfold u_escape. cbn [app].
  assert (Hh : forall y t, 0 <= y < 16 -> html_escape (hex_digit y :: t) = hex_digit y :: html_escape t).
  { intros y t Hy. pose proof (hex_digit_hex y Hy) as Hx. unfold is_hex in Hx. cbv zeta in Hx.
    unfold html_special. apply html_escape_plain;
      repeat apply orb_true_iff in Hx as [Hx|Hx]; apply between_iff in Hx;
      unfold html_special; by rewrite !isc_false by lia. }
  rewrite (html_escape_plain backslash), (html_escape_plain (chr 117)) by done.
  rewrite !Hh by (Z.div_mod_to_equations; lia). done.
Qed.

Lemma html_escape_idem s : html_escape (html_escape s) = html_escape s.
Proof.
  induction s as [s IH] using bytes_ind. destruct s as [|c s]; [done|].
  pose proof (code_range c) as Hc.
  destruct (html_special c) eqn:Es.
  { cbn [html_escape]. rewrite Es, html_escape_u by lia. f_equal. apply IH. simpl. lia. }
  destruct (isc 226 c) eqn:E.
  - destruct (starts_separator s) eqn:Esep.
    + cbn [html_escape]. rewrite Es, E. destruct s as [|b [|d s]]; try done. simpl in Esep.
      rewrite Esep. apply andb_true_iff in Esep as [_ Ed].
      pose proof (code_range d). rewrite html_escape_u by lia. f_equal. apply IH. simpl. lia.
    + rewrite html_escape_226 by done. rewrite html_escape_226, IH; [done|simpl; lia|done|].
      destruct (starts_separator (html_escape s)) eqn:Es2; [|done].
      apply html_escape_separator in Es2. congruence.
  - rewrite html_escape_plain by done. rewrite html_escape_plain, IH by first [done|simpl; lia]. done.
Qed.

(** *** Numbers *)

(** What may follow a value inside a larger text: nothing that could go on a number. *)
Definition terminated (s : bytes) : Prop :=
  forall c r, s = c :: r -> is_digit c = false /\ code c <> 46 /\ code c <> 101 /\ code c <> 69.

Lemma span_digits_spec s ds r :
  span_digits s = (ds, r) ->
  s = ds ++ r /\ Forall (fun c => is_digit c = true) ds.
Proof.
  revert ds r. induction s as [|c s IH]; intros ds r; simpl; [by intros [= <- <-]|].
  destruct (is_digit c) eqn:E; [|by intros [= <- <-]].
  destruct (span_digits s) as [ds' r'] eqn:Es. intros [= <- <-].
  destruct (IH _ _ eq_refl) as [-> Hd]. split; [done|by constructor].
Qed.

Definition no_digit (s : bytes) : Prop := forall c r, s = c :: r -> is_digit c = false.

Lemma digits1_again s ds r t :
  digits1 s = Some (ds, r) -> no_digit t ->
  digits1 (ds ++ t) = Some (ds, t) /\ exists c l, ds = c :: l /\ is_digit c = true.
Proof.
  unfold digits1. destruct (span_digits s) as [[|c ds'] r'] eqn:E; [done|]. intros [= <- <-] Ht.
  apply span_digits_spec in E as [_ Hd]. rewrite span_digits_app by done. split; [done|].
  exists c, ds'. split; [done|]. by inversion Hd.
Qed.

Lemma digits1_shorter s ds r : digits1 s = Some (ds, r) -> (length r < length s)%nat.
Proof.
  unfold digits1. destruct (span_digits s) as [[|c ds'] r'] eqn:E; [done|]. intros [= <- <-].
  apply span_digits_spec in E as [-> _]. rewrite length_app. simpl. lia.
Qed.

Lemma int_part_again s i r t :
  int_part s = Some (i, r) -> no_digit t ->
  int_part (i ++ t) = Some (i, t) /\ exists c l, i = c :: l /\ is_digit c = true.
Proof.
  destruct s as [|c s]; [done|]. cbn [int_part]. destruct (isc 48 c) eqn:E.
  - intros [= <- <-] Ht. simpl. rewrite E. split; [done|]. exists c, []. split; [done|].
    apply isc_true in E. unfold is_digit. by rewrite E.
  - intros Hd Ht. destruct (digits1_again _ _ _ t Hd Ht) as (H1&c'&l&->&Hc).
    assert (c' = c) as ->.
    { unfold digits1 in Hd. simpl in Hd. destruct (is_digit c); [|done].
      destruct (span_digits s) as [ds r']. by injection Hd. }
    split; [|by exists c, l]. cbn [app int_part]. rewrite E. exact H1.
Qed.

Lemma frac_part_again s f r t :
  frac_part s = Some (f, r) -> no_digit t -> (forall c l, t = c :: l -> code c <> 46) ->
  frac_part (f ++ t) = Some (f, t) /\ no_digit (f ++ t).
Proof.
  intros Hf Ht Hd.
  assert (H0 : frac_part ([] ++ t) = Some ([], t) /\ no_digit ([] ++ t)).
  { split; [|done]. simpl. destruct t as [|c t]; [done|]. simpl.
    by rewrite isc_false by (by eapply Hd). }
  destruct s as [|c s]; cbn [frac_part] in Hf; [by injection Hf as <- <-|].
  destruct (isc 46 c) eqn:E; [|by injection Hf as <- <-].
  destruct (digits1 s) as [[ds r']|] eqn:Ed; [|done]. injection Hf as <- <-.
  destruct (digits1_again _ _ _ t Ed Ht) as (H1&_). split.
  - cbn [app frac_part]. by rewrite E, H1.
  - intros c' l [= <- _]. apply isc_true in E. unfold is_digit. by rewrite E.
Qed.

Lemma exp_part_again s e r t :
  exp_part s = Some (e, r) -> terminated t ->
  exp_part (e ++ t) = Some (e, t) /\ no_digit (e ++ t) /\ (forall c l, e ++ t = c :: l -> code c <> 46).
Proof.
  intros He Ht. assert (Hn : no_digit t) by (intros c l Hc; by destruct (Ht c l Hc)).
  assert (H0 : exp_part ([] ++ t) = Some ([], t) /\ no_digit ([] ++ t) /\
                (forall c l, [] ++ t = c :: l -> code c <> 46)).
  { split; [|split; [done|]]; simpl.
    - destruct t as [|c t]; [done|]. simpl. destruct (Ht c t eq_refl) as (_&_&?&?).
      by rewrite !isc_false by done.
    - intros c l Hc. by destruct (Ht c l Hc) as (_&?&_). }
  destruct s as [|c s]; cbn [exp_part] in He; [by injection He as <- <-|].
  destruct (isc 101 c || isc 69 c) eqn:E; [|by injection He as <- <-].
  assert (Hc : code c = 101 \/ code c = 69) by (apply orb_true_iff in E as [E|E]; apply isc_true in E; auto).
  assert (Hhead : forall u, no_digit (c :: u) /\ (forall c' l, c :: u = c' :: l -> code c' <> 46)).
  { intros u. split; intros c' l [= <- _]; [|lia]. unfold is_digit. apply between_false. lia. }
  destruct s as [|sg s]; [done|]. destruct (isc 43 sg || isc 45 sg) eqn:Esg.
  - destruct (digits1 s) as [[ds r']|] eqn:Ed; [|done]. injection He as <- <-.
    destruct (digits1_again _ _ _ t Ed Hn) as (H1&_). split; [|apply Hhead].
    cbn [app exp_part]. by rewrite E, Esg, H1.
  - destruct (digits1 (sg :: s)) as [[ds r']|] eqn:Ed; [|done]. injection He as <- <-.
    destruct (digits1_again _ _ _ t Ed Hn) as (H1&c'&l&->&Hd). split; [|apply Hhead].
    cbn [app exp_part]. rewrite E. unfold is_digit in Hd. apply between_iff in Hd.
    rewrite !isc_false by lia. cbn [orb app] in H1 |- *. by rewrite H1.
Qed.

(** A number that was read is read again before anything that does not go on with it. *)
Lemma unsigned_again s l r t :
  unsigned s = Some (l, r) -> terminated t ->
  unsigned (l ++ t) = Some (l, t) /\ exists c k, l = c :: k /\ is_digit c = true.
Proof.
  unfold unsigned. intros Hu Ht.
  destruct (int_part s) as [[i s1]|] eqn:Ei; [|done]. cbn [mbind option_bind] in Hu.
  destruct (frac_part s1) as [[f s2]|] eqn:Ef; [|done]. cbn [mbind option_bind] in Hu.
  destruct (exp_part s2) as [[e s3]|] eqn:Ee; [|done]. cbn [mbind option_bind] in Hu.
  injection Hu as <- <-.
  destruct (exp_part_again _ _ _ t Ee Ht) as (He&Hn1&Hd).
  destruct (frac_part_again _ _ _ _ Ef Hn1 Hd) as [Hf Hn2].
  destruct (int_part_again _ _ _ _ Ei Hn2) as (Hi&c&k&->&Hc).
  split; [|exists c, (k ++ f ++ e); done].
  rewrite <- !(assoc_L (++)). rewrite Hi. cbn [mbind option_bind]. rewrite Hf.
  cbn [mbind option_bind]. rewrite He. done.
Qed.

Lemma scan_number_again s l r t :
  scan_number s = Some (l, r) -> terminated t ->
  scan_number (l ++ t) = Some (l, t) /\ exists c k, l = c :: k /\ (code c = 45 \/ is_digit c = true).
Proof.
  destruct s as [|c s]; [done|]. cbn [scan_number]. destruct (isc 45 c) eqn:E; intros Hs Ht.
  - destruct (unsigned s) as [[l' r']|] eqn:Eu; [|done]. injection Hs as <- <-.
    destruct (unsigned_again _ _ _ t Eu Ht) as (H1&_). cbn [app scan_number]. rewrite E, H1.
    split; [done|]. exists c, l'. split; [done|left]. by apply isc_true.
  - destruct (unsigned_again _ _ _ t Hs Ht) as (H1&c'&k&->&Hc). split; [|exists c', k; auto].
    cbn [app scan_number] in *. unfold is_digit in Hc. apply between_iff in Hc.
    by rewrite (isc_false 45) by lia.
Qed.

Lemma scan_number_shorter s l r : scan_number s = Some (l, r) -> (length r < length s)%nat.
Proof.
  assert (Hi : forall s i r, int_part s = Some (i, r) -> (length r < length s)%nat).
  { intros [|c s'] i r'; [done|]. cbn [int_part]. destruct (isc 48 c); [intros [= <- <-]; simpl; lia|].
    apply digits1_shorter. }
  assert (Hf : forall s i r, frac_part s = Some (i, r) -> (length r <= length s)%nat).
  { intros [|c s'] i r'; cbn [frac_part]; [by intros [= <- <-]|].
    destruct (isc 46 c); [|by intros [= <- <-]]. destruct (digits1 s') as [[ds r'']|] eqn:E; [|done].
    apply digits1_shorter in E. intros [= <- <-]. simpl. lia. }
  assert (He : forall s i r, exp_part s = Some (i, r) -> (length r <= length s)%nat).
  { intros [|c s'] i r'; cbn [exp_part]; [by intros [= <- <-]|].
    destruct (_ || _); [|by intros [= <- <-]]. destruct s' as [|sg s']; [done|].
    destruct (_ || _).
    - destruct (digits1 s') as [[ds r'']|] eqn:E; [|done]. apply digits1_shorter in E.
      intros [= <- <-]. simpl in *. lia.
    - destruct (digits1 (sg :: s')) as [[ds r'']|] eqn:E; [|done]. apply digits1_shorter in E.
      intros [= <- <-]. simpl in *. lia. }
  assert (Hu : forall s l r, unsigned s = Some (l, r) -> (length r < length s)%nat).
  { intros u l' r'. unfold unsigned. destruct (int_part u) as [[i s1]|] eqn:Ei; [|done].
    cbn [mbind option_bind]. destruct (frac_part s1) as [[f s2]|] eqn:Ef; [|done].
    cbn [mbind option_bind]. destruct (exp_part s2) as [[e s3]|] eqn:Ee; [|done].
    cbn [mbind option_bind]. intros [= _ <-]. apply Hi in Ei. apply Hf in Ef. apply He in Ee. lia. }
  destruct s as [|c s]; [done|]. cbn [scan_number]. destruct (isc 45 c); [|apply Hu].
  destruct (unsigned s) as [[l' r']|] eqn:E; [|done]. intros [= _ <-]. apply Hu in E. simpl. lia.
Qed.
