(* ===== verification/JsonText.v ===== *)
(** * The grammar of JSON

    The scanner of Json.v needs no more fuel than the length of the text gives it, and
    the compact form of a value is read back as it is. *)

From S2P Require Import Prelude GoString Utf8 Rfc3339 Json.
From Stdlib Require Import Ascii.
#[local] Open Scope Z_scope.

Lemma skip_ws_cons s c s1 : skip_ws s = c :: s1 -> (length s1 < length s)%nat.
Proof. intros H. pose proof (skip_ws_length s) as Hl. rewrite H in Hl. simpl in Hl. lia. Qed.

Lemma word_spec w s c r : word w s = Some (c, r) -> c = w /\ s = w ++ r.
Proof.
  unfold word. destruct (has_prefix w s) eqn:E; [|done]. intros [= <- <-]. split; [done|].
  revert s E. induction w as [|a w IH]; intros s E; [done|]. destruct s as [|b s]; [done|].
  simpl in E. apply andb_true_iff in E as [Ea E]. bool_props. subst b. simpl. f_equal. by apply IH.
Qed.

Lemma has_prefix_app w s : has_prefix w (w ++ s) = true.
Proof. induction w as [|a w IH]; [done|]. simpl. by rewrite bool_decide_true. Qed.

Lemma word_again w s : word w (w ++ s) = Some (w, s).
Proof. unfold word. by rewrite has_prefix_app, drop_app_length. Qed.

(** ** Fuel *)

(** What is read is shorter than the text. *)
Lemma shorter n :
  (forall d s c r, value n d s = Some (c, r) -> (length r < length s)%nat) /\
  (forall d s es r, elements n d s = Some (es, r) -> (length r < length s)%nat) /\
  (forall d s ms r, members n d s = Some (ms, r) -> (length r < length s)%nat).
Proof.
  induction n as [|n (IHv&IHe&IHm)]; [done|]. split; [|split].
  - intros d s c r. cbn [value]. destruct (skip_ws s) as [|c0 s1] eqn:E; [done|].
    apply skip_ws_cons in E as Hl.
    destruct (isc 123 c0); [|destruct (isc 91 c0); [|destruct (isc 34 c0)]].
    + destruct (d <=? 0); [done|]. destruct (skip_ws s1) as [|c2 s2] eqn:E1; [done|].
      apply skip_ws_cons in E1. destruct (isc 125 c2); [intros [= _ <-]; lia|].
      destruct (members n (d - 1) (c2 :: s2)) as [[ms r']|] eqn:Em; [|done].
      apply IHm in Em. intros [= _ <-]. simpl in Em. lia.
    + destruct (d <=? 0); [done|]. destruct (skip_ws s1) as [|c2 s2] eqn:E1; [done|].
      apply skip_ws_cons in E1. destruct (isc 93 c2); [intros [= _ <-]; lia|].
      destruct (elements n (d - 1) (c2 :: s2)) as [[es r']|] eqn:Ee; [|done].
      apply IHe in Ee. intros [= _ <-]. simpl in Ee. lia.
    + destruct (scan_string s1) as [[raw r']|] eqn:Es; [|done]. apply scan_string_length in Es.
      intros [= _ <-]. lia.
    + intros H. assert (Hr : (length r < length (c0 :: s1))%nat); [|simpl in Hr; lia].
      repeat match type of H with context [if ?b then _ else _] => destruct b end;
        try (apply word_spec in H as [_ H]; rewrite H, length_app; simpl; lia).
      by apply scan_number_shorter in H.
  - intros d s es r. cbn [elements]. destruct (value n d s) as [[v r1]|] eqn:Ev; [|done].
    apply IHv in Ev. destruct (skip_ws r1) as [|c r2] eqn:E; [done|]. apply skip_ws_cons in E.
    destruct (isc 44 c); [|destruct (isc 93 c); [intros [= _ <-]; lia|done]].
    destruct (elements n d r2) as [[es' r3]|] eqn:Ee; [|done]. apply IHe in Ee. intros [= _ <-]. lia.
  - intros d s ms r. cbn [members]. destruct (skip_ws s) as [|q s1] eqn:Eq; [done|].
    apply skip_ws_cons in Eq. destruct (isc 34 q); [|done].
    destruct (scan_string s1) as [[key s2]|] eqn:Ek; [|done]. apply scan_string_length in Ek.
    destruct (skip_ws s2) as [|c s3] eqn:Ec; [done|]. apply skip_ws_cons in Ec.
    destruct (isc 58 c); [|done]. destruct (value n d s3) as [[v r1]|] eqn:Ev; [|done].
    apply IHv in Ev. cbv zeta. destruct (skip_ws r1) as [|c1 r2] eqn:E; [done|]. apply skip_ws_cons in E.
    destruct (isc 44 c1); [|destruct (isc 125 c1); [intros [= _ <-]; lia|done]].
    destruct (members n d r2) as [[ms' r3]|] eqn:Em; [|done]. apply IHm in Em. intros [= _ <-]. lia.
Qed.

(** The fuel of the length is enough, and a greater depth changes nothing. *)
Lemma enough n :
  (forall m d d' s x, value n d s = Some x -> (2 * length s + 1 <= m)%nat -> d <= d' -> value m d' s = Some x) /\
  (forall m d d' s x, elements n d s = Some x -> (2 * length s + 2 <= m)%nat -> d <= d' -> elements m d' s = Some x) /\
  (forall m d d' s x, members n d s = Some x -> (2 * length s + 2 <= m)%nat -> d <= d' -> members m d' s = Some x).
Proof.
  induction n as [|n (IHv&IHe&IHm)]; [done|]. split; [|split]; intros m d d' s x H Hm Hd;
    (destruct m as [|m]; [lia|]).
  - cbn [value] in *. destruct (skip_ws s) as [|c0 s1] eqn:E; [done|].
    apply skip_ws_cons in E as Hl.
    destruct (isc 123 c0); [|destruct (isc 91 c0); [|done]].
    + destruct (d <=? 0) eqn:Ed; [done|]. bool_props. rewrite (proj2 (Z.leb_gt d' 0)) by lia.
      destruct (skip_ws s1) as [|c2 s2] eqn:E1; [done|]. apply skip_ws_cons in E1.
      destruct (isc 125 c2); [done|].
      destruct (members n (d - 1) (c2 :: s2)) as [[ms r']|] eqn:Em; [|done].
      by rewrite (IHm m (d - 1) (d' - 1) _ _ Em) by (simpl; lia).
    + destruct (d <=? 0) eqn:Ed; [done|]. bool_props. rewrite (proj2 (Z.leb_gt d' 0)) by lia.
      destruct (skip_ws s1) as [|c2 s2] eqn:E1; [done|]. apply skip_ws_cons in E1.
      destruct (isc 93 c2); [done|].
      destruct (elements n (d - 1) (c2 :: s2)) as [[es r']|] eqn:Ee; [|done].
      by rewrite (IHe m (d - 1) (d' - 1) _ _ Ee) by (simpl; lia).
  - cbn [elements] in *. destruct (value n d s) as [[v r1]|] eqn:Ev; [|done].
    rewrite (IHv m d d' _ _ Ev) by lia. apply (proj1 (shorter n)) in Ev.
    destruct (skip_ws r1) as [|c r2] eqn:E; [done|]. apply skip_ws_cons in E.
    destruct (isc 44 c); [|done].
    destruct (elements n d r2) as [[es' r3]|] eqn:Ee; [|done].
    by rewrite (IHe m d d' _ _ Ee) by lia.
  - cbn [members] in *. destruct (skip_ws s) as [|q s1] eqn:Eq; [done|].
    apply skip_ws_cons in Eq. destruct (isc 34 q); [|done].
    destruct (scan_string s1) as [[key s2]|] eqn:Ek; [|done]. apply scan_string_length in Ek.
    destruct (skip_ws s2) as [|c s3] eqn:Ec; [done|]. apply skip_ws_cons in Ec.
    destruct (isc 58 c); [|done]. destruct (value n d s3) as [[v r1]|] eqn:Ev; [|done].
    rewrite (IHv m d d' _ _ Ev) by lia. apply (proj1 (shorter n)) in Ev. cbv zeta in *.
    destruct (skip_ws r1) as [|c1 r2] eqn:E; [done|]. apply skip_ws_cons in E.
    destruct (isc 44 c1); [|done].
    destruct (members n d r2) as [[ms' r3]|] eqn:Em; [|done].
    by rewrite (IHm m d d' _ _ Em) by lia.
Qed.

Lemma value_enough n m d d' s x :
  value n d s = Some x -> (fuel_of s <= m)%nat -> d <= d' -> value m d' s = Some x.
Proof. intros H Hm. by apply (proj1 (enough n) m d d' s x H). Qed.

(** No fuel finds a value where the fuel of the length finds none. *)
Lemma value_none n d s : value (fuel_of s) d s = None -> value n d s = None.
Proof.
  intros H. destruct (value n d s) as [x|] eqn:E; [|done].
  rewrite (value_enough _ _ _ _ _ _ E) in H by lia. done.
Qed.

(** ** Compact texts *)

(** The member a compact one is read back as. *)
Definition compacted (m : member) : member :=
  Member (html_escape (mb_key m)) (mb_compact m) (mb_compact m).

Lemma compacted_text m : member_text (compacted m) = member_text m.
Proof. unfold member_text. simpl. by rewrite html_escape_idem. Qed.

Lemma compacted_object ms : object_text (map compacted ms) = object_text ms.
Proof. unfold object_text. rewrite map_map. by erewrite map_ext by apply compacted_text. Qed.

Definition starts_dark (c : bytes) : Prop := exists c0 l, c = c0 :: l /\ json_space c0 = false.

Lemma starts_dark_skip c t : starts_dark c -> skip_ws (c ++ t) = c ++ t.
Proof. intros (c0&l&->&H). cbn [app]. by apply skip_ws_stop. Qed.

Lemma commas_cons t ts : ts <> [] -> commas (t :: ts) = t ++ comma :: commas ts.
Proof. by destruct ts. Qed.

Lemma app_cons_app {A} (x y z : list A) c : (x ++ c :: y) ++ z = x ++ c :: y ++ z.
Proof. by rewrite <- (assoc_L (++)). Qed.

Lemma quoted_app raw t : quoted raw ++ t = quote_mark :: raw ++ quote_mark :: t.
Proof. unfold quoted. simpl. by rewrite <- (assoc_L (++)). Qed.

Lemma terminated_mark z t :
  0 <= z < 256 -> z = 44 \/ z = 93 \/ z = 125 -> terminated (chr z :: t).
Proof.
  intros H Hz c r [= <- <-]. rewrite !code_chr by lia. unfold is_digit. rewrite code_chr by lia.
  rewrite between_false by lia. lia.
Qed.

Lemma take_before (v t : bytes) : take (length (v ++ t) - length t) (v ++ t) = v.
Proof. rewrite length_app. apply take_app_length'. lia. Qed.

(** What one member of a compact object is read as, given what its value is read as. *)
Lemma members_step n d key v t :
  string_ok key = true -> starts_dark v -> value n d (v ++ t) = Some (v, t) ->
  members (S n) d (quoted key ++ colon :: v ++ t) =
    match skip_ws t with
    | c :: r =>
        if isc 44 c then
          match members n d r with Some (ms, r) => Some (Member key v v :: ms, r) | None => None end
        else if isc 125 c then Some ([Member key v v], r) else None
    | [] => None
    end.
Proof.
  intros Hk Hd Hv. rewrite quoted_app. cbn [members]. rewrite skip_ws_stop by done.
  change (isc 34 quote_mark) with true. cbv iota. rewrite scan_string_ok by done.
  rewrite skip_ws_stop by done. change (isc 58 colon) with true. cbv iota. rewrite Hv.
  cbv zeta. rewrite starts_dark_skip, take_before by done. done.
Qed.

(** A compact value is read as itself, with the same fuel. *)
Definition value_again (n : nat) : Prop := forall d s c r t,
  value n d s = Some (c, r) -> terminated t -> starts_dark c /\ value n d (c ++ t) = Some (c, t).

Definition elements_again (n : nat) : Prop := forall d s es r t,
  elements n d s = Some (es, r) ->
  es <> [] /\ (exists c l, commas es = c :: l /\ json_space c = false /\ isc 93 c = false) /\
  elements n d (commas es ++ close_bracket :: t) = Some (es, t).

Definition members_again (n : nat) : Prop := forall d s ms r t,
  members n d s = Some (ms, r) ->
  ms <> [] /\ (exists l, commas (map member_text ms) = quote_mark :: l) /\
  members n d (commas (map member_text ms) ++ close_brace :: t) = Some (map compacted ms, t).

Lemma number_again s c r t :
  scan_number s = Some (c, r) -> terminated t ->
  starts_dark c /\ forall n d, value (S n) d (c ++ t) = Some (c, t).
Proof.
  intros Hv Ht.
  destruct (scan_number_again _ _ _ t Hv Ht) as (Hn&c1&k&->&Hc).
  assert (Hsp : json_space c1 = false /\ isc 123 c1 = false /\ isc 91 c1 = false /\ isc 34 c1 = false
                /\ isc 116 c1 = false /\ isc 102 c1 = false /\ isc 110 c1 = false).
  { assert (code c1 = 45 \/ 48 <= code c1 <= 57).
    { destruct Hc as [Hc|Hc]; [by left|right]. unfold is_digit in Hc. by apply between_iff in Hc. }
    unfold json_space, isc. cbv zeta.
    repeat (rewrite (proj2 (Z.eqb_neq (code c1) _)) by lia). done. }
  destruct Hsp as (H1&H2&H3&H4&H5&H6&H7). split; [by exists c1, k|]. intros n d.
  cbn [app value]. rewrite skip_ws_stop by done. by rewrite H2, H3, H4, H5, H6, H7.
Qed.

(** No value begins with a closing bracket. *)
Lemma value_no_bracket n d c l v :
  json_space c = false -> value n d (c :: l) = Some v -> isc 93 c = false.
Proof.
  intros Hs Hr. destruct (isc 93 c) eqn:E93; [|done]. exfalso.
  destruct n as [|n]; [done|]. cbn [value] in Hr. rewrite skip_ws_stop in Hr by done.
  apply isc_true in E93. rewrite !isc_false in Hr by lia. cbn [scan_number] in Hr.
  rewrite isc_false in Hr by lia. unfold unsigned in Hr. cbn [int_part] in Hr.
  rewrite isc_false in Hr by lia. unfold digits1 in Hr. cbn [span_digits] in Hr.
  unfold is_digit in Hr. rewrite between_false in Hr by lia. done.
Qed.

Lemma value_again_step n : elements_again n -> members_again n -> value_again (S n).
Proof.
  intros IHe IHm.
  intros d s c r t Hv Ht. cbn [value] in Hv. destruct (skip_ws s) as [|c0 s1]; [done|].
  destruct (isc 123 c0) eqn:E123; [|destruct (isc 91 c0) eqn:E91; [|destruct (isc 34 c0) eqn:E34]].
  + destruct (d <=? 0) eqn:Ed; [done|]. destruct (skip_ws s1) as [|c2 s2]; [done|].
    destruct (isc 125 c2).
    { injection Hv as <- <-. split; [by exists open_brace, [close_brace]|].
      cbn -[Z.leb]. by rewrite Ed. }
    destruct (members n (d - 1) (c2 :: s2)) as [[ms r']|] eqn:Em; [|done]. injection Hv as <- <-.
    split; [eexists open_brace, _; done|].
    destruct (IHm _ _ _ _ t Em) as (_&[l Hl]&Hm). unfold object_text at 1.
    cbn [app value]. rewrite <- (assoc_L (++)). cbn [app].
    rewrite skip_ws_stop by done. change (isc 123 open_brace) with true. rewrite Ed. cbv iota.
    rewrite Hl in Hm |- *. cbn [app] in *. rewrite skip_ws_stop by done.
    change (isc 125 quote_mark) with false. cbv iota. rewrite Hm. by rewrite compacted_object.
  + destruct (d <=? 0) eqn:Ed; [done|]. destruct (skip_ws s1) as [|c2 s2]; [done|].
    destruct (isc 93 c2).
    { injection Hv as <- <-. split; [by exists open_bracket, [close_bracket]|].
      cbn -[Z.leb]. by rewrite Ed. }
    destruct (elements n (d - 1) (c2 :: s2)) as [[es r']|] eqn:Ee; [|done]. injection Hv as <- <-.
    split; [eexists open_bracket, _; done|].
    destruct (IHe _ _ _ _ t Ee) as (_&(c1&l&Hl&Hd&H93)&He). unfold array_text at 1.
    cbn [app value]. rewrite <- (assoc_L (++)). cbn [app].
    rewrite skip_ws_stop by done. change (isc 123 open_bracket) with false.
    change (isc 91 open_bracket) with true. rewrite Ed. cbv iota.
    rewrite Hl in He |- *. cbn [app] in *. rewrite skip_ws_stop, H93 by done. by rewrite He.
  + destruct (scan_string s1) as [[raw r']|] eqn:Es; [|done]. injection Hv as <- <-.
    split; [eexists quote_mark, _; done|]. rewrite quoted_app. cbn [value].
    rewrite skip_ws_stop by done. change (isc 123 quote_mark) with false.
    change (isc 91 quote_mark) with false. change (isc 34 quote_mark) with true. cbv iota.
    apply scan_string_spec in Es as [_ Hok].
    by rewrite scan_string_ok, html_escape_idem by by apply html_escape_ok.
  + destruct (isc 116 c0) eqn:E1.
    { apply word_spec in Hv as [-> _]. split; [by eexists _, _|]. apply (word_again (to_bytes "true")). }
    destruct (isc 102 c0) eqn:E2.
    { apply word_spec in Hv as [-> _]. split; [by eexists _, _|]. apply (word_again (to_bytes "false")). }
    destruct (isc 110 c0) eqn:E3.
    { apply word_spec in Hv as [-> _]. split; [by eexists _, _|]. apply (word_again (to_bytes "null")). }
    destruct (number_again _ _ _ t Hv Ht) as [Hd Hn]. by split.
Qed.

Lemma elements_again_step n : value_again n -> elements_again n -> elements_again (S n).
Proof.
  intros IHv IHe.
  intros d s es r t He. cbn [elements] in He. destruct (value n d s) as [[v r1]|] eqn:Ev; [|done].
  assert (Hdark : exists c l, v = c :: l /\ json_space c = false /\ isc 93 c = false).
  { destruct (IHv _ _ _ _ [] Ev ltac:(done)) as [(c&l&->&Hs) Hr]. exists c, l.
    split; [done|]. split; [done|]. by eapply value_no_bracket. }
  assert (Hdark' : starts_dark v) by (destruct Hdark as (c&l&->&?&_); by exists c, l).
  destruct (skip_ws r1) as [|c r2]; [done|]. destruct (isc 44 c).
  + destruct (elements n d r2) as [[es' r3]|] eqn:Ee; [|done]. injection He as <- <-.
    destruct (IHe _ _ _ _ t Ee) as (Hne&_&He'). split; [done|]. rewrite commas_cons by done.
    split; [destruct Hdark as (c0&l&->&Hs&H93); by eexists c0, _|].
    rewrite <- (assoc_L (++)). cbn [app elements].
    destruct (IHv _ _ _ _ (comma :: commas es' ++ close_bracket :: t) Ev) as [_ Hv];
      [by apply (terminated_mark 44); lia|].
    rewrite Hv, skip_ws_stop by done. change (isc 44 comma) with true. cbv iota. by rewrite He'.
  + destruct (isc 93 c); [|done]. injection He as <- <-. split; [done|]. cbn [commas].
    split; [exact Hdark|]. cbn [elements].
    destruct (IHv _ _ _ _ (close_bracket :: t) Ev) as [_ Hv]; [by apply (terminated_mark 93); lia|].
    rewrite Hv, skip_ws_stop by done. done.
Qed.

Lemma members_again_step n : value_again n -> members_again n -> members_again (S n).
Proof.
  intros IHv IHm.
  intros d s ms r t Hm. cbn [members] in Hm. destruct (skip_ws s) as [|q s1]; [done|].
  destruct (isc 34 q); [|done]. destruct (scan_string s1) as [[key s2]|] eqn:Ek; [|done].
  apply scan_string_spec in Ek as [_ Hok]. apply html_escape_ok in Hok.
  destruct (skip_ws s2) as [|c s3]; [done|]. destruct (isc 58 c); [|done].
  destruct (value n d s3) as [[v r1]|] eqn:Ev; [|done]. cbv zeta in Hm.
  destruct (skip_ws r1) as [|c1 r2]; [done|]. destruct (isc 44 c1).
  + destruct (members n d r2) as [[ms' r3]|] eqn:Em; [|done]. injection Hm as <- <-.
    destruct (IHm _ _ _ _ t Em) as (Hne&_&Hm'). split; [done|]. cbn [map].
    rewrite commas_cons by by destruct ms'.
    split; [eexists; done|]. unfold member_text at 1. cbn [mb_key mb_compact].
    rewrite app_cons_app, app_cons_app.
    destruct (IHv _ _ _ _ (comma :: commas (map member_text ms') ++ close_brace :: t) Ev) as [Hd Hv];
      [by apply (terminated_mark 44); lia|].
    rewrite members_step by done. rewrite skip_ws_stop by done.
    change (isc 44 comma) with true. cbv iota. by rewrite Hm'.
  + destruct (isc 125 c1); [|done]. injection Hm as <- <-. split; [done|]. cbn [map commas].
    split; [eexists; done|]. unfold member_text at 1. cbn [mb_key mb_compact].
    rewrite app_cons_app.
    destruct (IHv _ _ _ _ (close_brace :: t) Ev) as [Hd Hv]; [by apply (terminated_mark 125); lia|].
    rewrite members_step by done. rewrite skip_ws_stop by done. done.
Qed.

Lemma again n : value_again n /\ elements_again n /\ members_again n.
Proof.
  induction n as [|n (IHv&IHe&IHm)]; [done|].
  split; [by apply value_again_step|]. split; [by apply elements_again_step|by apply members_again_step].
Qed.
