(* ===== verification/JsonString.v ===== *)
(** * JSON strings

    How encoding/json quotes a Go string and what it reads a quoted one as: a string that
    is valid UTF-8 comes back, anything else comes back with U+FFFD in its place. *)

From S2P Require Import Prelude GoString Utf8 Rfc3339 Json JsonText.
From Stdlib Require Import Ascii.
#[local] Open Scope Z_scope.

(** ** Quoting *)

(** [appendString] with HTML escaping, one byte of ASCII at a time ... *)
Definition quote_byte (c : ascii) : bytes :=
  let z := code c in
  if (z =? 92) || (z =? 34) then [backslash; c]
  else if z =? 8 then [backslash; chr 98]
  else if z =? 12 then [backslash; chr 102]
  else if z =? 10 then [backslash; chr 110]
  else if z =? 13 then [backslash; chr 114]
  else if z =? 9 then [backslash; chr 116]
  else if (z <? 32) || html_special c then u_escape z
  else [c].

(** ... and one character beyond. *)
Fixpoint quote_fuel (n : nat) (s : bytes) : bytes :=
  match n, s with
  | S n, c :: s' =>
      if code c <? 128 then quote_byte c ++ quote_fuel n s'
      else
        let '(r, w) := decode_rune s in
        (if (r =? RuneError) && (w =? 1)%nat then u_escape RuneError
         else if (r =? 8232) || (r =? 8233) then u_escape r
         else take w s) ++ quote_fuel n (drop w s)
  | _, _ => []
  end.
Definition quote (s : string) : bytes := quote_fuel (length (to_bytes s)) (to_bytes s).

(** ** Unquoting *)

Definition hex_value (c : ascii) : Z :=
  let z := code c in if z <=? 57 then z - 48 else if z <=? 70 then z - 55 else z - 87.

Definition u4 (h1 h2 h3 h4 : ascii) : Z :=
  hex_value h1 * 4096 + hex_value h2 * 256 + hex_value h3 * 16 + hex_value h4.

(** [getu4]: the number of an escape [\uXXXX] at the beginning of a text. *)
Definition getu4 (s : bytes) : option (Z * bytes) :=
  match s with
  | b :: u :: h1 :: h2 :: h3 :: h4 :: r =>
      if isc 92 b && isc 117 u && is_hex h1 && is_hex h2 && is_hex h3 && is_hex h4
      then Some (u4 h1 h2 h3 h4, r) else None
  | _ => None
  end.

(** The character an escape stands for, with the second half of a surrogate pair. *)
Definition unescape_u (z : Z) (s : bytes) : Z * bytes :=
  if between 55296 57343 z then
    match getu4 s with
    | Some (z', r) =>
        if (z <? 56320) && between 56320 57343 z'
        then ((z - 55296) * 1024 + (z' - 56320) + 65536, r) else (RuneError, s)
    | None => (RuneError, s)
    end
  else (z, s).

Definition unescape_short (e : ascii) : ascii :=
  let z := code e in
  if z =? 98 then chr 8 else if z =? 102 then chr 12 else if z =? 110 then chr 10
  else if z =? 114 then chr 13 else if z =? 116 then chr 9 else e.

Fixpoint unquote_fuel (n : nat) (s : bytes) : bytes :=
  match n, s with
  | S n, c :: s1 =>
      if isc 92 c then
        match getu4 s with
        | Some (z, r) => let '(z, r) := unescape_u z r in encode_rune z ++ unquote_fuel n r
        | None =>
            match s1 with
            | e :: s2 => unescape_short e :: unquote_fuel n s2
            | [] => []
            end
        end
      else if code c <? 128 then c :: unquote_fuel n s1
      else let '(r, w) := decode_rune s in encode_rune r ++ unquote_fuel n (drop w s)
  | _, _ => []
  end.
Definition unquote (s : bytes) : string := of_bytes (unquote_fuel (length s) s).

Example quote_special : quote (of_bytes (text "a'<\" ++ [chr 10; chr 255; chr 1])) =
  to_bytes "a\" ++ text "'\u003c\\\n\ufffd\u0001".
Proof. vm_compute. reflexivity. Qed.
Example unquote_pair : unquote (to_bytes "\ud83d\ude00\ud83d\/") = 
  of_bytes (encode_rune 128512 ++ encode_rune RuneError ++ to_bytes "/").
Proof. vm_compute. reflexivity. Qed.

(** ** One character *)

Definition quote_rune (r : Z) : bytes :=
  if r <? 128 then quote_byte (chr r)
  else if (r =? 8232) || (r =? 8233) then u_escape r
  else encode_rune r.

(** What a quoted byte of ASCII is, by cases. *)
Lemma quote_byte_cases c :
  code c < 128 ->
  (exists e, quote_byte c = [backslash; e] /\ short_escape e = true /\ unescape_short e = c /\
     isc 117 e = false /\ html_special e = false /\ isc 226 e = false) \/
  (quote_byte c = u_escape (code c)) \/
  (quote_byte c = [c] /\ isc 92 c = false /\ isc 34 c = false /\ 32 <= code c /\ html_special c = false).
Proof.
  intros Hc. pose proof (code_range c) as Hr. unfold quote_byte. cbv zeta.
  assert (Hsame : forall e z, code c = z -> 0 <= z < 256 -> e = chr z -> e = c).
  { intros e z H1 Hz ->. by rewrite <- H1, chr_code. }
  destruct ((code c =? 92) || (code c =? 34)) eqn:E1.
  { left. exists c. split; [done|]. apply orb_true_iff in E1 as [E|E]; apply Z.eqb_eq in E;
      unfold short_escape, unescape_short, html_special, isc; rewrite E; repeat split. }
  apply orb_false_iff in E1 as [E92 E34].
  destruct (code c =? 8) eqn:E; [apply Z.eqb_eq in E; left; exists (chr 98); repeat split; by apply (Hsame _ 8)|].
  destruct (code c =? 12) eqn:E2; [apply Z.eqb_eq in E2; left; exists (chr 102); repeat split; by apply (Hsame _ 12)|].
  destruct (code c =? 10) eqn:E3; [apply Z.eqb_eq in E3; left; exists (chr 110); repeat split; by apply (Hsame _ 10)|].
  destruct (code c =? 13) eqn:E4; [apply Z.eqb_eq in E4; left; exists (chr 114); repeat split; by apply (Hsame _ 13)|].
  destruct (code c =? 9) eqn:E5; [apply Z.eqb_eq in E5; left; exists (chr 116); repeat split; by apply (Hsame _ 9)|].
  right. destruct ((code c <? 32) || html_special c) eqn:E6; [by left|right].
  apply orb_false_iff in E6 as [E6 E7]. bool_props. split; [done|]. split; [done|]. done.
Qed.

(** The bytes of an encoded character beyond ASCII. *)
Lemma encode_high r : valid_rune r = true -> 128 <= r -> Forall (fun c => 128 <= code c) (encode_rune r).
Proof.
  intros Hr Hge. destruct (encode_rune_cases r Hr) as [[H ->]|[[H ->]|[[H ->]|[H ->]]]]; [lia|..];
    repeat (constructor; [rewrite code_chr by (Z.div_mod_to_equations; lia); Z.div_mod_to_equations; lia|]);
    constructor.
Qed.

Lemma string_ok_high l s : Forall (fun c => 128 <= code c) l -> string_ok (l ++ s) = string_ok s.
Proof.
  induction 1 as [|c l Hc _ IH]; [done|]. cbn [app string_ok].
  rewrite (isc_false 92), (isc_false 34), (proj2 (Z.leb_le 32 _)) by lia. exact IH.
Qed.

Lemma quote_rune_ok r s : valid_rune r = true -> string_ok (quote_rune r ++ s) = string_ok s.
Proof.
  intros Hr. apply valid_rune_cases in Hr as Hc. unfold quote_rune. destruct (r <? 128) eqn:E; bool_props.
  - assert (Hlt : code (chr r) < 128) by (rewrite code_chr; lia).
    destruct (quote_byte_cases (chr r) Hlt) as [(e&->&He&_&Hu&_)|[->|(->&H1&H2&H3&_)]].
    + cbn [app string_ok]. change (isc 92 backslash) with true. cbv iota. by rewrite Hu, He.
    + apply u_escape_ok. rewrite code_chr by lia. lia.
    + cbn [app string_ok]. rewrite H1, H2. by rewrite (proj2 (Z.leb_le 32 _)) by lia.
  - destruct ((r =? 8232) || (r =? 8233)) eqn:Es.
    + apply u_escape_ok. apply orb_true_iff in Es as [Es|Es]; apply Z.eqb_eq in Es; lia.
    + by apply string_ok_high, encode_high.
Qed.

(** A separator is spelled by the character it is. *)
Lemma encode_no_separator r s c l :
  valid_rune r = true -> 128 <= r -> r <> 8232 -> r <> 8233 -> encode_rune r = c :: l -> isc 226 c = true ->
  starts_separator (l ++ s) = false.
Proof.
  intros Hr Hge H1 H2 He Hc. apply isc_true in Hc.
  destruct (encode_rune_cases r Hr) as [[H E]|[[H E]|[[H E]|[H E]]]]; rewrite E in He;
    injection He as <- <-; rewrite ?code_chr in Hc by (Z.div_mod_to_equations; lia); [lia|..];
    try (exfalso; Z.div_mod_to_equations; lia).
  cbn [app starts_separator]. unfold isc. rewrite !code_chr by (Z.div_mod_to_equations; lia).
  destruct (_ =? 128) eqn:E1; [|done]. apply Z.eqb_eq in E1. cbn [andb].
  apply orb_false_iff; split; apply Z.eqb_neq; Z.div_mod_to_equations; lia.
Qed.

Lemma html_escape_high l s :
  Forall (fun c => 128 <= code c /\ code c <> 226) l -> html_escape (l ++ s) = l ++ html_escape s.
Proof.
  induction 1 as [|c l [Hc Hn] _ IH]; [done|]. cbn [app].
  rewrite html_escape_plain, IH; [done| |by apply isc_false].
  unfold html_special. by rewrite !isc_false by lia.
Qed.

(** No byte but the first of a character can be that of a separator. *)
Lemma encode_tail r c l :
  valid_rune r = true -> encode_rune r = c :: l -> Forall (fun c => 128 <= code c /\ code c <> 226) l.
Proof.
  intros Hr He. destruct (encode_rune_cases r Hr) as [[H E]|[[H E]|[[H E]|[H E]]]]; rewrite E in He;
    injection He as <- <-;
    repeat (constructor; [rewrite code_chr by (Z.div_mod_to_equations; lia); Z.div_mod_to_equations; lia|]);
    constructor.
Qed.

Lemma quote_rune_escaped r s :
  valid_rune r = true -> html_escape (quote_rune r ++ s) = quote_rune r ++ html_escape s.
Proof.
  intros Hr. apply valid_rune_cases in Hr as Hc. unfold quote_rune. destruct (r <? 128) eqn:E; bool_props.
  - assert (Hlt : code (chr r) < 128) by (rewrite code_chr; lia).
    destruct (quote_byte_cases (chr r) Hlt) as [(e&->&_&_&_&H1&H2)|[->|(->&_&_&_&H1)]].
    + cbn [app]. rewrite (html_escape_plain backslash), html_escape_plain by done. done.
    + apply html_escape_u. rewrite code_chr by lia. lia.
    + cbn [app]. rewrite html_escape_plain; [done|done|]. apply isc_false. lia.
  - destruct ((r =? 8232) || (r =? 8233)) eqn:Es.
    + apply html_escape_u. apply orb_true_iff in Es as [Es|Es]; apply Z.eqb_eq in Es; lia.
    + apply orb_false_iff in Es as [E1 E2]. apply Z.eqb_neq in E1, E2.
      destruct (encode_rune_cons r) as (c&l&He). pose proof (encode_tail r c l Hr He) as Ht.
      pose proof (encode_high r Hr E) as Hh. rewrite He in Hh |- *. apply Forall_cons in Hh as [Hhc _].
      cbn [app]. destruct (isc 226 c) eqn:E226.
      * rewrite html_escape_226, html_escape_high; [done|done|done|]. by eapply encode_no_separator.
      * rewrite html_escape_plain, html_escape_high; [done|done| |done].
        unfold html_special. by rewrite !isc_false by lia.
Qed.

Lemma hex_value_digit z : 0 <= z < 16 -> hex_value (hex_digit z) = z.
Proof.
  intros Hz. unfold hex_value, hex_digit. destruct (z <? 10) eqn:E; bool_props; rewrite code_chr by lia.
  - rewrite (proj2 (Z.leb_le _ _)) by lia. lia.
  - rewrite !(proj2 (Z.leb_gt _ _)) by lia. lia.
Qed.

Lemma getu4_escape z s : 0 <= z < 65536 -> getu4 (u_escape z ++ s) = Some (z, s).
Proof.
  intros Hz. unfold u_escape. cbn [app getu4]. change (isc 92 backslash) with true.
  change (isc 117 (chr 117)) with true. rewrite !hex_digit_hex by (Z.div_mod_to_equations; lia).
  cbn [andb]. unfold u4. rewrite !hex_value_digit by (Z.div_mod_to_equations; lia).
  do 2 f_equal. Z.div_mod_to_equations. lia.
Qed.

Lemma unquote_rune n r s :
  valid_rune r = true -> unquote_fuel (S n) (quote_rune r ++ s) = encode_rune r ++ unquote_fuel n s.
Proof.
  intros Hr. apply valid_rune_cases in Hr as Hc. unfold quote_rune.
  assert (Hesc : forall z, 0 <= z < 65536 -> valid_rune z = true ->
    unquote_fuel (S n) (u_escape z ++ s) = encode_rune z ++ unquote_fuel n s).
  { intros z Hz Hv. pose proof (getu4_escape z s Hz) as Hg. unfold u_escape in Hg |- *. cbn [app] in Hg |- *.
    cbn [unquote_fuel]. change (isc 92 backslash) with true. cbv iota. rewrite Hg. unfold unescape_u.
    apply valid_rune_cases in Hv. rewrite between_false by lia. done. }
  destruct (r <? 128) eqn:E; bool_props.
  - assert (Hcode : code (chr r) = r) by (apply code_chr; lia).
    assert (Henc : encode_rune r = [chr r]) by (unfold encode_rune; by rewrite between_true by lia).
    destruct (quote_byte_cases (chr r) ltac:(lia)) as [(e&->&He&Hu&H117&_)|[->|(->&H1&H2&_)]].
    + rewrite Henc. cbn [app unquote_fuel]. change (isc 92 backslash) with true. cbv iota.
      assert (Hg : getu4 (backslash :: e :: s) = None).
      { unfold getu4. destruct s as [|h1 [|h2 [|h3 [|h4 s]]]]; try done. rewrite H117. by rewrite andb_false_r. }
      rewrite Hg, Hu. done.
    + rewrite Hcode. apply Hesc; [lia|done].
    + rewrite Henc. cbn [app unquote_fuel]. rewrite H1, Hcode. by rewrite (proj2 (Z.ltb_lt _ _)) by lia.
  - destruct ((r =? 8232) || (r =? 8233)) eqn:Es.
    + apply Hesc; [|done]. apply orb_true_iff in Es as [Es|Es]; apply Z.eqb_eq in Es; lia.
    + pose proof (encode_high r Hr E) as Hh. pose proof (decode_encode r s Hr) as Hd.
      destruct (encode_rune_cons r) as (c&l&He). rewrite He in *. apply Forall_cons in Hh as [Hhc _].
      cbn [app] in *. cbn [unquote_fuel]. rewrite isc_false, (proj2 (Z.ltb_ge _ _)), Hd by lia.
      rewrite He. f_equal. by rewrite app_comm_cons, drop_app_length.
Qed.

Lemma quote_fuel_rune n r s :
  valid_rune r = true -> quote_fuel (S n) (encode_rune r ++ s) = quote_rune r ++ quote_fuel n s.
Proof.
  intros Hr. apply valid_rune_cases in Hr as Hc. unfold quote_rune. destruct (r <? 128) eqn:E; bool_props.
  - assert (Henc : encode_rune r = [chr r]) by (unfold encode_rune; by rewrite between_true by lia).
    rewrite Henc. cbn [app quote_fuel]. rewrite code_chr by lia. by rewrite (proj2 (Z.ltb_lt _ _)) by lia.
  - pose proof (encode_high r Hr E) as Hh. pose proof (decode_encode r s Hr) as Hd.
    pose proof (encode_no_error r Hr) as Hne.
    destruct (encode_rune_cons r) as (c&l&He). rewrite He in *. apply Forall_cons in Hh as [Hhc _].
    cbn [app] in *. cbn [quote_fuel]. rewrite (proj2 (Z.ltb_ge _ _)), Hd, Hne by lia.
    by rewrite app_comm_cons, take_app_length, drop_app_length.
Qed.

(** ** Strings *)

Definition quote_runes (rs : list Z) : bytes := flat_map quote_rune rs.

Lemma quote_encoded n rs :
  valid_runes rs -> (length rs <= n)%nat -> quote_fuel n (encode_runes rs) = quote_runes rs.
Proof.
  intros Hrs. revert n. induction Hrs as [|r rs Hr _ IH]; intros n Hn; [by destruct n|].
  destruct n as [|n]; [simpl in Hn; lia|]. cbn [encode_runes quote_runes flat_map].
  rewrite quote_fuel_rune by done. f_equal. apply IH. simpl in Hn. lia.
Qed.

Lemma encode_runes_length rs : (length rs <= length (encode_runes rs))%nat.
Proof.
  induction rs as [|r rs IH]; [done|]. cbn [encode_runes flat_map]. rewrite length_app.
  pose proof (encode_rune_length r). fold (encode_runes rs). simpl. lia.
Qed.

Lemma quote_valid s :
  valid_utf8 s = true -> exists rs, valid_runes rs /\ to_bytes s = encode_runes rs /\ quote s = quote_runes rs.
Proof.
  intros (rs&Hrs&Hs)%valid_utf8_iff. exists rs. split; [done|]. split; [done|].
  unfold quote. rewrite Hs. apply quote_encoded; [done|apply encode_runes_length].
Qed.

Lemma quote_rune_length r : valid_rune r = true -> (1 <= length (quote_rune r))%nat.
Proof.
  intros Hr. unfold quote_rune. destruct (r <? 128) eqn:E; bool_props.
  - assert (Hlt : code (chr r) < 128).
    { apply valid_rune_cases in Hr. rewrite code_chr; lia. }
    destruct (quote_byte_cases (chr r) Hlt) as [(e&->&_)|[->|(->&_)]]; simpl; lia.
  - case_match; [simpl; lia|]. apply encode_rune_length.
Qed.

Lemma unquote_quoted rs n :
  valid_runes rs -> (length rs <= n)%nat -> unquote_fuel n (quote_runes rs) = encode_runes rs.
Proof.
  intros Hrs. revert n. induction Hrs as [|r rs Hr _ IH]; intros n Hn; [by destruct n|].
  destruct n as [|n]; [simpl in Hn; lia|]. cbn [encode_runes quote_runes flat_map].
  rewrite unquote_rune by done. f_equal. apply IH. simpl in Hn. lia.
Qed.

Lemma quote_runes_length rs : valid_runes rs -> (length rs <= length (quote_runes rs))%nat.
Proof.
  induction 1 as [|r rs Hr _ IH]; [done|]. cbn [quote_runes flat_map]. rewrite length_app.
  pose proof (quote_rune_length r Hr). fold (quote_runes rs). simpl. lia.
Qed.

(** What is quoted comes back. *)
Lemma unquote_quote s : valid_utf8 s = true -> unquote (quote s) = s.
Proof.
  intros (rs&Hrs&Hs&->)%quote_valid. unfold unquote.
  rewrite unquote_quoted by first [done|by apply quote_runes_length].
  by rewrite <- Hs, of_to_bytes.
Qed.

(** ** Quoted strings as values *)

Lemma quote_fuel_ok n s : string_ok (quote_fuel n s) = true /\ html_escape (quote_fuel n s) = quote_fuel n s.
Proof.
  assert (H : forall r t, valid_rune r = true -> string_ok t = true /\ html_escape t = t ->
    string_ok (quote_rune r ++ t) = true /\ html_escape (quote_rune r ++ t) = quote_rune r ++ t).
  { intros r t Hr [H1 H2]. by rewrite quote_rune_ok, quote_rune_escaped, H1, H2 by done. }
  revert s. induction n as [|n IH]; intros s; [done|]. destruct s as [|c s]; [done|].
  cbn [quote_fuel]. destruct (code c <? 128) eqn:E.
  - bool_props. pose proof (code_range c). specialize (H (code c) (quote_fuel n s)).
    unfold quote_rune in H. rewrite (proj2 (Z.ltb_lt _ _)) in H by lia. rewrite chr_code in H.
    apply H; [apply valid_rune_cases; lia|apply IH].
  - bool_props. destruct (decode_rune (c :: s)) as [r w] eqn:Ed.
    apply encode_decode in Ed as [[-> ->]|[Hr Hs]]; [..|done].
    + change ((RuneError =? RuneError) && (1 =? 1)%nat) with true. cbv iota.
      rewrite u_escape_ok, html_escape_u by done. destruct (IH (drop 1 (c :: s))) as [-> ->]. done.
    + destruct ((r =? RuneError) && (w =? 1)%nat) eqn:Ee.
      { rewrite u_escape_ok, html_escape_u by done. destruct (IH (drop w (c :: s))) as [-> ->]. done. }
      assert (Hge : 128 <= r).
      { destruct (Z.lt_ge_cases r 128) as [Hlt|]; [|done]. exfalso.
        apply valid_rune_cases in Hr. unfold encode_rune in Hs. rewrite between_true in Hs by lia.
        injection Hs as -> _. rewrite code_chr in E by lia. lia. }
      assert (Hq : (if (r =? 8232) || (r =? 8233) then u_escape r else take w (c :: s)) = quote_rune r).
      { unfold quote_rune. rewrite (proj2 (Z.ltb_ge _ _)) by lia. case_match; [done|].
        assert (Hl : length (encode_rune r) = length (take w (c :: s))).
        { apply (f_equal length) in Hs as Hs'. rewrite length_app, length_drop in Hs'.
          rewrite length_take. pose proof (encode_rune_length r). lia. }
        rewrite <- (take_drop w (c :: s)) in Hs at 1. by apply app_inj_1 in Hs as [? _]. }
      rewrite Hq. apply H; [done|apply IH].
Qed.

Lemma quote_ok s : string_ok (quote s) = true.
Proof. apply quote_fuel_ok. Qed.
Lemma quote_escaped s : html_escape (quote s) = quote s.
Proof. apply quote_fuel_ok. Qed.
