(* ===== verification/GoTime.v ===== *)
(** * Durations and times as binary64 numbers

    [Duration.Seconds] and [fmt.Sprintf("%f")], which decide the interval
    internal/outbox/store.go sends to Postgres; the seconds it reads back from
    [EXTRACT(EPOCH FROM ...)]; and those a gauge is set to by [SetToCurrentTime]. *)

From S2P Require Import Prelude.
From Stdlib Require Import SpecFloat.

(** The type [float64]. *)
Definition float64 : Type := spec_float.

Definition float_add : spec_float -> spec_float -> spec_float := SFadd 53 1024.
Definition float_div : spec_float -> spec_float -> spec_float := SFdiv 53 1024.
(** [float64(n)]. *)
Definition float_of_int (n : Z) : spec_float := binary_normalize 53 1024 n 0 false.

(** [func (d Duration) Seconds() float64]. *)
Definition Seconds (d : Z) : spec_float :=
  float_add (float_of_int (Z.quot d Second))
            (float_div (float_of_int (Z.rem d Second)) (float_of_int Second)).

(** [EXTRACT(EPOCH FROM (t1 - t0))] as a [float64]: Postgres's times count microseconds. *)
Definition epoch_seconds (t1 t0 : Z) : spec_float :=
  float_div (float_of_int (t1 / 1000 - t0 / 1000)) (float_of_int 1000000).

(** [Gauge.SetToCurrentTime]: the Unix time in seconds. *)
Definition unix_seconds (t : Z) : spec_float := float_div (float_of_int t) (float_of_int Second).

(** The integer nearest to [n / d], a tie going to the even one. *)
Definition round_half_even (n d : Z) : Z :=
  let q := n / d in
  let r := n mod d in
  if 2 * r <? d then q
  else if d <? 2 * r then q + 1
  else if Z.even q then q else q + 1.

(** The decimal [%f] prints, in millionths: six digits after the point. *)
Definition format_f (x : spec_float) : Z :=
  match x with
  | S754_finite s m e =>
      let n := round_half_even (Zpos m * 1000000 * 2 ^ Z.max e 0) (2 ^ Z.max (- e) 0) in
      if s then - n else n
  | _ => 0
  end.

(** The [interval] written as [fmt.Sprintf("%fs", d.Seconds())], in nanoseconds:
    Postgres reads it back to the microsecond. *)
Definition interval_arg (d : Z) : Z := format_f (Seconds d) * 1000.

Example interval_arg_30s : interval_arg (30 * Second) = 30 * Second.
Proof. vm_compute. reflexivity. Qed.

(** The digits past the microsecond are rounded away: a timeout of 400ns is the
    empty interval. *)
Example interval_arg_400ns : interval_arg 400 = 0.
Proof. vm_compute. reflexivity. Qed.

(** A tenth of a second is the nearest number of 53 bits. *)
Example epoch_tenth : epoch_seconds 1100000000 1000000000 = S754_finite false 7205759403792794 (-56).
Proof. vm_compute. reflexivity. Qed.
