(* ===== verification/Env.v ===== *)
(** * Configuration (internal/shared/env, internal/shared/config)

    Environment variables with defaults, and the .env file.  The functions of
    [strconv] and [time] that parse the values are here too. *)

From S2P Require Import Prelude GoString GoTime.
From Stdlib Require Import Ascii SpecFloat.

(** The process's environment. *)
Abbreviation environment := (gmap string string).
Definition Getenv (env : environment) (key : string) : string := default "" (env !! key).

(** ** strconv.Atoi and strconv.ParseBool *)

Definition is_digit (c : ascii) : bool := between 48 57 (code c).

Fixpoint digits (acc : Z) (s : bytes) : option Z :=
  match s with
  | [] => Some acc
  | c :: s => if is_digit c then digits (acc * 10 + (code c - 48)) s else None
  end.

(** The sign, if there is one, and what follows it. *)
Definition sign (s : bytes) : bool * bytes :=
  match s with
  | c :: rest => if code c =? 45 then (true, rest) else if code c =? 43 then (false, rest) else (false, s)
  | [] => (false, [])
  end.

Definition int_min : Z := - 2 ^ 63.
Definition int_max : Z := 2 ^ 63 - 1.

Definition Atoi (s : string) : option Z :=
  let '(neg, b) := sign (to_bytes s) in
  match b, digits 0 b with
  | _ :: _, Some n =>
      let v := if neg : bool then - n else n in
      if (int_min <=? v) && (v <=? int_max) then Some v else None
  | _, _ => None
  end.

Definition ParseBool (s : string) : option bool :=
  if bool_decide (s ∈ ["1"; "t"; "T"; "TRUE"; "true"; "True"]) then Some true
  else if bool_decide (s ∈ ["0"; "f"; "F"; "FALSE"; "false"; "False"]) then Some false
  else None.

(** ** time.ParseDuration *)

(** The leading digits, at most 2^63, and the rest. *)
Fixpoint leadingInt (x : Z) (s : bytes) : option (Z * bytes) :=
  match s with
  | c :: rest =>
      if is_digit c then
        if 2 ^ 63 / 10 <? x then None
        else
          let x := x * 10 + (code c - 48) in
          if 2 ^ 63 <? x then None else leadingInt x rest
      else Some (x, s)
  | [] => Some (x, [])
  end.

Definition float_mul : spec_float -> spec_float -> spec_float := SFmul 53 1024.

(** The digits after the point, their scale (a power of ten), and the rest. *)
Fixpoint leadingFraction (x : Z) (scale : spec_float) (overflow : bool) (s : bytes)
    : Z * spec_float * bytes :=
  match s with
  | c :: rest =>
      if is_digit c then
        if overflow then leadingFraction x scale true rest
        else if (2 ^ 63 - 1) / 10 <? x then leadingFraction x scale true rest
        else
          let y := x * 10 + (code c - 48) in
          if 2 ^ 63 <? y then leadingFraction x scale true rest
          else leadingFraction y (float_mul scale (float_of_int 10)) false rest
      else (x, scale, s)
  | [] => (x, scale, [])
  end.

(** The characters up to the next digit or point. *)
Fixpoint span_unit (s : bytes) : bytes * bytes :=
  match s with
  | c :: rest =>
      if is_digit c || (code c =? 46) then ([], s)
      else let '(u, r) := span_unit rest in (c :: u, r)
  | [] => ([], [])
  end.

Definition unit_of (u : bytes) : option Z :=
  let eq s := bool_decide (u = s) in
  if eq (to_bytes "ns") then Some 1
  else if eq (to_bytes "us") || eq (map chr [194; 181; 115]) || eq (map chr [206; 188; 115]) then Some 1000
  else if eq (to_bytes "ms") then Some 1000000
  else if eq (to_bytes "s") then Some Second
  else if eq (to_bytes "m") then Some (60 * Second)
  else if eq (to_bytes "h") then Some (3600 * Second)
  else None.

(** [uint64(x)] of a float that is not negative. *)
Definition trunc (x : spec_float) : Z :=
  match x with S754_finite _ m e => Z.shiftl (Zpos m) e | _ => 0 end.

(** One group of number and unit: its nanoseconds, and what follows it. *)
Definition duration_group (s : bytes) : option (Z * bytes) :=
  '(v, s1) ← leadingInt 0 s;
  let pre := negb (length s1 =? length s)%nat in
  let '(f, scale, s2, post) :=
    match s1 with
    | c :: rest =>
        if code c =? 46 then
          let '(f, scale, s2) := leadingFraction 0 (float_of_int 1) false rest in
          (f, scale, s2, negb (length s2 =? length rest)%nat)
        else (0, float_of_int 1, s1, false)
    | [] => (0, float_of_int 1, s1, false)
    end in
  if negb (pre || post) then None
  else
    let '(u, s3) := span_unit s2 in
    match u, unit_of u with
    | _ :: _, Some unit =>
        if 2 ^ 63 / unit <? v then None
        else
          let v := v * unit in
          if 0 <? f then
            let v := v + trunc (float_mul (float_of_int f) (float_div (float_of_int unit) scale)) in
            if 2 ^ 63 <? v then None else Some (v, s3)
          else Some (v, s3)
    | _, _ => None
    end.

Definition starts_number (s : bytes) : bool :=
  match s with c :: _ => (code c =? 46) || is_digit c | [] => false end.

(** The groups; each takes a byte at least, so the length of the string is fuel
    enough. *)
Fixpoint duration_groups (fuel : nat) (d : Z) (s : bytes) : option Z :=
  match fuel, s with
  | _, [] => Some d
  | S fuel, _ =>
      if starts_number s then
        '(v, rest) ← duration_group s;
        let d := d + v in
        if 2 ^ 63 <? d then None else duration_groups fuel d rest
      else None
  | O, _ => None
  end.

Definition ParseDuration (s : string) : option Z :=
  let '(neg, b) := sign (to_bytes s) in
  if bool_decide (b = to_bytes "0") then Some 0
  else if bool_decide (b = []) then None
  else
    d ← duration_groups (length b) 0 b;
    if neg : bool then Some (- d) else if 2 ^ 63 - 1 <? d then None else Some d.

Example parse_500ms : ParseDuration "500ms" = Some (500 * Millisecond).
Proof. vm_compute. reflexivity. Qed.
Example parse_1h15m30 : ParseDuration "1h15m30.918s" = Some 4530918000000.
Proof. vm_compute. reflexivity. Qed.
Example parse_minus : ParseDuration "-1.5h" = Some (- 5400 * Second).
Proof. vm_compute. reflexivity. Qed.
Example parse_bare : ParseDuration "30" = None.
Proof. vm_compute. reflexivity. Qed.

(** ** env.go *)

Section Env.
Context (env : environment).

Definition String (key def : string) : string :=
  let v := TrimSpace (Getenv env key) in
  if bool_decide (v = "") then def else v.

Definition StringsCSV (key : string) (def : list string) : list string :=
  let v := TrimSpace (Getenv env key) in
  if bool_decide (v = "") then def
  else
    let out := filter (fun p => p <> "") (map TrimSpace (Split v ","%char)) in
    match out with [] => def | _ => out end.

(** The three functions that parse a value, and keep the default when they cannot. *)
Definition parsed {A} (parse : string -> option A) (key : string) (def : A) : A :=
  let v := TrimSpace (Getenv env key) in
  if bool_decide (v = "") then def
  else match parse v with Some n => n | None => def end.

Definition Int (key : string) (def : Z) : Z := parsed Atoi key def.
Definition Bool (key : string) (def : bool) : bool := parsed ParseBool key def.
Definition Duration (key : string) (def : Z) : Z := parsed ParseDuration key def.
End Env.

(** ** dotenv.go *)

(** [bufio.Scanner] gives up at a line that does not fit its buffer. *)
Definition max_line : Z := 65535.
Definition too_long (l : bytes) : bool := max_line <? Z.of_nat (length l).

Definition drop_cr (l : bytes) : bytes :=
  match reverse l with
  | c :: r => if code c =? 13 then reverse r else l
  | [] => l
  end.

(** The lines [bufio.Scanner] yields: a last line without newline counts, an empty
    one does not. *)
Fixpoint take_lines (ls : list bytes) : list bytes :=
  match ls with
  | [] => []
  | [l] => if (length l =? 0)%nat || too_long l then [] else [drop_cr l]
  | l :: ls => if too_long l then [] else drop_cr l :: take_lines ls
  end.
Definition scan_lines (s : string) : list string :=
  map of_bytes (take_lines (split_at "010"%char (to_bytes s))).

Definition quote2 : ascii := chr 34.
Definition quote1 : ascii := chr 39.

Definition unquote (v : string) : string :=
  match to_bytes v with
  | a :: (_ :: _) as rest =>
      if (bool_decide (a = quote2) && bool_decide (last rest = Some quote2))
         || (bool_decide (a = quote1) && bool_decide (last rest = Some quote1))
      then of_bytes (removelast rest) else v
  | _ => v
  end.

(** [os.Setenv], whose error is ignored: a NUL byte is refused. *)
Definition Setenv (env : environment) (key val : string) : environment :=
  if bool_decide ("000"%char ∈ to_bytes key) || bool_decide ("000"%char ∈ to_bytes val) then env
  else <[key := val]> env.

(** One line of the file. *)
Definition load_line (env : environment) (line : string) : environment :=
  let line := TrimSpace line in
  if bool_decide (line = "") || HasPrefix line "#" then env
  else
    let line := if HasPrefix line "export " then TrimSpace (TrimPrefix line "export ") else line in
    match Cut line "="%char with
    | None => env
    | Some (key, val) =>
        let key := TrimSpace key in
        let val := unquote (TrimSpace val) in
        if bool_decide (key = "") then env
        else if bool_decide (is_Some (env !! key)) then env
        else Setenv env key val
    end.

(** [loadDotEnv], given the content of the file, if it can be opened. *)
Definition loadDotEnv (file : option string) (env : environment) : environment :=
  match file with
  | None => env
  | Some s => foldl load_line env (scan_lines s)
  end.

(** ** config.go *)

Record Config : Type := MkConfig {
  AppEnv : string;
  HTTPAddr : string;
  DatabaseURL : string
}.

(** [Load] changes the environment, which the callers go on to read. *)
Definition Load (file : option string) (env : environment) : environment * Config :=
  let env := loadDotEnv file env in
  (env, MkConfig (String env "APP_ENV" "dev") (String env "HTTP_ADDR" ":8080")
                 (String env "DATABASE_URL" "")).
