(* ===== verification/Events.v ===== *)
(** * Events and their JSON (internal/shared/events/envelope.go)

    The envelope that travels through Kafka and the JSON functions of the
    program: which Go value is encoded or decoded where.  They are an interface here
    ([Json]), which the services are written and verified against; Codec.v implements
    it as encoding/json does. *)

From S2P Require Import Prelude GoString Utf8.

Definition EventTypeTicketCreated : string := "ticket.created".

(** [type Envelope struct]. *)
Record Envelope : Type := MkEnvelope {
  env_EventID : string;
  env_EventType : string;
  env_OccurredAt : Z;
  env_Aggregate : string;
  env_AggregateID : string;
  env_RequestID : string;
  env_Payload : string
}.

(** The zero value, which a failed decoding may leave untouched. *)
Definition zero_Envelope : Envelope := MkEnvelope "" "" zero_time "" "" "" "".

(** The map the outbox payload of a new ticket is made of. *)
Record TicketPayload : Type := MkTicketPayload {
  tp_ticket_id : string;
  tp_title : string;
  tp_status : string;
  tp_created_at : Z;
  tp_request_id : string
}.

Class Json : Type := {
  (** [json.Marshal(env)]. *)
  marshal_envelope : Envelope -> result string;
  (** [json.Unmarshal(value, &env)]: what it leaves in [env], and the error. *)
  unmarshal_envelope : string -> Envelope * option goerr;
  (** The [request_id] that [json.Unmarshal(payload, &ridHolder)] finds. *)
  payload_request_id : string -> string;
  (** The dead letter of cmd/outbox-relay: an error and the envelope. *)
  marshal_dead_envelope : string -> Envelope -> result string;
  (** The dead letter of cmd/notification-service: an error and the message's
      value as a [json.RawMessage]. *)
  marshal_dead_value : string -> string -> result string;
  (** The payload of internal/ticket/store_postgres.go. *)
  marshal_payload : TicketPayload -> result string;
  (** Whether a text is one value whose nesting leaves room for the envelope around it. *)
  shallow : string -> bool
}.

(** What the consumer relies on: the identity of an event survives the wire, and the
    payload of a ticket can travel in an envelope.  encoding/json keeps every string that
    is valid UTF-8. *)
Class JsonLaws (J : Json) : Prop := {
  json_roundtrip e b :
    marshal_envelope e = Ok b -> shallow (env_Payload e) = true ->
    valid_utf8 (env_EventID e) = true -> valid_utf8 (env_EventType e) = true ->
    valid_utf8 (env_Aggregate e) = true -> valid_utf8 (env_AggregateID e) = true ->
    exists e', unmarshal_envelope b = (e', None) /\
      env_EventID e' = env_EventID e /\ env_EventType e' = env_EventType e /\
      env_Aggregate e' = env_Aggregate e /\ env_AggregateID e' = env_AggregateID e;
  payload_shallow tp p : marshal_payload tp = Ok p -> shallow p = true
}.
