(* ===== verification/Runtime.v ===== *)
(** * The Go runtime: clock, randomness, context and metrics

    The calls every service makes besides those to Postgres and Kafka. *)

From S2P Require Import Prelude Effects GoString GoTime.

(** [time.Since] saturates at the range of a [Duration]. *)
Definition Since (now t : Z) : Z := Z.max (- 2 ^ 63) (Z.min (2 ^ 63 - 1) (now - t)).

Inductive runtime_op : Type :=
| RNow                                           (* time.Now *)
| RSleep (d : Z)                                 (* time.Sleep *)
| RAfterOrDone (d : Z)                           (* select on time.After and ctx.Done *)
| RCtxDone                                       (* ctx.Done / ctx.Err *)
| RUuid                                          (* uuid.NewString *)
| RRand16                                        (* rand.Read into [16]byte *)
| RAdd (name : string) (labels : list string) (n : Z)   (* a counter *)
| RSet (name : string) (v : float64)                 (* a gauge *)
| RNotify (event_id event_type aggregate_id : string).  (* log line notify_event *)

Definition runtime_ans (o : runtime_op) : Type :=
  match o with
  | RNow => Z
  | RAfterOrDone _ | RCtxDone => bool
  | RUuid => string
  | RRand16 => result bytes
  | RSleep _ | RAdd _ _ _ | RSet _ _ | RNotify _ _ _ => unit
  end.

Canonical Structure runtime_sig : sig := Sig runtime_op runtime_ans.

(** The metrics registry, and the log of the events the consumer notified: the
    delivery of a notification is that log line. *)
Record runtime : Type := MkRuntime {
  rt_counters : gmap (string * list string) Z;
  rt_gauges : gmap string float64;
  rt_notified : list string
}.

Definition counter (rt : runtime) (name : string) (labels : list string) : Z :=
  default 0 (rt_counters rt !! (name, labels)).

#[export] Instance runtime_exec : Exec runtime_sig runtime := fun ch rt o =>
  match o with
  | RNow => (rt, ch_now ch)
  | RSleep _ => (rt, ())
  | RAfterOrDone _ => (rt, ch_cancel ch)
  | RCtxDone => (rt, ch_cancel ch)
  | RUuid => (rt, ch_uuid ch)
  | RRand16 =>
      (rt, if (length (ch_rand ch) =? 16)%nat then Ok (ch_rand ch) else Err (EMsg "rand"))
  | RAdd name labels n =>
      (MkRuntime (<[(name, labels) := counter rt name labels + n]> (rt_counters rt))
                 (rt_gauges rt) (rt_notified rt), ())
  | RSet name v =>
      (MkRuntime (rt_counters rt) (<[name := v]> (rt_gauges rt)) (rt_notified rt), ())
  | RNotify id _ _ =>
      (MkRuntime (rt_counters rt) (rt_gauges rt) (rt_notified rt ++ [id]), ())
  end.

Section Calls.
Context {S : sig} `{!Sub runtime_sig S}.

Definition Now : prog S Z := call RNow.
Definition Sleep (d : Z) : prog S unit := call (RSleep d).
Definition AfterOrDone (d : Z) : prog S bool := call (RAfterOrDone d).
Definition CtxDone : prog S bool := call RCtxDone.
Definition NewString : prog S string := call RUuid.
Definition Inc (name : string) (labels : list string) : prog S unit := call (RAdd name labels 1).
Definition SetGauge (name : string) (v : float64) : prog S unit := call (RSet name v).
Definition Notify (id ty agg : string) : prog S unit := call (RNotify id ty agg).
End Calls.
