(* ===== verification/Metrics.v ===== *)
(** * Prometheus metrics (internal/outbox/metrics.go, internal/shared/httpx/metrics.go)

    The metrics each service declares and registers, the samples it creates before the
    first event, and what the Prometheus library asks of a registration and of label
    values: it panics otherwise. *)

From S2P Require Import Prelude Effects GoString Utf8 Runtime Events.

Inductive metric_kind : Type := MCounter | MGauge | MHistogram.

Record metric : Type := Metric {
  mt_kind : metric_kind;
  mt_name : string;
  mt_labels : list string
}.

#[export] Instance metric_kind_eq_dec : EqDecision metric_kind.
Proof. solve_decision. Defined.

(** [prometheus.NewCounterVec] and its relatives: a metric without labels is a vector
    of none. *)
Definition NewCounterVec (name : string) (labels : list string) : metric := Metric MCounter name labels.
Definition NewCounter (name : string) : metric := Metric MCounter name [].
Definition NewGauge (name : string) : metric := Metric MGauge name [].
Definition NewHistogramVec (name : string) (labels : list string) : metric := Metric MHistogram name labels.

(** [reg.MustRegister]: [None] is its panic, on a name that is registered already. *)
Definition registered (reg : list metric) (name : string) : bool :=
  existsb (fun m => bool_decide (mt_name m = name)) reg.

Fixpoint MustRegister (reg ms : list metric) : option (list metric) :=
  match ms with
  | [] => Some reg
  | m :: ms => if registered reg (mt_name m) then None else MustRegister (reg ++ [m]) ms
  end.

(** [vec.WithLabelValues(labels...)] panics unless there is a value for every label and
    all are valid UTF-8. *)
Definition label_values_ok (m : metric) (labels : list string) : bool :=
  (length labels =? length (mt_labels m))%nat && forallb valid_utf8 labels.

(** The metric of a sample. *)
Definition sample_of (ms : list metric) (name : string) (labels : list string) : Prop :=
  exists m, m ∈ ms /\ mt_name m = name /\ mt_kind m <> MGauge /\ label_values_ok m labels = true.

(** Samples created before anything is counted, so that they are shown at once. *)
Definition create_samples {S : sig} `{!Sub runtime_sig S} (samples : list (string * list string))
    : prog S unit :=
  for_fold samples () (fun _ s => call (RAdd s.1 s.2 0)).

(** ** internal/outbox/metrics.go *)

Module OutboxMetrics.
Definition PublishedTotal : metric := NewCounterVec "outbox_published_total" ["event_type"].
Definition FailedTotal : metric := NewCounterVec "outbox_failed_total" ["event_type"].
Definition DeadTotal : metric := NewCounterVec "outbox_dead_total" ["event_type"].
Definition LagSeconds : metric := NewGauge "outbox_lag_seconds".
Definition metrics : list metric := [PublishedTotal; FailedTotal; DeadTotal; LagSeconds].

Definition NewMetrics {S : sig} `{!Sub runtime_sig S} (reg : list metric)
    : option (list metric * prog S unit) :=
  reg ← MustRegister reg metrics;
  Some (reg, for_fold [EventTypeTicketCreated] () (fun _ et =>
    create_samples (map (fun m => (mt_name m, [et])) [PublishedTotal; FailedTotal; DeadTotal]))).
End OutboxMetrics.

(** ** internal/shared/httpx/metrics.go *)

Module HttpMetrics.
Definition reqTotal : metric := NewCounterVec "http_requests_total" ["route"; "method"; "status"].
Definition req5xxTotal : metric := NewCounter "http_requests_5xx_total".
Definition reqLatency : metric := NewHistogramVec "http_request_duration_seconds" ["route"; "method"].
Definition metrics : list metric := [reqTotal; reqLatency; req5xxTotal].

Definition NewMetrics (reg : list metric) : option (list metric) := MustRegister reg metrics.
End HttpMetrics.

(** ** The metrics of cmd/notification-service/main.go *)

Module NotifyMetrics.
Definition processed : metric := NewCounterVec "notify_processed_total" ["event_type"; "status"].
Definition errTotal : metric := NewCounterVec "notify_errors_total" ["event_type"; "reason"].
Definition fetched : metric := NewCounter "notify_fetched_total".
Definition committed : metric := NewCounter "notify_committed_total".
Definition lastProcessedUnix : metric := NewGauge "notify_last_processed_unix".
Definition metrics : list metric := [processed; errTotal; fetched; committed; lastProcessedUnix].

(** On a registry that holds the collectors of the library. *)
Definition NewMetrics {S : sig} `{!Sub runtime_sig S} (reg : list metric)
    : option (list metric * prog S unit) :=
  reg ← MustRegister reg metrics;
  Some (reg, create_samples
    [(mt_name processed, [EventTypeTicketCreated; "ok"]);
     (mt_name processed, [EventTypeTicketCreated; "dead"]);
     (mt_name errTotal, [EventTypeTicketCreated; "db_start"]);
     (mt_name errTotal, [EventTypeTicketCreated; "unmarshal"])]).
End NotifyMetrics.

(** ** Registration *)

(** Every metric the three services may touch. *)
Definition declared : list metric :=
  OutboxMetrics.metrics ++ HttpMetrics.metrics ++ NotifyMetrics.metrics.

Lemma registered_app reg ms name : registered (reg ++ ms) name = registered reg name || registered ms name.
Proof. apply existsb_app. Qed.

(** Registration succeeds when no name is there twice, and keeps every metric. *)
Lemma MustRegister_fresh reg ms :
  NoDup (map mt_name ms) -> (forall m, m ∈ ms -> registered reg (mt_name m) = false) ->
  MustRegister reg ms = Some (reg ++ ms).
Proof.
  revert reg. induction ms as [|m ms IH]; intros reg Hnd Hf; [by rewrite app_nil_r|].
  apply NoDup_cons in Hnd as [Hm Hnd]. cbn [MustRegister]. rewrite (Hf m) by left.
  rewrite IH; [by rewrite <- (assoc_L (++))|done|].
  intros m' Hm'. rewrite registered_app, (Hf m') by by right. simpl. rewrite orb_false_r.
  apply bool_decide_eq_false. intros Heq. apply Hm. rewrite Heq. by apply list_elem_of_fmap_2.
Qed.

Lemma sample_intro m ms name labels :
  m ∈ ms -> mt_name m = name -> mt_kind m <> MGauge -> length labels = length (mt_labels m) ->
  forallb valid_utf8 labels = true -> sample_of ms name labels.
Proof.
  intros Hm Hn Hk Hl Hv. exists m. split; [done|]. split; [done|]. split; [done|].
  unfold label_values_ok. by rewrite Hl, Nat.eqb_refl.
Qed.

(** Find the metric of a sample among the declared ones, and check its labels. *)
Ltac sample m :=
  apply (sample_intro m); [unfold declared; in_list|done|done|done|cbn [forallb]].

(** So is a gauge, when its name is declared. *)
Ltac gauge m := exists m; split; [unfold declared; in_list|].
