(* ===== verification/Kafka.v ===== *)
(** * The Kafka clients (internal/shared/kafkax)

    The broker as append-only topics in partitions with the offsets consumer groups have
    committed, and the two wrappers of kafka-go: [Producer], which recreates its writer
    and retries once on a network error, and [Consumer].

    What is used of kafka-go and of the broker, as they document it: a writer tries a
    batch several times before it gives up, so that a message can be written more than
    once, and a batch whose caller no longer waits may still be written later; a reader
    of a group delivers each partition in order, from the offset the group has committed
    or, if it has not, from its configured start; and committing an offset commits every
    earlier one of its partition. *)

From S2P Require Import Prelude Effects GoString Runtime.

(** ** The broker *)

Record message : Type := Message { m_key : string; m_value : string }.

#[export] Instance message_eq_dec : EqDecision message.
Proof. solve_decision. Defined.

(** The partition is chosen by a hash of the key, and the leader alone acknowledges. *)
Inductive balancer : Type := Hash.
Definition RequireOne : Z := 1.

(** What [newWriter] configures of a [kafka.Writer]. *)
Record Writer : Type := MkWriter {
  wr_Addr : list string;
  wr_Topic : string;
  wr_Balancer : balancer;
  wr_RequiredAcks : Z;
  wr_Async : bool;
  wr_BatchTimeout : Z;
  wr_ClientID : string;
  wr_MetadataTTL : Z
}.

(** The default of [kafka.Writer.MaxAttempts], which [newWriter] leaves alone: how often a
    writer tries one batch. *)
Definition MaxAttempts : nat := 10.

(** What [newReader] configures of a [kafka.Reader], and where the reader is: for each
    partition it has read, the offset from which on it, and its group before it, have
    read without a gap, and the next offset. *)
Record Reader : Type := MkReader {
  rd_Brokers : list string;
  rd_Topic : string;
  rd_GroupID : string;
  rd_StartOffset : Z;
  rd_MinBytes : Z;
  rd_MaxBytes : Z;
  rd_MaxWait : Z;
  rd_ReadBackoffMin : Z;
  rd_ReadBackoffMax : Z;
  rd_position : gmap nat (nat * nat)
}.

Definition set_position (pos : gmap nat (nat * nat)) (r : Reader) : Reader :=
  MkReader (rd_Brokers r) (rd_Topic r) (rd_GroupID r) (rd_StartOffset r) (rd_MinBytes r)
           (rd_MaxBytes r) (rd_MaxWait r) (rd_ReadBackoffMin r) (rd_ReadBackoffMax r) pos.

Definition LastOffset : Z := -1.
Definition FirstOffset : Z := -2.

(** Where a message is.  Offsets count the messages of the whole topic; those of one
    partition are in the order of its own offsets. *)
Record place : Type := Place { pl_partition : nat; pl_offset : nat }.

Inductive kafka_op : Type :=
| KWrite (w : Writer) (timeout : Z) (m : message)
| KCloseWriter (w : Writer)
| KFetch (r : Reader) (timeout : Z)
| KCommit (r : Reader) (at_ : place)
| KCloseReader (r : Reader)
| KLand.

Definition kafka_res (o : kafka_op) : Type :=
  match o with
  | KFetch _ _ => Reader * place * message
  | KWrite _ _ _ | KCloseWriter _ | KCommit _ _ | KCloseReader _ | KLand => unit
  end.

Canonical Structure kafka_sig : sig := Sig kafka_op (fun o => result (kafka_res o)).

(** The messages of each topic with their partitions, in the order in which they were
    written; the batches no caller waits for any more, which may still be written; and
    for each group and partition the committed offset - the next one to be read - with
    the offset from which on the group had read without a gap when it committed. *)
Record broker : Type := MkBroker {
  br_topics : gmap string (list (nat * message));
  br_late : list (string * message);
  br_committed : gmap (string * string * nat) (nat * nat)
}.

Definition entries (b : broker) (topic : string) : list (nat * message) :=
  default [] (br_topics b !! topic).

Definition topic_log (b : broker) (topic : string) : list message := map snd (entries b topic).

Definition append_n (k partition : nat) (topic : string) (m : message) (b : broker) : broker :=
  MkBroker (<[topic := entries b topic ++ replicate k (partition, m)]> (br_topics b))
           (br_late b) (br_committed b).

Definition put_off (l : list (string * message)) (b : broker) : broker :=
  MkBroker (br_topics b) (br_late b ++ l) (br_committed b).

(** A write is tried at most [MaxAttempts] times; each try may write the message, at once
    or late, and one has when the write succeeds. *)
Definition copies_now (ch : choice) : nat :=
  match ch_out ch with
  | Done => S (ch_copies ch `min` (MaxAttempts - 1))
  | _ => ch_copies ch `min` MaxAttempts
  end.
Definition copies_late (ch : choice) : nat := ch_late ch `min` (MaxAttempts - copies_now ch).

Definition write_message (ch : choice) (topic : string) (m : message) (b : broker) : broker :=
  put_off (replicate (copies_late ch) (topic, m))
    (append_n (copies_now ch) (ch_partition ch) topic m b).

(** A batch that was put off is written. *)
Definition land (ch : choice) (b : broker) : broker :=
  match br_late b !! ch_offset ch with
  | Some (topic, m) =>
      append_n 1 (ch_partition ch) topic m
        (MkBroker (br_topics b) (delete (ch_offset ch) (br_late b)) (br_committed b))
  | None => b
  end.

(** Where a reader goes on in a partition, about to deliver the message at [i]: at its
    position; where its group has committed; or at the start.  A reader that starts at
    the end of a partition may deliver any message first, as time may have passed since. *)
Definition position (b : broker) (r : Reader) (partition i : nat) : nat * nat :=
  match rd_position r !! partition with
  | Some fn => fn
  | None =>
      match br_committed b !! (rd_Topic r, rd_GroupID r, partition) with
      | Some fn => fn
      | None => if rd_StartOffset r =? FirstOffset then (0, 0)%nat else (i, i)
      end
  end.

(** The partition has no message between two offsets. *)
Definition none_between (es : list (nat * message)) (partition n i : nat) : bool :=
  forallb (fun e => negb (bool_decide (e.1 = partition))) (drop n (take i es)).

(** A fetch delivers the next message of some partition.  When the group has rebalanced,
    the reader begins again at the committed offsets. *)
Definition fetch (b : broker) (r : Reader) (rebalanced : bool) (i : nat)
    : result (Reader * place * message) :=
  let r := if rebalanced then set_position ∅ r else r in
  match entries b (rd_Topic r) !! i with
  | Some (p, m) =>
      let '(from, next) := position b r p i in
      if (next <=? i)%nat && none_between (entries b (rd_Topic r)) p next i then
        Ok (set_position (<[p := (from, S i)]> (rd_position r)) r, Place p i, m)
      else Err DeadlineExceeded
  | None => Err DeadlineExceeded
  end.

(** Committing an offset commits all before it: the committed offset is the next one. *)
Definition commit (b : broker) (r : Reader) (p : place) : broker :=
  let from := match rd_position r !! pl_partition p with
              | Some (from, _) => from
              | None => pl_offset p
              end in
  MkBroker (br_topics b) (br_late b)
    (<[(rd_Topic r, rd_GroupID r, pl_partition p) := (from, S (pl_offset p))]> (br_committed b)).

Definition kafka_call (ch : choice) (b : broker) (o : kafka_op) : broker * result (kafka_res o) :=
  match o with
  | KWrite w _ m => (write_message ch (wr_Topic w) m b, Ok ())
  | KFetch r _ => (b, fetch b r (ch_rebalanced ch) (ch_offset ch))
  | KCommit r p => (commit b r p, Ok ())
  | KCloseWriter _ | KCloseReader _ => (b, Ok ())
  | KLand => (land ch b, Ok ())
  end.

#[export] Instance kafka_exec : Exec kafka_sig broker := fun ch b o =>
  settle (ch_out ch) b (kafka_call ch b o).

(** The state after the call. *)
Definition kafka_next ch (b : broker) (o : kafka_op) : broker := (kafka_exec ch b o).1.

Lemma kafka_next_cases ch (b : broker) o :
  kafka_next ch b o = b \/ kafka_next ch b o = (kafka_call ch b o).1.
Proof. apply settle_fst. Qed.

Lemma kafka_exec_ok ch (b : broker) o a :
  (kafka_exec ch b o).2 = Ok a ->
  kafka_call ch b o = (kafka_next ch b o, Ok a).
Proof.
  unfold kafka_next, kafka_exec. destruct (settle _ _ _) as [x y] eqn:E. simpl. intros ->.
  by apply settle_ok in E.
Qed.

(** *** The logs after a write *)

Lemma map_snd_replicate k (p : nat) (m : message) : map snd (replicate k (p, m)) = replicate k m.
Proof. induction k as [|k IH]; [done|]. simpl. by rewrite IH. Qed.

Lemma entries_append_n k p t m b t' :
  entries (append_n k p t m b) t' =
    entries b t' ++ (if decide (t = t') then replicate k (p, m) else []).
Proof.
  unfold append_n, entries. simpl. rewrite lookup_insert.
  case_decide; subst; simpl; [done|]. by rewrite app_nil_r.
Qed.

Lemma topic_log_append_n k p t m b t' :
  topic_log (append_n k p t m b) t' =
    topic_log b t' ++ (if decide (t = t') then replicate k m else []).
Proof.
  unfold topic_log. rewrite entries_append_n, map_app. f_equal.
  case_decide; [apply map_snd_replicate|done].
Qed.

(** What a write has written, and no more than that, is in the log. *)
Lemma topic_log_write ch t m b t' :
  topic_log (write_message ch t m b) t' =
    topic_log b t' ++ (if decide (t = t') then replicate (copies_now ch) m else []).
Proof. exact (topic_log_append_n _ _ _ _ _ _). Qed.

Lemma copies_bound ch : (copies_now ch + copies_late ch <= MaxAttempts)%nat.
Proof. unfold copies_late, copies_now, MaxAttempts. destruct (ch_out ch); lia. Qed.

(** A log only grows. *)
Lemma entries_grow ch b o t : entries b t `prefix_of` entries (kafka_next ch b o) t.
Proof.
  destruct (kafka_next_cases ch b o) as [->| ->]; [done|]. destruct o; simpl; try done.
  - unfold write_message, put_off. apply (transitivity (y := entries (append_n (copies_now ch) (ch_partition ch) (wr_Topic w) m b) t)); [|done].
    rewrite entries_append_n. by apply prefix_app_r.
  - unfold land. destruct (_ !! _) as [[t' m]|]; [|done].
    rewrite entries_append_n. by apply prefix_app_r.
Qed.

(** ** Producer *)

Record ProducerConfig : Type := MkProducerConfig {
  pc_Brokers : list string;
  pc_Topic : string;
  pc_ClientID : string;
  pc_WriteTimeout : Z
}.

Record Producer : Type := MkProducer {
  p_w : option Writer;
  p_cfg : ProducerConfig;
  p_lastReset : Z
}.

Definition newWriter (cfg : ProducerConfig) : Writer :=
  MkWriter (pc_Brokers cfg) (pc_Topic cfg) Hash RequireOne false (50 * Millisecond) (pc_ClientID cfg) (10 * Second).

Definition NewProducer (cfg : ProducerConfig) : Producer :=
  MkProducer (Some (newWriter cfg)) cfg zero_time.

Definition suspects : list string :=
  ["dial tcp"; "connection refused"; "i/o timeout"; "eof"; "broken pipe";
   "transport is closing"; "not leader"; "unknown broker"; "failed to dial"].

Section Producers.
Context {UT : UnicodeTables} {S : sig} `{!Sub runtime_sig S, !Sub kafka_sig S}.

Definition shouldReset (err : option goerr) : bool :=
  match err with
  | None => false
  | Some e => existsb (fun sub => Contains (ToLower (Error e)) sub) suspects
  end.

Definition resetOnce (p : Producer) : prog S Producer :=
  now ← Now;
  if Since now (p_lastReset p) <? 2 * Second then mret p
  else
    match p_w p with Some w => _ ← call (KCloseWriter w); mret () | None => mret () end;;
    let w := newWriter (p_cfg p) in
    now ← Now;
    mret (MkProducer (Some w) (p_cfg p) now).

Definition write (p : Producer) (timeout : Z) (m : message) : prog S (option goerr) :=
  match p_w p with
  | None => mret (Some Canceled)
  | Some w => r ← call (KWrite w timeout m); mret (err_of r)
  end.

Definition Produce (p : Producer) (key value : string) (timeout : Z)
    : prog S (Producer * option goerr) :=
  let timeout := if timeout <=? 0
                 then if 0 <? pc_WriteTimeout (p_cfg p) then pc_WriteTimeout (p_cfg p)
                      else 5 * Second
                 else timeout in
  err ← write p timeout (Message key value);
  match err with
  | Some e =>
      if shouldReset (Some e) then
        p ← resetOnce p;
        err ← write p timeout (Message key value);
        mret (p, err)
      else mret (p, Some e)
  | None => mret (p, None)
  end.

Definition Close (p : Producer) : prog S (Producer * option goerr) :=
  match p_w p with
  | None => mret (p, None)
  | Some w => r ← call (KCloseWriter w); mret (MkProducer None (p_cfg p) (p_lastReset p), err_of r)
  end.
End Producers.

(** ** Consumer *)

Record ConsumerConfig : Type := MkConsumerConfig {
  cc_Brokers : list string;
  cc_Topic : string;
  cc_GroupID : string;
  cc_StartOffset : string;
  cc_MinBytes : Z;
  cc_MaxBytes : Z
}.

(** An open consumer.  Nothing uses it after [Close], which therefore returns its error
    alone and not the consumer without a reader. *)
Record Consumer : Type := MkConsumer { c_r : Reader; c_cfg : ConsumerConfig }.

Section Consumers.
Context {UT : UnicodeTables} {S : sig} `{!Sub kafka_sig S}.

Definition newReader (cfg : ConsumerConfig) : Reader :=
  let minB := if cc_MinBytes cfg =? 0 then 1 else cc_MinBytes cfg in
  let maxB := if cc_MaxBytes cfg =? 0 then 10000000 else cc_MaxBytes cfg in
  let start := if EqualFold (cc_StartOffset cfg) "first" then FirstOffset else LastOffset in
  MkReader (cc_Brokers cfg) (cc_Topic cfg) (cc_GroupID cfg) start minB maxB
           (500 * Millisecond) (100 * Millisecond) (1 * Second) ∅.

Definition NewConsumer (cfg : ConsumerConfig) : Consumer := MkConsumer (newReader cfg) cfg.

(** The reader moves on with each message it delivers. *)
Definition FetchMessage (c : Consumer) (timeout : Z) : prog S (result (Consumer * place * message)) :=
  r ← call (KFetch (c_r c) timeout);
  mret (match r with
        | Ok (rd, at_, m) => Ok (MkConsumer rd (c_cfg c), at_, m)
        | Err err => Err err
        end).

Definition CommitMessages (c : Consumer) (at_ : place) : prog S (result unit) :=
  call (KCommit (c_r c) at_).

Definition Reopen (c : Consumer) : prog S Consumer :=
  _ ← call (KCloseReader (c_r c));
  mret (MkConsumer (newReader (c_cfg c)) (c_cfg c)).

Definition CloseConsumer (c : Consumer) : prog S (option goerr) :=
  r ← call (KCloseReader (c_r c)); mret (err_of r).
End Consumers.
