(* ===== verification/Postgres.v ===== *)
(** * Postgres

    What the statements of the three stores use of the server and of its driver:
    the input functions of [uuid], [jsonb] and [text], and the [timestamptz] a
    [time.Time] parameter becomes.  They are parameters of the model; the
    documented facts the theorems use are [PostgresLaws]. *)

From S2P Require Import Prelude GoString Utf8 Events.

Class Postgres : Type := {
  uuid_in : string -> option string;
  jsonb_in : string -> option string;
  text_ok : string -> bool;
  pg_time : Z -> Z
}.

Definition int4_max : Z := 2147483647.
Definition pg_out_of_range : goerr := EMsg "ERROR: integer out of range (SQLSTATE 22003)".
Definition pg_negative_limit : goerr := EMsg "ERROR: LIMIT must not be negative (SQLSTATE 2201W)".
Definition pg_bad_text : goerr :=
  EMsg "ERROR: invalid byte sequence for encoding UTF8 (SQLSTATE 22021)".
Definition pg_bad_uuid : goerr := EMsg "ERROR: invalid input syntax for type uuid (SQLSTATE 22P02)".
Definition pg_bad_json : goerr := EMsg "ERROR: invalid input syntax for type json (SQLSTATE 22P02)".
Definition pg_duplicate : goerr :=
  EMsg "ERROR: duplicate key value violates unique constraint (SQLSTATE 23505)".

Class PostgresLaws {J : Json} (PG : Postgres) : Prop := {
  (** [uuid] prints in one canonical form. *)
  uuid_in_canonical s u : uuid_in s = Some u -> uuid_in u = Some u;
  (** A UUID is hexadecimal digits and dashes. *)
  uuid_in_utf8 s u : uuid_in s = Some u -> valid_utf8 u = true;
  (** A database in UTF8 stores valid UTF-8 only. *)
  text_ok_utf8 s : text_ok s = true -> valid_utf8 s = true;
  (** [jsonb] keeps the value, and so its nesting. *)
  jsonb_in_shallow s p : jsonb_in s = Some p -> shallow s = true -> shallow p = true
}.
