(* ===== verification/Outbox.v ===== *)
(** * The outbox table and its store (internal/outbox/store.go)

    The table, the statements as functions on it, and the [Store] methods as
    programs that issue them. *)

From S2P Require Import Prelude Effects GoTime Postgres.

(** ** The table (migrations 0002, 0003, 0004 and 0006) *)

(** A row without its primary key, under which the table keeps it. *)
Record row : Type := Row {
  r_event_id : string;
  r_aggregate : string;
  r_aggregate_id : string;
  r_event_type : string;
  r_payload : string;
  r_status : string;
  r_created_at : Z;
  r_sent_at : option Z;
  r_processing_started_at : option Z;
  r_attempts : Z;
  r_next_retry_at : Z;
  r_last_error : option string;
  r_updated_at : Z;
  r_failed_at : option Z
}.

Abbreviation table := (gmap Z row).

(** [type Event struct]. *)
Record Event : Type := MkEvent {
  ID : Z;
  EventID : string;
  Aggregate : string;
  AggregateID : string;
  EventType : string;
  Payload : string;
  CreatedAt : Z;
  Attempts : Z
}.

(** The columns of the RETURNING list. *)
Definition returning (id : Z) (r : row) : Event :=
  MkEvent id (r_event_id r) (r_aggregate r) (r_aggregate_id r) (r_event_type r)
          (r_payload r) (r_created_at r) (r_attempts r).

(** *** The SET lists *)

Definition set_reset (now : Z) (r : row) : row :=
  Row (r_event_id r) (r_aggregate r) (r_aggregate_id r) (r_event_type r) (r_payload r)
      "pending" (r_created_at r) (r_sent_at r) None (r_attempts r) now
      (Some "processing timeout") (r_updated_at r) (r_failed_at r).

Definition set_claimed (now : Z) (r : row) : row :=
  Row (r_event_id r) (r_aggregate r) (r_aggregate_id r) (r_event_type r) (r_payload r)
      "processing" (r_created_at r) (r_sent_at r) (Some now) (r_attempts r + 1)
      (r_next_retry_at r) (r_last_error r) now (r_failed_at r).

Definition set_sent (now : Z) (r : row) : row :=
  Row (r_event_id r) (r_aggregate r) (r_aggregate_id r) (r_event_type r) (r_payload r)
      "sent" (r_created_at r) (Some now) None (r_attempts r)
      (r_next_retry_at r) None now (r_failed_at r).

Definition set_retry (now next : Z) (msg : string) (r : row) : row :=
  Row (r_event_id r) (r_aggregate r) (r_aggregate_id r) (r_event_type r) (r_payload r)
      "pending" (r_created_at r) (r_sent_at r) None (r_attempts r)
      next (Some msg) now (r_failed_at r).

Definition set_dead (now : Z) (msg : string) (r : row) : row :=
  Row (r_event_id r) (r_aggregate r) (r_aggregate_id r) (r_event_type r) (r_payload r)
      "failed" (r_created_at r) (r_sent_at r) None (r_attempts r)
      (r_next_retry_at r) (Some msg) now
      (Some (match r_failed_at r with Some t => t | None => now end)).

(** *** The WHERE clauses *)

Definition is_status (s : string) (r : row) : bool := bool_decide (r_status r = s).

Definition is_stuck (now interval : Z) (r : row) : bool :=
  is_status "processing" r &&
  match r_processing_started_at r with Some t => t <? now - interval | None => false end.

Definition is_due (now : Z) (r : row) : bool :=
  is_status "pending" r && (r_next_retry_at r <=? now).

(** [UPDATE outbox SET f WHERE p]: the new table and the number of rows. *)
Definition update_where (p : row -> bool) (f : row -> row) (t : table) : table :=
  (fun r => if p r then f r else r) <$> t.
Definition count_where (p : row -> bool) (t : table) : Z :=
  Z.of_nat (size (filter (fun kr : Z * row => p kr.2 = true) t)).

(** *** The claim: SELECT ... ORDER BY created_at LIMIT n FOR UPDATE SKIP LOCKED *)

(** The rows the subquery can return: due, and not locked by another transaction. *)
Definition claimable (now : Z) (locked : list Z) (t : table) (id : Z) : bool :=
  match t !! id with
  | Some r => is_due now r && negb (bool_decide (id ∈ locked))
  | None => false
  end.

Definition candidates (now : Z) (locked : list Z) (t : table) : list (Z * row) :=
  filter (fun kr => claimable now locked t kr.1 = true) (map_to_list t).

Definition created_of (t : table) (id : Z) : Z :=
  match t !! id with Some r => r_created_at r | None => 0 end.

(** Which lists of rows SQL allows the statement to pick and to return in that
    order: as many candidates as the limit allows, none left out that is older
    than one picked.  Ties, and the order of RETURNING, are the planner's. *)
Definition valid_pick (now limit : Z) (locked : list Z) (t : table) (ids : list Z) : bool :=
  let cs := candidates now locked t in
  bool_decide (NoDup ids) && forallb (claimable now locked t) ids
  && (Z.of_nat (length ids) =? Z.min limit (Z.of_nat (length cs)))
  && forallb (fun c => bool_decide (c.1 ∈ ids)
                       || forallb (fun id => created_of t id <=? r_created_at c.2) ids) cs.

Definition older (a b : Z * row) : Prop := r_created_at a.2 <= r_created_at b.2.
#[export] Instance older_dec : RelDecision older.
Proof. intros a b. unfold older. apply _. Defined.

(** One such list: a stable sort by [created_at]. *)
Definition sorted_pick (now limit : Z) (locked : list Z) (t : table) : list Z :=
  (take (Z.to_nat limit) (merge_sort older (candidates now locked t))).*1.

Definition pick (now limit : Z) (locked ids : list Z) (t : table) : list Z :=
  if valid_pick now limit locked t ids then ids else sorted_pick now limit locked t.

Definition claim_ids (now : Z) (ids : list Z) (t : table) : table :=
  map_imap (fun id r => Some (if bool_decide (id ∈ ids) then set_claimed now r else r)) t.

(** The whole statement; [attempts + 1] is computed on the type INT. *)
Definition claim (now limit : Z) (locked ids : list Z) (t : table) : table * result (list Event) :=
  let ids := pick now limit locked ids t in
  if limit <? 0 then (t, Err pg_negative_limit)
  else if existsb (fun id => match t !! id with
                        | Some r => int4_max <=? r_attempts r | None => false end) ids
  then (t, Err pg_out_of_range)
  else
    let t' := claim_ids now ids t in
    (t', Ok (omap (fun id => returning id <$> t' !! id) ids)).

(** The oldest pending row's age. *)
Definition oldest_pending (t : table) : option Z :=
  map_fold (fun _ r acc =>
    if is_status "pending" r then
      Some (match acc with Some c => Z.min c (r_created_at r) | None => r_created_at r end)
    else acc) None t.

(** ** The statements as calls *)

Inductive outbox_op : Type :=
| QResetStuck (interval : Z)
| QLag
| QClaim (limit : Z)
| QMarkSent (id : Z)
| QMarkFailed (id : Z) (next : Z) (msg : string)
| QMarkDead (id : Z) (msg : string).

Definition outbox_res (o : outbox_op) : Type :=
  match o with
  | QResetStuck _ => Z
  | QLag => option float64
  | QClaim _ => list Event
  | QMarkSent _ | QMarkFailed _ _ _ | QMarkDead _ _ => unit
  end.

Canonical Structure outbox_sig : sig := Sig outbox_op (fun o => result (outbox_res o)).

Section Statements.
Context {PG : Postgres}.

(** What a statement does when it is carried out. *)
Definition outbox_stmt (ch : choice) (t : table) (o : outbox_op) : table * result (outbox_res o) :=
  match o with
  | QResetStuck interval =>
      (update_where (is_stuck (ch_now ch) interval) (set_reset (ch_now ch)) t,
       Ok (count_where (is_stuck (ch_now ch) interval) t))
  | QLag =>
      (t, match oldest_pending t with
          | Some c => Ok (Some (epoch_seconds (ch_now ch) c))
          | None => Err ErrNoRows
          end)
  | QClaim limit => claim (ch_now ch) limit (ch_locked ch) (ch_pick ch) t
  | QMarkSent id => (alter (set_sent (ch_now ch)) id t, Ok ())
  | QMarkFailed id next msg =>
      if text_ok msg then (alter (set_retry (ch_now ch) (pg_time next) msg) id t, Ok ())
      else (t, Err pg_bad_text)
  | QMarkDead id msg =>
      if text_ok msg then (alter (set_dead (ch_now ch) msg) id t, Ok ())
      else (t, Err pg_bad_text)
  end.

#[export] Instance outbox_exec : Exec outbox_sig table := fun ch t o =>
  settle (ch_out ch) t (outbox_stmt ch t o).

(** The state after the call. *)
Definition outbox_next ch (t : table) (o : outbox_op) : table := (outbox_exec ch t o).1.

Lemma outbox_next_cases ch (t : table) o :
  outbox_next ch t o = t \/ outbox_next ch t o = (outbox_stmt ch t o).1.
Proof. apply settle_fst. Qed.

Lemma outbox_exec_ok ch (t : table) o a :
  (outbox_exec ch t o).2 = Ok a ->
  outbox_stmt ch t o = (outbox_next ch t o, Ok a).
Proof.
  unfold outbox_next, outbox_exec. destruct (settle _ _ _) as [x y] eqn:E. simpl. intros ->.
  by apply settle_ok in E.
Qed.
End Statements.

(** ** The methods of [Store] *)

Module Store.
Section Methods.
Context {S : sig} `{!Sub outbox_sig S}.

Definition ResetStuck (processingTimeout : Z) : prog S (result Z) :=
  let processingTimeout := if processingTimeout <=? 0 then 30 * Second else processingTimeout in
  call (QResetStuck (interval_arg processingTimeout)).

Definition ClaimPending (batchSize : Z) : prog S (result (list Event)) :=
  let batchSize := if batchSize <=? 0 then 50 else batchSize in
  call (QClaim batchSize).

Definition MarkSent (id : Z) : prog S (result unit) := call (QMarkSent id).

Definition MarkFailed (id nextRetryAt : Z) (errMsg : string) : prog S (result unit) :=
  call (QMarkFailed id nextRetryAt errMsg).

Definition MarkDead (id : Z) (errMsg : string) : prog S (result unit) :=
  call (QMarkDead id errMsg).

Definition LagSeconds : prog S (result float64) :=
  v ← call QLag;
  match v with
  | Err e => if bool_decide (e = ErrNoRows) then mret (Ok (float_of_int 0)) else mret (Err e)
  | Ok None => mret (Ok (float_of_int 0))
  | Ok (Some v) => mret (Ok v)
  end.
End Methods.
End Store.

(** ** What the statements do *)

Lemma elem_of_candidates now locked t id r :
  (id, r) ∈ candidates now locked t <->
  t !! id = Some r /\ is_due now r = true /\ id ∉ locked.
Proof.
  unfold candidates. rewrite list_elem_of_filter, elem_of_map_to_list. simpl.
  unfold claimable. split.
  - intros [Hc Ht]. rewrite Ht in Hc. apply andb_prop in Hc as [? Hn].
    apply negb_true_iff, bool_decide_eq_false in Hn. done.
  - intros (Ht&Hd&Hn). rewrite Ht, Hd. split; [|done]. by apply negb_true_iff, bool_decide_eq_false.
Qed.

Lemma claimable_Some now locked t id :
  claimable now locked t id = true <-> exists r, (id, r) ∈ candidates now locked t.
Proof.
  unfold claimable. destruct (t !! id) as [r|] eqn:Ht.
  - rewrite andb_true_iff, negb_true_iff, bool_decide_eq_false. split.
    + intros [??]. exists r. by apply elem_of_candidates.
    + intros [r' (?&?&?)%elem_of_candidates]. by simplify_eq.
  - split; [done|]. intros [r (?&?&?)%elem_of_candidates]. congruence.
Qed.

Lemma NoDup_candidates now locked t : NoDup (candidates now locked t).*1.
Proof.
  unfold candidates.
  assert (H : NoDup (map_to_list t).*1) by apply NoDup_fst_map_to_list.
  revert H. generalize (map_to_list t) as l. induction l as [|kr l IH]; [done|].
  intros [Hn Hl]%NoDup_cons. rewrite filter_cons. case_decide; [|by apply IH].
  simpl. apply NoDup_cons. split; [|by apply IH].
  intros [y [Hy [_ Hin]%list_elem_of_filter]]%list_elem_of_fmap.
  apply Hn. rewrite Hy. by apply list_elem_of_fmap_2.
Qed.

#[local] Instance older_trans : Transitive older.
Proof. intros a b c. unfold older. lia. Qed.
#[local] Instance older_total : Total older.
Proof. intros a b. unfold older. lia. Qed.

Lemma take_oldest n l a b :
  StronglySorted older l -> a ∈ take n l -> b ∈ drop n l -> older a b.
Proof.
  revert l; induction n as [|n IH]; intros l Hs Ha Hb; [by apply elem_of_nil in Ha|].
  destruct l as [|x l]; [by apply elem_of_nil in Ha|]. simpl in *.
  apply StronglySorted_cons in Hs as [Hx Hs].
  apply elem_of_cons in Ha as [->|Ha]; [|by eapply IH].
  rewrite Forall_forall in Hx. apply Hx. rewrite <- (take_drop n l). set_solver.
Qed.

(** The sorted list is one SQL allows. *)
Lemma sorted_pick_valid now limit locked t :
  0 <= limit -> valid_pick now limit locked t (sorted_pick now limit locked t) = true.
Proof.
  intros Hl. unfold valid_pick, sorted_pick.
  set (cs := candidates now locked t). set (l := merge_sort older cs).
  assert (Hp : l ≡ₚ cs) by apply merge_sort_Permutation.
  assert (Hs : StronglySorted older l) by (apply StronglySorted_merge_sort; apply _).
  assert (Hd : NoDup l.*1) by (rewrite Hp; apply NoDup_candidates).
  assert (Ht : forall c, c ∈ take (Z.to_nat limit) l -> c ∈ cs).
  { intros c Hc. rewrite <- Hp, <- (take_drop (Z.to_nat limit) l). set_solver. }
  rewrite !andb_true_iff. repeat split.
  - apply bool_decide_eq_true. rewrite fmap_take.
    by eapply sublist_NoDup, sublist_take.
  - apply forallb_elem_of. intros id [[id' r] [-> Hc]]%list_elem_of_fmap.
    apply claimable_Some. exists r. by apply Ht.
  - apply Z.eqb_eq. rewrite length_fmap, length_take, Hp. lia.
  - apply forallb_elem_of. intros [id r] Hc. simpl.
    rewrite <- Hp, <- (take_drop (Z.to_nat limit) l), elem_of_app in Hc.
    destruct Hc as [Hc|Hc]; apply orb_true_iff.
    + left. apply bool_decide_eq_true. change id with (id, r).1. by apply list_elem_of_fmap_2.
    + right. apply forallb_elem_of. intros i [[i' r'] [-> Hi]]%list_elem_of_fmap.
      apply Z.leb_le. simpl.
      pose proof (take_oldest _ _ _ _ Hs Hi Hc) as Ho. unfold older in Ho. simpl in Ho.
      apply Ht, elem_of_candidates in Hi as [Hi _]. unfold created_of. by rewrite Hi.
Qed.

Lemma pick_valid now limit locked ids t :
  0 <= limit -> valid_pick now limit locked t (pick now limit locked ids t) = true.
Proof.
  intros Hl. unfold pick. destruct (valid_pick _ _ _ _ ids) eqn:E; [done|].
  by apply sorted_pick_valid.
Qed.

Lemma lookup_claim_ids now ids t id :
  claim_ids now ids t !! id =
    (if bool_decide (id ∈ ids) then set_claimed now <$> t !! id else t !! id).
Proof.
  unfold claim_ids. rewrite map_lookup_imap.
  destruct (t !! id); simpl; by case_bool_decide.
Qed.

Lemma lookup_update_where p f t id :
  update_where p f t !! id = (fun r => if p r then f r else r) <$> t !! id.
Proof. apply lookup_fmap. Qed.

Lemma created_of_lookup t id r : t !! id = Some r -> created_of t id = r_created_at r.
Proof. unfold created_of. by intros ->. Qed.

Definition ids_of (es : list Event) : list Z := map ID es.

(** What the claim promises, whatever plan Postgres runs. *)
Record claim_spec (now limit : Z) (locked : list Z) (t t' : table) (es : list Event) : Prop := {
  claim_nodup : NoDup (ids_of es);
  claim_rows e : e ∈ es -> exists r, t !! ID e = Some r /\ is_due now r = true /\
    (ID e ∉ locked) /\ r_attempts r < int4_max /\ e = returning (ID e) (set_claimed now r);
  claim_table id : t' !! id =
    (if bool_decide (id ∈ ids_of es) then set_claimed now <$> t !! id else t !! id);
  claim_count :
    Z.of_nat (length es) = Z.min limit (Z.of_nat (length (candidates now locked t)));
  claim_oldest e id r : e ∈ es -> (id, r) ∈ candidates now locked t -> id ∉ ids_of es ->
    CreatedAt e <= r_created_at r
}.

Lemma ID_returned now ids t :
  (forall id, id ∈ ids -> is_Some (t !! id)) ->
  ids_of (omap (fun id => returning id <$> claim_ids now ids t !! id) ids) = ids.
Proof.
  assert (H : forall l, (forall id, id ∈ l -> is_Some (t !! id)) ->
    ids_of (omap (fun id => returning id <$> claim_ids now ids t !! id) l) = l); [|by apply H].
  unfold ids_of. induction l as [|id l IH]; intros Hl; [done|]. csimpl.
  destruct (Hl id) as [r Hr]; [by left|].
  rewrite lookup_claim_ids, Hr.
  case_bool_decide; simpl; (rewrite IH; [done|]); intros i Hi; apply Hl; by right.
Qed.

(** The claim of a batch meets its specification. *)
Lemma claim_meets_spec now limit locked ids t t' es :
  claim now limit locked ids t = (t', Ok es) -> claim_spec now limit locked t t' es.
Proof.
  unfold claim. destruct (limit <? 0) eqn:Hl; [done|]. apply Z.ltb_ge in Hl.
  pose proof (pick_valid now limit locked ids t Hl) as Hv.
  set (p := pick now limit locked ids t) in *. clearbody p.
  destruct (existsb _ p) eqn:Hover; [done|]. intros [= <- <-].
  rewrite existsb_false_elem_of in Hover.
  unfold valid_pick in Hv. rewrite !andb_true_iff in Hv.
  destruct Hv as [[[Hnd Hc] Hlen] Hold].
  apply bool_decide_eq_true in Hnd. apply Z.eqb_eq in Hlen.
  rewrite forallb_elem_of in Hc. pose proof (proj1 (forallb_elem_of _ _) Hold) as Ho.
  assert (Hrow : forall id, id ∈ p -> exists r, t !! id = Some r /\ is_due now r = true /\ id ∉ locked).
  { intros id Hid. apply Hc, claimable_Some in Hid as [r Hr%elem_of_candidates]. eauto. }
  assert (HID : ids_of (omap (fun id => returning id <$> claim_ids now p t !! id) p) = p).
  { apply ID_returned. intros id (r&->&_)%Hrow. eauto. }
  split; rewrite ?HID; [done| | | |].
  - intros e (id&Hid&He)%list_elem_of_omap.
    apply fmap_Some in He as (r'&He&->). simpl.
    destruct (Hrow id Hid) as (r&Hr&Hd&Hn). exists r.
    rewrite lookup_claim_ids, Hr, bool_decide_true in He by done. simplify_eq/=.
    specialize (Hover id Hid). simpl in Hover. rewrite Hr in Hover. bool_props. done.
  - intros id. apply lookup_claim_ids.
  - rewrite <- Hlen. rewrite <- HID at 2. unfold ids_of. by rewrite List.length_map.
  - intros e id r He Hr Hn.
    specialize (Ho _ Hr). apply orb_true_iff in Ho as [Hi|Hf]; [by bool_props|].
    rewrite forallb_elem_of in Hf.
    apply list_elem_of_omap in He as (i&Hi&He). apply fmap_Some in He as (r'&He&->). simpl.
    specialize (Hf i Hi). bool_props. simpl in Hf.
    destruct (Hrow i Hi) as (ri&Hri&_). rewrite (created_of_lookup _ _ _ Hri) in Hf.
    rewrite lookup_claim_ids, Hri, bool_decide_true in He by done. simplify_eq/=. done.
Qed.

(** *** How rows evolve *)

(** The columns no statement writes. *)
Definition identity (r : row) : string * string * string * string * string * Z :=
  (r_event_id r, r_aggregate r, r_aggregate_id r, r_event_type r, r_payload r, r_created_at r).

Definition row_evolves (r r' : row) : Prop :=
  identity r' = identity r /\ r_attempts r <= r_attempts r'.

Definition table_evolves (t t' : table) : Prop :=
  dom t' = dom t /\ forall id r r', t !! id = Some r -> t' !! id = Some r' -> row_evolves r r'.

#[export] Instance row_evolves_preorder : PreOrder row_evolves.
Proof. split; [done|]. intros r r' r'' [? ?] [? ?]. split; [congruence|lia]. Qed.

Lemma table_evolves_lookup t t' id r :
  table_evolves t t' -> t !! id = Some r -> exists r', t' !! id = Some r' /\ row_evolves r r'.
Proof.
  intros [Hd He] Hr. assert (is_Some (t' !! id)) as [r' Hr'].
  { apply elem_of_dom. rewrite Hd. apply elem_of_dom. eauto. }
  eauto.
Qed.

Lemma table_evolves_lookup_r t t' id r' :
  table_evolves t t' -> t' !! id = Some r' -> exists r, t !! id = Some r /\ row_evolves r r'.
Proof.
  intros [Hd He] Hr'. assert (is_Some (t !! id)) as [r Hr].
  { apply elem_of_dom. rewrite <- Hd. apply elem_of_dom. eauto. }
  eauto.
Qed.

#[export] Instance table_evolves_preorder : PreOrder table_evolves.
Proof.
  split.
  - intros t. split; [done|]. intros id r r' H1 H2. by simplify_eq.
  - intros t t' t'' H1 H2. split; [by rewrite (proj1 H2), (proj1 H1)|].
    intros id r r'' Hr Hr''.
    destruct (table_evolves_lookup _ _ _ _ H1 Hr) as (r'&Hr'&He). etrans; [done|].
    destruct H2 as [_ H2]. eauto.
Qed.

(** A row is in one of four states, with the columns of that state. *)
Record row_wf (r : row) : Prop := {
  wf_status : r_status r ∈ ["pending"; "processing"; "sent"; "failed"];
  wf_processing : is_Some (r_processing_started_at r) <-> r_status r = "processing";
  wf_sent : r_status r = "sent" -> is_Some (r_sent_at r) /\ r_last_error r = None;
  wf_failed : r_status r = "failed" -> is_Some (r_failed_at r) /\ is_Some (r_last_error r);
  wf_attempts : 0 <= r_attempts r <= int4_max
}.

Lemma fresh_row_wf id ag aid ty p now :
  row_wf (Row id ag aid ty p "pending" now None None 0 now None now None).
Proof. split; simpl; [in_list|by split; [intros [??]|]|done|done|unfold int4_max; lia]. Qed.

(** The table written by a statement, row by row. *)
Definition writes (P : Z -> row -> row -> Prop) (t t' : table) : Prop :=
  exists f, (forall id, t' !! id = f id <$> t !! id) /\
            (forall id r, t !! id = Some r -> f id r = r \/ P id r (f id r)).

Lemma writes_refl P t : writes P t t.
Proof.
  exists (fun _ r => r). split; [|intros; by left].
  intros id. by destruct (t !! id).
Qed.

Lemma writes_update_where (P : Z -> row -> row -> Prop) p g (t : table) :
  (forall id r, p r = true -> P id r (g r)) -> writes P t (update_where p g t).
Proof.
  intros H. exists (fun _ r => if p r then g r else r). split.
  - intros id. apply lookup_update_where.
  - intros id r _. destruct (p r) eqn:E; [right; by apply H|by left].
Qed.

Lemma writes_alter (P : Z -> row -> row -> Prop) g i (t : table) :
  (forall r, P i r (g r)) -> writes P t (alter g i t).
Proof.
  intros H. exists (fun id r => if bool_decide (i = id) then g r else r). split.
  - intros id. rewrite lookup_alter. case_decide; case_bool_decide; try done.
    + by subst.
    + by destruct (t !! id).
  - intros id r _. case_bool_decide; [subst; right; apply H|by left].
Qed.

Lemma writes_claim (P : Z -> row -> row -> Prop) now limit locked ids (t : table) :
  (forall id r, is_due now r = true -> r_attempts r < int4_max -> P id r (set_claimed now r)) ->
  writes P t (claim now limit locked ids t).1.
Proof.
  intros H. destruct (claim now limit locked ids t) as [t' [es|e]] eqn:E; simpl.
  - apply claim_meets_spec in E.
    exists (fun id r => if bool_decide (id ∈ ids_of es) then set_claimed now r else r). split.
    + intros id. rewrite (claim_table _ _ _ _ _ _ E).
      case_bool_decide; by destruct (t !! id).
    + intros id r Hr. case_bool_decide as Hi; [right|by left].
      apply list_elem_of_fmap in Hi as (ev&->&Hev).
      destruct (claim_rows _ _ _ _ _ _ E ev Hev) as (r'&Hr'&?&?&?&?). simplify_eq. by apply H.
  - unfold claim in E. repeat case_match; simplify_eq; apply writes_refl.
Qed.

(** What a statement may do to the row with key [id]. *)
Definition stmt_write {PG : Postgres} (ch : choice) (o : outbox_op) (id : Z) (r r' : row) : Prop :=
  match o with
  | QResetStuck i => is_stuck (ch_now ch) i r = true /\ r' = set_reset (ch_now ch) r
  | QLag => False
  | QClaim _ => is_due (ch_now ch) r = true /\ r_attempts r < int4_max /\
                r' = set_claimed (ch_now ch) r
  | QMarkSent i => id = i /\ r' = set_sent (ch_now ch) r
  | QMarkFailed i next msg => id = i /\ r' = set_retry (ch_now ch) (pg_time next) msg r
  | QMarkDead i msg => id = i /\ r' = set_dead (ch_now ch) msg r
  end.

Section Laws.
Context {PG : Postgres}.

Lemma stmt_writes ch t o : writes (stmt_write ch o) t (outbox_stmt ch t o).1.
Proof.
  destruct o; simpl; try (destruct (text_ok msg)); simpl;
    first [ apply writes_refl | apply writes_update_where; by eauto
          | apply writes_alter; by eauto | apply writes_claim; by eauto ].
Qed.

Lemma exec_writes ch t o : writes (stmt_write ch o) t (outbox_next ch t o).
Proof.
  pose proof (stmt_writes ch t o) as H.
  destruct (outbox_next_cases ch t o) as [->| ->]; [apply writes_refl|done].
Qed.

(** Looking a row up in the new table. *)
Lemma writes_lookup P (t t' : table) id r' :
  writes P t t' -> t' !! id = Some r' ->
  exists r, t !! id = Some r /\ (r' = r \/ P id r r').
Proof.
  intros (f&Hf&HP) Hr'. rewrite Hf in Hr'. apply fmap_Some in Hr' as (r&Hr&->).
  exists r. split; [done|]. by apply HP.
Qed.

Lemma writes_forall P (I : row -> Prop) (t t' : table) :
  writes P t t' -> (forall id r r', I r -> P id r r' -> I r') ->
  map_Forall (fun _ => I) t -> map_Forall (fun _ => I) t'.
Proof.
  intros Hw HI H id r' Hr'.
  destruct (writes_lookup _ _ _ _ _ Hw Hr') as (r&Hr&[->|HP]); [by apply (H id)|].
  eapply HI; [|done]. by apply (H id).
Qed.

Lemma writes_evolves P (t t' : table) :
  writes P t t' -> (forall id r r', P id r r' -> row_evolves r r') -> table_evolves t t'.
Proof.
  intros (f&Hf&HP) HI. split.
  - apply set_eq. intros id. by rewrite !elem_of_dom, Hf, fmap_is_Some.
  - intros id r r' Hr Hr'. rewrite Hf, Hr in Hr'. simplify_eq/=.
    destruct (HP id r Hr) as [->|?]; [done|eauto].
Qed.

Lemma stmt_write_evolves ch o id r r' : stmt_write ch o id r r' -> row_evolves r r'.
Proof.
  destruct o; simpl; try done; intros; destruct_and?; subst; split; try done; simpl; lia.
Qed.

(** Every statement keeps rows well formed. *)
Lemma stmt_write_wf ch o id r r' : row_wf r -> stmt_write ch o id r r' -> row_wf r'.
Proof.
  assert (Hn : forall s, s <> "processing" -> is_Some (None : option Z) <-> s = "processing").
  { intros s Hs. split; [by intros [??]|done]. }
  intros [Hs Hp Hsent Hf Ha]. unfold is_due, is_stuck.
  destruct o; simpl; try done; intros; destruct_and?; subst; split; simpl;
    try done; try (by apply Hn); try lia; try in_list; eauto.
Qed.

Lemma exec_evolves ch t o : table_evolves t (outbox_next ch t o).
Proof. eapply writes_evolves; [apply exec_writes|apply stmt_write_evolves]. Qed.
End Laws.
