(* ===== verification/Processed.v ===== *)
(** * The processed_events table and its store (internal/notify/store.go) *)

From S2P Require Import Prelude Effects Postgres.

(** ** The table (migrations 0005 and 0007) *)

(** A row without its primary key, the event's UUID. *)
Record prow : Type := PRow {
  pe_event_type : string;
  pe_aggregate : string;
  pe_aggregate_id : string;
  pe_payload : string;
  pe_status : string;
  pe_attempts : Z;
  pe_first_seen_at : Z;
  pe_updated_at : Z;
  pe_processed_at : option Z;
  pe_last_error : option string;
  pe_failed_at : option Z
}.

Abbreviation ptable := (gmap string prow).

(** The fields of [type ProcessedEvent struct] that the code fills. *)
Record ProcessedEvent : Type := MkProcessedEvent {
  pv_EventID : string;
  pv_EventType : string;
  pv_Aggregate : string;
  pv_AggregateID : string;
  pv_Payload : string
}.

(** A row that no attempt may touch again. *)
Definition final (s : string) : bool := bool_decide (s = "done") || bool_decide (s = "failed").

(** *** The SET lists *)

Definition set_started (now : Z) (r : prow) : prow :=
  PRow (pe_event_type r) (pe_aggregate r) (pe_aggregate_id r) (pe_payload r)
       (if final (pe_status r) then pe_status r else "processing")
       (if final (pe_status r) then pe_attempts r else pe_attempts r + 1)
       (pe_first_seen_at r) now (pe_processed_at r) (pe_last_error r) (pe_failed_at r).

Definition set_done (now : Z) (r : prow) : prow :=
  PRow (pe_event_type r) (pe_aggregate r) (pe_aggregate_id r) (pe_payload r) "done"
       (pe_attempts r) (pe_first_seen_at r) now (Some now) None (pe_failed_at r).

Definition set_error (now : Z) (msg : string) (r : prow) : prow :=
  PRow (pe_event_type r) (pe_aggregate r) (pe_aggregate_id r) (pe_payload r) "processing"
       (pe_attempts r) (pe_first_seen_at r) now (pe_processed_at r) (Some msg) (pe_failed_at r).

Definition set_failed (now : Z) (msg : string) (r : prow) : prow :=
  PRow (pe_event_type r) (pe_aggregate r) (pe_aggregate_id r) (pe_payload r) "failed"
       (pe_attempts r) (pe_first_seen_at r) now (pe_processed_at r) (Some msg)
       (Some (match pe_failed_at r with Some t => t | None => now end)).

(** ** The statements as calls *)

Inductive notify_op : Type :=
| QStart (e : ProcessedEvent)
| QDone (event_id : string)
| QError (event_id msg : string)
| QFailed (event_id msg : string).

Definition notify_res (o : notify_op) : Type :=
  match o with
  | QStart _ => string * Z
  | QDone _ | QError _ _ | QFailed _ _ => unit
  end.

Canonical Structure notify_sig : sig := Sig notify_op (fun o => result (notify_res o)).

Section Statements.
Context {PG : Postgres}.

(** INSERT ... ON CONFLICT (event_id) DO UPDATE ... RETURNING status, attempts. *)
Definition start_stmt (now : Z) (e : ProcessedEvent) (t : ptable) : ptable * result (string * Z) :=
  match uuid_in (pv_EventID e), jsonb_in (pv_Payload e) with
  | None, _ => (t, Err pg_bad_uuid)
  | _, None => (t, Err pg_bad_json)
  | Some id, Some payload =>
      if text_ok (pv_EventType e) && text_ok (pv_Aggregate e) && text_ok (pv_AggregateID e) then
        let fresh := PRow (pv_EventType e) (pv_Aggregate e) (pv_AggregateID e) payload
                          "processing" 1 now now None None None in
        let r' := match t !! id with None => fresh | Some r => set_started now r end in
        if int4_max <? pe_attempts r' then (t, Err pg_out_of_range)
        else (<[id := r']> t, Ok (pe_status r', pe_attempts r'))
      else (t, Err pg_bad_text)
  end.

(** UPDATE processed_events SET f WHERE event_id = $1. *)
Definition update_event (event_id : string) (f : prow -> prow) (t : ptable) : ptable * result unit :=
  match uuid_in event_id with
  | Some id => (alter f id t, Ok ())
  | None => (t, Err pg_bad_uuid)
  end.

Definition notify_stmt (ch : choice) (t : ptable) (o : notify_op) : ptable * result (notify_res o) :=
  match o with
  | QStart e => start_stmt (ch_now ch) e t
  | QDone id => update_event id (set_done (ch_now ch)) t
  | QError id msg =>
      if text_ok msg then update_event id (set_error (ch_now ch) msg) t else (t, Err pg_bad_text)
  | QFailed id msg =>
      if text_ok msg then update_event id (set_failed (ch_now ch) msg) t else (t, Err pg_bad_text)
  end.

#[export] Instance notify_exec : Exec notify_sig ptable := fun ch t o =>
  settle (ch_out ch) t (notify_stmt ch t o).

(** The state after the call. *)
Definition notify_next ch (t : ptable) (o : notify_op) : ptable := (notify_exec ch t o).1.

Lemma notify_next_cases ch (t : ptable) o :
  notify_next ch t o = t \/ notify_next ch t o = (notify_stmt ch t o).1.
Proof. apply settle_fst. Qed.

Lemma notify_exec_ok ch (t : ptable) o a :
  (notify_exec ch t o).2 = Ok a ->
  notify_stmt ch t o = (notify_next ch t o, Ok a).
Proof.
  unfold notify_next, notify_exec. destruct (settle _ _ _) as [x y] eqn:E. simpl. intros ->.
  by apply settle_ok in E.
Qed.

(** ** Well-formed rows *)

(** A row is in one of three states, with the columns of that state. *)
Record prow_wf (p : prow) : Prop := {
  pwf_status : pe_status p ∈ ["processing"; "done"; "failed"];
  pwf_done : pe_status p = "done" -> is_Some (pe_processed_at p) /\ pe_last_error p = None;
  pwf_failed : pe_status p = "failed" -> is_Some (pe_failed_at p) /\ is_Some (pe_last_error p);
  pwf_attempts : 1 <= pe_attempts p <= int4_max
}.

Definition ptable_wf (t : ptable) : Prop := map_Forall (fun _ => prow_wf) t.

Lemma set_done_wf now p : prow_wf p -> prow_wf (set_done now p).
Proof. intros []. split; simpl; [in_list|eauto|done|done]. Qed.
Lemma set_error_wf now msg p : prow_wf p -> prow_wf (set_error now msg p).
Proof. intros []. split; simpl; [in_list|done|done|done]. Qed.
Lemma set_failed_wf now msg p : prow_wf p -> prow_wf (set_failed now msg p).
Proof. intros []. split; simpl; [in_list|done|eauto|done]. Qed.
Lemma set_started_wf now p :
  prow_wf p -> pe_attempts (set_started now p) <= int4_max -> prow_wf (set_started now p).
Proof.
  intros [Hs Hd Hf Ha]. unfold set_started. simpl. destruct (final (pe_status p)) eqn:E.
  - by split.
  - split; simpl; [in_list|done|done|lia].
Qed.

Lemma update_event_wf id f t :
  (forall p, prow_wf p -> prow_wf (f p)) -> ptable_wf t -> ptable_wf (update_event id f t).1.
Proof.
  intros Hf Ht. unfold update_event. destruct (uuid_in id) as [u|]; [|done].
  intros e p. simpl. rewrite lookup_alter. case_decide; [|by apply Ht].
  intros (q&Hq&->)%fmap_Some. by eapply Hf, Ht.
Qed.

Lemma start_stmt_wf now e t : ptable_wf t -> ptable_wf (start_stmt now e t).1.
Proof.
  intros Ht. unfold start_stmt. repeat (case_match; try done).
  all: apply map_Forall_insert_2; [|done]; bool_props.
  - apply set_started_wf; [by eapply Ht|done].
  - split; simpl; [in_list|done|done|unfold int4_max; lia].
Qed.

(** Every statement keeps rows well formed. *)
Lemma notify_next_wf ch t o : ptable_wf t -> ptable_wf (notify_next ch t o).
Proof.
  intros Ht. destruct (notify_next_cases ch t o) as [->| ->]; [done|].
  destruct o as [e|id|id msg|id msg]; simpl.
  - by apply start_stmt_wf.
  - apply update_event_wf; [apply set_done_wf|done].
  - destruct (text_ok msg); [|done]. apply update_event_wf; [apply set_error_wf|done].
  - destruct (text_ok msg); [|done]. apply update_event_wf; [apply set_failed_wf|done].
Qed.
End Statements.

(** ** The methods of [Store] *)

(** [(shouldProcess, attempts, status, err)]. *)
Record Started : Type := MkStarted {
  shouldProcess : bool;
  st_attempts : Z;
  st_status : string;
  st_err : option goerr
}.

Module Store.
Section Methods.
Context {S : sig} `{!Sub notify_sig S}.

Definition StartProcessing (e : ProcessedEvent) : prog S Started :=
  r ← call (QStart e);
  match r with
  | Err err => mret (MkStarted false 0 "" (Some err))
  | Ok (status, attempts) =>
      if bool_decide (status = "done") || bool_decide (status = "failed")
      then mret (MkStarted false attempts status None)
      else mret (MkStarted true attempts status None)
  end.

Definition MarkDone (eventID : string) : prog S (option goerr) :=
  r ← call (QDone eventID); mret (err_of r).

Definition MarkFailed (eventID errMsg : string) : prog S (option goerr) :=
  r ← call (QError eventID errMsg); mret (err_of r).

Definition MarkDead (eventID errMsg : string) : prog S (option goerr) :=
  r ← call (QFailed eventID errMsg); mret (err_of r).
End Methods.
End Store.
