(* ===== verification/Ticket.v ===== *)
(** * Tickets (internal/ticket): model, validation, errors, stores

    The request validation of model.go, the error responses of errors.go, the
    in-memory store of store.go and the Postgres store of store_postgres.go,
    whose [Create] writes the ticket and its outbox row in one transaction. *)

From S2P Require Import Prelude Effects GoString Runtime Events Postgres Outbox.

(** ** model.go *)

(** [type Ticket struct]. *)
Record Ticket : Type := MkTicket {
  t_ID : string;
  t_Title : string;
  t_Description : string;
  t_Status : string;
  t_CreatedAt : Z;
  t_UpdatedAt : Z
}.

Definition zero_Ticket : Ticket := MkTicket "" "" "" "" zero_time zero_time.

Record CreateTicketRequest : Type := MkCreateTicketRequest {
  req_Title : string;
  req_Description : string
}.

Definition Validate (r : CreateTicketRequest) : option goerr :=
  let title := TrimSpace (req_Title r) in
  if bool_decide (title = "") then Some (EValidation "title is required")
  else if len title <? 3 then Some (EValidation "title must be at least 3 characters")
  else if 200 <? len title then Some (EValidation "title must be at most 200 characters")
  else
    let desc := TrimSpace (req_Description r) in
    if 5000 <? len desc then Some (EValidation "description must be at most 5000 characters")
    else None.

(** ** store.go: the in-memory store *)

(** [hex.EncodeToString]. *)
Definition hex_digit (n : Z) : Ascii.ascii := if n <? 10 then chr (48 + n) else chr (87 + n).
Definition hex_encode (b : bytes) : string :=
  of_bytes (flat_map (fun c => [hex_digit (code c / 16); hex_digit (code c mod 16)]) b).

(** The id drawn from 16 random bytes, or a constant when there are none. *)
Definition newID (rand : result bytes) : string :=
  match rand with
  | Err _ => "00000000000000000000000000000000"
  | Ok b => hex_encode b
  end.

Abbreviation tickets := (gmap string Ticket).

Module InMemoryStore.
Definition Create (rand : result bytes) (byID : tickets) (t : Ticket) : tickets * result Ticket :=
  let t := if bool_decide (t_ID t = "")
           then MkTicket (newID rand) (t_Title t) (t_Description t) (t_Status t) (t_CreatedAt t) (t_UpdatedAt t)
           else t in
  (<[t_ID t := t]> byID, Ok t).

Definition Get (byID : tickets) (id : string) : result Ticket :=
  match byID !! id with
  | None => Err ErrNotFound
  | Some t => Ok t
  end.
End InMemoryStore.

(** ** store_postgres.go

    The tables, the transaction and the statements of [PostgresStore].  A
    transaction's rows are visible to it alone until COMMIT makes them the
    database's, all together. *)

(** The tables of the ticket service, with the sequence of [outbox.id]. *)
Record tables : Type := MkTables {
  db_tickets : tickets;
  db_outbox : table;
  db_seq : Z
}.

(** An open transaction: its [now()] and the rows it has inserted. *)
Record Tx : Type := MkTx {
  tx_now : Z;
  tx_tickets : list Ticket;
  tx_outbox : list (Z * row)
}.

Inductive ticket_op : Type :=
| QBegin
| QInsertTicket (tx : Tx) (t : Ticket)
| QInsertOutbox (tx : Tx) (aggregate aggregate_id event_type payload : string)
| QCommit (tx : Tx)
| QRollback (tx : Tx)
| QGetTicket (id : string)
| QPing.

Definition ticket_res (o : ticket_op) : Type :=
  match o with
  | QBegin => Tx
  | QInsertTicket _ _ => Tx * Ticket
  | QInsertOutbox _ _ _ _ _ => Tx
  | QCommit _ | QRollback _ | QPing => unit
  | QGetTicket _ => Ticket
  end.

Canonical Structure ticket_sig : sig := Sig ticket_op (fun o => result (ticket_res o)).

Definition event_ids (t : table) : list string := (fun kr => r_event_id kr.2) <$> map_to_list t.

Section Statements.
Context {PG : Postgres}.

Definition insert_ticket (tx : Tx) (t : Ticket) (d : tables) : result (Tx * Ticket) :=
  if text_ok (t_ID t) && text_ok (t_Title t) && text_ok (t_Description t) && text_ok (t_Status t)
  then
    if bool_decide (is_Some (db_tickets d !! t_ID t)) || bool_decide (t_ID t ∈ t_ID <$> tx_tickets tx)
    then Err pg_duplicate
    else
      let t' := MkTicket (t_ID t) (t_Title t) (t_Description t) (t_Status t)
                         (pg_time (t_CreatedAt t)) (pg_time (t_UpdatedAt t)) in
      Ok (MkTx (tx_now tx) (t' :: tx_tickets tx) (tx_outbox tx), t')
  else Err pg_bad_text.

(** The columns the INSERT leaves out take their defaults: the next value of the
    sequence, a random UUID, 'pending', and the transaction's [now()]. *)
Definition insert_outbox (uuid : string) (tx : Tx) (aggregate aggregate_id event_type payload : string)
    (d : tables) : tables * result Tx :=
  if text_ok aggregate && text_ok aggregate_id && text_ok event_type then
    match jsonb_in payload, uuid_in uuid with
    | None, _ => (d, Err pg_bad_json)
    | _, None => (d, Err pg_bad_uuid)
    | Some payload, Some event_id =>
        if bool_decide (event_id ∈ event_ids (db_outbox d))
           || bool_decide (event_id ∈ (fun kr => r_event_id kr.2) <$> tx_outbox tx)
        then (d, Err pg_duplicate)
        else
          let id := db_seq d + 1 in
          let now := tx_now tx in
          let r := Row event_id aggregate aggregate_id event_type payload "pending" now None None
                       0 now None now None in
          (MkTables (db_tickets d) (db_outbox d) id,
           Ok (MkTx now (tx_tickets tx) ((id, r) :: tx_outbox tx)))
    end
  else (d, Err pg_bad_text).

(** Whether a key of the transaction has been taken since its INSERT (where
    Postgres would have made the second INSERT wait). *)
Definition tx_conflicts (tx : Tx) (d : tables) : bool :=
  existsb (fun t => bool_decide (is_Some (db_tickets d !! t_ID t))) (tx_tickets tx)
  || existsb (fun kr => bool_decide (is_Some (db_outbox d !! kr.1))
                        || bool_decide (r_event_id kr.2 ∈ event_ids (db_outbox d))) (tx_outbox tx).

Definition commit_tx (tx : Tx) (d : tables) : tables * result unit :=
  if tx_conflicts tx d then (d, Err pg_duplicate)
  else (MkTables (foldr (fun t m => <[t_ID t := t]> m) (db_tickets d) (tx_tickets tx))
                 (foldr (fun kr m => <[kr.1 := kr.2]> m) (db_outbox d) (tx_outbox tx))
                 (db_seq d), Ok ()).

Definition ticket_stmt (ch : choice) (d : tables) (o : ticket_op) : tables * result (ticket_res o) :=
  match o with
  | QBegin => (d, Ok (MkTx (ch_now ch) [] []))
  | QInsertTicket tx t => (d, insert_ticket tx t d)
  | QInsertOutbox tx a aid ty p => insert_outbox (ch_uuid ch) tx a aid ty p d
  | QCommit tx => commit_tx tx d
  | QRollback _ => (d, Ok ())
  | QGetTicket id =>
      (d, if text_ok id then
            match db_tickets d !! id with Some t => Ok t | None => Err ErrNoRows end
          else Err pg_bad_text)
  | QPing => (d, Ok ())
  end.

#[export] Instance ticket_exec : Exec ticket_sig tables := fun ch d o =>
  settle (ch_out ch) d (ticket_stmt ch d o).

(** The state after the call. *)
Definition ticket_next ch (d : tables) (o : ticket_op) : tables := (ticket_exec ch d o).1.

Lemma ticket_next_cases ch (d : tables) o :
  ticket_next ch d o = d \/ ticket_next ch d o = (ticket_stmt ch d o).1.
Proof. apply settle_fst. Qed.

Lemma ticket_exec_ok ch (d : tables) o a :
  (ticket_exec ch d o).2 = Ok a ->
  ticket_stmt ch d o = (ticket_next ch d o, Ok a).
Proof.
  unfold ticket_next, ticket_exec. destruct (settle _ _ _) as [x y] eqn:E. simpl. intros ->.
  by apply settle_ok in E.
Qed.
End Statements.

Module PostgresStore.
Section Methods.
Context {J : Json} {S : sig} `{!Sub ticket_sig S}.

(** A return before COMMIT runs the deferred Rollback. *)
Definition rollback {A} (tx : Tx) (err : goerr) : prog S (result A) :=
  _ ← call (QRollback tx); mret (Err err).

Definition Create (request_id : string) (t : Ticket) : prog S (result Ticket) :=
  r ← call QBegin;
  match r with
  | Err err => mret (Err err)
  | Ok tx =>
      r ← call (QInsertTicket tx t);
      match r with
      | Err err => rollback tx err
      | Ok (tx, out) =>
          match marshal_payload (MkTicketPayload (t_ID out) (t_Title out) (t_Status out)
                                                 (t_CreatedAt out) request_id) with
          | Err err => rollback tx err
          | Ok payload =>
              r ← call (QInsertOutbox tx "ticket" (t_ID out) EventTypeTicketCreated payload);
              match r with
              | Err err => rollback tx err
              | Ok tx =>
                  r ← call (QCommit tx);
                  match r with
                  | Err err => mret (Err err)
                  | Ok _ => mret (Ok out)
                  end
              end
          end
      end
  end.

Definition Get (id : string) : prog S (result Ticket) :=
  r ← call (QGetTicket id);
  match r with
  | Err err => if errors_Is err ErrNoRows then mret (Err ErrNotFound) else mret (Err err)
  | Ok out => mret (Ok out)
  end.
End Methods.
End PostgresStore.
