(* ===== verification/Handler.v ===== *)
(** * The HTTP handlers of tickets (internal/ticket/handler.go, errors.go)

    The handlers are written against the interface [TicketStore], the Go
    interface [Store]; the in-memory and the Postgres stores are its instances.
    A handler returns the response it writes. *)

From S2P Require Import Prelude Effects GoString Runtime Events Postgres Outbox Ticket.

(** ** Requests and responses *)

(** The parts of [*http.Request] the handlers read: the method, the path, the
    body, and the request id its context carries. *)
Record request : Type := Request {
  rq_Method : string;
  rq_Path : string;
  rq_Body : string;
  rq_RequestID : string
}.

Inductive payload : Type :=
| PTicket (t : Ticket)
| PError (code message request_id : string)
| PText (s : string).

Record response : Type := Response { rs_status : Z; rs_body : payload }.

(** A body being read: the bytes left, and the error that follows them. *)
Record body : Type := Body { bd_bytes : string; bd_err : goerr }.

(** [http.MaxBytesReader]. *)
Definition MaxBytesReader (b : string) (n : Z) : body :=
  if len b <=? n then Body b EOF
  else Body (of_bytes (take (Z.to_nat n) (to_bytes b))) (EMsg "http: request body too large").

(** [json.NewDecoder(r).Decode] into a [CreateTicketRequest] with unknown fields
    disallowed, which leaves the rest of the body, and into an empty struct. *)
Class JsonDecoder : Type := {
  decode_request : body -> result (CreateTicketRequest * body);
  decode_end : body -> option goerr
}.

(** errors.go *)
Definition WriteErrorR (r : request) (status : Z) (code message : string) : response :=
  Response status (PError code message (rq_RequestID r)).

Definition writeJSON (status : Z) (t : Ticket) : response := Response status (PTicket t).

(** ** The interface Store *)

Class TicketStore (S : sig) : Type := {
  store_Create : string -> Ticket -> prog S (result Ticket);
  store_Get : string -> prog S (result Ticket)
}.

(** The in-memory store behind its mutex: each method is one atomic call. *)
Inductive memory_op : Type :=
| MCreate (t : Ticket)
| MGet (id : string).

Canonical Structure memory_sig : sig := Sig memory_op (fun _ => result Ticket).

#[export] Instance memory_exec : Exec memory_sig tickets := fun ch m o =>
  match o with
  | MCreate t =>
      InMemoryStore.Create
        (if (length (ch_rand ch) =? 16)%nat then Ok (ch_rand ch) else Err (EMsg "rand")) m t
  | MGet id => (m, InMemoryStore.Get m id)
  end.

#[export] Instance memory_store S `{!Sub memory_sig S} : TicketStore S := {|
  store_Create _ t := call (MCreate t);
  store_Get id := call (MGet id)
|}.

#[export] Instance postgres_store {J : Json} S `{!Sub ticket_sig S} : TicketStore S := {|
  store_Create := PostgresStore.Create;
  store_Get := PostgresStore.Get
|}.

(** ** handler.go *)

Section Handlers.
Context {JD : JsonDecoder} {S : sig} `{!Sub runtime_sig S, !TicketStore S}.

Definition CreateTicket (r : request) : prog S response :=
  if negb (bool_decide (rq_Method r = "POST")) then
    mret (WriteErrorR r 405 "method_not_allowed" "method not allowed")
  else
    match decode_request (MaxBytesReader (rq_Body r) 1048576) with
    | Err err =>
        let msg := if errors_Is err EOF then "empty body" else "invalid json" in
        mret (WriteErrorR r 400 "validation_error" msg)
    | Ok (req, rest) =>
        if negb (bool_decide (decode_end rest = Some EOF)) then
          mret (WriteErrorR r 400 "validation_error" "invalid json")
        else
          match Validate req with
          | Some err => mret (WriteErrorR r 400 "validation_error" (Error err))
          | None =>
              created_at ← Now;
              updated_at ← Now;
              id ← NewString;
              let t := MkTicket id (TrimSpace (req_Title req)) (TrimSpace (req_Description req))
                                "open" created_at updated_at in
              created ← store_Create (rq_RequestID r) t;
              match created with
              | Err _ => mret (WriteErrorR r 500 "internal_error" "internal error")
              | Ok created => mret (writeJSON 201 created)
              end
          end
    end.

Definition GetTicket (r : request) (id : string) : prog S response :=
  if negb (bool_decide (rq_Method r = "GET")) then
    mret (WriteErrorR r 405 "method_not_allowed" "method not allowed")
  else
    let id := TrimSpace id in
    if bool_decide (id = "") then mret (WriteErrorR r 404 "not_found" "not found")
    else
      t ← store_Get id;
      match t with
      | Err err =>
          if errors_Is err ErrNotFound then mret (WriteErrorR r 404 "not_found" "not found")
          else mret (WriteErrorR r 500 "internal_error" "internal error")
      | Ok t => mret (writeJSON 200 t)
      end.
End Handlers.
