(* ===== verification/Codec.v ===== *)
(** * encoding/json

    What [json.Marshal], [json.Unmarshal] and [json.Decoder] make of the Go values of the
    program: the instances of the interfaces [Json] and [JsonDecoder].  Times are in UTC.
    The texts of the library's errors are the class [JsonTexts]. *)

From S2P Require Import Prelude GoString Utf8 Rfc3339 Json JsonText JsonString Runtime Events.
From S2P Require Import Postgres Outbox Ticket Handler.
From Stdlib Require Import Ascii.
#[local] Open Scope Z_scope.

(** The text of an error: of the scanner, of a value of the wrong type for a field, of a
    time that is none, of a field that is unknown, of a value that cannot be encoded. *)
Class JsonTexts : Type := {
  syntax_text : string -> string;
  type_text : string -> string;
  time_text : string -> string;
  unknown_text : string -> string;
  marshaler_text : string -> string
}.

(** ** Objects *)

Definition field_text (kv : bytes * bytes) : bytes := quoted kv.1 ++ colon :: kv.2.
Definition object (fs : list (bytes * bytes)) : bytes :=
  open_brace :: commas (map field_text fs) ++ [close_brace].

(** Fields and their keys; encoding/json finds one by its exact key, or else by a key
    that is the same when case is folded.  The keys are ASCII: of the other characters
    only U+017F and U+212A fold to one of theirs. *)
Definition fold_rune (r : Z) : Z :=
  if between 97 122 r then r - 32 else if r =? 383 then 83 else if r =? 8490 then 75 else r.
Definition fold_name (s : string) : list Z := map fold_rune (runes s).

Fixpoint find_field {F} (same : string -> bool) (fields : list (string * F)) : option F :=
  match fields with
  | [] => None
  | (name, f) :: fields => if same name then Some f else find_field same fields
  end.

Definition field_named {F} (fields : list (string * F)) (key : string) : option F :=
  match find_field (fun name => bool_decide (name = key)) fields with
  | Some f => Some f
  | None => find_field (fun name => bool_decide (fold_name name = fold_name key)) fields
  end.

(** ** Marshal *)

Definition string_value (s : string) : bytes := quoted (quote s).

(** What a value does to a field: sets it, leaves it, has the wrong type - which is
    reported in the end - or stops the decoding. *)
Inductive stored (A : Type) : Type :=
| Stored (a : A)
| Kept
| Mistyped
| Stopped (e : goerr).
Arguments Stored {A} a.
Arguments Kept {A}.
Arguments Mistyped {A}.
Arguments Stopped {A} e.

Section Codec.
Context {JT : JsonTexts}.

Definition time_value (t : Z) : result bytes :=
  match format_rfc3339 t with
  | Some b => Ok (quoted b)
  | None => Err (EMsg (marshaler_text "year outside of range [0,9999]"))
  end.

(** [json.RawMessage]: null when it is nil, else its compact form. *)
Definition compact (depth : Z) (s : bytes) : option bytes :=
  match value (fuel_of s) depth s with
  | Some (c, r) => if bool_decide (skip_ws r = []) then Some c else None
  | None => None
  end.

Definition raw_value (s : string) : result bytes :=
  if bool_decide (s = "") then Ok (to_bytes "null")
  else match compact max_depth (to_bytes s) with
       | Some c => Ok c
       | None => Err (EMsg (marshaler_text (syntax_text s)))
       end.

Definition key (s : string) : bytes := to_bytes s.

Definition envelope_fields (e : Envelope) (time payload : bytes) : list (bytes * bytes) :=
  [(key "event_id", string_value (env_EventID e)); (key "event_type", string_value (env_EventType e));
   (key "occurred_at", time); (key "aggregate", string_value (env_Aggregate e));
   (key "aggregate_id", string_value (env_AggregateID e))]
  ++ (if bool_decide (env_RequestID e = "") then []
      else [(key "request_id", string_value (env_RequestID e))])
  ++ [(key "payload", payload)].

Definition envelope_value (e : Envelope) : result bytes :=
  match time_value (env_OccurredAt e) with
  | Err err => Err err
  | Ok time =>
      match raw_value (env_Payload e) with
      | Err err => Err err
      | Ok payload => Ok (object (envelope_fields e time payload))
      end
  end.

Definition with_error (err name : string) (v : result bytes) : result string :=
  match v with
  | Ok v => Ok (of_bytes (object [(key "error", string_value err); (key name, v)]))
  | Err e => Err e
  end.

(** A map is encoded in the order of its keys. *)
Definition payload_value (tp : TicketPayload) : result bytes :=
  match time_value (tp_created_at tp) with
  | Err err => Err err
  | Ok time =>
      Ok (object [(key "created_at", time); (key "request_id", string_value (tp_request_id tp));
                  (key "status", string_value (tp_status tp)); (key "ticket_id", string_value (tp_ticket_id tp));
                  (key "title", string_value (tp_title tp))])
  end.

Definition marshal (v : result bytes) : result string :=
  match v with Ok b => Ok (of_bytes b) | Err e => Err e end.

(** ** Unmarshal *)

Definition stored_map {A B} (f : A -> B) (s : stored A) : stored B :=
  match s with Stored a => Stored (f a) | Kept => Kept | Mistyped => Mistyped | Stopped e => Stopped e end.

(** The text inside the quotes of a string. *)
Definition inner_text (src : bytes) : option bytes :=
  match src with
  | q :: s => if isc 34 q then fst <$> scan_string s else None
  | [] => None
  end.

Definition is_null (src : bytes) : bool := match src with c :: _ => isc 110 c | [] => false end.

Definition to_string (src : bytes) : stored string :=
  match inner_text src with
  | Some raw => Stored (unquote raw)
  | None => if is_null src then Kept else Mistyped
  end.

(** [Time.UnmarshalJSON] parses the text as it is, without its escapes. *)
Definition to_time (src : bytes) : stored Z :=
  if is_null src then Kept
  else match inner_text src with
       | Some raw =>
           match parse_rfc3339 raw with
           | Some t => Stored t
           | None => Stopped (EMsg (time_text (of_bytes src)))
           end
       | None => Stopped (EMsg (time_text (of_bytes src)))
       end.

Definition to_raw (src : bytes) : stored string := Stored (of_bytes src).

(** The members of a struct, in their order; [assign] is [None] for an unknown field.
    The first error that is not immediate is the one reported. *)
Fixpoint decode_members {A} (strict : bool) (assign : string -> bytes -> A -> option (stored A))
    (ms : list member) (a : A) (saved : option goerr) : A * option goerr :=
  let save e := match saved with Some _ => saved | None => Some e end in
  match ms with
  | [] => (a, saved)
  | m :: ms =>
      match assign (unquote (mb_key m)) (mb_source m) a with
      | None =>
          decode_members strict assign ms a
            (if strict then save (EMsg (unknown_text (unquote (mb_key m)))) else saved)
      | Some (Stored a) => decode_members strict assign ms a saved
      | Some Kept => decode_members strict assign ms a saved
      | Some Mistyped =>
          decode_members strict assign ms a (save (EMsg (type_text (of_bytes (mb_source m)))))
      | Some (Stopped e) => (a, Some e)
      end
  end.

(** The members of a value that is an object. *)
Definition object_members (depth : Z) (s : bytes) : option (list member) :=
  match skip_ws s with
  | c :: s1 =>
      if isc 123 c then
        match skip_ws s1 with
        | c2 :: s2 =>
            if isc 125 c2 then Some []
            else fst <$> members (fuel_of s) (depth - 1) (c2 :: s2)
        | [] => None
        end
      else None
  | [] => None
  end.

Definition decode_struct {A} (strict : bool) (assign : string -> bytes -> A -> option (stored A))
    (s : bytes) (a : A) : A * option goerr :=
  match object_members max_depth s with
  | Some ms => decode_members strict assign ms a None
  | None => if is_null (skip_ws s) then (a, None) else (a, Some (EMsg (type_text (of_bytes s))))
  end.

(** [json.Unmarshal]: nothing is decoded unless the whole text is one value. *)
Definition Unmarshal {A} (assign : string -> bytes -> A -> option (stored A)) (data : string) (a : A)
    : A * option goerr :=
  match compact max_depth (to_bytes data) with
  | Some _ => decode_struct false assign (to_bytes data) a
  | None => (a, Some (EMsg (syntax_text data)))
  end.

Inductive envelope_field : Type :=
| FEventID | FEventType | FOccurredAt | FAggregate | FAggregateID | FRequestID | FPayload.

Definition envelope_keys : list (string * envelope_field) :=
  [("event_id", FEventID); ("event_type", FEventType); ("occurred_at", FOccurredAt);
   ("aggregate", FAggregate); ("aggregate_id", FAggregateID); ("request_id", FRequestID);
   ("payload", FPayload)].

Definition set_envelope (f : envelope_field) (src : bytes) (e : Envelope) : stored Envelope :=
  let 'MkEnvelope id ty at_ ag aid rid pl := e in
  match f with
  | FEventID => stored_map (fun v => MkEnvelope v ty at_ ag aid rid pl) (to_string src)
  | FEventType => stored_map (fun v => MkEnvelope id v at_ ag aid rid pl) (to_string src)
  | FOccurredAt => stored_map (fun v => MkEnvelope id ty v ag aid rid pl) (to_time src)
  | FAggregate => stored_map (fun v => MkEnvelope id ty at_ v aid rid pl) (to_string src)
  | FAggregateID => stored_map (fun v => MkEnvelope id ty at_ ag v rid pl) (to_string src)
  | FRequestID => stored_map (fun v => MkEnvelope id ty at_ ag aid v pl) (to_string src)
  | FPayload => stored_map (fun v => MkEnvelope id ty at_ ag aid rid v) (to_raw src)
  end.

Definition assign_envelope (k : string) (src : bytes) (e : Envelope) : option (stored Envelope) :=
  (fun f => set_envelope f src e) <$> field_named envelope_keys k.

(** The struct with the field [request_id] of cmd/outbox-relay. *)
Definition assign_rid (k : string) (src : bytes) (rid : string) : option (stored string) :=
  (fun _ : unit => to_string src) <$> field_named [("request_id", ())] k.

Definition assign_request (k : string) (src : bytes) (r : CreateTicketRequest)
    : option (stored CreateTicketRequest) :=
  (fun is_title : bool =>
     if is_title then stored_map (fun v => MkCreateTicketRequest v (req_Description r)) (to_string src)
     else stored_map (fun v => MkCreateTicketRequest (req_Title r) v) (to_string src))
  <$> field_named [("title", true); ("description", false)] k.

Definition go_json : Json := {|
  marshal_envelope e := marshal (envelope_value e);
  unmarshal_envelope data := Unmarshal assign_envelope data zero_Envelope;
  payload_request_id payload := (Unmarshal assign_rid payload "").1;
  marshal_dead_envelope err e := with_error err "envelope" (envelope_value e);
  marshal_dead_value err v := with_error err "value" (raw_value v);
  marshal_payload tp := marshal (payload_value tp);
  shallow s := bool_decide (is_Some (compact (max_depth - 1) (to_bytes s)))
|}.

(** ** The decoder of a request's body *)

(** An object or an array ends with its last character; where the data ends, any other
    value needs the end of the file. *)
Definition closed (s : bytes) : bool :=
  match skip_ws s with c :: _ => isc 123 c || isc 91 c | [] => false end.

Definition read_value (b : body) : result (bytes * body) :=
  let s := to_bytes (bd_bytes b) in
  match value (fuel_of s) max_depth s with
  | Some (_, r) =>
      if bool_decide (r = []) && negb (closed s) && negb (bool_decide (bd_err b = EOF))
      then Err (bd_err b)
      else Ok (take (length s - length r) s, Body (of_bytes r) (bd_err b))
  | None =>
      if bool_decide (skip_ws s = []) then Err (bd_err b) else Err (EMsg (syntax_text (bd_bytes b)))
  end.

Definition Decode {A} (assign : string -> bytes -> A -> option (stored A)) (b : body) (a : A)
    : result (A * body) :=
  match read_value b with
  | Err e => Err e
  | Ok (src, rest) =>
      match decode_struct true assign src a with
      | (a, None) => Ok (a, rest)
      | (_, Some e) => Err e
      end
  end.

Definition go_decoder : JsonDecoder := {|
  decode_request b := Decode assign_request b (MkCreateTicketRequest "" "");
  decode_end b := err_of (Decode (fun _ _ _ => None) b ())
|}.
End Codec.
