(* ===== verification/CodecLaws.v ===== *)
(** * What is encoded is decoded

    The laws of the instances of Codec.v: an envelope comes back field by field. *)

From S2P Require Import Prelude GoString Utf8 Rfc3339 Json JsonText JsonString Runtime Events.
From S2P Require Import Postgres Outbox Ticket Handler Codec.
From Stdlib Require Import Ascii.
#[local] Open Scope Z_scope.

(** ** Values that are read as they are *)

Definition is_value (depth : Z) (c : bytes) : Prop :=
  starts_dark c /\
  forall m t, terminated t -> (fuel_of (c ++ t) <= m)%nat -> value m depth (c ++ t) = Some (c, t).

Lemma value_is_value n d s c r : value n d s = Some (c, r) -> is_value d c.
Proof.
  intros Hv. split; [by destruct (proj1 (again n) d s c r [] Hv)|]. intros m t Ht Hm.
  destruct (proj1 (again n) d s c r t Hv Ht) as [_ H]. by eapply value_enough.
Qed.

Lemma is_value_deeper d d' c : is_value d c -> d <= d' -> is_value d' c.
Proof.
  intros [Hd Hv] Hle. split; [done|]. intros m t Ht Hm.
  eapply (value_enough (fuel_of (c ++ t))); [by apply Hv|done|done].
Qed.

Lemma quoted_is_value d raw : string_ok raw = true -> html_escape raw = raw -> is_value d (quoted raw).
Proof.
  intros Hok Hesc. apply (value_is_value 1 d (quoted raw) _ []). unfold quoted at 1. cbn [value].
  rewrite skip_ws_stop by done. cbn. rewrite scan_string_ok by done. by rewrite Hesc.
Qed.

Lemma string_is_value d s : is_value d (string_value s).
Proof. apply quoted_is_value; [apply quote_ok|apply quote_escaped]. Qed.

Lemma null_is_value d : is_value d (to_bytes "null").
Proof. by apply (value_is_value 1 d (to_bytes "null") _ []). Qed.

(** Text of ASCII without the characters that are escaped. *)
Definition plain_char (c : ascii) : bool :=
  let z := code c in
  between 32 126 z && negb (isc 34 c) && negb (isc 92 c) && negb (html_special c).

Lemma plain_text s :
  forallb plain_char s = true -> string_ok s = true /\ html_escape s = s.
Proof.
  induction s as [|c s IH]; [done|]. cbn [forallb]. intros [Hc Hs]%andb_true_iff.
  destruct (IH Hs) as [H1 H2]. unfold plain_char in Hc. cbv zeta in Hc.
  apply andb_true_iff in Hc as [[[Hc H34]%andb_true_iff H92]%andb_true_iff Hh].
  rewrite !negb_true_iff in *. apply between_iff in Hc. split.
  - cbn [string_ok]. by rewrite H34, H92, H1, (proj2 (Z.leb_le _ _)) by lia.
  - rewrite html_escape_plain, H2 by first [done|apply isc_false; lia]. done.
Qed.

Lemma digit_plain c : is_digit c = true -> plain_char c = true.
Proof.
  unfold is_digit. intros H%between_iff. unfold plain_char, html_special. cbv zeta.
  rewrite between_true, !isc_false by lia. done.
Qed.

Lemma forallb_digits n z : 0 <= z -> forallb plain_char (digits n z) = true.
Proof.
  intros Hz. apply forallb_elem_of. intros c Hc. apply digit_plain.
  pose proof (digits_are_digits n z Hz) as H. rewrite Forall_forall in H. by apply H.
Qed.

Lemma time_plain t b : format_rfc3339 t = Some b -> forallb plain_char b = true.
Proof.
  unfold format_rfc3339. cbv zeta.
  destruct (civil_of_days _) as [[y m] d] eqn:Ec. apply civil_roundtrip in Ec as (Hm&Hd&_).
  destruct (between 0 9999 y) eqn:Ey; [|done]. apply between_iff in Ey.
  intros H. apply Some_inj in H. subst b.
  set (sod := t / Second mod 86400) in *.
  assert (Hsod : 0 <= sod < 86400) by (subst sod; Z.div_mod_to_equations; lia).
  assert (Hf : forallb plain_char (fraction (t mod Second)) = true).
  { assert (Hns : 0 <= t mod Second) by (apply Z.mod_pos_bound; done).
    pose proof (forallb_digits 9 _ Hns) as Hds. unfold fraction.
    destruct (trim_zeros_spec (digits 9 (t mod Second))) as [k Hk].
    destruct (trim_zeros _) as [|c ds] eqn:E; [done|]. rewrite Hk, forallb_app in Hds.
    apply andb_true_iff in Hds as [Hds _]. cbn [forallb] in *. by rewrite Hds. }
  cbn [forallb app].
  repeat (rewrite forallb_app || cbn [forallb]).
  rewrite !forallb_digits, Hf by first [lia|Z.div_mod_to_equations; lia].
  by vm_compute.
Qed.

Lemma time_is_value d t b : format_rfc3339 t = Some b -> is_value d (quoted b).
Proof. intros H. apply time_plain, plain_text in H as [H1 H2]. by apply quoted_is_value. Qed.

(** ** Objects *)

Definition as_member (kv : bytes * bytes) : member := Member kv.1 kv.2 kv.2.

(** Keys that are quoted as they are, and values. *)
Definition fields_ok (depth : Z) (fs : list (bytes * bytes)) : Prop :=
  Forall (fun kv => forallb plain_char kv.1 = true /\ is_value depth kv.2) fs.

(** The fields of an object, whose values are strings or known to [tac]. *)
Ltac by_fields tac :=
  unfold fields_ok;
  repeat first [apply Forall_nil; exact I
               |apply Forall_cons; split; [split; [vm_compute; reflexivity|first [tac|apply string_is_value]]|]].

Lemma field_length k t : length (quoted k ++ colon :: t) = (length k + 3 + length t)%nat.
Proof. rewrite quoted_app. cbn [length]. rewrite length_app. simpl. lia. Qed.

Lemma members_read d fs m t :
  fs <> [] -> fields_ok d fs -> (2 * length (commas (map field_text fs) ++ close_brace :: t) + 2 <= m)%nat ->
  members m d (commas (map field_text fs) ++ close_brace :: t) = Some (map as_member fs, t).
Proof.
  revert m. induction fs as [|[k v] fs IH]; [done|]. intros m _ Hok Hm.
  apply Forall_cons in Hok as [[Hk Hv] Hok]. apply plain_text in Hk as [Hk _]. simpl in Hk, Hv.
  destruct m as [|m]; [lia|]. destruct Hv as [Hd Hv]. destruct fs as [|f fs].
  - cbn [map commas] in *. unfold field_text in *. cbn [fst snd] in *. rewrite app_cons_app in *.
    rewrite field_length in Hm. rewrite members_step; [|done|done|].
    + rewrite skip_ws_stop by done. done.
    + apply Hv; [apply (terminated_mark 125); lia|]. unfold fuel_of. lia.
  - cbn [map] in *. rewrite commas_cons in * by done. rewrite app_cons_app in *.
    unfold field_text at 1. unfold field_text at 1 in Hm. cbn [fst snd] in *. rewrite app_cons_app in *.
    rewrite field_length in Hm. rewrite members_step; [|done|done|].
    + rewrite skip_ws_stop by done. change (isc 44 comma) with true. cbv iota.
      rewrite length_app in Hm. cbn [length] in Hm.
      rewrite IH by first [done|lia]. done.
    + apply Hv; [apply (terminated_mark 44); lia|]. unfold fuel_of. lia.
Qed.

Lemma field_text_dark k v t : exists l, field_text (k, v) ++ t = quote_mark :: l.
Proof. unfold field_text. cbn [fst snd]. rewrite app_cons_app, quoted_app. eauto. Qed.

Lemma commas_dark fs t : fs <> [] -> exists l, commas (map field_text fs) ++ t = quote_mark :: l.
Proof.
  destruct fs as [|[k v] fs]; [done|]. intros _. destruct fs as [|f fs]; [apply field_text_dark|].
  cbn [map]. rewrite commas_cons, <- (assoc_L (++)) by done. apply field_text_dark.
Qed.

(** An object ends by itself, whatever follows. *)
Lemma object_read d fs m t :
  fs <> [] -> 0 < d -> fields_ok (d - 1) fs -> (fuel_of (object fs ++ t) <= m)%nat ->
  value m d (object fs ++ t) = Some (object fs, t).
Proof.
  intros Hne Hd Hok Hm.
  destruct m as [|m]; [unfold fuel_of in Hm; lia|].
  assert (E : object fs ++ t = open_brace :: commas (map field_text fs) ++ close_brace :: t).
  { unfold object. cbn [app]. by rewrite <- (assoc_L (++)). }
  rewrite E in *. cbn [value]. rewrite skip_ws_stop by done. change (isc 123 open_brace) with true.
  rewrite (proj2 (Z.leb_gt _ _)) by lia. cbv iota.
  destruct (commas_dark fs (close_brace :: t) Hne) as [l Hl]. rewrite Hl.
  rewrite skip_ws_stop by done. change (isc 125 quote_mark) with false. cbv iota. rewrite <- Hl.
  rewrite members_read by first [done|unfold fuel_of in Hm; simpl in Hm; lia].
  assert (Htext : map member_text (map as_member fs) = map field_text fs).
  { rewrite map_map. apply map_ext_in. intros [k v] Hin.
    apply list_elem_of_In in Hin. unfold fields_ok in Hok. rewrite Forall_forall in Hok.
    destruct (Hok _ Hin) as [Hk _]. apply plain_text in Hk as [_ Hk]. simpl in Hk.
    unfold member_text, as_member, field_text. simpl. by rewrite Hk. }
  unfold object_text, object. by rewrite Htext.
Qed.

Lemma object_is_value d fs : fs <> [] -> 0 < d -> fields_ok (d - 1) fs -> is_value d (object fs).
Proof.
  intros Hne Hd Hok. split; [eexists open_brace, _; done|]. intros m t _ Hm. by apply object_read.
Qed.

Lemma compact_value d c : is_value d c -> compact d c = Some c.
Proof.
  intros [_ Hv]. unfold compact. specialize (Hv (fuel_of c) []). rewrite app_nil_r in Hv.
  by rewrite Hv.
Qed.

Lemma object_members_object d fs :
  fs <> [] -> fields_ok (d - 1) fs -> object_members d (object fs) = Some (map as_member fs).
Proof.
  intros Hne Hok. unfold object_members, object at 1. cbn [app]. rewrite skip_ws_stop by done.
  change (isc 123 open_brace) with true. cbv iota.
  destruct (commas_dark fs [close_brace] Hne) as [l Hl]. rewrite Hl, skip_ws_stop by done.
  change (isc 125 quote_mark) with false. cbv iota. rewrite <- Hl.
  rewrite members_read; [done|done|done|]. unfold fuel_of, object. simpl. lia.
Qed.

#[local] Existing Instance go_json.

Section Laws.
Context {JT : JsonTexts}.

(** An object that was encoded is decoded member by member. *)
Lemma Unmarshal_object {A} (assign : string -> bytes -> A -> option (stored A)) fs (a : A) :
  fs <> [] -> fields_ok (max_depth - 1) fs ->
  Unmarshal assign (of_bytes (object fs)) a = decode_members false assign (map as_member fs) a None.
Proof.
  intros Hne Hok. unfold Unmarshal. rewrite to_of_bytes.
  rewrite compact_value by by apply object_is_value.
  unfold decode_struct. by rewrite object_members_object.
Qed.

Lemma inner_quoted raw : string_ok raw = true -> inner_text (quoted raw) = Some raw.
Proof.
  intros Hok. unfold quoted, inner_text. change (isc 34 quote_mark) with true. cbv iota.
  by rewrite scan_string_ok.
Qed.

Lemma to_string_value s : valid_utf8 s = true -> to_string (string_value s) = Stored s.
Proof.
  intros Hs. unfold to_string, string_value. rewrite inner_quoted by apply quote_ok.
  by rewrite unquote_quote.
Qed.

Lemma to_time_value t b : format_rfc3339 t = Some b -> to_time (quoted b) = Stored t.
Proof.
  intros Hb. unfold to_time. change (is_null (quoted b)) with false. cbv iota.
  rewrite inner_quoted by by apply plain_text, (time_plain t). by rewrite (rfc3339_roundtrip _ _ Hb).
Qed.

Lemma unquote_key s : forallb plain_char (key s) = true -> valid_utf8 s = true -> quote s = key s ->
  unquote (key s) = s.
Proof. intros _ Hv <-. by apply unquote_quote. Qed.

Lemma raw_value_spec s c : raw_value s = Ok c ->
  s = "" /\ c = to_bytes "null" \/ s <> "" /\ compact max_depth (to_bytes s) = Some c.
Proof.
  unfold raw_value. case_bool_decide; [by intros [= <-]; left|].
  destruct (compact _ _) as [c'|]; [|done]. intros [= <-]. by right.
Qed.

(** A payload that leaves room for the envelope is a value inside it. *)
Lemma raw_is_value s c :
  (s = "" \/ shallow s = true) -> raw_value s = Ok c -> is_value (max_depth - 1) c.
Proof.
  intros Hs [[-> ->]|[Hne Hc]]%raw_value_spec; [apply null_is_value|].
  destruct Hs as [->|Hs]; [done|]. apply bool_decide_eq_true in Hs as [c' Hc'].
  unfold compact in Hc, Hc'.
  destruct (value _ (max_depth - 1) _) as [[c1 r1]|] eqn:E1; [|done].
  pose proof (value_enough _ (fuel_of (to_bytes s)) _ max_depth _ _ E1 ltac:(lia) ltac:(lia)) as E2.
  rewrite E2 in Hc. case_bool_decide; [|done]. injection Hc as <-. by eapply value_is_value.
Qed.

(** The payload of an envelope as it comes out at the other end. *)
Definition payload_text (s : string) : string :=
  match raw_value s with Ok c => of_bytes c | Err _ => "" end.

Definition strings_valid (e : Envelope) : Prop :=
  valid_utf8 (env_EventID e) = true /\ valid_utf8 (env_EventType e) = true /\
  valid_utf8 (env_Aggregate e) = true /\ valid_utf8 (env_AggregateID e) = true.

Lemma decode_step {A} strict (assign : string -> bytes -> A -> option (stored A)) k src ms a a' saved :
  assign (unquote (key k)) src a = Some (Stored a') ->
  decode_members strict assign (as_member (key k, src) :: ms) a saved
    = decode_members strict assign ms a' saved.
Proof. intros H. cbn [decode_members as_member mb_key mb_source fst snd]. by rewrite H. Qed.

(** The fields of an envelope, one after the other. *)
Lemma envelope_decodes e b :
  strings_valid e -> envelope_value e = Ok b -> env_Payload e = "" \/ shallow (env_Payload e) = true ->
  exists rid, Unmarshal assign_envelope (of_bytes b) zero_Envelope =
    (MkEnvelope (env_EventID e) (env_EventType e) (env_OccurredAt e) (env_Aggregate e)
                (env_AggregateID e) rid (payload_text (env_Payload e)), None) /\
    (valid_utf8 (env_RequestID e) = true -> rid = env_RequestID e).
Proof.
  intros (H1&H2&H3&H4) He Hs. unfold envelope_value, time_value in He.
  destruct (format_rfc3339 (env_OccurredAt e)) as [tb|] eqn:Et; [|done].
  destruct (raw_value (env_Payload e)) as [pb|] eqn:Ep; [|done]. injection He as <-.
  pose proof (raw_is_value _ _ Hs Ep) as Hp.
  assert (Hok : fields_ok (max_depth - 1) (envelope_fields e (quoted tb) pb)).
  { unfold envelope_fields, fields_ok. rewrite !Forall_app.
    pose proof (time_is_value (max_depth - 1) _ _ Et) as Ht.
    split; [|split; [case_bool_decide; [constructor|]|]]; by_fields ltac:(first [exact Ht|exact Hp]). }
  rewrite Unmarshal_object by first [done|apply Hok]. clear Hok.
  unfold payload_text. rewrite Ep. clear Ep Hs Hp. unfold envelope_fields.
  assert (Hk : forall k, k ∈ map fst envelope_keys -> unquote (key k) = k).
  { intros k Hk. cbn [map envelope_keys fst] in Hk.
    repeat (apply elem_of_cons in Hk as [->|Hk]; [by vm_compute|]). by apply elem_of_nil in Hk. }
  assert (Hset : forall k f src a a', field_named envelope_keys k = Some f -> unquote (key k) = k ->
    set_envelope f src a = Stored a' -> assign_envelope (unquote (key k)) src a = Some (Stored a')).
  { intros k f src a a' Hf -> Ha. unfold assign_envelope. rewrite Hf. simpl. by rewrite Ha. }
  cbn [app map]. unfold zero_Envelope.
  erewrite decode_step by (eapply Hset; [by vm_compute|apply Hk; in_list|];
    cbn [set_envelope]; by rewrite to_string_value).
  erewrite decode_step by (eapply Hset; [by vm_compute|apply Hk; in_list|];
    cbn [set_envelope]; by rewrite to_string_value).
  erewrite decode_step by (eapply Hset; [by vm_compute|apply Hk; in_list|];
    cbn [set_envelope]; by rewrite (to_time_value _ _ Et)).
  erewrite decode_step by (eapply Hset; [by vm_compute|apply Hk; in_list|];
    cbn [set_envelope]; by rewrite to_string_value).
  erewrite decode_step by (eapply Hset; [by vm_compute|apply Hk; in_list|];
    cbn [set_envelope]; by rewrite to_string_value).
  case_bool_decide as Hr.
  - exists "". cbn [app map].
    erewrite decode_step by (eapply Hset; [by vm_compute|apply Hk; in_list|]; done).
    split; [done|by intros _].
  - cbn [app map]. destruct (to_string (string_value (env_RequestID e))) as [rid| | |err] eqn:Erid;
      unfold to_string, string_value in Erid; rewrite inner_quoted in Erid by apply quote_ok; try done.
    injection Erid as Hrid. exists rid.
    erewrite decode_step by (eapply Hset; [by vm_compute|apply Hk; in_list|]; cbn [set_envelope];
      unfold to_string, string_value; rewrite inner_quoted by apply quote_ok; done).
    erewrite decode_step by (eapply Hset; [by vm_compute|apply Hk; in_list|]; done).
    rewrite Hrid. split; [done|]. intros Hv. rewrite <- Hrid. by apply unquote_quote.
Qed.

Lemma payload_value_shallow tp b : payload_value tp = Ok b -> is_value (max_depth - 1) b.
Proof.
  unfold payload_value, time_value. destruct (format_rfc3339 _) as [tb|] eqn:Et; [|done].
  intros [= <-]. pose proof (time_is_value (max_depth - 1 - 1) _ _ Et) as Ht.
  apply object_is_value; [done|done|]. by_fields ltac:(exact Ht).
Qed.

Lemma go_json_laws : JsonLaws go_json.
Proof.
  split.
  - intros e b Hb Hs H1 H2 H3 H4. simpl in Hb. unfold marshal in Hb.
    destruct (envelope_value e) as [v|] eqn:Ev; [|done]. injection Hb as <-.
    destruct (envelope_decodes e v) as (rid&Hd&_); [by repeat split|done|by right|].
    eexists. split; [exact Hd|]. done.
  - intros tp p Hp. simpl in Hp. unfold marshal in Hp.
    destruct (payload_value tp) as [v|] eqn:Ev; [|done]. injection Hp as <-.
    apply bool_decide_eq_true. rewrite to_of_bytes.
    rewrite compact_value by by apply (payload_value_shallow tp). eauto.
Qed.
End Laws.
