(* ===== verification/Router.v ===== *)
(** * The router and its middleware (internal/shared/httpx)

    From an HTTP request to the handler of its path, through the request id, the
    access log and the request metrics.  The multiplexer is [http.ServeMux] with the
    patterns [NewRouter] registers. *)

From stdpp Require Import pretty.
From S2P Require Import Prelude Effects GoString Utf8 Runtime Events Metrics Postgres Outbox Ticket.
From S2P Require Import Handler.
From Stdlib Require Import Ascii.
#[local] Open Scope Z_scope.

(** ** net/http: requests, paths and the multiplexer *)

(** The parts of a request the router reads: the path as it was sent and decoded, and
    the first X-Request-Id header, or the empty string. *)
Record http_request : Type := HttpRequest {
  ht_Method : string;
  ht_RequestURI : string;
  ht_EscapedPath : string;
  ht_Path : string;
  ht_RequestID : string;
  ht_Body : string
}.

(** What becomes of a request: a response, a redirection to a path, or, when the handler
    panics, a connection that net/http closes without an answer. *)
Inductive answer : Type :=
| Answer (r : response)
| Redirect (status : Z) (path : string)
| Aborted.

Definition status_of (a : answer) : Z :=
  match a with Answer r => rs_status r | Redirect status _ => status | Aborted => 0 end.

Definition aborted (a : answer) : bool := match a with Aborted => true | _ => false end.

Definition slash : ascii := chr 47.

(** [url.PathUnescape]. *)
Definition unhex (c : ascii) : option Z :=
  let z := code c in
  if between 48 57 z then Some (z - 48)
  else if between 97 102 z then Some (z - 87)
  else if between 65 70 z then Some (z - 55)
  else None.

Fixpoint unescape (s : bytes) : option bytes :=
  match s with
  | [] => Some []
  | c :: s1 =>
      if code c =? 37 then
        match s1 with
        | a :: b :: s2 =>
            match unhex a, unhex b with
            | Some x, Some y => cons (chr (16 * x + y)) <$> unescape s2
            | _, _ => None
            end
        | _ => None
        end
      else cons c <$> unescape s1
  end.

(** The mux unescapes each segment, if it can be. *)
Definition pathUnescape (s : bytes) : bytes := default s (unescape s).

(** The segments of a path; a final slash is a segment of its own. *)
Fixpoint last_slash (ss : list bytes) : list bytes :=
  match ss with
  | [] => []
  | [[]] => [[slash]]
  | s :: ss => pathUnescape s :: last_slash ss
  end.
Definition segments (path : bytes) : list bytes :=
  match path with [] => [] | _ :: p => last_slash (split_at slash p) end.

(** [path.Clean] of a rooted path: no empty and no dot segments. *)
Fixpoint clean_segments (out ss : list bytes) : list bytes :=
  match ss with
  | [] => reverse out
  | s :: ss =>
      if bool_decide (s = []) || bool_decide (s = to_bytes ".") then clean_segments out ss
      else if bool_decide (s = to_bytes "..") then clean_segments (tail out) ss
      else clean_segments (s :: out) ss
  end.

Fixpoint join (ss : list bytes) : bytes :=
  match ss with
  | [] => []
  | [s] => s
  | s :: ss => s ++ slash :: join ss
  end.

Definition Clean (p : bytes) : bytes := slash :: join (clean_segments [] (split_at slash p)).

Definition cleanPath (p : bytes) : bytes :=
  match p with
  | [] => [slash]
  | c :: _ =>
      let p := if bool_decide (c = slash) then p else slash :: p in
      let np := Clean p in
      if bool_decide (last p = Some slash) && negb (bool_decide (np = [slash]))
      then np ++ [slash] else np
  end.

(** The patterns of [NewRouter].  No path matches two of them, and none is registered
    with its final slash only, so no request is redirected to get one. *)
Inductive route : Type := Metrics | Healthz | Readyz | Tickets | TicketsId.

Definition match_path (ss : list bytes) : option route :=
  match ss with
  | [] => None
  | s :: rest =>
      let named t := bool_decide (s = to_bytes t) in
      match rest with
      | [] =>
          if named "metrics" then Some Metrics
          else if named "healthz" then Some Healthz
          else if named "readyz" then Some Readyz
          else if named "tickets" then Some Tickets
          else None
      | _ => if named "tickets" then Some TicketsId else None
      end
  end.

(** The patterns of the metrics servers of cmd/outbox-relay and
    cmd/notification-service. *)
Definition match_monitor (ss : list bytes) : option route :=
  match match_path ss with
  | Some Tickets | Some TicketsId => None
  | p => p
  end.

Inductive target : Type :=
| ToHandler (p : route)
| ToRedirect (path : bytes)
| ToNotFound.

(** [ServeMux.findHandler], for the patterns of a mux. *)
Definition find_in (patterns : list bytes -> option route) (r : http_request) : target :=
  let handle p := match patterns (segments p) with Some h => ToHandler h | None => ToNotFound end in
  let esc := to_bytes (ht_EscapedPath r) in
  if bool_decide (ht_Method r = "CONNECT") then handle esc
  else
    let path := cleanPath esc in
    if bool_decide (path = esc) then handle path else ToRedirect path.

Definition findHandler : http_request -> target := find_in match_path.

Definition newline : string := of_bytes [chr 10].

Section Router.
Context {JD : JsonDecoder} {S : sig} `{!Sub runtime_sig S, !TicketStore S}.

(** What [NewRouter] is given or takes from elsewhere: the readiness check, if there is
    one, and the handler of the Prometheus library. *)
Context (readyz : option (prog S (option goerr))) (promhttp : request -> prog S answer).

(** ** metrics.go: the route holder *)

(** A handler under a context that may hold a [routeHolder], whose route it may set. *)
Definition routed : Type := option string -> prog S (answer * option string).

Definition WithRoute (route : string) (next : prog S answer) : routed := fun holder =>
  a ← next;
  mret (a, match holder with Some _ => Some route | None => None end).

Definition without_route (next : prog S answer) : routed := fun holder =>
  a ← next; mret (a, holder).

(** ** router.go *)

Definition healthz_handler : prog S answer := mret (Answer (Response 200 (PText "ok"))).

Definition readyz_handler : prog S answer :=
  match readyz with
  | None => mret (Answer (Response 200 (PText "ready")))
  | Some check =>
      err ← check;
      match err with
      | Some err => mret (Answer (Response 503 (PText ("not ready: " +:+ Error err +:+ newline))))
      | None => mret (Answer (Response 200 (PText "ready")))
      end
  end.

Definition ticket_handler (r : request) : prog S answer :=
  let id := TrimPrefix (rq_Path r) "/tickets/" in
  if bool_decide (id = "") || Contains id "/" then
    mret (Answer (WriteErrorR r 404 "not_found" "not found"))
  else rs ← GetTicket r id; mret (Answer rs).

(** The mux of [NewRouter]. *)
Definition mux (ht : http_request) (r : request) : routed :=
  if bool_decide (ht_RequestURI ht = "*") then
    without_route (mret (Answer (Response 400 (PText ""))))
  else
    match findHandler ht with
    | ToHandler Metrics => without_route (promhttp r)
    | ToHandler Healthz => WithRoute "/healthz" healthz_handler
    | ToHandler Readyz => WithRoute "/readyz" readyz_handler
    | ToHandler Tickets => WithRoute "/tickets" (rs ← CreateTicket r; mret (Answer rs))
    | ToHandler TicketsId => WithRoute "/tickets/:id" (ticket_handler r)
    | ToRedirect path => without_route (mret (Redirect 301 (of_bytes path)))
    | ToNotFound =>
        without_route (mret (Answer (Response 404 (PText ("404 page not found" +:+ newline)))))
    end.

(** ** metrics.go: the middleware.  A histogram is known by the number of its samples. *)

Definition Itoa (z : Z) : string := pretty z.

(** [vec.WithLabelValues(labels...)] and one sample, then the rest of the handler. *)
Definition WithLabelValues (m : metric) (labels : list string) (rest : prog S answer) : prog S answer :=
  if label_values_ok m labels then Inc (mt_name m) labels;; rest else mret Aborted.

Definition Middleware (r : request) (next : routed) : prog S answer :=
  if bool_decide (rq_Path r = "/metrics") then
    '(a, _) ← next None;
    mret a
  else
    start ← Now;
    '(a, holder) ← next (Some (rq_Path r));
    if aborted a then mret Aborted
    else
      now ← Now;
      let route := default (rq_Path r) holder in
      let status := Itoa (status_of a) in
      WithLabelValues HttpMetrics.reqTotal [route; rq_Method r; status]
        (WithLabelValues HttpMetrics.reqLatency [route; rq_Method r]
           (if 500 <=? status_of a then Inc "http_requests_5xx_total" [];; mret a else mret a)).

(** ** access_log.go, the log line left out *)
Definition AccessLog (next : prog S answer) : prog S answer :=
  start ← Now;
  a ← next;
  if aborted a then mret Aborted
  else
    now ← Now;
    mret a.

(** ** request_id.go *)

Definition newRequestID : prog S string :=
  rand ← call RRand16;
  mret (newID rand).

(** The X-Request-Id header of the response, and the answer. *)
Definition RequestID (ht : http_request) (next : request -> prog S answer) : prog S (string * answer) :=
  let rid := TrimSpace (ht_RequestID ht) in
  rid ← (if bool_decide (rid = "") then newRequestID else mret rid);
  a ← next (Request (ht_Method ht) (ht_Path ht) (ht_Body ht) rid);
  mret (rid, a).

(** [NewRouter]: the handler it returns. *)
Definition ServeHTTP (ht : http_request) : prog S (string * answer) :=
  RequestID ht (fun r => AccessLog (Middleware r (mux ht r))).
End Router.

(** ** The metrics servers of cmd/outbox-relay and cmd/notification-service *)

Section Monitor.
Context {S : sig} (ping : prog S (option goerr)) (promhttp : request -> prog S answer).

Definition metrics_server (ht : http_request) : prog S answer :=
  if bool_decide (ht_RequestURI ht = "*") then mret (Answer (Response 400 (PText "")))
  else
    match find_in match_monitor ht with
    | ToHandler Healthz => healthz_handler
    | ToHandler Readyz =>
        err ← ping;
        match err with
        | Some _ => mret (Answer (Response 503 (PText ("db unavailable" +:+ newline))))
        | None => mret (Answer (Response 200 (PText "ready")))
        end
    | ToHandler Metrics => promhttp (Request (ht_Method ht) (ht_Path ht) (ht_Body ht) "")
    | ToHandler _ | ToNotFound =>
        mret (Answer (Response 404 (PText ("404 page not found" +:+ newline))))
    | ToRedirect path => mret (Redirect 301 (of_bytes path))
    end.
End Monitor.
