(* ===== verification/World.v ===== *)
(** * The world the services share

    One database (tickets, outbox, processed_events), one broker, the runtime of
    the processes and the HTTP responses they have sent; every call of every
    component acts on its part. *)

From S2P Require Import Prelude Effects GoString Runtime Kafka Events Postgres Outbox.
From S2P Require Import Processed Ticket Handler Router.

Record world : Type := World {
  w_db : tables;
  w_processed : ptable;
  w_broker : broker;
  w_rt : runtime;
  w_responses : list (string * answer)
}.

Definition w_outbox (w : world) : table := db_outbox (w_db w).
Definition w_tickets (w : world) : tickets := db_tickets (w_db w).

Definition with_db (d : tables) (w : world) : world :=
  World d (w_processed w) (w_broker w) (w_rt w) (w_responses w).
Definition with_outbox (t : table) (w : world) : world :=
  with_db (MkTables (w_tickets w) t (db_seq (w_db w))) w.
Definition with_processed (t : ptable) (w : world) : world :=
  World (w_db w) t (w_broker w) (w_rt w) (w_responses w).
Definition with_broker (b : broker) (w : world) : world :=
  World (w_db w) (w_processed w) b (w_rt w) (w_responses w).
Definition with_rt (rt : runtime) (w : world) : world :=
  World (w_db w) (w_processed w) (w_broker w) rt (w_responses w).

Inductive sys_op : Type :=
| OTicket (o : ticket_op)
| OOutbox (o : outbox_op)
| ONotify (o : notify_op)
| OKafka (o : kafka_op)
| ORuntime (o : runtime_op)
| OSend (rid : string) (a : answer).

Definition sys_ans (o : sys_op) : Type :=
  match o with
  | OTicket o => ans ticket_sig o
  | OOutbox o => ans outbox_sig o
  | ONotify o => ans notify_sig o
  | OKafka o => ans kafka_sig o
  | ORuntime o => ans runtime_sig o
  | OSend _ _ => unit
  end.

Canonical Structure sys_sig : sig := Sig sys_op sys_ans.

#[export] Instance sub_ticket : Sub ticket_sig sys_sig :=
  {| inj_op := OTicket : op ticket_sig -> op sys_sig; prj_ans o r := r |}.
#[export] Instance sub_outbox : Sub outbox_sig sys_sig :=
  {| inj_op := OOutbox : op outbox_sig -> op sys_sig; prj_ans o r := r |}.
#[export] Instance sub_notify : Sub notify_sig sys_sig :=
  {| inj_op := ONotify : op notify_sig -> op sys_sig; prj_ans o r := r |}.
#[export] Instance sub_kafka : Sub kafka_sig sys_sig :=
  {| inj_op := OKafka : op kafka_sig -> op sys_sig; prj_ans o r := r |}.
#[export] Instance sub_runtime : Sub runtime_sig sys_sig :=
  {| inj_op := ORuntime : op runtime_sig -> op sys_sig; prj_ans o r := r |}.

(** Show the calls of the components as calls of the system. *)
Ltac ops := cbn [inj_op prj_ans sub_ticket sub_outbox sub_notify sub_kafka sub_runtime] in *.

(** What net/http does with the answer of a handler: it sends it, with the header
    X-Request-Id. *)
Definition SendResponse (rid : string) (a : answer) : prog sys_sig unit :=
  Vis (OSend rid a : op sys_sig) Ret.

Section Exec.
Context {PG : Postgres}.

#[export] Instance sys_exec : Exec sys_sig world := fun ch w o =>
  match o with
  | OTicket o => (with_db (ticket_next ch (w_db w) o) w, (ticket_exec ch (w_db w) o).2)
  | OOutbox o =>
      (with_outbox (outbox_next ch (w_outbox w) o) w, (outbox_exec ch (w_outbox w) o).2)
  | ONotify o =>
      (with_processed (notify_next ch (w_processed w) o) w, (notify_exec ch (w_processed w) o).2)
  | OKafka o => (with_broker (kafka_next ch (w_broker w) o) w, (kafka_exec ch (w_broker w) o).2)
  | ORuntime o => (with_rt (runtime_exec ch (w_rt w) o).1 w, (runtime_exec ch (w_rt w) o).2)
  | OSend rid a =>
      (World (w_db w) (w_processed w) (w_broker w) (w_rt w) (w_responses w ++ [(rid, a)]), ())
  end.
End Exec.

Definition empty_world : world :=
  World (MkTables ∅ ∅ 0) ∅ (MkBroker ∅ [] ∅) (MkRuntime ∅ ∅ []) [].
