(* ===== verification/Relay.v ===== *)
(** * outbox-relay (cmd/outbox-relay/main.go)

    [tick] resets stuck rows, claims a batch and publishes each of its events:
    on success the row is marked sent; on failure it is put back with a backoff,
    or, once its attempts are used up, marked failed and copied to the dead
    letter topic. *)

From S2P Require Import Prelude Effects GoString Runtime Kafka Events Postgres Outbox.
From S2P Require Import Processed Ticket Handler World.

(** The producers of the process: the topic's and the dead letters'. *)
Record producers : Type := Producers {
  producer : Producer;
  dlqProducer : option Producer
}.

Record relay_config : Type := RelayConfig {
  batchSize : Z;
  processingTimeout : Z;
  maxAttempts : Z
}.

Definition backoff (attempt : Z) : Z :=
  if attempt <=? 1 then 500 * Millisecond
  else
    let d := Z.shiftl 1 (Z.min (attempt - 1) 6) * Second in
    if 60 * Second <? d then 60 * Second else d.

Section Relay.
Context {UT : UnicodeTables} {J : Json} {PG : Postgres} {S : sig}.
Context `{!Sub outbox_sig S, !Sub kafka_sig S, !Sub runtime_sig S}.

Definition envelope_of (e : Event) : Envelope :=
  MkEnvelope (EventID e) (EventType e) (CreatedAt e) (Aggregate e) (AggregateID e)
             (payload_request_id (Payload e)) (Payload e).

Definition maybeDead (ps : producers) (e : Event) (env : Envelope) (maxAttempts : Z) (errMsg : string)
    : prog S (producers * bool) :=
  if (0 <? maxAttempts) && (maxAttempts <=? Attempts e) then
    ps ← match dlqProducer ps with
         | Some d =>
             match marshal_dead_envelope errMsg env with
             | Ok b =>
                 r ← Produce d (AggregateID e) b (5 * Second);
                 mret (Producers (producer ps) (Some r.1))
             | Err _ => mret ps
             end
         | None => mret ps
         end;
    _ ← Outbox.Store.MarkDead (ID e) errMsg;
    Inc "outbox_dead_total" [EventType e];;
    mret (ps, true)
  else mret (ps, false).

(** The failure of one event: dead, or put back to be retried. *)
Definition give_back (maxAttempts : Z) (ps : producers) (e : Event) (env : Envelope) (errMsg : string)
    : prog S producers :=
  r ← maybeDead ps e env maxAttempts errMsg;
  if (r.2 : bool) then mret r.1
  else
    now ← Now;
    _ ← Outbox.Store.MarkFailed (ID e) (now + backoff (Attempts e)) errMsg;
    Inc "outbox_failed_total" [EventType e];;
    mret r.1.

(** One iteration of the loop over the claimed rows. *)
Definition publish (maxAttempts : Z) (ps : producers) (e : Event) : prog S producers :=
  let env := envelope_of e in
  match marshal_envelope env with
  | Err err => give_back maxAttempts ps e env ("marshal: " +:+ Error err)
  | Ok b =>
      r ← Produce (producer ps) (AggregateID e) b (5 * Second);
      let ps := Producers r.1 (dlqProducer ps) in
      match r.2 with
      | Some err => give_back maxAttempts ps e env ("kafka: " +:+ Error err)
      | None =>
          _ ← Outbox.Store.MarkSent (ID e);
          Inc "outbox_published_total" [EventType e];;
          mret ps
      end
  end.

Definition tick (cfg : relay_config) (ps : producers) : prog S (producers * option goerr) :=
  r ← Outbox.Store.ResetStuck (processingTimeout cfg);
  match r with
  | Err err => mret (ps, Some err)
  | Ok _ =>
      lag ← Outbox.Store.LagSeconds;
      match lag with Ok lag => SetGauge "outbox_lag_seconds" lag | Err _ => mret () end;;
      rows ← Outbox.Store.ClaimPending (batchSize cfg);
      match rows with
      | Err err => mret (ps, Some err)
      | Ok rows =>
          ps ← for_fold rows ps (publish (maxAttempts cfg));
          mret (ps, None)
      end
  end.

(** The deferred calls of [main], last first. *)
Definition shutdown (ps : producers) : prog S unit :=
  match dlqProducer ps with Some d => _ ← Close d; mret () | None => mret () end;;
  _ ← Close (producer ps);
  mret ().

(** One turn of the loop of [main]: shut down, or tick and go on whatever it returned. *)
Definition relay_turn (cfg : relay_config) (ps : producers) : prog S (option producers) :=
  stop ← CtxDone;
  if (stop : bool) then shutdown ps;; mret None
  else r ← tick cfg ps; mret (Some r.1).
End Relay.
