(* ===== verification/Consumer.v ===== *)
(** * notification-service (cmd/notification-service/main.go)

    The consumer fetches a message, handles it until it succeeds or is given up,
    and then commits it.  The loops of [main] are a state machine: [PcFetch] is
    the head of the outer loop, [PcHandle] the head of the inner one. *)

From S2P Require Import Prelude Effects GoString GoTime Runtime Kafka Events Postgres Processed.
From S2P Require Import Ticket Handler World.

(** ** Errors *)

Definition wrap (tag : string) (err : goerr) : goerr := ETagged tag err.

(** [errors.As] finds the outermost [taggedErr]. *)
Fixpoint classify (err : goerr) : string :=
  match err with
  | ETagged tag _ => tag
  | EWrap _ inner => classify inner
  | _ => "unknown"
  end.

Definition backoff (attempt : Z) : Z :=
  if attempt <=? 1 then 200 * Millisecond
  else
    let d := Z.shiftl 1 (Z.min (attempt - 1) 6) * Second in
    if 30 * Second <? d then 30 * Second else d.

(** ** Configuration and state *)

Record consumer_config : Type := ConsumerCfg {
  forceFail : bool;
  forceFailEventType : string;
  maxAttempts : Z
}.

Record consumer_state : Type := CState {
  consumer : Consumer;
  dlqProducer : option Producer;
  timeoutStreak : Z;
  lastReopenAt : Z
}.

Definition set_dlq (st : consumer_state) (d : option Producer) : consumer_state :=
  CState (consumer st) d (timeoutStreak st) (lastReopenAt st).
Definition set_streak (st : consumer_state) (n : Z) : consumer_state :=
  CState (consumer st) (dlqProducer st) n (lastReopenAt st).
Definition set_consumer (st : consumer_state) (c : Consumer) : consumer_state :=
  CState c (dlqProducer st) (timeoutStreak st) (lastReopenAt st).
Definition set_reopened (st : consumer_state) (c : Consumer) (t : Z) : consumer_state :=
  CState c (dlqProducer st) (timeoutStreak st) t.

Inductive consumer_pc : Type :=
| PcFetch (st : consumer_state)
| PcHandle (st : consumer_state) (at_ : place) (msg : message) (evType : string) (attempt : Z).

Definition fetchTimeout : Z := 5 * Second.
Definition reopenAfterTimeouts : Z := 12.

Section Consumer.
Context {UT : UnicodeTables} {J : Json} {S : sig}.
Context `{!Sub notify_sig S, !Sub kafka_sig S, !Sub runtime_sig S}.

(** ** Messages *)

Definition extractEventID (value : string) : string := env_EventID (unmarshal_envelope value).1.

Definition wrapDLQ (value : string) (err : goerr) : string :=
  match marshal_dead_value (Error err) value with Ok b => b | Err _ => "" end.

Definition matchForceFail (cfg : consumer_config) (event_type : string) : bool :=
  if forceFail cfg then
    let want := TrimSpace (forceFailEventType cfg) in
    let got := TrimSpace event_type in
    bool_decide (want = "") || EqualFold want got
  else false.

(** What a call of [handleMessage] returns and leaves in its out-parameters. *)
Record handled : Type := Handled {
  h_err : option goerr;
  h_eventType : string;
  h_attempt : Z
}.

Definition handleMessage (cfg : consumer_config) (value : string) (evType : string) (attempt : Z)
    : prog S handled :=
  match unmarshal_envelope value with
  | (_, Some err) => mret (Handled (Some (wrap "unmarshal" err)) evType attempt)
  | (env, None) =>
      let evType := env_EventType env in
      s ← Processed.Store.StartProcessing
            (MkProcessedEvent (env_EventID env) (env_EventType env) (env_Aggregate env)
                              (env_AggregateID env) (env_Payload env));
      match st_err s with
      | Some err => mret (Handled (Some (wrap "db_start" err)) evType attempt)
      | None =>
          let attempt := st_attempts s in
          if negb (shouldProcess s) then mret (Handled None evType attempt)
          else
            Notify (env_EventID env) (env_EventType env) (env_AggregateID env);;
            if matchForceFail cfg (env_EventType env) then
              _ ← Processed.Store.MarkFailed (env_EventID env) "forced failure";
              mret (Handled (Some (wrap "forced" (EMsg "forced failure"))) evType attempt)
            else
              err ← Processed.Store.MarkDone (env_EventID env);
              match err with
              | Some err =>
                  _ ← Processed.Store.MarkFailed (env_EventID env) (Error err);
                  mret (Handled (Some (wrap "db_done" err)) evType attempt)
              | None => mret (Handled None evType attempt)
              end
      end
  end.

(** The deferred calls of [main], last first. *)
Definition shutdown (st : consumer_state) : prog S unit :=
  match dlqProducer st with Some d => _ ← Close d; mret () | None => mret () end;;
  _ ← CloseConsumer (consumer st);
  mret ().

(** ** The inner loop *)

Definition produce_dlq (st : consumer_state) (msg : message) (err : goerr) : prog S consumer_state :=
  match dlqProducer st with
  | Some d =>
      r ← Produce d (m_key msg) (wrapDLQ (m_value msg) err) (5 * Second);
      mret (set_dlq st (Some r.1))
  | None => mret st
  end.

Definition committed : prog S unit :=
  Inc "notify_committed_total" [];;
  now ← Now;
  SetGauge "notify_last_processed_unix" (unix_seconds now).

(** Giving a message up: commit it, a commit error being only logged. *)
Definition commit_dead (st : consumer_state) (at_ : place) (evType : string) : prog S unit :=
  r ← CommitMessages (consumer st) at_;
  (match r with Err _ => mret () | Ok _ => committed end : prog S unit);;
  Inc "notify_processed_total" [evType; "dead"].

Definition handle_turn (cfg : consumer_config) (st : consumer_state) (at_ : place) (msg : message)
    (evType : string) (attempt : Z) : prog S (option consumer_pc) :=
  h ← handleMessage cfg (m_value msg) evType attempt;
  let evType := h_eventType h in
  let attempt := h_attempt h in
  match h_err h with
  | None =>
      Inc "notify_processed_total" [evType; "ok"];;
      r ← CommitMessages (consumer st) at_;
      match r with
      | Err _ =>
          c ← Reopen (consumer st);
          now ← Now;
          mret (Some (PcFetch (set_reopened st c now)))
      | Ok _ => committed;; mret (Some (PcFetch st))
      end
  | Some err =>
      let reason := classify err in
      Inc "notify_errors_total" [evType; reason];;
      if bool_decide (reason = "unmarshal") then
        st ← produce_dlq st msg err;
        commit_dead st at_ evType;;
        mret (Some (PcFetch st))
      else if (0 <? maxAttempts cfg) && (maxAttempts cfg <=? attempt) then
        st ← produce_dlq st msg err;
        _ ← Processed.Store.MarkDead (extractEventID (m_value msg)) (Error err);
        commit_dead st at_ evType;;
        mret (Some (PcFetch st))
      else
        stop ← AfterOrDone (backoff attempt);
        if (stop : bool) then shutdown st;; mret None
        else mret (Some (PcHandle st at_ msg evType attempt))
  end.

(** ** The outer loop *)

Definition fetch_turn (st : consumer_state) : prog S (option consumer_pc) :=
  stop ← CtxDone;
  if (stop : bool) then shutdown st;; mret None
  else
    r ← FetchMessage (consumer st) fetchTimeout;
    match r with
    | Err err =>
        if errors_Is err DeadlineExceeded || errors_Is err Canceled then
          let st := set_streak st (timeoutStreak st + 1) in
          if reopenAfterTimeouts <=? timeoutStreak st then
            now ← Now;
            st ← (if 30 * Second <? Since now (lastReopenAt st) then
                    c ← Reopen (consumer st);
                    now ← Now;
                    mret (set_reopened st c now)
                  else mret st);
            Sleep (200 * Millisecond);;
            mret (Some (PcFetch (set_streak st 0)))
          else mret (Some (PcFetch st))
        else
          stopped ← CtxDone;
          if (stopped : bool) then mret (Some (PcFetch st))
          else
            c ← Reopen (consumer st);
            now ← Now;
            Sleep (500 * Millisecond);;
            mret (Some (PcFetch (set_streak (set_reopened st c now) 0)))
    | Ok (c, at_, msg) =>
        Inc "notify_fetched_total" [];;
        mret (Some (PcHandle (set_streak (set_consumer st c) 0) at_ msg "unknown" 0))
    end.

Definition consumer_turn (cfg : consumer_config) (pc : consumer_pc) : prog S (option consumer_pc) :=
  match pc with
  | PcFetch st => fetch_turn st
  | PcHandle st at_ msg evType attempt => handle_turn cfg st at_ msg evType attempt
  end.
End Consumer.
