(* ===== verification/System.v ===== *)
(** * The deployed system

    Any number of relays, consumers, HTTP requests - each through the router and
    its middleware - and writers of late batches run concurrently against
    one world; any of them can crash between two calls, and any call can fail or
    lose its answer.  The file states the invariant of the reachable states and
    the properties of the whole pipeline that follow from it. *)

From S2P Require Import Prelude Effects GoString Runtime Kafka Events Postgres Outbox.
From S2P Require Import Processed Ticket Handler Router Metrics World.
From S2P Require Relay Consumer.

(** ** Processes *)

Inductive process : Type :=
| PRelay (cfg : Relay.relay_config) (ps : Relay.producers)
| PConsumer (cfg : Consumer.consumer_config) (pc : Consumer.consumer_pc)
| PServe (ht : http_request)
| PMonitor (ht : http_request)
| PWriter
| PMain (p : process).

(** What the Prometheus library brings: the status and the text of its page, and the
    metrics of its collectors of the Go runtime, the process and the build. *)
Class Prometheus : Type := {
  metrics_page : request -> Z * string;
  library_collectors : list metric
}.

Section System.
Context {UT : UnicodeTables} {J : Json} {JD : JsonDecoder} {PG : Postgres} {PH : Prometheus}.

(** The handler of ticket-service on Postgres: it is ready when the database answers. *)
Definition ping : prog sys_sig (option goerr) := r ← call QPing; mret (err_of r).
Definition promhttp {S : sig} (r : request) : prog S answer :=
  mret (Answer (Response (metrics_page r).1 (PText (metrics_page r).2))).
Definition ticket_service (ht : http_request) : prog sys_sig (string * answer) :=
  ServeHTTP (Some ping) promhttp ht.

(** A relay or a consumer before its loop: [main] sets its metrics up on a registry of
    its own, and a panic there stops it. *)
Definition setup (p : process) : option (prog sys_sig unit) :=
  match p with
  | PRelay _ _ => snd <$> OutboxMetrics.NewMetrics []
  | PConsumer _ _ => snd <$> NotifyMetrics.NewMetrics library_collectors
  | _ => Some (mret ())
  end.

Definition body (p : process) : prog sys_sig (option process) :=
  match p with
  | PRelay cfg ps => o ← Relay.relay_turn cfg ps; mret (PRelay cfg <$> (o : option _))
  | PConsumer cfg pc => o ← Consumer.consumer_turn cfg pc; mret (PConsumer cfg <$> (o : option _))
  | PServe ht => ra ← ticket_service ht; SendResponse ra.1 ra.2;; mret None
  | PMonitor ht => a ← metrics_server ping promhttp ht; SendResponse "" a;; mret None
  | PWriter => _ ← (call KLand : prog sys_sig (result unit)); mret None
  | PMain p => match setup p with Some init => init;; mret (Some p) | None => mret None end
  end.

(** The deployment: the topic of the events, the relays' retry limit, and whether all
    consumers of the topic start at the first offset. *)
Context (topic : string) (max_attempts : Z) (from_first : bool).

Definition producer_on (ok : string -> Prop) (p : Producer) : Prop :=
  ok (pc_Topic (p_cfg p)) /\ forall w, p_w p = Some w -> ok (wr_Topic w).

Definition is_topic (t : string) : Prop := t = topic.
Definition not_topic (t : string) : Prop := t <> topic.

Definition dlq_on (d : option Producer) : Prop :=
  match d with Some d => producer_on not_topic d | None => True end.

Definition producers_ok (ps : Relay.producers) : Prop :=
  producer_on is_topic (Relay.producer ps) /\ dlq_on (Relay.dlqProducer ps).

Definition consumer_ok (st : Consumer.consumer_state) : Prop :=
  (rd_Topic (c_r (Consumer.consumer st)) = topic /\
   cc_Topic (c_cfg (Consumer.consumer st)) = topic) /\
  (from_first = true -> rd_StartOffset (c_r (Consumer.consumer st)) = FirstOffset /\
     rd_StartOffset (newReader (c_cfg (Consumer.consumer st))) = FirstOffset) /\
  dlq_on (Consumer.dlqProducer st).

(** What can be started: relays and consumers of the topic, whose dead letters
    go elsewhere, requests of the three servers, and the goroutines of the Kafka writers. *)
Fixpoint start (p : process) : Prop :=
  match p with
  | PRelay cfg ps => Relay.maxAttempts cfg = max_attempts /\ producers_ok ps
  | PConsumer _ (Consumer.PcFetch st) =>
      consumer_ok st /\ rd_position (c_r (Consumer.consumer st)) = ∅
  | PConsumer _ (Consumer.PcHandle _ _ _ _ _) => False
  | PServe _ | PMonitor _ | PWriter => True
  | PMain p => start p
  end.

(** ** The invariant *)

Definition entries_of (w : world) : list (nat * message) := entries (w_broker w) topic.
Definition log_of (w : world) : list message := topic_log (w_broker w) topic.
Definition notified (w : world) : list string := rt_notified (w_rt w).

Definition row_envelope (r : row) : Envelope :=
  MkEnvelope (r_event_id r) (r_event_type r) (r_created_at r) (r_aggregate r)
             (r_aggregate_id r) (payload_request_id (r_payload r)) (r_payload r).

(** The message the relay publishes for a row. *)
Definition event_message (r : row) (m : message) : Prop :=
  m_key m = r_aggregate_id r /\ marshal_envelope (row_envelope r) = Ok (m_value m).

(** The event of a message, as the consumer reads it. *)
Definition event_of (m : message) : string := env_EventID (unmarshal_envelope (m_value m)).1.

Definition row_of_ticket (r : row) (t : Ticket) : Prop :=
  r_aggregate r = "ticket" /\ r_aggregate_id r = t_ID t /\
  r_event_type r = EventTypeTicketCreated /\
  exists rid p, marshal_payload (MkTicketPayload (t_ID t) (t_Title t) (t_Status t)
                                                 (t_CreatedAt t) rid) = Ok p /\
                jsonb_in p = Some (r_payload r).

(** The messages of a partition from one offset to another have been notified. *)
Definition covered (p from next : nat) (w : world) : Prop :=
  forall i m, (from <= i < next)%nat -> entries_of w !! i = Some (p, m) -> event_of m ∈ notified w.

(** A range of offsets a group has read: notified, and from the first offset on where all
    consumers start there. *)
Definition read_range (p : nat) (fn : nat * nat) (w : world) : Prop :=
  (fn.2 <= length (entries_of w))%nat /\ covered p fn.1 fn.2 w /\ (from_first = true -> fn.1 = 0%nat).

Record inv (w : world) : Prop := {
  (** tickets and outbox rows are in one-to-one correspondence *)
  inv_row id r : w_outbox w !! id = Some r ->
    exists t, w_tickets w !! r_aggregate_id r = Some t /\ row_of_ticket r t;
  inv_ticket tid t : w_tickets w !! tid = Some t ->
    t_ID t = tid /\ exists id r, w_outbox w !! id = Some r /\ r_aggregate_id r = tid;
  inv_row_inj id id' r r' : w_outbox w !! id = Some r -> w_outbox w !! id' = Some r' ->
    r_aggregate_id r = r_aggregate_id r' -> id = id';
  inv_event_inj id id' r r' : w_outbox w !! id = Some r -> w_outbox w !! id' = Some r' ->
    r_event_id r = r_event_id r' -> id = id';
  inv_row_text id r : w_outbox w !! id = Some r ->
    uuid_in (r_event_id r) = Some (r_event_id r) /\
    text_ok (r_aggregate r) = true /\ text_ok (r_aggregate_id r) = true /\
    text_ok (r_event_type r) = true;
  (** the relay's promises *)
  inv_sent id r : w_outbox w !! id = Some r -> r_status r = "sent" ->
    exists m, m ∈ log_of w /\ event_message r m;
  inv_failed id r : w_outbox w !! id = Some r -> r_status r = "failed" ->
    0 < max_attempts <= r_attempts r;
  inv_log m : m ∈ log_of w -> exists id r, w_outbox w !! id = Some r /\ event_message r m;
  inv_late m : (topic, m) ∈ br_late (w_broker w) ->
    exists id r, w_outbox w !! id = Some r /\ event_message r m;
  (** the consumer's promises *)
  inv_notified e : e ∈ notified w -> exists id r, w_outbox w !! id = Some r /\ r_event_id r = e;
  inv_final e p : w_processed w !! e = Some p -> final (pe_status p) = true -> e ∈ notified w;
  inv_committed group p fn : br_committed (w_broker w) !! (topic, group, p) = Some fn ->
    read_range p fn w;
  (** the API's promise *)
  inv_responses rid rs t : (rid, Answer rs) ∈ w_responses w -> rs_body rs = PTicket t ->
    w_tickets w !! t_ID t = Some t;
  (** every sample is one of a declared metric, with its labels *)
  inv_gauges name : is_Some (rt_gauges (w_rt w) !! name) ->
    exists m, m ∈ declared /\ mt_name m = name /\ mt_kind m = MGauge;
  inv_metrics name labels : is_Some (rt_counters (w_rt w) !! (name, labels)) ->
    sample_of declared name labels;
  (** the rows are well formed *)
  inv_rows_wf id r : w_outbox w !! id = Some r -> row_wf r;
  inv_processed_wf : ptable_wf (w_processed w)
}.

(** What every process may rely on the others to keep. *)
Record grows (w w' : world) : Prop := {
  grows_outbox id r : w_outbox w !! id = Some r ->
    exists r', w_outbox w' !! id = Some r' /\ row_evolves r r';
  grows_tickets : w_tickets w ⊆ w_tickets w';
  grows_entries : entries_of w `prefix_of` entries_of w';
  grows_notified : notified w `prefix_of` notified w'
}.

Lemma grows_log w w' : grows w w' -> log_of w `prefix_of` log_of w'.
Proof.
  intros [_ _ [k Hk] _]. exists (map snd k). unfold log_of, topic_log.
  unfold entries_of in Hk. by rewrite Hk, map_app.
Qed.

#[export] Instance grows_preorder : PreOrder grows.
Proof.
  split.
  - intros w. split; [|done|done|done]. intros id r Hr. by exists r.
  - intros w1 w2 w3 [O1 T1 L1 N1] [O2 T2 L2 N2]. split.
    + intros id r Hr. destruct (O1 id r Hr) as (r'&Hr'&E1).
      destruct (O2 id r' Hr') as (r''&Hr''&E2). exists r''. split; [done|by etrans].
    + by etrans.
    + by etrans.
    + by etrans.
Qed.

Definition system : protocol sys_sig world :=
  Protocol sys_sig world (fun _ _ => True) inv grows grows.

#[export] Instance system_concurrent : Concurrent system.
Proof. split; [apply grows_preorder|done]. Qed.
End System.
