(* ===== verification/Safety.v ===== *)
(** * Each call keeps the invariant of the system

    [pre] is what a process must know before a call for the call to be safe;
    [op_safe] shows that it suffices, whatever the environment chooses. *)

From S2P Require Import Prelude Effects GoString Runtime Kafka Events Postgres Outbox.
From S2P Require Import Processed Ticket Handler Router Metrics World System.

Section Safety.
Context {UT : UnicodeTables} {J : Json} {JD : JsonDecoder} {PG : Postgres} {PH : Prometheus}.
Context (topic : string) (max_attempts : Z) (from_first : bool).

Local Abbreviation inv := (inv topic max_attempts from_first).
Local Abbreviation grows := (grows topic).
Local Abbreviation log_of := (log_of topic).

(** The transaction of one ticket: the ticket and its event. *)
Definition tx_ok (tx : Tx) : Prop :=
  exists t id r, tx_tickets tx = [t] /\ tx_outbox tx = [(id, r)] /\ row_of_ticket r t /\
    r_status r = "pending" /\ row_wf r /\ uuid_in (r_event_id r) = Some (r_event_id r) /\
    text_ok (r_aggregate r) = true /\ text_ok (r_aggregate_id r) = true /\
    text_ok (r_event_type r) = true.

Definition pre (o : sys_op) (w : world) : Prop :=
  match o with
  | OTicket (QCommit tx) => tx_ok tx
  | OOutbox (QMarkSent id) =>
      forall r, w_outbox w !! id = Some r -> exists m, m ∈ log_of w /\ event_message r m
  | OOutbox (QMarkDead id _) =>
      forall r, w_outbox w !! id = Some r -> 0 < max_attempts <= r_attempts r
  | ONotify (QDone id) | ONotify (QFailed id _) =>
      forall u, uuid_in id = Some u -> u ∈ notified w
  | OKafka (KWrite wr _ m) =>
      wr_Topic wr = topic -> exists id r, w_outbox w !! id = Some r /\ event_message r m
  | OKafka (KCommit rd p) =>
      rd_Topic rd = topic -> exists from,
        rd_position rd !! pl_partition p = Some (from, S (pl_offset p)) /\
        read_range topic from_first (pl_partition p) (from, S (pl_offset p)) w
  | ORuntime (RNotify e _ _) => exists id r, w_outbox w !! id = Some r /\ r_event_id r = e
  | ORuntime (RSet name _) => exists m, m ∈ declared /\ mt_name m = name /\ mt_kind m = MGauge
  | ORuntime (RAdd name labels _) => sample_of declared name labels
  | OSend _ a => forall rs t, a = Answer rs -> rs_body rs = PTicket t -> w_tickets w !! t_ID t = Some t
  | _ => True
  end.

(** Everything but the status and the attempts is fixed by the identity. *)
Lemma event_message_evolves r r' m :
  row_evolves r r' -> event_message r m -> event_message r' m.
Proof. destruct r, r'. intros [Hi _]. unfold identity in Hi. simplify_eq/=. exact id. Qed.

Lemma event_message_evolves_r r r' m :
  row_evolves r r' -> event_message r' m -> event_message r m.
Proof. destruct r, r'. intros [Hi _]. unfold identity in Hi. simplify_eq/=. exact id. Qed.

Lemma row_of_ticket_evolves r r' t :
  row_evolves r r' -> row_of_ticket r t -> row_of_ticket r' t.
Proof. destruct r, r'. intros [Hi _]. unfold identity in Hi. simplify_eq/=. exact id. Qed.

Lemma evolves_event r r' : row_evolves r r' -> r_event_id r' = r_event_id r.
Proof. intros [Hi _]. unfold identity in Hi. by simplify_eq. Qed.

Lemma evolves_aggregate r r' : row_evolves r r' -> r_aggregate_id r' = r_aggregate_id r.
Proof. intros [Hi _]. unfold identity in Hi. by simplify_eq. Qed.

(** *** Statements on the outbox *)

Lemma outbox_grows ch o w : grows w (exec ch w (OOutbox o)).1.
Proof.
  unfold exec; simpl. pose proof (exec_evolves ch (w_outbox w) o) as He.
  split; [|reflexivity..]. intros id x Hx. by apply (table_evolves_lookup _ _ _ _ He).
Qed.

Lemma outbox_safe ch o w : inv w -> pre (OOutbox o) w -> inv (exec ch w (OOutbox o)).1.
Proof.
  intros HI Hpre. unfold exec; simpl.
  pose proof (exec_writes ch (w_outbox w) o) as Hw.
  pose proof (exec_evolves ch (w_outbox w) o) as He.
  set (t' := outbox_next ch (w_outbox w) o) in *. clearbody t'.
  assert (Hback : forall id r', t' !! id = Some r' ->
    exists r, w_outbox w !! id = Some r /\ row_evolves r r').
  { intros id r' Hr'. by apply (table_evolves_lookup_r _ _ _ _ He). }
  destruct HI as [Irow Itick Iinj Iev Itext Isent Ifail Ilog Ilate Inot Ifin Icom Iresp Igau Imet Iwf Ipwf].
  split; unfold w_outbox; simpl; try done.
  - intros id r' Hr'. destruct (Hback _ _ Hr') as (r&Hr&Hev).
    destruct (Irow _ _ Hr) as (t&Ht&Hrt). exists t.
    rewrite (evolves_aggregate _ _ Hev). split; [done|by eapply row_of_ticket_evolves].
  - intros tid t Ht. destruct (Itick _ _ Ht) as (?&id&r&Hr&Ha). split; [done|].
    destruct (table_evolves_lookup _ _ _ _ He Hr) as (r'&Hr'&Hev).
    exists id, r'. by rewrite (evolves_aggregate _ _ Hev).
  - intros id id' r r' (r0&H0&E0)%Hback (r0'&H0'&E0')%Hback.
    rewrite (evolves_aggregate _ _ E0), (evolves_aggregate _ _ E0'). by eapply Iinj.
  - intros id id' r r' (r0&H0&E0)%Hback (r0'&H0'&E0')%Hback.
    rewrite (evolves_event _ _ E0), (evolves_event _ _ E0'). by eapply Iev.
  - intros id r (r0&H0&[Hi _])%Hback. unfold identity in Hi. simplify_eq.
    destruct (Itext _ _ H0) as (?&?&?&?). repeat split; congruence.
  - intros id r' Hr' Hs. destruct (writes_lookup _ _ _ _ _ Hw Hr') as (r&Hr&[->|HP]).
    + by eapply Isent.
    + assert (Hsent : exists m, m ∈ log_of w /\ event_message r m).
      { destruct o; simpl in HP; destruct_and?; subst; try done. by apply Hpre. }
      destruct Hsent as (m&?&?). exists m. split; [done|].
      eapply event_message_evolves; [|done]. by eapply stmt_write_evolves.
  - intros id r' Hr' Hs. destruct (writes_lookup _ _ _ _ _ Hw Hr') as (r&Hr&[->|HP]).
    + by eapply Ifail.
    + destruct o; simpl in HP; destruct_and?; subst; try done. exact (Hpre _ Hr).
  - intros m (id&r&Hr&Hm)%Ilog. destruct (table_evolves_lookup _ _ _ _ He Hr) as (r'&Hr'&Hev).
    exists id, r'. split; [done|]. by eapply event_message_evolves.
  - intros m (id&r&Hr&Hm)%Ilate. destruct (table_evolves_lookup _ _ _ _ He Hr) as (r'&Hr'&Hev).
    exists id, r'. split; [done|]. by eapply event_message_evolves.
  - intros e (id&r&Hr&Hm)%Inot. destruct (table_evolves_lookup _ _ _ _ He Hr) as (r'&Hr'&Hev).
    exists id, r'. split; [done|]. by rewrite (evolves_event _ _ Hev).
  - intros id r' Hr'. destruct (writes_lookup _ _ _ _ _ Hw Hr') as (r&Hr&[->|HP]).
    + by eapply Iwf.
    + eapply stmt_write_wf; [|done]. by eapply Iwf.
Qed.

(** *** Statements on processed_events *)

Lemma inv_with_processed t w :
  inv w -> ptable_wf t ->
  (forall e p, t !! e = Some p -> final (pe_status p) = true -> e ∈ notified w) ->
  inv (with_processed t w).
Proof. by intros [] ??; split. Qed.

(** A statement makes final only rows it is meant to. *)
Lemma notify_writes ch t o e p :
  notify_next ch t o !! e = Some p ->
  (exists q, t !! e = Some q /\ (final (pe_status p) = true -> final (pe_status q) = true)) \/
  final (pe_status p) = false \/
  match o with
  | QDone id | QFailed id _ => uuid_in id = Some e
  | _ => False
  end.
Proof.
  destruct (notify_next_cases ch t o) as [-> | ->]; [by eauto|].
  assert (Hupd : forall id f u, uuid_in id = Some u -> alter f u t !! e = Some p ->
    (exists q, t !! e = Some q /\ q = p) \/ (u = e /\ exists q, p = f q)).
  { intros id f u _ Hp. rewrite lookup_alter in Hp. case_decide; [|by eauto].
    apply fmap_Some in Hp as (q&_&->). by eauto. }
  destruct o as [ev|id|id msg|id msg]; simpl.
  - unfold start_stmt. destruct (uuid_in (pv_EventID ev)) as [u|]; simpl; [|by eauto].
    destruct (jsonb_in (pv_Payload ev)) as [pl|]; simpl; [|by eauto].
    destruct (_ && _); simpl; [|by eauto].
    destruct (int4_max <? _); simpl; [by eauto|].
    rewrite lookup_insert. case_decide; [|by eauto]. subst.
    destruct (t !! e) as [q|]; intros [= <-]; simpl; [|by auto].
    unfold set_started. simpl. destruct (final (pe_status q)) eqn:E; [left|right; by left].
    exists q. by rewrite E.
  - unfold update_event. destruct (uuid_in id) as [u|] eqn:Hu; simpl; [|by eauto].
    intros Hp. destruct (Hupd _ _ _ Hu Hp) as [(q&?&->)|(->&_)]; eauto.
  - destruct (text_ok msg); simpl; [|by eauto].
    unfold update_event. destruct (uuid_in id) as [u|] eqn:Hu; simpl; [|by eauto].
    intros Hp. destruct (Hupd _ _ _ Hu Hp) as [(q&?&->)|(->&q&->)]; eauto.
  - destruct (text_ok msg); simpl; [|by eauto].
    unfold update_event. destruct (uuid_in id) as [u|] eqn:Hu; simpl; [|by eauto].
    intros Hp. destruct (Hupd _ _ _ Hu Hp) as [(q&?&->)|(->&_)]; eauto.
Qed.

Lemma notify_safe ch o w : inv w -> pre (ONotify o) w -> inv (exec ch w (ONotify o)).1.
Proof.
  intros HI Hpre. unfold exec; simpl. apply inv_with_processed; [done|by eapply notify_next_wf, inv_processed_wf|].
  intros e p Hp Hf.
  destruct (notify_writes _ _ _ _ _ Hp) as [(q&Hq&Hfin)|[Hn|Ho]].
  - eapply inv_final; eauto.
  - congruence.
  - destruct o; simpl in Hpre; try done; by apply Hpre.
Qed.

(** *** Calls to the broker *)

Lemma kafka_grows ch o w : grows w (exec ch w (OKafka o)).1.
Proof.
  unfold exec; simpl. split; [|reflexivity| |reflexivity].
  - intros id r Hr. by exists r.
  - apply entries_grow.
Qed.

(** A range of offsets that was read stays so. *)
Lemma read_range_grows p fn w w' : grows w w' ->
  read_range topic from_first p fn w -> read_range topic from_first p fn w'.
Proof.
  intros [_ _ [k Hk] [l Hl]] (Hlen&Hcov&Hf). split; [rewrite Hk, length_app; lia|]. split; [|done].
  intros i m Hi Hm. rewrite Hl, elem_of_app. left. apply (Hcov i); [done|].
  rewrite Hk, lookup_app_l in Hm by lia. done.
Qed.

(** What a call to the broker appends to the topic is written or late already. *)
Lemma kafka_writes ch o w m :
  m ∈ log_of (exec ch w (OKafka o)).1 ->
  m ∈ log_of w \/ (topic, m) ∈ br_late (w_broker w) \/
  exists wr d, o = KWrite wr d m /\ wr_Topic wr = topic.
Proof.
  unfold exec, log_of; simpl. destruct (kafka_next_cases ch (w_broker w) o) as [->| ->]; [by left|].
  destruct o as [wr d m'| | | | |]; simpl; try by left.
  - rewrite topic_log_write, elem_of_app. intros [?|Hm]; [by left|]. case_decide; [|by apply elem_of_nil in Hm].
    apply elem_of_replicate in Hm as [-> _]. right. right. by exists wr, d.
  - unfold land. destruct (br_late _ !! _) as [[t m']|] eqn:E; [|by left].
    rewrite topic_log_append_n, elem_of_app. intros [?|Hm]; [by left|].
    case_decide; [|by apply elem_of_nil in Hm]. subst.
    apply elem_of_replicate in Hm as [-> _]. right. left. by eapply list_elem_of_lookup_2.
Qed.

Lemma kafka_late ch o w m :
  (topic, m) ∈ br_late (w_broker (exec ch w (OKafka o)).1) ->
  (topic, m) ∈ br_late (w_broker w) \/ exists wr d, o = KWrite wr d m /\ wr_Topic wr = topic.
Proof.
  unfold exec; simpl. destruct (kafka_next_cases ch (w_broker w) o) as [->| ->]; [by left|].
  destruct o as [wr d m'| | | | |]; simpl; try by left.
  - rewrite elem_of_app. intros [?|Hm]; [by left|]. apply elem_of_replicate in Hm as [[= Ht ->] _].
    right. by exists wr, d.
  - unfold land. destruct (br_late _ !! _) as [[t m']|] eqn:E; [|by left]. simpl.
    intros Hm. left. by eapply elem_of_submseteq, submseteq_delete.
Qed.

Lemma kafka_committed ch o w group p fn :
  br_committed (w_broker (exec ch w (OKafka o)).1) !! (topic, group, p) = Some fn ->
  br_committed (w_broker w) !! (topic, group, p) = Some fn \/
  exists rd off, o = KCommit rd (Place p off) /\ rd_Topic rd = topic /\ fn.2 = S off /\
    forall from, rd_position rd !! p = Some (from, S off) -> fn.1 = from.
Proof.
  unfold exec; simpl. destruct (kafka_next_cases ch (w_broker w) o) as [->| ->]; [by left|].
  destruct o as [| | |rd [p' off]| |]; simpl; try by left.
  - rewrite lookup_insert. case_decide as E; [|by left]. injection E as Ht _ ->. intros [= <-].
    right. exists rd, off. split; [done|]. split; [done|]. split; [done|]. by intros from ->.
  - unfold land. by destruct (br_late _ !! _) as [[t m']|]; left.
Qed.

Lemma kafka_safe ch o w : inv w -> pre (OKafka o) w -> inv (exec ch w (OKafka o)).1.
Proof.
  intros HI Hpre. pose proof (kafka_grows ch o w) as HG.
  pose proof (kafka_writes ch o w) as Hlog. pose proof (kafka_late ch o w) as Hlate.
  pose proof (kafka_committed ch o w) as Hcom.
  assert (Hkeep : forall m, m ∈ log_of w -> m ∈ log_of (exec ch w (OKafka o)).1).
  { intros m Hm. destruct (grows_log _ _ _ HG) as [k Hk]. rewrite Hk, elem_of_app. by left. }
  destruct HI as [Irow Itick Iinj Iev Itext Isent Ifail Ilog Ilate Inot Ifin Icom Iresp Igau Imet Iwf Ipwf].
  split; try done.
  - intros id r Hr Hs. destruct (Isent id r Hr Hs) as (m&Hm&?). exists m. split; [by apply Hkeep|done].
  - intros m [Hm|[Hm|(wr&d&->&Ht)]]%Hlog; [by apply Ilog|by apply Ilate|by apply Hpre].
  - intros m [Hm|(wr&d&->&Ht)]%Hlate; [by apply Ilate|by apply Hpre].
  - intros group p fn Hc. apply (read_range_grows _ _ w); [done|].
    destruct (Hcom _ _ _ Hc) as [Hc'|(rd&off&->&Ht&Hn&Hf)]; [by eapply Icom|].
    destruct (Hpre Ht) as (from&Hpos&Hr). simpl in Hpos, Hr. specialize (Hf _ Hpos).
    destruct fn as [f n]. simpl in Hf, Hn. by subst.
Qed.

(** *** Calls to the runtime, and responses *)

Lemma runtime_grows ch o w : grows w (exec ch w (ORuntime o)).1.
Proof.
  unfold exec; simpl. split; [|reflexivity..|].
  - intros id r Hr. by exists r.
  - unfold notified; simpl. destruct o; simpl; try done. by apply prefix_app_r.
Qed.

Lemma runtime_safe ch o w : inv w -> pre (ORuntime o) w -> inv (exec ch w (ORuntime o)).1.
Proof.
  intros HI Hpre. pose proof (grows_notified _ _ _ (runtime_grows ch o w)) as [k Hk].
  unfold exec in *; simpl in *.
  destruct HI as [Irow Itick Iinj Iev Itext Isent Ifail Ilog Ilate Inot Ifin Icom Iresp Igau Imet Iwf Ipwf].
  split; try done.
  - intros e. unfold notified; simpl. destruct o; simpl; try by apply Inot.
    rewrite elem_of_app, list_elem_of_singleton. intros [?| ->]; [by apply Inot|done].
  - intros e p Hp Hf. rewrite Hk. apply elem_of_app. left. by eapply Ifin.
  - intros g p fn Hc. destruct (Icom g p fn Hc) as (?&Hcov&?). split; [done|]. split; [|done].
    intros i m Hi Hm. rewrite Hk, elem_of_app. left. by eapply Hcov.
  - intros name. simpl. destruct o as [| | | | | | |nm v|]; simpl; try by apply Igau.
    rewrite lookup_insert. case_decide as E; [by subst|by apply Igau].
  - intros name labels. simpl. destruct o as [| | | | | |nm ls n| |]; simpl; try by apply Imet.
    rewrite lookup_insert. case_decide as E; [by injection E as <- <-|by apply Imet].
Qed.

Lemma send_safe ch rid a w : inv w -> pre (OSend rid a) w -> inv (exec ch w (OSend rid a)).1.
Proof.
  intros HI Hpre. unfold exec; simpl in *.
  destruct HI as [Irow Itick Iinj Iev Itext Isent Ifail Ilog Ilate Inot Ifin Icom Iresp Igau Imet Iwf Ipwf].
  split; try done. intros rid' rs t. simpl. rewrite elem_of_app, list_elem_of_singleton.
  intros [?|[= -> <-]]; [by eapply Iresp|by apply Hpre].
Qed.

Lemma send_grows ch rid a w : grows w (exec ch w (OSend rid a)).1.
Proof. unfold exec; simpl. split; [|reflexivity..]. intros id r Hr. by exists r. Qed.

(** *** Transactions *)

(** A commit either changes nothing or adds one ticket and its row, both new. *)
Lemma ticket_writes ch (d : tables) o :
  match o with QCommit tx => tx_ok tx | _ => True end ->
  let d' := ticket_next ch d o in
  (db_tickets d' = db_tickets d /\ db_outbox d' = db_outbox d) \/
  exists tx t id r, o = QCommit tx /\ tx_tickets tx = [t] /\ tx_outbox tx = [(id, r)] /\
    db_tickets d !! t_ID t = None /\ db_outbox d !! id = None /\
    (r_event_id r ∉ event_ids (db_outbox d)) /\
    db_tickets d' = <[t_ID t := t]> (db_tickets d) /\ db_outbox d' = <[id := r]> (db_outbox d).
Proof.
  intros Hpre. simpl. destruct (ticket_next_cases ch d o) as [->| ->]; [by left|].
  destruct o as [|tx t|tx a aid ty p|tx|tx|id|]; simpl; try by left.
  { left. unfold insert_outbox. by repeat case_match. }
  unfold commit_tx. destruct (tx_conflicts tx d) eqn:Hc; [by left|right].
  destruct Hpre as (t&id&r&Ht&Ho&_). exists tx, t, id, r.
  unfold tx_conflicts in Hc. rewrite Ht, Ho in Hc. simpl in Hc.
  rewrite !orb_false_r, !orb_false_iff in Hc. destruct Hc as (H1&H2&H3).
  rewrite Ht, Ho. simpl. bool_props.
  apply eq_None_not_Some in H1, H2. repeat (split; [done|]). done.
Qed.

Lemma ticket_grows ch o w : pre (OTicket o) w -> grows w (exec ch w (OTicket o)).1.
Proof.
  intros Hpre.
  destruct (ticket_writes ch (w_db w) o) as [[Ht Ho]|H]; [by destruct o| |].
  - split; [|by apply reflexive_eq|reflexivity..]. unfold exec, w_outbox; simpl. rewrite Ho.
    intros id r Hr. by exists r.
  - destruct H as (tx&t&id&r&->&_&_&Hnt&Hno&_&Ht&Ho).
    split; [|unfold w_tickets|reflexivity..]; unfold exec, w_outbox; simpl.
    + rewrite Ho. intros i x Hx. exists x. split; [|done].
      rewrite lookup_insert_ne; [done|]. intros ->. congruence.
    + rewrite Ht. by apply insert_subseteq.
Qed.

Lemma elem_of_event_ids t id r : t !! id = Some r -> r_event_id r ∈ event_ids t.
Proof.
  intros Hr. unfold event_ids. apply list_elem_of_fmap. exists (id, r).
  split; [done|]. by apply elem_of_map_to_list.
Qed.

(** The commit of a ticket and its row keeps tickets and rows in correspondence. *)
Lemma ticket_safe ch o w : inv w -> pre (OTicket o) w -> inv (exec ch w (OTicket o)).1.
Proof.
  intros HI Hpre. pose proof (ticket_grows ch o w Hpre) as HG.
  destruct (ticket_writes ch (w_db w) o) as [[Ht Ho]|H]; [by destruct o| |].
  { unfold exec in *; simpl in *. destruct HI; split; unfold w_outbox, w_tickets in *; simpl;
      rewrite ?Ht, ?Ho; done. }
  destruct H as (tx&t&id&r&->&Htx&Hox&Hnt&Hno&Hne&Ht&Ho).
  destruct Hpre as (t0&id0&r0&Ht0&Ho0&Hrt&Hst&Hwf&Hu&Hx1&Hx2&Hx3).
  rewrite Htx in Ht0. rewrite Hox in Ho0. simplify_eq.
  clear HG. pose proof (insert_subseteq _ _ t0 Hnt) as HGt.
  unfold exec; simpl in *.
  destruct HI as [Irow Itick Iinj Iev Itext Isent Ifail Ilog Ilate Inot Ifin Icom Iresp Igau Imet Iwf Ipwf].
  unfold w_outbox, w_tickets in *.
  assert (Hnew : forall i x, <[id0 := r0]> (db_outbox (w_db w)) !! i = Some x ->
    (i = id0 /\ x = r0) \/ (i <> id0 /\ db_outbox (w_db w) !! i = Some x)).
  { intros i x. rewrite lookup_insert. case_decide; intros; simplify_eq; auto. }
  assert (Hagg : forall i x, db_outbox (w_db w) !! i = Some x -> r_aggregate_id x <> r_aggregate_id r0).
  { intros i x Hx Heq. destruct (Irow i x Hx) as (t&Ht'&_). destruct Hrt as (_&Hrt&_). congruence. }
  assert (Hevt : forall i x, db_outbox (w_db w) !! i = Some x -> r_event_id x <> r_event_id r0).
  { intros i x Hx Heq. apply Hne. rewrite <- Heq. by eapply elem_of_event_ids. }
  split; unfold w_outbox, w_tickets; simpl; rewrite ?Ho, ?Ht; try done.
  - intros i x Hx. apply Hnew in Hx as [[-> ->]|[Hi Hx]].
    + exists t0. rewrite (proj1 (proj2 Hrt)), lookup_insert_eq. done.
    + destruct (Irow i x Hx) as (t&Ht'&?). exists t. split; [|done].
      by eapply lookup_weaken.
  - intros tid t. rewrite lookup_insert. case_decide; intros; simplify_eq.
    + split; [done|]. exists id0, r0. rewrite lookup_insert_eq. by destruct Hrt as (_&?&_).
    + destruct (Itick tid t) as (?&i&x&Hx&?); [done|]. split; [done|]. exists i, x.
      rewrite lookup_insert_ne; [done|congruence].
  - intros i i' x x' Hx Hx' Heq. apply Hnew in Hx as [[-> ->]|[Hi Hx]];
      apply Hnew in Hx' as [[-> ->]|[Hi' Hx']]; [done| | |by eapply Iinj].
    + by eapply Hagg in Hx'.
    + by eapply Hagg in Hx.
  - intros i i' x x' Hx Hx' Heq. apply Hnew in Hx as [[-> ->]|[Hi Hx]];
      apply Hnew in Hx' as [[-> ->]|[Hi' Hx']]; [done| | |by eapply Iev].
    + by eapply Hevt in Hx'.
    + by eapply Hevt in Hx.
  - intros i x Hx. apply Hnew in Hx as [[-> ->]|[Hi Hx]]; [done|by eapply Itext].
  - intros i x Hx Hs. apply Hnew in Hx as [[-> ->]|[Hi Hx]]; [congruence|by eapply Isent].
  - intros i x Hx Hs. apply Hnew in Hx as [[-> ->]|[Hi Hx]]; [congruence|by eapply Ifail].
  - intros m (i&x&Hx&Hm)%Ilog. exists i, x. rewrite lookup_insert_ne; [done|congruence].
  - intros m (i&x&Hx&Hm)%Ilate. exists i, x. rewrite lookup_insert_ne; [done|congruence].
  - intros e (i&x&Hx&He)%Inot. exists i, x. rewrite lookup_insert_ne; [done|congruence].
  - intros rid rs t Hrs Hb. specialize (Iresp rid rs t Hrs Hb).
    by eapply lookup_weaken.
  - intros i x Hx. apply Hnew in Hx as [[-> ->]|[Hi Hx]]; [done|by eapply Iwf].
Qed.

(** ** Every call *)

Lemma op_safe ch w o : inv w -> pre o w -> inv (exec ch w o).1 /\ grows w (exec ch w o).1.
Proof.
  intros HI Hpre. destruct o.
  - split; [by apply ticket_safe|by apply ticket_grows].
  - split; [by apply outbox_safe|by apply outbox_grows].
  - split; [by apply notify_safe|]. unfold exec; simpl. split; [|reflexivity..].
    intros id r Hr. by exists r.
  - split; [by apply kafka_safe|by apply kafka_grows].
  - split; [by apply runtime_safe|by apply runtime_grows].
  - split; [by apply send_safe|by apply send_grows].
Qed.

(** The rule for one call: the precondition before, and the rest of the program
    after, in any world the call can lead to. *)
Lemma wp_op {A} (o : sys_op) (k : ans sys_sig o -> prog sys_sig A) (Q : A -> world -> Prop) w :
  (forall w', grows w w' -> inv w' -> pre o w' /\
    forall ch, inv (exec ch w' o).1 -> grows w (exec ch w' o).1 ->
      wp (system topic max_attempts from_first) (k (exec ch w' o).2) Q (exec ch w' o).1) ->
  wp (system topic max_attempts from_first) (Vis (o : op sys_sig) k) Q w.
Proof.
  intros H w' ch HR HI _. destruct (H w' HR HI) as [Hpre Hk].
  destruct (op_safe ch w' o HI Hpre) as [HI' HG']. split; [done|]. split; [done|].
  apply Hk; [done|]. by etrans.
Qed.
End Safety.
