(* ===== verification/Follows.v ===== *)
(** * The services follow the protocol

    Every body of a process makes only calls that are safe for the whole system:
    the proofs walk through the programs with the rule [wp_op]. *)

From S2P Require Import Prelude Effects GoString Utf8 Runtime Kafka Events Postgres Outbox.
From S2P Require Import Processed Ticket Handler Router Metrics World System Safety.
From S2P Require Relay Consumer.

Section Follows.
Context {UT : UnicodeTables} {J : Json} {JD : JsonDecoder} {PG : Postgres} {PH : Prometheus}.
Context (topic : string) (max_attempts : Z) (from_first : bool).

Local Abbreviation inv := (inv topic max_attempts from_first).
Local Abbreviation grows := (grows topic).
Local Abbreviation log_of := (log_of topic).
Local Abbreviation wps := (wp (system topic max_attempts from_first)).

(** Follows the hypotheses from one world to a later one. *)
Ltac later :=
  first [done | eassumption
        | multimatch goal with H : System.grows _ ?w _ |- System.grows _ ?w _ =>
            apply (transitivity H); clear H; solve [later] end].

(** A call of which nothing need be known: neither before nor after. *)
Lemma wp_skip {A} (o : sys_op) (k : ans sys_sig o -> prog sys_sig A) (Q : A -> world -> Prop) w :
  (forall w', pre topic max_attempts from_first o w') ->
  (forall w' r, grows w w' -> wps (k r) Q w') ->
  wps (Vis (o : op sys_sig) k) Q w.
Proof. intros Hpre Hk. apply wp_op. intros w' HG HI. split; [done|]. intros ch _ HG'. auto. Qed.

(** ** Facts that last *)

(** The row an event was read from is still there. *)
Definition has_row (e : Event) (w : world) : Prop :=
  exists r, w_outbox w !! ID e = Some r /\ Attempts e <= r_attempts r /\
    Relay.envelope_of e = row_envelope r.

Lemma row_envelope_evolves r r' : row_evolves r r' -> row_envelope r' = row_envelope r.
Proof. destruct r, r'. intros [Hi _]. unfold identity in Hi. by simplify_eq/=. Qed.

Lemma has_row_grows e w w' : grows w w' -> has_row e w -> has_row e w'.
Proof.
  intros HG (r&Hr&Ha&He). destruct (grows_outbox _ _ _ HG _ _ Hr) as (r'&Hr'&Hev).
  exists r'. split; [done|]. rewrite (row_envelope_evolves _ _ Hev).
  split; [|done]. destruct Hev. lia.
Qed.

Lemma log_grows m w w' : grows w w' -> m ∈ log_of w -> m ∈ log_of w'.
Proof. intros HG Hm. destruct (grows_log _ _ _ HG) as [k ->]. apply elem_of_app. by left. Qed.

Lemma notified_grows e w w' : grows w w' -> e ∈ notified w -> e ∈ notified w'.
Proof. intros [_ _ _ [k ->]] Hm. apply elem_of_app. by left. Qed.

Lemma entry_grows i e w w' : grows w w' -> entries_of topic w !! i = Some e -> entries_of topic w' !! i = Some e.
Proof. intros [_ _ HL _] Hm. by eapply prefix_lookup_Some. Qed.

Lemma entry_in_log i p m w : entries_of topic w !! i = Some (p, m) -> m ∈ log_of w.
Proof.
  intros Hm. apply list_elem_of_fmap. exists (p, m). split; [done|]. by eapply list_elem_of_lookup_2.
Qed.

Lemma tickets_kept id t w w' : grows w w' -> w_tickets w !! id = Some t -> w_tickets w' !! id = Some t.
Proof. intros [_ HT _ _] Ht. by eapply lookup_weaken. Qed.

(** The message of an event that has a row. *)
Lemma has_row_message e b w :
  has_row e w -> marshal_envelope (Relay.envelope_of e) = Ok b ->
  exists r, w_outbox w !! ID e = Some r /\ event_message r (Message (AggregateID e) b).
Proof.
  intros (r&Hr&_&He) Hb. exists r. split; [done|]. split; simpl.
  - by injection He.
  - by rewrite <- He.
Qed.

(** ** Producer *)

Lemma wp_write p timeout m (Q : option goerr -> world -> Prop) (ok : string -> Prop) w :
  producer_on ok p ->
  (forall w', grows w w' -> ok topic -> exists id r, w_outbox w' !! id = Some r /\ event_message r m) ->
  (forall w' err, grows w w' ->
     (err = None -> exists t, ok t /\ m ∈ topic_log (w_broker w') t) -> Q err w') ->
  wps (write p timeout m) Q w.
Proof.
  intros [_ Hp] Hm HQ. unfold write. destruct (p_w p) as [wr|]; [|by apply HQ].
  apply wp_op. intros w' HG HI. split.
  { simpl. intros Ht. apply Hm; [done|]. rewrite <- Ht. by apply Hp. }
  intros ch _ HG'. simpl. apply HQ; [done|]. unfold exec; simpl.
  destruct (kafka_exec ch (w_broker w') _) as [b r] eqn:E; simpl. intros Hn.
  destruct r as [[]|]; [|done]. exists (wr_Topic wr). split; [by apply Hp|].
  pose proof (kafka_exec_ok ch (w_broker w') (KWrite wr timeout m) ()) as Hok.
  rewrite E in Hok. specialize (Hok eq_refl). simpl in Hok. injection Hok as <-.
  rewrite topic_log_write, decide_True by done. apply elem_of_app. right.
  assert (Hd : ch_out ch = Done).
  { unfold kafka_exec in E. by destruct (ch_out ch). }
  unfold copies_now. rewrite Hd. by left.
Qed.

Lemma wp_resetOnce p (Q : Producer -> world -> Prop) (ok : string -> Prop) w :
  producer_on ok p ->
  (forall w' p', grows w w' -> producer_on ok p' -> Q p' w') ->
  wps (resetOnce p) Q w.
Proof.
  intros Hp HQ. unfold resetOnce.
  assert (Hnew : forall n, producer_on ok (MkProducer (Some (newWriter (p_cfg p))) (p_cfg p) n)).
  { intros n. destruct Hp as [Hc _]. split; [done|]. by intros wr [= <-]. }
  apply wp_skip; [done|]. intros w1 now HG1. simpl.
  case_match; [by apply HQ|]. destruct (p_w p) as [wr|].
  - apply wp_skip; [done|]. intros w2 r HG2. apply wp_skip; [done|].
    intros w3 n HG3. apply HQ; [|done]. etrans; [done|]. by etrans.
  - apply wp_skip; [done|]. intros w2 r HG2. apply HQ; [by etrans|done].
Qed.

Lemma wp_Produce p key value timeout (Q : Producer * option goerr -> world -> Prop)
    (ok : string -> Prop) w :
  producer_on ok p ->
  (forall w', grows w w' -> ok topic ->
     exists id r, w_outbox w' !! id = Some r /\ event_message r (Message key value)) ->
  (forall w' p' err, grows w w' -> producer_on ok p' ->
     (err = None -> exists t, ok t /\ Message key value ∈ topic_log (w_broker w') t) ->
     Q (p', err) w') ->
  wps (Produce p key value timeout) Q w.
Proof.
  intros Hp Hm HQ. unfold Produce. apply wp_bind.
  eapply wp_write; [done|done|]. intros w1 err HG1 Hw1.
  destruct err as [e|]; [|by apply HQ; auto].
  case_match; [|by apply HQ].
  apply wp_bind. eapply wp_resetOnce; [done|]. intros w2 p2 HG2 Hp2.
  apply wp_bind. eapply wp_write; [done| |].
  - intros w3 HG3. apply Hm. etrans; [done|]. by etrans.
  - intros w3 err HG3 Hw3. apply HQ; [|done|done]. etrans; [done|]. by etrans.
Qed.

Lemma wp_Close p (Q : Producer * option goerr -> world -> Prop) w :
  (forall w' r, grows w w' -> Q r w') -> wps (Close p) Q w.
Proof.
  intros HQ. unfold Close. destruct (p_w p); [|by apply wp_ret, HQ].
  apply wp_skip; [done|]. intros w' r HG. by apply wp_ret, HQ.
Qed.

(** A dead letter goes to another topic, so nothing need be known of it. *)
Lemma wp_Produce_dlq p key value timeout (Q : Producer * option goerr -> world -> Prop) w :
  producer_on (not_topic topic) p ->
  (forall w' r, grows w w' -> producer_on (not_topic topic) r.1 -> Q r w') ->
  wps (Produce p key value timeout) Q w.
Proof.
  intros Hp HQ. eapply wp_Produce; [done| |].
  - intros w' _ Hn. by destruct (Hn eq_refl).
  - intros w' p' err HG Hp' _. by apply HQ.
Qed.

(** ** The relay *)

Section Relay.
Context {PL : PostgresLaws PG}.
Context (cfg : Relay.relay_config) (Hmax : Relay.maxAttempts cfg = max_attempts).
Local Abbreviation producers_ok := (producers_ok topic).

(** The type of an event comes from its row, so it can be a label. *)
Lemma wp_count m e {A} (k : unit -> prog sys_sig A) (Q : A -> world -> Prop) w :
  m ∈ OutboxMetrics.metrics -> mt_kind m <> MGauge -> length (mt_labels m) = 1%nat -> has_row e w ->
  (forall w', grows w w' -> wps (k ()) Q w') ->
  wps (Inc (mt_name m) [EventType e] ≫= k) Q w.
Proof.
  intros Hm Hk Hl Hrow H. apply wp_op. intros w1 HG1 HI1. ops. split.
  - destruct (has_row_grows _ _ _ HG1 Hrow) as (r&Hr&_&He). unfold Relay.envelope_of in He.
    injection He as _ He _ _ _ _. destruct (inv_row_text _ _ _ _ HI1 _ _ Hr) as (_&_&_&Ht).
    apply (sample_intro m); [apply elem_of_app; by left|done|done|done|].
    cbn [forallb]. rewrite He, (text_ok_utf8 _ Ht). done.
  - intros ch _ HG2. apply H. by etrans.
Qed.

Lemma wp_maybeDead ps e env msg (Q : Relay.producers * bool -> world -> Prop) w :
  producers_ok ps -> has_row e w ->
  (forall w' r, grows w w' -> producers_ok r.1 -> Q r w') ->
  wps (Relay.maybeDead ps e env (Relay.maxAttempts cfg) msg) Q w.
Proof.
  intros Hps Hrow HQ. unfold Relay.maybeDead. rewrite Hmax.
  destruct (_ && _) eqn:E; [|by apply HQ].
  apply andb_prop in E as [H0 Hle]. bool_props. apply wp_bind.
  assert (Hdead : forall ps w1, producers_ok ps -> grows w w1 ->
    wps (_ ← Outbox.Store.MarkDead (ID e) msg;
         Inc "outbox_dead_total" [EventType e];; mret (ps, true)) Q w1).
  { intros ps' w1 Hps' HG1. apply wp_op. intros w2 HG2 HI2. split.
    - intros r Hr. destruct (has_row_grows _ _ _ (transitivity HG1 HG2) Hrow) as (r'&Hr'&?&_).
      simplify_eq. lia.
    - intros ch _ HG3. apply (wp_count OutboxMetrics.DeadTotal); [in_list|done|done| |].
      { eapply has_row_grows; [|done]. by etrans. }
      intros w4 HG4. apply HQ; [|done]. etrans; [done|]. by etrans. }
  pose proof (proj2 Hps) as Hd.
  destruct (Relay.dlqProducer ps) as [d|]; [|by apply Hdead].
  destruct (marshal_dead_envelope _ _) as [b|]; [|by apply Hdead].
  apply wp_bind, wp_Produce_dlq; [done|]. intros w1 r HG1 Hr.
  apply Hdead; [|done]. by split; [apply Hps|].
Qed.

Lemma wp_give_back ps e env msg (Q : Relay.producers -> world -> Prop) w :
  producers_ok ps -> has_row e w ->
  (forall w' ps', grows w w' -> producers_ok ps' -> Q ps' w') ->
  wps (Relay.give_back (Relay.maxAttempts cfg) ps e env msg) Q w.
Proof.
  intros Hps Hrow HQ. apply wp_bind, wp_maybeDead; [done..|].
  intros w1 [ps1 dead] HG1 Hps1. simpl. destruct dead; [by apply HQ|].
  apply wp_skip; [done|]. intros w2 now HG2. apply wp_skip; [done|]. intros w3 r HG3.
  assert (HG13 : grows w w3) by (etrans; [done|]; by etrans).
  apply (wp_count OutboxMetrics.FailedTotal); [in_list|done|done|by eapply has_row_grows|].
  intros w4 HG4. apply HQ; [by etrans|done].
Qed.

Lemma wp_publish ps e (Q : Relay.producers -> world -> Prop) w :
  producers_ok ps -> has_row e w ->
  (forall w' ps', grows w w' -> producers_ok ps' -> Q ps' w') ->
  wps (Relay.publish (Relay.maxAttempts cfg) ps e) Q w.
Proof.
  intros Hps Hrow HQ. unfold Relay.publish.
  destruct (marshal_envelope _) as [b|err] eqn:Hb; [|by apply wp_give_back].
  apply wp_bind. eapply wp_Produce; [apply Hps| |].
  { intros w1 HG1 _. exists (ID e). eapply has_row_message; [|done]. by eapply has_row_grows. }
  intros w1 p' err HG1 Hp' Hsent.
  assert (Hps' : producers_ok (Relay.Producers p' (Relay.dlqProducer ps)))
    by (split; [done|apply Hps]).
  simpl. destruct err as [err|].
  { apply wp_give_back; [done|by eapply has_row_grows|].
    intros w2 ps2 HG2. apply HQ. by etrans. }
  destruct (Hsent eq_refl) as (t&->&Hm).
  apply wp_op. intros w2 HG2 HI2. split.
  { intros r Hr. exists (Message (AggregateID e) b).
    split; [by eapply log_grows|].
    destruct (has_row_message e b w2) as (r'&Hr'&?); [|done|congruence].
    eapply has_row_grows; [|done]. by etrans. }
  intros ch _ HG3. ops. match goal with |- wp _ _ _ ?w5 => set (w3 := w5) in * end.
  assert (HG13 : grows w w3) by (etrans; [done|]; by etrans).
  apply (wp_count OutboxMetrics.PublishedTotal); [in_list|done|done|by eapply has_row_grows|].
  intros w4 HG4. apply HQ; [by etrans|done].
Qed.

Lemma claimed_has_row ch w limit es :
  (exec ch w (OOutbox (QClaim limit))).2 = Ok es ->
  forall e, e ∈ es -> has_row e (exec ch w (OOutbox (QClaim limit))).1.
Proof.
  unfold exec; simpl. intros Hok e He.
  pose proof (outbox_exec_ok ch (w_outbox w) (QClaim limit) es Hok) as Hc. simpl in Hc.
  apply claim_meets_spec in Hc. destruct (claim_rows _ _ _ _ _ _ Hc e He) as (r&Hr&_&_&_&Heq).
  exists (set_claimed (ch_now ch) r). unfold w_outbox at 1; simpl.
  rewrite (claim_table _ _ _ _ _ _ Hc), Hr, bool_decide_true.
  - split; [done|]. rewrite Heq. simpl. by split.
  - by apply list_elem_of_fmap_2.
Qed.

Lemma wp_tick ps (Q : Relay.producers * option goerr -> world -> Prop) w :
  producers_ok ps ->
  (forall w' r, producers_ok r.1 -> Q r w') ->
  wps (Relay.tick cfg ps) Q w.
Proof.
  intros Hps HQ. unfold Relay.tick. apply wp_skip; [done|]. intros w1 r1 HG1.
  destruct r1 as [n|err]; [|by apply HQ].
  apply wp_skip; [done|]. intros w2 r2 HG2.
  assert (Hrest : forall w3, wps (rows ← Outbox.Store.ClaimPending (Relay.batchSize cfg);
      match rows with
      | Err err => mret (ps, Some err)
      | Ok rows =>
          ps ← for_fold rows ps (Relay.publish (Relay.maxAttempts cfg));
          mret (ps, None)
      end) Q w3).
  { intros w3. apply wp_op. intros w4 HG4 HI4. split; [done|]. intros ch HI5 HG5.
    destruct (exec ch w4 _).2 as [es|err] eqn:E; [|by apply HQ]. cbn [prj_ans sub_outbox].
    apply wp_bind. eapply wp_mono; [|apply (wp_for_fold _ es ps _ (fun es ps w =>
      producers_ok ps /\ forall e, e ∈ es -> has_row e w))].
    - intros ps' w' [Hps' _]. by apply HQ.
    - split; [done|]. by apply claimed_has_row.
    - intros e es' ps' w' [Hps' Hes]. apply wp_publish; [done|apply Hes; by left|].
      intros w'' ps'' HG Hps''. split; [done|]. intros e' He'.
      eapply has_row_grows; [done|]. apply Hes. by right. }
  assert (Hgauge : forall l, wps (SetGauge "outbox_lag_seconds" l;;
      rows ← Outbox.Store.ClaimPending (Relay.batchSize cfg);
      match rows with
      | Err err => mret (ps, Some err)
      | Ok rows =>
          ps ← for_fold rows ps (Relay.publish (Relay.maxAttempts cfg));
          mret (ps, None)
      end) Q w2).
  { intros l. apply wp_skip; [intros; by gauge OutboxMetrics.LagSeconds|]. intros w3 _ _. apply Hrest. }
  destruct r2 as [[l|]|err]; [apply Hgauge|apply Hgauge|].
  cbn [prj_ans sub_outbox]. case_bool_decide; [apply Hgauge|apply Hrest].
Qed.

Lemma wp_relay_shutdown ps w : wps (Relay.shutdown ps) (fun _ _ => True) w.
Proof.
  apply wp_bind. destruct (Relay.dlqProducer ps) as [d|].
  - apply wp_bind, wp_Close. intros w1 r1 _. by apply wp_bind, wp_Close.
  - by apply wp_bind, wp_Close.
Qed.

Lemma wp_relay_turn ps w :
  producers_ok ps ->
  wps (Relay.relay_turn cfg ps)
      (fun o _ => match o with Some ps => producers_ok ps | None => True end) w.
Proof.
  intros Hps. apply wp_skip; [done|]. intros w1 [] _.
  - apply wp_bind. eapply wp_mono; [|apply wp_relay_shutdown]. done.
  - apply wp_bind, wp_tick; [done|]. by intros w2 r Hr.
Qed.
End Relay.

(** ** The consumer *)

Section Consumer.
Context {JL : JsonLaws J} {PL : PostgresLaws PG}.
Context (cfg : Consumer.consumer_config).
Local Abbreviation consumer_ok := (consumer_ok topic from_first).

(** A message of the topic names, in canonical form, the event of a row. *)
Definition names_event (m : message) (w : world) : Prop :=
  exists env, unmarshal_envelope (m_value m) = (env, None) /\
    uuid_in (env_EventID env) = Some (env_EventID env) /\ valid_utf8 (env_EventType env) = true /\
    exists id r, w_outbox w !! id = Some r /\ r_event_id r = env_EventID env.

Lemma names_event_grows m w w' : grows w w' -> names_event m w -> names_event m w'.
Proof.
  intros HG (env&He&Hu&Hv&id&r&Hr&Hid). exists env. split; [done|]. split; [done|]. split; [done|].
  destruct (grows_outbox _ _ _ HG _ _ Hr) as (r'&Hr'&Hev). exists id, r'.
  split; [done|]. by rewrite (evolves_event _ _ Hev).
Qed.

Lemma log_names_event m w : inv w -> m ∈ log_of w -> names_event m w.
Proof.
  intros HI Hm. destruct (inv_log _ _ _ _ HI m Hm) as (id&r&Hr&Hk&Hv).
  destruct (inv_row_text _ _ _ _ HI id r Hr) as (Hu&Ht1&Ht2&Ht3).
  destruct (json_roundtrip _ _ Hv) as (e'&He'&Hid&Hty&_); simpl; eauto using uuid_in_utf8, text_ok_utf8.
  { destruct (inv_row _ _ _ _ HI id r Hr) as (t&_&_&_&_&rid&p&Hp&Hj).
    eapply jsonb_in_shallow; [exact Hj|]. by eapply payload_shallow. }
  exists e'. simpl in Hid, Hty. rewrite Hid, Hty. eauto 10 using text_ok_utf8.
Qed.

(** What is known of the message being handled. *)
Record handling (off : place) (m : message) (attempt : Z) (w : world) : Prop := {
  hd_at : entries_of topic w !! pl_offset off = Some (pl_partition off, m);
  hd_names : names_event m w;
  hd_attempt : 0 < attempt -> event_of m ∈ notified w
}.

Lemma handling_grows off m attempt w w' :
  grows w w' -> handling off m attempt w -> handling off m attempt w'.
Proof.
  intros HG []. split; eauto using entry_grows, names_event_grows, notified_grows.
Qed.

Lemma wp_StartProcessing e u (Q : Started -> world -> Prop) w :
  uuid_in (pv_EventID e) = Some u ->
  (forall w' s, grows w w' ->
     (st_err s = None -> shouldProcess s = false -> u ∈ notified w') -> Q s w') ->
  wps (Processed.Store.StartProcessing e) Q w.
Proof.
  intros Hu HQ. apply wp_op. intros w1 HG1 HI1. split; [done|]. intros ch HI2 HG2. ops.
  destruct (exec ch w1 (ONotify (QStart e))).2 as [[status attempts]|err] eqn:E; [|by apply HQ].
  case_match eqn:Hfin; apply HQ; [done| |done|done]. intros _ _.
  unfold exec in *; simpl in *.
  pose proof (notify_exec_ok ch (w_processed w1) (QStart e) _ E) as Hst. simpl in Hst.
  unfold start_stmt in Hst. rewrite Hu in Hst.
  destruct (jsonb_in _) as [pl|]; [|done]. destruct (_ && _ && _); [|done].
  set (r' := match w_processed w1 !! u with None => _ | Some r => _ end) in *.
  destruct (int4_max <? _); [done|]. injection Hst as Hnext Hs Ha.
  apply (inv_final _ _ _ _ HI2 u r').
  - simpl. rewrite <- Hnext. apply lookup_insert_eq.
  - rewrite Hs. exact Hfin.
Qed.

Lemma wp_handleMessage off m evType attempt (Q : Consumer.handled -> world -> Prop) w :
  handling off m attempt w ->
  (forall w' h, grows w w' -> handling off m (Consumer.h_attempt h) w' ->
     match Consumer.h_err h with
     | None => event_of m ∈ notified w'
     | Some err => Consumer.classify err <> "unmarshal" /\ valid_utf8 (Consumer.classify err) = true
     end -> valid_utf8 (Consumer.h_eventType h) = true -> Q h w') ->
  wps (Consumer.handleMessage cfg (m_value m) evType attempt) Q w.
Proof.
  intros Hh HQ. destruct (hd_names _ _ _ _ Hh) as (env&He&Hu&Hty&Hrow).
  unfold Consumer.handleMessage. rewrite He.
  assert (Hof : event_of m = env_EventID env) by (unfold event_of; by rewrite He).
  apply wp_bind. eapply wp_StartProcessing; [exact Hu|]. intros w1 s HG1 Hs.
  pose proof (handling_grows _ _ _ _ _ HG1 Hh) as Hh1.
  destruct (st_err s) as [err|]; [by apply HQ; [| |split; [discriminate|]|]|].
  destruct (shouldProcess s) eqn:Esp; simpl.
  2: { rewrite <- Hof in Hs. apply HQ; [done| |by apply Hs|done].
       destruct Hh1. split; [done..|]. intros _. by apply Hs. }
  apply wp_op. intros w2 HG2 HI2.
  destruct (names_event_grows _ _ _ HG2 (hd_names _ _ _ _ Hh1)) as (env'&He'&_&_&id&r&Hr&Hid).
  assert (env' = env) as -> by congruence. split; [by exists id, r|]. intros ch HI3 HG3. ops.
  assert (Hn3 : event_of m ∈ notified (exec ch w2 (ORuntime (RNotify (env_EventID env)
                   (env_EventType env) (env_AggregateID env)))).1).
  { rewrite Hof. unfold exec, notified; simpl. apply elem_of_app. right. by left. }
  assert (Hh3 : forall w4 a, grows (exec ch w2 (ORuntime (RNotify (env_EventID env)
                   (env_EventType env) (env_AggregateID env)))).1 w4 -> handling off m a w4).
  { intros w4 a HG4. destruct (handling_grows _ _ _ _ _ (transitivity HG3 HG4) Hh1).
    split; [done..|]. intros _. by eapply notified_grows. }
  assert (HG : grows w (exec ch w2 (ORuntime (RNotify (env_EventID env)
                   (env_EventType env) (env_AggregateID env)))).1) by by etrans.
  revert Hn3 Hh3 HG. generalize (exec ch w2 (ORuntime (RNotify (env_EventID env)
                   (env_EventType env) (env_AggregateID env)))).1 as w3. intros w3 Hn3 Hh3 HG.
  destruct (Consumer.matchForceFail cfg (env_EventType env)).
  - apply wp_skip; [done|]. intros w4 r4 HG4. apply HQ; [by etrans|by apply Hh3|split; [discriminate|done]|done].
  - apply wp_op. intros w4 HG4 HI4. split.
    { intros u Hu'. assert (u = env_EventID env) as -> by congruence. rewrite <- Hof.
      by eapply notified_grows. }
    intros ch' _ HG5. destruct (exec ch' w4 _).2 as [[]|err]; cbn.
    + apply HQ; [by etrans|by apply Hh3|by eapply notified_grows|done].
    + apply wp_skip; [done|]. intros w6 r6 HG6.
      assert (grows w3 w6) by by etrans.
      apply HQ; [by etrans|by apply Hh3|split; [discriminate|done]|done].
Qed.

(** What the reader has read has been notified, but for the message being handled, which
    is the last it delivered of its partition. *)
Definition reading (st : Consumer.consumer_state) (current : option place) (w : world) : Prop :=
  let pos := rd_position (c_r (Consumer.consumer st)) in
  (forall p fn, pos !! p = Some fn -> pl_partition <$> current <> Some p ->
     read_range topic from_first p fn w) /\
  match current with
  | Some (Place p i) =>
      exists f, pos !! p = Some (f, S i) /\ read_range topic from_first p (f, i) w
  | None => True
  end.

Lemma reading_grows st cur w w' : grows w w' -> reading st cur w -> reading st cur w'.
Proof.
  intros HG [Hr Hc]. split; [intros p fn Hp Hne; eapply read_range_grows; [done|by eapply Hr]|].
  destruct cur as [[p i]|]; [|done]. destruct Hc as (f&Hf&Hc). exists f. split; [done|].
  by eapply read_range_grows.
Qed.

Lemma reading_reopened st cur t w :
  reading (Consumer.set_reopened st
    (MkConsumer (newReader (c_cfg (Consumer.consumer st))) (c_cfg (Consumer.consumer st))) t) cur w <->
  cur = None.
Proof.
  split; [|intros ->; by split].
  intros [_ H]. destruct cur as [[p i]|]; [|done]. by destruct H as (f&H&_).
Qed.

(** Once its event has been notified, the message in hand is read. *)
Lemma reading_read st p i m w :
  reading st (Some (Place p i)) w -> entries_of topic w !! i = Some (p, m) -> event_of m ∈ notified w ->
  exists f, rd_position (c_r (Consumer.consumer st)) !! p = Some (f, S i) /\
    read_range topic from_first p (f, S i) w.
Proof.
  intros [_ (f&Hf&Hlen&Hcov&Hff)] Hm Hn. exists f. split; [done|]. split; [|split; [|done]].
  - simpl. by apply lookup_lt_Some in Hm.
  - intros j m' Hj Hm'. simpl in *. destruct (decide (j = i)) as [->|].
    + by assert (m' = m) as -> by congruence.
    + apply (Hcov j); [simpl; lia|done].
Qed.

Lemma reading_handled st p i m w :
  reading st (Some (Place p i)) w -> entries_of topic w !! i = Some (p, m) -> event_of m ∈ notified w ->
  reading st None w.
Proof.
  intros Hr Hm Hn. split; [|done]. intros p' fn Hp _. destruct (decide (p' = p)) as [->|Hne].
  - destruct (reading_read _ _ _ _ _ Hr Hm Hn) as (f&Hf&H). by assert (fn = (f, S i)) as -> by congruence.
  - destruct Hr as [Hr _]. apply (Hr _ _ Hp). simpl. congruence.
Qed.

(** The states of the loops, and what is known in each. *)
Definition pc_good (pc : Consumer.consumer_pc) (w : world) : Prop :=
  match pc with
  | Consumer.PcFetch st => consumer_ok st /\ reading st None w
  | Consumer.PcHandle st off m evType attempt =>
      consumer_ok st /\ reading st (Some off) w /\ handling off m attempt w /\ valid_utf8 evType = true
  end.

Definition next_pc_good (o : option Consumer.consumer_pc) (w : world) : Prop :=
  match o with Some pc => pc_good pc w | None => True end.

Lemma wp_Reopen c (Q : Consumer -> world -> Prop) w :
  (forall w', grows w w' -> Q (MkConsumer (newReader (c_cfg c)) (c_cfg c)) w') ->
  wps (Reopen c) Q w.
Proof. intros HQ. apply wp_skip; [done|]. intros w1 r HG. by apply HQ. Qed.

Lemma reopened_ok st t w : consumer_ok st ->
  pc_good (Consumer.PcFetch (Consumer.set_reopened st
    (MkConsumer (newReader (c_cfg (Consumer.consumer st))) (c_cfg (Consumer.consumer st))) t)) w.
Proof.
  intros ((_&Ht)&Hf&Hd). split; [|by apply reading_reopened].
  split; [by split|]. split; [|done]. intros Hff. by split; apply (Hf Hff).
Qed.

Lemma wp_committed (Q : unit -> world -> Prop) w :
  (forall w', grows w w' -> Q () w') -> wps Consumer.committed Q w.
Proof.
  intros HQ. apply wp_skip; [intros; by sample NotifyMetrics.committed|]. intros w1 r HG1.
  apply wp_skip; [done|]. intros w2 t HG2. apply wp_skip; [intros; by gauge NotifyMetrics.lastProcessedUnix|].
  intros w3 [] HG3. apply HQ. etrans; [done|]. by etrans.
Qed.

Lemma wp_produce_dlq st m err (Q : Consumer.consumer_state -> world -> Prop) w :
  consumer_ok st ->
  (forall w' st', grows w w' -> consumer_ok st' ->
     Consumer.consumer st' = Consumer.consumer st -> Q st' w') ->
  wps (Consumer.produce_dlq st m err) Q w.
Proof.
  intros Hst HQ. unfold Consumer.produce_dlq. pose proof Hst as (H1&H2&Hd).
  destruct (Consumer.dlqProducer st) as [d|]; [|by apply HQ].
  apply wp_bind, wp_Produce_dlq; [done|]. intros w' r HG Hr. by apply HQ.
Qed.

(** A message is committed only once its event has been notified, and the events before it. *)
Lemma pre_commit st off m w :
  reading st (Some off) w -> entries_of topic w !! pl_offset off = Some (pl_partition off, m) ->
  event_of m ∈ notified w ->
  pre topic max_attempts from_first (OKafka (KCommit (c_r (Consumer.consumer st)) off)) w.
Proof. destruct off as [p i]. intros Hr Hm Hn _. by eapply reading_read. Qed.

Lemma wp_consumer_shutdown st w : wps (Consumer.shutdown st) (fun _ _ => True) w.
Proof.
  assert (Hc : forall w, wps (_ ← CloseConsumer (Consumer.consumer st); mret ()) (fun _ _ => True) w).
  { intros w'. apply wp_skip; [done|]. by intros w'' r _. }
  apply wp_bind. destruct (Consumer.dlqProducer st) as [d|]; [|apply Hc].
  apply wp_bind, wp_Close. intros w1 r1 _. apply Hc.
Qed.

Lemma wp_commit_dead st off m evType (Q : unit -> world -> Prop) w :
  valid_utf8 evType = true -> reading st (Some off) w ->
  entries_of topic w !! pl_offset off = Some (pl_partition off, m) -> event_of m ∈ notified w ->
  (forall w', grows w w' -> Q () w') ->
  wps (Consumer.commit_dead st off evType) Q w.
Proof.
  intros Hty Hr Hm Hn HQ. apply wp_op. intros w1 HG1 HI1. ops.
  split; [eapply pre_commit; [by eapply reading_grows|by eapply entry_grows|by eapply notified_grows]|].
  intros ch _ HG2. assert (Hinc : forall w3, grows w w3 ->
    wps (Inc "notify_processed_total" [evType; "dead"]) Q w3).
  { intros w3 HG3. apply wp_skip; [intros; sample NotifyMetrics.processed; by rewrite Hty|].
    intros w4 [] HG4. apply HQ. by etrans. }
  destruct (exec ch w1 _).2 as [u|err]; ops; [|by apply Hinc].
  apply wp_bind, wp_committed. intros w3 HG3. apply Hinc. by etrans.
Qed.

Lemma wp_handle_turn st off m evType attempt w :
  consumer_ok st -> reading st (Some off) w -> handling off m attempt w -> valid_utf8 evType = true ->
  wps (Consumer.handle_turn cfg st off m evType attempt) next_pc_good w.
Proof.
  intros Hst Hrd Hh Hev. unfold Consumer.handle_turn. apply wp_bind. eapply wp_handleMessage; [done..|].
  intros w1 [err ev att] HG1 Hh1. simpl. destruct err as [err|].
  - intros [Hc Hcv] Hty. apply wp_skip; [intros; sample NotifyMetrics.errTotal; by rewrite Hty, Hcv|].
    intros w2 r2 HG2. ops.
    rewrite bool_decide_false by done. pose proof (handling_grows _ _ _ _ _ HG2 Hh1) as Hh2.
    destruct (_ && _) eqn:E.
    + apply andb_prop in E as [H0 Hle]. bool_props. simpl in Hle, Hh2.
      apply wp_bind, wp_produce_dlq; [done|]. intros w3 st3 HG3 Hst3 Hc3.
      pose proof (handling_grows _ _ _ _ _ HG3 Hh2) as Hh3.
      assert (Hn3 : event_of m ∈ notified w3) by (apply (hd_attempt _ _ _ _ Hh3); lia).
      apply wp_op. intros w4 HG4 HI4. ops. split.
      { intros u Hu. destruct (hd_names _ _ _ _ Hh3) as (env&He&Hue&_).
        unfold Consumer.extractEventID in Hu. unfold event_of in Hn3. rewrite He in Hu, Hn3.
        simpl in Hu, Hn3. assert (u = env_EventID env) as -> by congruence.
        by eapply notified_grows. }
      intros ch _ HG5. match goal with |- wp _ _ _ ?w5 =>
        change (wps (Consumer.commit_dead st3 off ev;; mret (Some (Consumer.PcFetch st3)))
                    next_pc_good w5) end.
      match goal with |- wp _ _ _ ?w5 => set (w6 := w5) in * end.
      assert (HG15 : grows w w6) by later.
      assert (HG35 : grows w3 w6) by exact HG5.
      assert (Hr6 : reading st3 (Some off) w6).
      { unfold reading. rewrite Hc3. exact (reading_grows _ _ _ _ HG15 Hrd). }
      pose proof (entry_grows _ _ _ _ HG35 (hd_at _ _ _ _ Hh3)) as He6.
      pose proof (notified_grows _ _ _ HG35 Hn3) as Hn6.
      apply wp_bind. eapply wp_commit_dead; [done..|]. intros w7 HG7. split; [done|].
      eapply reading_grows; [done|]. destruct off. by eapply reading_handled.
    + apply wp_skip; [done|]. intros w3 [] HG3.
      { apply wp_bind. eapply wp_mono; [|apply wp_consumer_shutdown]. done. }
      split; [done|]. split; [eapply reading_grows; [|done]; later|].
      split; [by eapply handling_grows|done].
  - intros Hn Hty. apply wp_skip; [intros; sample NotifyMetrics.processed; by rewrite Hty|]. intros w2 r2 HG2. apply wp_op. intros w3 HG3 HI3. ops.
    assert (HG13 : grows w1 w3) by by etrans.
    assert (HG03 : grows w w3) by by etrans.
    pose proof (reading_grows _ _ _ _ HG03 Hrd) as Hr3.
    pose proof (entry_grows _ _ _ _ HG13 (hd_at _ _ _ _ Hh1)) as He3.
    pose proof (notified_grows _ _ _ HG13 Hn) as Hn3.
    split; [by eapply pre_commit|].
    intros ch _ HG4. destruct (exec ch w3 _).2 as [u|e]; ops.
    + apply wp_skip; [intros; by sample NotifyMetrics.committed|]. intros ???. ops.
      apply wp_skip; [done|]. intros ???. ops.
      apply wp_skip; [intros; by gauge NotifyMetrics.lastProcessedUnix|].
      intros w7 ? HG7. ops. split; [done|]. assert (HG17 : grows w1 w7) by later.
      assert (HG07 : grows w w7) by later. pose proof (hd_at _ _ _ _ Hh1) as He. destruct off.
      exact (reading_handled _ _ _ _ _ (reading_grows _ _ _ _ HG07 Hrd)
               (entry_grows _ _ _ _ HG17 He) (notified_grows _ _ _ HG17 Hn)).
    + do 2 (apply wp_skip; [done|]; intros ???; ops). by apply reopened_ok.
Qed.

(** What a reader delivers comes next in its partition: all before it has been read. *)
Lemma position_read rd p i f n w :
  inv w -> rd_Topic rd = topic -> (from_first = true -> rd_StartOffset rd = FirstOffset) ->
  (forall fn, rd_position rd !! p = Some fn -> read_range topic from_first p fn w) ->
  (i < length (entries_of topic w))%nat ->
  position (w_broker w) rd p i = (f, n) -> read_range topic from_first p (f, n) w.
Proof.
  intros HI Ht Hff Hpos Hi. unfold position. rewrite Ht.
  destruct (rd_position rd !! p) as [fn|]; [by intros ->; apply Hpos|].
  destruct (br_committed _ !! _) as [fn|] eqn:Hc; [by intros ->; eapply inv_committed|].
  case_match eqn:Hs; intros [= <- <-]; bool_props.
  - split; [simpl; lia|]. split; [intros j m [??]; simpl in *; lia|done].
  - split; [simpl; lia|]. split; [intros j m [??]; simpl in *; lia|]. intros H. by rewrite Hff in Hs.
Qed.

Lemma none_between_covered p f n i w :
  read_range topic from_first p (f, n) w -> (n <= i)%nat -> (i < length (entries_of topic w))%nat ->
  none_between (entries_of topic w) p n i = true -> read_range topic from_first p (f, i) w.
Proof.
  intros (Hlen&Hcov&Hff) Hni Hi Hnone. split; [simpl; lia|]. split; [|done].
  intros j m [Hfj Hji] Hj. simpl in *. destruct (decide (j < n)%nat) as [Hn|Hn].
  { by apply (Hcov j). }
  unfold none_between in Hnone. rewrite forallb_forall in Hnone.
  specialize (Hnone (p, m)). simpl in Hnone. rewrite bool_decide_true in Hnone by done.
  discriminate Hnone. apply list_elem_of_In, list_elem_of_lookup. exists (j - n)%nat.
  rewrite lookup_drop, lookup_take_lt by lia. rewrite <- Hj. f_equal. lia.
Qed.

Lemma fetch_reads st rebalanced i c at_ m w :
  inv w -> consumer_ok st -> reading st None w ->
  fetch (w_broker w) (c_r (Consumer.consumer st)) rebalanced i = Ok (c, at_, m) ->
  let st' := Consumer.set_consumer st (MkConsumer c (c_cfg (Consumer.consumer st))) in
  consumer_ok st' /\ reading st' (Some at_) w /\
  entries_of topic w !! pl_offset at_ = Some (pl_partition at_, m).
Proof.
  intros HI ((Ht&Hct)&Hff&Hd) [Hrd _]. unfold fetch. cbv zeta.
  set (rd := if rebalanced then _ else _).
  assert (Hrt : rd_Topic rd = topic) by (by unfold rd; destruct rebalanced).
  assert (Hrs : rd_StartOffset rd = rd_StartOffset (c_r (Consumer.consumer st)))
    by (by unfold rd; destruct rebalanced).
  assert (Hpos : forall p fn, rd_position rd !! p = Some fn -> read_range topic from_first p fn w).
  { unfold rd. destruct rebalanced; [done|]. intros p fn Hp. by apply (Hrd p fn). }
  clearbody rd. rewrite Hrt. destruct (entries (w_broker w) topic !! i) as [[p m']|] eqn:Hm; [|done].
  destruct (position _ rd p i) as [f n] eqn:Hp. destruct (_ && _) eqn:E; [|done].
  apply andb_prop in E as [Hni%Nat.leb_le Hnone]. intros [= <- <- <-].
  pose proof (lookup_lt_Some _ _ _ Hm) as Hi.
  split; [|split; [split|done]].
  - split; [done|]. split; [|done]. intros H. simpl. rewrite Hrs. by apply Hff.
  - intros p' fn. simpl. rewrite lookup_insert. case_decide; [by subst|]. intros Hp' _. by apply Hpos.
  - exists f. simpl. rewrite lookup_insert_eq. split; [done|].
    apply (none_between_covered _ _ n); [|lia|done|done].
    apply (position_read rd _ i); [done|done| |by apply Hpos|done|done].
    intros H. rewrite Hrs. by apply Hff.
Qed.

Lemma wp_fetch_turn st w :
  consumer_ok st -> reading st None w -> wps (Consumer.fetch_turn st) next_pc_good w.
Proof.
  intros Hst Hrd. apply wp_skip; [done|]. intros w1 [] HG1.
  { apply wp_bind. eapply wp_mono; [|apply wp_consumer_shutdown]. done. }
  ops.
  apply wp_bind, wp_op. intros w2 HG2 HI2. split; [done|]. intros ch HI3 HG3. ops.
  destruct (exec ch w2 _).2 as [[[c off] m]|err] eqn:E; apply wp_ret; cbv beta iota.
  - apply wp_skip; [intros; by sample NotifyMetrics.fetched|]. intros w4 r4 HG4.
    pose proof (kafka_exec_ok ch (w_broker w2) (KFetch (c_r (Consumer.consumer st))
                  Consumer.fetchTimeout) (c, off, m) E) as Hf.
    unfold kafka_call in Hf. injection Hf as Hb Hf.
    assert (HG02 : grows w w2) by by etrans.
    destruct (fetch_reads _ _ _ _ _ _ _ HI2 Hst (reading_grows _ _ _ _ HG02 Hrd) Hf) as (Hst'&Hrd'&He).
    assert (HG24 : grows w2 w4).
    { etrans; [|exact HG4]. apply kafka_grows. }
    split; [exact Hst'|]. split; [exact (reading_grows _ _ _ _ HG24 Hrd')|]. split; [|done].
    eapply handling_grows; [exact HG24|]. split; [exact He| |lia].
    apply log_names_event; [done|]. by eapply entry_in_log.
  - destruct (_ || _).
    + case_match; [|split; [exact Hst|]; eapply reading_grows; [|exact Hrd]; by etrans].
      apply wp_skip; [done|]. intros w4 now HG4. ops.
      apply wp_bind. case_match.
      * apply wp_bind, wp_Reopen. intros w5 HG5. apply wp_skip; [done|]. intros w6 t HG6.
        apply wp_skip; [done|]. intros w7 u HG7. by apply reopened_ok.
      * apply wp_skip; [done|]. intros w5 u HG5. split; [exact Hst|].
        eapply reading_grows; [|exact Hrd]. later.
    + apply wp_skip; [done|]. intros w4 [] HG4; [split; [exact Hst|]; eapply reading_grows; [|exact Hrd]; later|]. ops.
      apply wp_bind, wp_Reopen. intros w5 HG5. apply wp_skip; [done|]. intros w6 t HG6.
      apply wp_skip; [done|]. intros w7 u HG7. by apply reopened_ok.
Qed.

Lemma wp_consumer_turn pc w :
  pc_good pc w -> wps (Consumer.consumer_turn cfg pc) next_pc_good w.
Proof.
  destruct pc as [st|st off m ty n]; [intros [Hst Hr]; by apply wp_fetch_turn|].
  intros (?&?&?&?). by apply wp_handle_turn.
Qed.
End Consumer.

(** ** HTTP requests *)

Definition stored (t : Ticket) (w : world) : Prop := w_tickets w !! t_ID t = Some t.

Lemma insert_ticket_ok now t d tx out :
  insert_ticket (MkTx now [] []) t d = Ok (tx, out) ->
  tx = MkTx now [out] [] /\ text_ok (t_ID out) = true.
Proof.
  unfold insert_ticket. destruct (_ && _ && _ && _) eqn:E; [|done].
  destruct (_ || _); [done|]. intros [= <- <-]. bool_props. done.
Qed.

Lemma insert_outbox_ok uuid now out p d d' tx rid :
  text_ok (t_ID out) = true -> PostgresLaws PG ->
  marshal_payload (MkTicketPayload (t_ID out) (t_Title out) (t_Status out) (t_CreatedAt out) rid)
    = Ok p ->
  insert_outbox uuid (MkTx now [out] []) "ticket" (t_ID out) EventTypeTicketCreated p d
    = (d', Ok tx) ->
  tx_ok tx /\ tx_tickets tx = [out].
Proof.
  intros Hid PL Hp. unfold insert_outbox. rewrite Hid, andb_true_r.
  destruct (text_ok "ticket") eqn:H1; [|done].
  destruct (text_ok EventTypeTicketCreated) eqn:H2; [|done]. simpl.
  destruct (jsonb_in p) as [pl|] eqn:Hj; [|by destruct (uuid_in uuid)].
  destruct (uuid_in uuid) as [u|] eqn:Hu; [|done].
  case_match; [done|]. intros [= _ <-]. split; [|done].
  eexists out, _, _. split; [done|]. split; [done|]. simpl.
  split; [by repeat split; simpl; eauto|]. split; [done|]. split; [apply fresh_row_wf|].
  eauto using uuid_in_canonical.
Qed.

Lemma commit_stores tx out d d' :
  tx_ok tx -> tx_tickets tx = [out] -> commit_tx tx d = (d', Ok ()) ->
  db_tickets d' !! t_ID out = Some out.
Proof.
  intros _ Ht. unfold commit_tx. destruct (tx_conflicts tx d); [done|].
  intros [= <-]. simpl. rewrite Ht. simpl. apply lookup_insert_eq.
Qed.

Section Requests.
Context {PL : PostgresLaws PG}.

Lemma wp_rollback {A} tx err (Q : result A -> world -> Prop) w :
  (forall w', Q (Err err) w') -> wps (PostgresStore.rollback tx err) Q w.
Proof. intros HQ. apply wp_skip; [done|]. intros w' r HG. apply HQ. Qed.

Lemma wp_Create_safe rid t (Q : result Ticket -> world -> Prop) w :
  (forall w' err, Q (Err err) w') -> (forall w' out, stored out w' -> Q (Ok out) w') ->
  wps (PostgresStore.Create rid t) Q w.
Proof.
  intros HE HQ. apply wp_op. intros w1 HG1 HI1. split; [done|]. intros ch1 _ _. ops.
  destruct (exec ch1 w1 _).2 as [tx1|err] eqn:E1; [|by apply HE].
  apply ticket_exec_ok in E1. injection E1 as _ <-.
  apply wp_op. intros w2 HG2 HI2. split; [done|]. intros ch2 _ _. ops.
  destruct (exec ch2 w2 _).2 as [[tx2 out]|err] eqn:E2; [|by apply wp_rollback].
  apply ticket_exec_ok in E2. injection E2 as _ E2. apply insert_ticket_ok in E2 as [-> Hid].
  destruct (marshal_payload _) as [p|err] eqn:Hp; [|by apply wp_rollback].
  apply wp_op. intros w3 HG3 HI3. split; [done|]. intros ch3 _ _. ops.
  destruct (exec ch3 w3 _).2 as [tx3|err] eqn:E3; [|by apply wp_rollback].
  apply ticket_exec_ok in E3. destruct (insert_outbox_ok _ _ _ _ _ _ _ _ Hid PL Hp E3) as [Htx Ht].
  apply wp_op. intros w4 HG4 HI4. split; [done|]. intros ch4 _ _. ops.
  destruct (exec ch4 w4 _).2 as [[]|err] eqn:E4; [|by apply HE].
  apply ticket_exec_ok in E4. apply HQ. by eapply commit_stores.
Qed.

Definition response_ok (rs : response) (w : world) : Prop :=
  forall t, rs_body rs = PTicket t -> stored t w.

Lemma wp_CreateTicket_safe r w : wps (CreateTicket r) response_ok w.
Proof.
  unfold CreateTicket. destruct (negb _); [done|].
  destruct (decode_request _) as [[req rest]|err]; [|done].
  destruct (negb _); [done|]. destruct (Validate req) as [err|]; [done|].
  do 3 (apply wp_skip; [done|]; intros ? ? ?; ops).
  apply wp_bind, wp_Create_safe; [done|]. by intros w4 out Ho t [= <-].
Qed.

Lemma wp_GetTicket_safe r id w : wps (GetTicket r id) response_ok w.
Proof.
  unfold GetTicket. destruct (negb _); [done|]. case_bool_decide; [done|].
  apply wp_bind, wp_op. intros w1 HG1 HI1. split; [done|]. intros ch HI2 HG2. ops.
  destruct (exec ch w1 _).2 as [t|err] eqn:E; ops.
  - apply ticket_exec_ok in E. intros t' [= <-].
    unfold ticket_stmt in E. destruct (text_ok _); [|done].
    destruct (db_tickets (w_db w1) !! _) as [t'|] eqn:Ht; [|done].
    injection E as Hn ->. unfold stored, w_tickets, exec; simpl. rewrite <- Hn.
    destruct (inv_ticket _ _ _ _ HI1 _ _ Ht) as [-> _]. done.
  - destruct (errors_Is err ErrNoRows); [done|].
    apply wp_ret. by destruct (errors_Is err ErrNotFound).
Qed.

Definition answer_ok (a : answer) (w : world) : Prop :=
  match a with Answer rs => response_ok rs w | _ => True end.

Lemma answer_ok_grows a w w' : grows w w' -> answer_ok a w -> answer_ok a w'.
Proof. intros HG. destruct a as [rs| |]; [|done..]. intros H t Ht. eapply tickets_kept; [done|by apply H]. Qed.

Lemma wp_answer p w :
  wps p response_ok w -> wps (rs ← p; mret (Answer rs)) answer_ok w.
Proof. intros H. apply wp_bind. eapply wp_mono; [|exact H]. intros rs w' Hrs. by apply wp_ret. Qed.

(** Every route answers with stored tickets only, and so does what wraps the mux. *)
Lemma wp_mux_safe ht r holder w :
  wps (mux (Some ping) promhttp ht r holder) (fun ah w' => answer_ok ah.1 w') w.
Proof.
  assert (Hret : forall rs (h : option string) w', (forall t, rs_body rs <> PTicket t) ->
    wps (mret (Answer rs, h)) (fun ah w' => answer_ok ah.1 w') w').
  { intros rs h w' Hrs. apply wp_ret. intros t Ht. by destruct (Hrs t). }
  unfold mux. case_bool_decide; [by apply Hret|].
  destruct (findHandler ht) as [[]|path|]; try by apply Hret.
  - apply wp_bind, wp_skip; [done|]. intros w1 [[]|err] HG1; by apply Hret.
  - apply wp_bind. eapply wp_mono; [|apply wp_answer, wp_CreateTicket_safe].
    intros a w' Ha. by apply wp_ret.
  - apply wp_bind. unfold ticket_handler. cbv zeta. destruct (_ || _); [by apply Hret|].
    eapply wp_mono; [|apply wp_answer, wp_GetTicket_safe]. intros a w' Ha. by apply wp_ret.
  - by apply wp_ret.
Qed.

Lemma wp_WithLabelValues m labels rest w :
  m ∈ HttpMetrics.metrics -> mt_kind m <> MGauge ->
  (forall w', grows w w' -> wps rest answer_ok w') ->
  wps (WithLabelValues m labels rest) answer_ok w.
Proof.
  intros Hm Hk H. unfold WithLabelValues. destruct (label_values_ok m labels) eqn:E; [|by apply wp_ret].
  apply wp_skip.
  - intros w1. exists m. split; [|done]. apply elem_of_app. right. apply elem_of_app. by left.
  - intros w1 r HG1. by apply H.
Qed.

Lemma wp_Middleware_safe r next w :
  (forall holder w, wps (next holder) (fun ah w' => answer_ok ah.1 w') w) ->
  wps (Middleware r next) answer_ok w.
Proof.
  intros Hn. unfold Middleware. case_bool_decide.
  - apply wp_bind. eapply wp_mono; [|apply Hn]. intros [a h] w1 Ha. by apply wp_ret.
  - apply wp_skip; [done|]. intros w1 start HG1. apply wp_bind. eapply wp_mono; [|apply Hn].
    intros [a h] w2 Ha. simpl in Ha. destruct (aborted a); [by apply wp_ret|].
    apply wp_skip; [done|]. intros w3 now HG3.
    cbv zeta. apply wp_WithLabelValues; [in_list|done|]. intros w4 HG4.
    apply wp_WithLabelValues; [in_list|done|]. intros w5 HG5.
    assert (Hend : forall w', grows w2 w' -> wps (mret a) answer_ok w').
    { intros w' HG. apply wp_ret. by eapply answer_ok_grows. }
    assert (HG : grows w2 w5) by (etrans; [exact HG3|]; by etrans).
    destruct (500 <=? status_of a); [|by apply Hend].
    apply wp_skip; [intros; by sample HttpMetrics.req5xxTotal|]. intros w6 u HG6. apply Hend. by etrans.
Qed.

Lemma wp_ticket_service ht w : wps (ticket_service ht) (fun ra w' => answer_ok ra.2 w') w.
Proof.
  unfold ticket_service, ServeHTTP, RequestID.
  assert (Hrest : forall rid w1, wps (a ← AccessLog (Middleware
      (Request (ht_Method ht) (ht_Path ht) (ht_Body ht) rid)
      (mux (Some ping) promhttp ht (Request (ht_Method ht) (ht_Path ht) (ht_Body ht) rid)));
    mret (rid, a)) (fun ra w' => answer_ok ra.2 w') w1).
  { intros rid w1. apply wp_bind. unfold AccessLog. apply wp_skip; [done|]. intros w2 start HG2.
    apply wp_bind. eapply wp_mono; [|apply wp_Middleware_safe; intros; apply wp_mux_safe].
    intros a w3 Ha. assert (Hend : forall w4, grows w3 w4 -> wps (mret (rid, a)) (fun ra w' => answer_ok ra.2 w') w4).
    { intros w4 HG4. apply wp_ret. exact (answer_ok_grows a _ _ HG4 Ha). }
    destruct (aborted a); [apply wp_ret, wp_ret; exact I|].
    apply wp_skip; [intros; exact I|]. intros w4 now HG4. apply wp_ret, Hend, HG4. }
  apply wp_bind. case_bool_decide; [|by apply wp_ret].
  apply wp_skip; [done|]. intros w1 r HG1. by apply wp_ret.
Qed.

Lemma wp_SendResponse rid a w : answer_ok a w -> wps (SendResponse rid a) (fun _ _ => True) w.
Proof.
  intros Ha. apply wp_op. intros w1 HG1 HI1. split; [|done]. intros rs t -> Ht.
  eapply tickets_kept; [done|]. by apply Ha.
Qed.
End Requests.

(** The metrics servers answer texts only. *)
Lemma wp_metrics_server ht w : wps (metrics_server ping promhttp ht) answer_ok w.
Proof.
  assert (Ht : forall n s w, wps (mret (Answer (Response n (PText s)))) answer_ok w) by done.
  unfold metrics_server. case_bool_decide; [apply Ht|].
  destruct (find_in match_monitor ht) as [[]|path|]; try apply Ht; [|done].
  apply wp_bind, wp_bind. apply wp_skip; [intros; exact I|]. intros w1 r _.
  apply wp_ret, wp_ret. cbv beta. destruct (err_of (prj_ans QPing r)); apply Ht.
Qed.

(** ** Setting the metrics up *)

Lemma wp_create_samples samples w :
  (forall s, s ∈ samples -> sample_of declared s.1 s.2) ->
  wps (create_samples samples) (fun _ _ => True) w.
Proof.
  intros Hs. unfold create_samples. eapply wp_mono; [|apply (wp_for_fold _ _ _ _
    (fun xs _ _ => forall s, s ∈ xs -> sample_of declared s.1 s.2))]; [done|done|].
  intros s xs [] w' Hxs. apply wp_skip; [intros; apply Hxs; by left|].
  intros w2 r _ s' Hs'. apply Hxs. by right.
Qed.

Lemma wp_setup p init w : setup p = Some init -> wps init (fun _ _ => True) w.
Proof.
  destruct p as [cfg ps|cfg pc|ht|ht| |p]; cbn [setup]; [| |by intros [= <-]..].
  - unfold OutboxMetrics.NewMetrics. change (MustRegister [] OutboxMetrics.metrics) with (Some OutboxMetrics.metrics).
    cbn [mbind option_bind fmap option_fmap option_map snd for_fold].
    intros H. apply Some_inj in H. subst init. apply wp_bind. eapply wp_mono; [|apply wp_create_samples]; [by intros|].
    intros s Hs. cbn [map] in Hs.
    repeat apply elem_of_cons in Hs as [->|Hs]; [..|by apply elem_of_nil in Hs].
    + by sample OutboxMetrics.PublishedTotal.
    + by sample OutboxMetrics.FailedTotal.
    + by sample OutboxMetrics.DeadTotal.
  - unfold NotifyMetrics.NewMetrics. destruct (MustRegister _ _) as [reg|]; [|done].
    cbn [mbind option_bind fmap option_fmap option_map snd].
    intros H. apply Some_inj in H. subst init.
    apply wp_create_samples. intros s Hs.
    repeat apply elem_of_cons in Hs as [->|Hs]; [..|by apply elem_of_nil in Hs].
    + by sample NotifyMetrics.processed.
    + by sample NotifyMetrics.processed.
    + by sample NotifyMetrics.errTotal.
    + by sample NotifyMetrics.errTotal.
Qed.

(** ** Every process *)

Fixpoint good (p : process) (w : world) : Prop :=
  match p with
  | PRelay cfg ps => Relay.maxAttempts cfg = max_attempts /\ producers_ok topic ps
  | PConsumer _ pc => pc_good pc w
  | PServe _ | PMonitor _ | PWriter => True
  | PMain p => good p w
  end.

Lemma good_grows p w w' : grows w w' -> good p w -> good p w'.
Proof.
  intros HG. induction p as [cfg ps|cfg []|ht|ht| |p IH]; simpl; try done.
  - intros []. split; [done|by eapply reading_grows].
  - intros (?&?&?&?). split; [done|]. split; [by eapply reading_grows|].
    split; [by eapply handling_grows|done].
Qed.

Lemma start_good p w : start topic max_attempts from_first p -> good p w.
Proof.
  induction p as [cfg ps|cfg [st|]|ht|ht| |p IH]; try done; try by apply IH.
  intros [Hst Hpos]. split; [done|]. split; [|done]. intros p fn. simpl in Hpos. by rewrite Hpos.
Qed.

Lemma body_follows {JL : JsonLaws J} {PL : PostgresLaws PG} p w :
  good p w -> wps (body p) (next_good good) w.
Proof.
  destruct p as [cfg ps|cfg pc|ht|ht| |p]; [unfold body, good..|cbn [body good]].
  - intros [Hm Hps]. apply wp_bind. eapply wp_mono; [|by apply wp_relay_turn].
    intros [ps'|] w' Hp; [by split|done].
  - intros Hpc. apply wp_bind. eapply wp_mono; [|by apply wp_consumer_turn].
    by intros [pc'|] w' Hp.
  - intros _. apply wp_bind. eapply wp_mono; [|by apply wp_ticket_service]. intros ra w' Hra.
    apply wp_bind. eapply wp_mono; [|by apply wp_SendResponse]. done.
  - intros _. apply wp_bind. eapply wp_mono; [|by apply wp_metrics_server]. intros a w' Ha.
    apply wp_bind. eapply wp_mono; [|by apply wp_SendResponse]. done.
  - intros _. by apply wp_skip; [|intros; apply wp_ret].
  - intros Hp. destruct (setup p) as [init|] eqn:E; [|done].
    apply wp_bind. eapply wp_mono; [|apply (wp_frame (system topic max_attempts from_first) init
      (fun _ _ => True) (good p)); [apply _|intros w1 w2; apply good_grows|exact Hp|by apply (wp_setup p)]].
    intros [] w' [_ Hp']. exact Hp'.
Qed.

Lemma inv_empty : inv empty_world.
Proof.
  split; unfold empty_world, w_outbox, w_tickets, log_of, notified, topic_log; simpl;
    try (intros *; rewrite ?lookup_empty; done).
  - intros m Hm. by apply elem_of_nil in Hm.
  - intros m Hm. by apply elem_of_nil in Hm.
  - intros m Hm. by apply elem_of_nil in Hm.
  - intros rid rs t Hm. by apply elem_of_nil in Hm.
Qed.

(** Every reachable state of the system satisfies the invariant, and every later
    one is an evolution of it. *)
Lemma reachable_ok {JL : JsonLaws J} {PL : PostgresLaws PG} s :
  reachable body (start topic max_attempts from_first) empty_world s ->
  pool_ok (system topic max_attempts from_first) good s.
Proof.
  exact (pool_sound body (start topic max_attempts from_first) (system topic max_attempts from_first) good
    (fun _ _ => I) good_grows start_good body_follows empty_world s inv_empty).
Qed.

Lemma reachable_inv {JL : JsonLaws J} {PL : PostgresLaws PG} w pl :
  reachable body (start topic max_attempts from_first) empty_world (w, pl) -> inv w.
Proof. intros Hr. by destruct (reachable_ok _ Hr). Qed.

Lemma reachable_grows {JL : JsonLaws J} {PL : PostgresLaws PG} s s' :
  reachable body (start topic max_attempts from_first) empty_world s ->
  rtc (step body (start topic max_attempts from_first)) s s' -> grows s.1 s'.1.
Proof.
  intros Hr Hs. destruct (steps_sound body (start topic max_attempts from_first) (system topic max_attempts from_first)
    good (fun _ _ => I) good_grows start_good body_follows s s') as [_ HR];
    [by apply reachable_ok|done|exact HR].
Qed.
End Follows.
