(* ===== verification/Solo.v ===== *)
(** * One process at a time

    Tools for the functional properties of one service: the environments under
    which it runs alone, and what its Kafka producers leave untouched. *)

From S2P Require Import Prelude Effects GoString Runtime Kafka Events Postgres Outbox.
From S2P Require Import Processed Ticket Handler World System Safety.
From S2P Require Relay Consumer.

Abbreviation env := (sys_op -> choice -> Prop).

(** Whatever the environment chooses. *)
Definition any : env := fun _ _ => True.

Lemma with_broker_id w : with_broker (w_broker w) w = w.
Proof. by destruct w. Qed.
Lemma with_rt_id w : with_rt (w_rt w) w = w.
Proof. by destruct w. Qed.

Lemma any_producer p : producer_on (fun _ => True) p.
Proof. done. Qed.

Lemma exec_notify {PG : Postgres} ch w o :
  exec ch w (ONotify o : op sys_sig) =
    (with_processed (notify_next ch (w_processed w) o) w, (notify_exec ch (w_processed w) o).2).
Proof. done. Qed.

Lemma exec_kafka {PG : Postgres} ch w o :
  exec ch w (OKafka o : op sys_sig) =
    (with_broker (kafka_next ch (w_broker w) o) w, (kafka_exec ch (w_broker w) o).2).
Proof. done. Qed.

Lemma exec_runtime {PG : Postgres} ch w o :
  exec ch w (ORuntime o : op sys_sig) =
    (with_rt (runtime_exec ch (w_rt w) o).1 w, (runtime_exec ch (w_rt w) o).2).
Proof. done. Qed.

(** Show the state and the answer of a call. *)
Ltac calls := ops; rewrite ?exec_notify, ?exec_kafka, ?exec_runtime; cbn [fst snd runtime_exec].

Section Producers.
Context {UT : UnicodeTables} {PG : Postgres}.

(** ** What a producer calls *)

(** The calls of a producer whose writers are on topics that satisfy [ok]. *)
Definition produces (ok : string -> Prop) (o : sys_op) : Prop :=
  match o with
  | OKafka (KWrite wr _ _) => ok (wr_Topic wr)
  | OKafka (KCloseWriter _) | ORuntime RNow => True
  | _ => False
  end.

Lemma only_resetOnce ok p :
  producer_on ok p -> only (produces ok) (producer_on ok) (resetOnce (S := sys_sig) p).
Proof.
  intros Hp. split; [done|]. intros now. simpl. case_match; [done|].
  assert (Hnew : forall n, producer_on ok (MkProducer (Some (newWriter (p_cfg p))) (p_cfg p) n)).
  { intros n. destruct Hp as [Hc _]. split; [done|]. by intros wr [= <-]. }
  destruct (p_w p); simpl; auto.
Qed.

Lemma only_write ok p timeout m :
  producer_on ok p -> only (produces ok) (fun _ => True) (write (S := sys_sig) p timeout m).
Proof. intros [_ Hp]. unfold write. destruct (p_w p) as [wr|]; simpl; auto. Qed.

Lemma only_Produce ok p key value timeout :
  producer_on ok p ->
  only (produces ok) (fun r => producer_on ok r.1) (Produce (S := sys_sig) p key value timeout).
Proof.
  intros Hp. unfold Produce. eapply only_bind; [by apply only_write|]. intros [e|] _; [|done].
  case_match; [|done]. eapply only_bind; [by apply only_resetOnce|]. intros p' Hp'.
  eapply only_bind; [by apply only_write|]. done.
Qed.

(** The deferred calls of [main] only close writers and the reader. *)
Lemma only_Close (P : op sys_sig -> Prop) p :
  (forall wr, P (OKafka (KCloseWriter wr))) -> only P (fun _ => True) (Close (S := sys_sig) p).
Proof. intros HP. unfold Close. destruct (p_w p); [|done]. by split. Qed.

Lemma only_relay_shutdown (P : op sys_sig -> Prop) ps :
  (forall wr, P (OKafka (KCloseWriter wr))) ->
  only P (fun _ => True) (Relay.shutdown (S := sys_sig) ps).
Proof.
  intros HP. unfold Relay.shutdown. eapply only_bind with (R := fun _ => True).
  - destruct (Relay.dlqProducer ps); [|done]. by eapply only_bind; [by apply only_Close|].
  - intros _ _. by eapply only_bind; [by apply only_Close|].
Qed.

Lemma only_consumer_shutdown (P : op sys_sig -> Prop) st :
  (forall wr, P (OKafka (KCloseWriter wr))) -> (forall r, P (OKafka (KCloseReader r))) ->
  only P (fun _ => True) (Consumer.shutdown (S := sys_sig) st).
Proof.
  intros HP HR. unfold Consumer.shutdown. eapply only_bind with (R := fun _ => True).
  - destruct (Consumer.dlqProducer st); [|done]. by eapply only_bind; [by apply only_Close|].
  - intros _ _. by split.
Qed.

(** Everything but the broker is as it was, and so are the other topics. *)
Lemma produces_frame ok o ch w :
  produces ok o ->
  let w' := (exec ch w o).1 in
  w_db w' = w_db w /\ w_rt w' = w_rt w /\ w_processed w' = w_processed w /\
  forall t, ~ ok t -> topic_log (w_broker w') t = topic_log (w_broker w) t.
Proof.
  destruct o as [| | |[wr d m|wr| | | |]|[]|]; simpl; try done; intros Hok; unfold exec; simpl.
  - repeat split. intros t Ht.
    destruct (kafka_next_cases ch (w_broker w) (KWrite wr d m)) as [-> | ->]; [done|]. simpl.
    rewrite topic_log_write, decide_False, app_nil_r; [done|]. congruence.
  - repeat split. intros t Ht.
    by destruct (kafka_next_cases ch (w_broker w) (KCloseWriter wr)) as [-> | ->].
Qed.


(** A write that is carried out, in as many copies as the writer needed. *)
Lemma wp_Produce_done (E : env) p wr key value timeout (Q : Producer * option goerr -> world -> Prop) w :
  p_w p = Some wr -> (forall d ch, E (OKafka (KWrite wr d (Message key value))) ch -> ch_out ch = Done) ->
  (forall ch, ch_out ch = Done ->
     Q (p, None) (with_broker (write_message ch (wr_Topic wr) (Message key value) (w_broker w)) w)) ->
  wp (solo E) (Produce p key value timeout) Q w.
Proof.
  intros Hw HE HQ. unfold Produce, write. rewrite Hw. apply wp_solo_vis. intros ch Hch.
  apply HE in Hch. unfold exec; simpl. unfold kafka_next, kafka_exec. rewrite Hch. by apply HQ.
Qed.
End Producers.
