(* ===== verification/Concrete.v ===== *)
(** * A concrete environment

    Executable instances of the interfaces - the JSON of Codec.v, a server that stores
    valid UTF-8, Unicode tables without foldings - and a schedule of
    the whole pipeline: they show that the hypotheses of the theorems can hold,
    and let the witnesses compute. *)

From S2P Require Import Prelude Effects GoString Utf8 Json Runtime Kafka Events Postgres Outbox.
From S2P Require Import Codec CodecLaws Processed Ticket Handler Router Metrics World System.
From S2P Require Relay Consumer.
From Stdlib Require Import Ascii.

(** ** The instances *)

(** Constant texts for the errors of encoding/json. *)
#[export] Instance concrete_texts : JsonTexts := {|
  syntax_text _ := "invalid character";
  type_text _ := "json: cannot unmarshal";
  time_text _ := "parsing time";
  unknown_text k := "json: unknown field";
  marshaler_text s := "json: error calling MarshalJSON: " +:+ s
|}.

#[export] Instance concrete_json : Json := go_json.
#[export] Instance concrete_json_laws : JsonLaws concrete_json := go_json_laws.
#[export] Instance concrete_decoder : JsonDecoder := go_decoder.

(** Text without the character 0, and JSON that does not spell it. *)
Definition concrete_text_ok (s : string) : bool :=
  valid_utf8 s && negb (bool_decide (chr 0 ∈ to_bytes s)).
Definition concrete_jsonb_in (s : string) : option string :=
  if bool_decide (is_Some (compact max_depth (to_bytes s))) && negb (Contains s "\u0000")
  then Some s else None.

#[export] Instance concrete_postgres : Postgres := {|
  uuid_in s := if valid_utf8 s && negb (bool_decide (s = "")) then Some s else None;
  jsonb_in := concrete_jsonb_in;
  text_ok := concrete_text_ok;
  pg_time t := t / 1000 * 1000
|}.

#[export] Instance concrete_postgres_laws : PostgresLaws concrete_postgres.
Proof.
  split; simpl.
  - intros s u. destruct (_ && _) eqn:E; [|done]. intros [= <-]. by rewrite E.
  - intros s u. destruct (_ && _) eqn:E; [|done]. intros [= <-]. by apply andb_true_iff in E as [? _].
  - intros s. unfold concrete_text_ok. by intros [? _]%andb_true_iff.
  - intros s p. unfold concrete_jsonb_in. destruct (_ && _); [|done]. by intros [= <-].
Qed.

#[export] Instance concrete_unicode : UnicodeTables := {|
  lower_table r := r; fold_table _ _ := false
|}.

#[export] Instance concrete_prometheus : Prometheus := {|
  metrics_page _ := (200, "# HELP"); library_collectors := [NewGauge "go_goroutines"]
|}.

(** ** A deployment *)

Definition the_topic : string := "tickets.events".

Definition a_producer (topic : string) : Producer :=
  NewProducer (MkProducerConfig ["localhost:9092"] topic "outbox-relay" (5 * Second)).

Definition a_relay : process :=
  PRelay (Relay.RelayConfig 50 (30 * Second) 10)
         (Relay.Producers (a_producer the_topic) (Some (a_producer "tickets.dlq"))).

Definition a_consumer : process :=
  PConsumer (Consumer.ConsumerCfg false "" 10)
    (Consumer.PcFetch (Consumer.CState
       (NewConsumer (MkConsumerConfig ["localhost:9092"] the_topic "notification-service" "first" 0 0))
       (Some (a_producer "tickets.dlq")) 0 zero_time)).

Definition a_body : string := of_bytes (text "{'title':'Printer is broken'}").
Definition a_request : process :=
  PServe (HttpRequest "POST" "/tickets" "/tickets" "/tickets" " r-1 " a_body).

Lemma a_producer_on (ok : string -> Prop) t : ok t -> producer_on ok (a_producer t).
Proof. split; [done|]. by intros w [= <-]. Qed.

Lemma a_relay_starts : start the_topic 10 true a_relay.
Proof. split; [done|]. split; by apply a_producer_on. Qed.
Lemma a_consumer_starts : start the_topic 10 true a_consumer.
Proof. split; [|done]. split; [done|]. split; [done|]. by apply a_producer_on. Qed.

(** A call that goes well, at the given time, drawing the given UUID. *)
Definition fine (now : Z) (uuid : string) : choice := Choice Done now [] [] uuid [] 0 false 0 0 0 false.
Definition failing (now : Z) (out : outcome) : choice := Choice out now [] [] "" [] 0 false 0 0 0 false.

(** A ticket is created, published and notified. *)
Definition pipeline : list (directive (N := process)) :=
  [DStart 0 a_request] ++ replicate 5 (DRun 0 (fine 1000 "t-1"))
  ++ replicate 10 (DRun 0 (fine 2000 "e-1"))
  ++ [DStart 1 a_relay] ++ replicate 8 (DRun 1 (fine 3000 ""))
  ++ [DStart 2 a_consumer] ++ replicate 12 (DRun 2 (fine 4000 "")).

Definition run_schedule (ds : list (directive (N := process))) : world * pool :=
  foldl (follow body) (empty_world, ∅) ds.

Lemma schedule_reachable ds :
  Forall (may_start (start the_topic 10 true)) ds ->
  reachable body (start the_topic 10 true) empty_world (run_schedule ds).
Proof. apply follow_steps. Qed.

Lemma pipeline_starts : Forall (may_start (start the_topic 10 true)) pipeline.
Proof. repeat (constructor; [by (apply a_relay_starts || apply a_consumer_starts || exact I)|]). constructor. Qed.

Definition pipeline_world : world := (run_schedule pipeline).1.

Example pipeline_log : length (log_of the_topic pipeline_world) = 1%nat.
Proof. vm_compute. reflexivity. Qed.
Example pipeline_notified : notified pipeline_world = ["e-1"].
Proof. vm_compute. reflexivity. Qed.
Example pipeline_committed : br_committed (w_broker pipeline_world) =
  {[ (the_topic, "notification-service", 0%nat) := (0, 1)%nat ]}.
Proof. apply (bool_decide_unpack _). vm_compute. exact I. Qed.

Lemma pipeline_reachable :
  reachable body (start the_topic 10 true) empty_world (pipeline_world, (run_schedule pipeline).2).
Proof.
  unfold pipeline_world. rewrite <- surjective_pairing.
  apply schedule_reachable, pipeline_starts.
Qed.

(** *** What the run leaves in the tables *)

Definition the_payload : string :=
  of_bytes (text "{'created_at':'1970-01-01T00:00:00.000001Z','request_id':'r-1','status':'open','ticket_id':'t-1','title':'Printer is broken'}").
Definition the_row : row :=
  Row "e-1" "ticket" "t-1" "ticket.created" the_payload "sent" 2000 (Some 3000) None
      1 2000 None 3000 None.
Definition the_ticket : Ticket := MkTicket "t-1" "Printer is broken" "" "open" 1000 1000.

Definition the_processed : prow :=
  PRow "ticket.created" "ticket" "t-1" the_payload "done" 1 4000 4000 (Some 4000) None None.

(** A relay with one attempt whose writes are refused. *)
Definition an_impatient_relay : process :=
  PRelay (Relay.RelayConfig 50 (30 * Second) 1)
         (Relay.Producers (a_producer the_topic) (Some (a_producer "tickets.dlq"))).

Definition refused : choice := failing 3000 (Refused (EMsg "no space left")).

Definition exhausted : list (directive (N := process)) :=
  [DStart 0 a_request] ++ replicate 5 (DRun 0 (fine 1000 "t-1"))
  ++ replicate 10 (DRun 0 (fine 2000 "e-1"))
  ++ [DStart 1 an_impatient_relay] ++ replicate 5 (DRun 1 (fine 3000 ""))
  ++ [DRun 1 refused] ++ replicate 3 (DRun 1 (fine 4000 "")).

Definition exhausted_world : world := (run_schedule exhausted).1.

Lemma exhausted_reachable :
  reachable body (start the_topic 1 true) empty_world (exhausted_world, (run_schedule exhausted).2).
Proof.
  unfold exhausted_world. rewrite <- surjective_pairing. apply follow_steps.
  repeat (constructor; [first [exact I | split; [done|]; split; by apply a_producer_on]|]).
  constructor.
Qed.

Definition the_failed_row : row :=
  Row "e-1" "ticket" "t-1" "ticket.created" the_payload "failed" 2000 None None
      1 2000 (Some "kafka: no space left") 4000 (Some 4000).

(** The pipeline a moment earlier, before the relay runs. *)
Definition early : world * pool := run_schedule (take 17 pipeline).

Lemma early_reachable :
  reachable body (start the_topic 10 true) empty_world (early.1, early.2).
Proof.
  rewrite <- surjective_pairing. apply schedule_reachable.
  apply Forall_take, pipeline_starts.
Qed.

Lemma early_later :
  rtc (step body (start the_topic 10 true)) (early.1, early.2)
      (pipeline_world, (run_schedule pipeline).2).
Proof.
  unfold pipeline_world. rewrite <- !surjective_pairing.
  assert (H : run_schedule pipeline = foldl (follow body) early (drop 17 pipeline)).
  { unfold early, run_schedule. by rewrite <- foldl_app, take_drop. }
  rewrite H. apply follow_steps. apply Forall_drop, pipeline_starts.
Qed.
