(* ===== verification/Wiring.v ===== *)
(** * The main functions: from the environment to running processes

    internal/shared/db/postgres.go, and the [main] functions of cmd/ticket-service,
    cmd/outbox-relay and cmd/notification-service up to their loops: the settings, the
    store, the producers and the consumer, and the ways a start can fail. *)

From S2P Require Import Prelude Effects GoString Runtime Kafka Events Postgres Outbox.
From S2P Require Import Processed Ticket Handler World System Concrete.
From S2P Require Env Relay Consumer.

(** How [main] gets to its loop, or does not. *)
Inductive startup (A : Type) : Type :=
| Exit (code : Z)
| Panic (msg : string)
| Running (a : A).
Arguments Exit {A} code.
Arguments Panic {A} msg.
Arguments Running {A} a.

(** ** db/postgres.go *)

Record PostgresConfig : Type := MkPostgresConfig {
  pg_DatabaseURL : string;
  pg_MaxOpenConns : Z;
  pg_MaxIdleConns : Z;
  pg_ConnMaxLifetime : Z;
  pg_PingTimeout : Z
}.

Definition or_default (n def : Z) : Z := if n =? 0 then def else n.

(** [connect] is what [sql.Open] and the ping answer; the result is the configuration
    the pool gets. *)
Definition OpenPostgres (connect : option goerr) (cfg : PostgresConfig) : result PostgresConfig :=
  if bool_decide (pg_DatabaseURL cfg = "") then Err (EMsg "DATABASE_URL is empty")
  else match connect with
       | Some err => Err err
       | None =>
           Ok (MkPostgresConfig (pg_DatabaseURL cfg)
                 (or_default (pg_MaxOpenConns cfg) 10) (or_default (pg_MaxIdleConns cfg) 10)
                 (or_default (pg_ConnMaxLifetime cfg) (1800 * Second))
                 (or_default (pg_PingTimeout cfg) (3 * Second)))
       end.

(** The store of ticket-service. *)
Inductive storage : Type :=
| InMemory
| InPostgres (pool : PostgresConfig).

Definition dlq_of (brokers : list string) (topic clientID : string) : option Producer :=
  if bool_decide (topic = "") then None
  else Some (NewProducer (MkProducerConfig brokers topic clientID (5 * Second))).

Section Mains.
Context {UT : UnicodeTables}.

(** The address the server listens on and its store.  A database that does not answer
    makes [main] return, with status 0. *)
Definition ticket_main (file : option string) (env : Env.environment) (connect : option goerr)
    : startup (string * storage) :=
  let '(env, cfg) := Env.Load file env in
  if negb (bool_decide (Env.DatabaseURL cfg = "")) then
    match OpenPostgres connect
            (MkPostgresConfig (Env.DatabaseURL cfg) (Env.Int env "DB_MAX_OPEN_CONNS" 25)
                              (Env.Int env "DB_MAX_IDLE_CONNS" 25) 0 0) with
    | Err _ => Exit 0
    | Ok pool => Running (Env.HTTPAddr cfg, InPostgres pool)
    end
  else Running (Env.HTTPAddr cfg, InMemory).

(** The process and its poll interval. *)
Definition relay_main (file : option string) (env : Env.environment) (connect : option goerr)
    : startup (Z * process) :=
  let '(env, cfg) := Env.Load file env in
  let dbURL := Env.String env "DATABASE_URL" (Env.DatabaseURL cfg) in
  if bool_decide (dbURL = "") then Exit 2
  else
    let brokers := Env.StringsCSV env "KAFKA_BROKERS" ["localhost:9092"] in
    let topic := Env.String env "KAFKA_TOPIC" "tickets.events" in
    let clientID := Env.String env "KAFKA_CLIENT_ID" "outbox-relay" in
    let batchSize := Env.Int env "OUTBOX_RELAY_BATCH_SIZE" 50 in
    let pollInterval := Env.Duration env "OUTBOX_RELAY_POLL_INTERVAL" (500 * Millisecond) in
    let processingTimeout := Env.Duration env "OUTBOX_RELAY_PROCESSING_TIMEOUT" (30 * Second) in
    let maxAttempts := Env.Int env "OUTBOX_RELAY_MAX_ATTEMPTS" 10 in
    let dlqTopic := Env.String env "KAFKA_DLQ_TOPIC" "" in
    match OpenPostgres connect (MkPostgresConfig dbURL 0 0 0 0) with
    | Err _ => Exit 1
    | Ok _ =>
        let producer := NewProducer (MkProducerConfig brokers topic clientID (5 * Second)) in
        let dlqProducer := dlq_of brokers dlqTopic (clientID +:+ "-dlq") in
        (* time.NewTicker *)
        if pollInterval <=? 0 then Panic "non-positive interval for NewTicker"
        else Running (pollInterval,
               PMain (PRelay (Relay.RelayConfig batchSize processingTimeout maxAttempts)
                             (Relay.Producers producer dlqProducer)))
    end.

Definition notification_main (file : option string) (env : Env.environment) (connect : option goerr)
    : startup process :=
  let '(env, cfg) := Env.Load file env in
  let dbURL := Env.String env "DATABASE_URL" (Env.DatabaseURL cfg) in
  if bool_decide (dbURL = "") then Exit 2
  else
    let brokers := Env.StringsCSV env "KAFKA_BROKERS" ["localhost:9092"] in
    let topic := Env.String env "KAFKA_TOPIC" "tickets.events" in
    let groupID := Env.String env "KAFKA_GROUP_ID" "notification-service" in
    let startOffset := Env.String env "KAFKA_START_OFFSET" "last" in
    let dlqTopic := Env.String env "KAFKA_DLQ_TOPIC" "" in
    let maxAttempts := Env.Int env "NOTIFY_MAX_ATTEMPTS" 10 in
    let forceFail := Env.Bool env "NOTIFY_FORCE_FAIL" false in
    let forceFailEventType := Env.String env "NOTIFY_FORCE_FAIL_EVENT_TYPE" "" in
    match OpenPostgres connect (MkPostgresConfig dbURL 0 0 0 0) with
    | Err _ => Exit 1
    | Ok _ =>
        let consumer := NewConsumer (MkConsumerConfig brokers topic groupID startOffset 0 0) in
        let dlqProducer := dlq_of brokers dlqTopic "notification-service-dlq" in
        Running (PMain (PConsumer (Consumer.ConsumerCfg forceFail forceFailEventType maxAttempts)
                          (Consumer.PcFetch (Consumer.CState consumer dlqProducer 0 zero_time))))
    end.

(** ** What the settings guarantee *)

Definition topic_of (env : Env.environment) : string := Env.String env "KAFKA_TOPIC" "tickets.events".
Definition dlq_topic_of (env : Env.environment) : string := Env.String env "KAFKA_DLQ_TOPIC" "".
Definition relay_limit_of (env : Env.environment) : Z := Env.Int env "OUTBOX_RELAY_MAX_ATTEMPTS" 10.

Lemma NewProducer_on (ok : string -> Prop) cfg :
  ok (pc_Topic cfg) -> producer_on ok (NewProducer cfg).
Proof. intros H. split; [done|]. by intros w [= <-]. Qed.

Lemma dlq_of_on topic brokers dlq clientID :
  dlq <> topic -> dlq_on topic (dlq_of brokers dlq clientID).
Proof. intros H. unfold dlq_of. case_bool_decide; [done|]. by apply NewProducer_on. Qed.

(** The URL is read twice, the second time with the first reading as its default. *)
Lemma database_url env :
  Env.String env "DATABASE_URL" (Env.String env "DATABASE_URL" "") <> "" ->
  Env.String env "DATABASE_URL" "" <> "".
Proof. intros H Hu. rewrite Hu in H. done. Qed.

(** C30: What the main functions start is what the theorems about the whole system
    assume: the relay and the consumer come up only with a database URL and a database
    that answers, on the topic and with the limit of their settings, and they are
    processes the system may start - provided the dead letter topic is not the event
    topic; the consumer starts at the first offset when KAFKA_START_OFFSET says so, which
    its default does not; ticket-service keeps its tickets in Postgres exactly when there is a database
    URL, with a pool that is never without a limit by default. *)
Theorem mains_start_the_system file env connect :
  let env' := Env.loadDotEnv file env in
  dlq_topic_of env' <> topic_of env' ->
  (forall poll p, relay_main file env connect = Running (poll, p) ->
     connect = None /\ Env.String env' "DATABASE_URL" "" <> "" /\ 0 < poll /\
     (exists cfg ps, p = PMain (PRelay cfg ps) /\
        Relay.maxAttempts cfg = Env.Int env' "OUTBOX_RELAY_MAX_ATTEMPTS" 10) /\
     forall from_first, start (topic_of env') (relay_limit_of env') from_first p) /\
  (forall p, notification_main file env connect = Running p ->
     connect = None /\ Env.String env' "DATABASE_URL" "" <> "" /\
     (exists cfg st, p = PMain (PConsumer cfg (Consumer.PcFetch st)) /\
        Consumer.maxAttempts cfg = Env.Int env' "NOTIFY_MAX_ATTEMPTS" 10) /\
     forall limit from_first,
       (from_first = true -> EqualFold (Env.String env' "KAFKA_START_OFFSET" "last") "first" = true) ->
       start (topic_of env') limit from_first p) /\
  (forall addr st, ticket_main file env connect = Running (addr, st) ->
     match st with
     | InMemory => Env.String env' "DATABASE_URL" "" = ""
     | InPostgres pool =>
         connect = None /\ pg_DatabaseURL pool = Env.String env' "DATABASE_URL" "" /\
         pg_DatabaseURL pool <> "" /\ pg_MaxOpenConns pool <> 0 /\ 0 < pg_PingTimeout pool
     end).
Proof.
  intros env' Hd. unfold relay_main, notification_main, ticket_main, OpenPostgres, Env.Load. fold env'.
  split; [intros poll p|split; [intros p|intros addr st]];
    cbn [Env.DatabaseURL pg_DatabaseURL]; case_bool_decide as Hu; cbn [negb]; try done.
  - rewrite ?bool_decide_false by done. destruct connect; [done|].
    destruct (_ <=? 0) eqn:E; [done|]. intros [= <- <-]. bool_props. split; [done|].
    split; [by apply database_url|]. split; [done|]. split; [by eexists _, _|]. intros ff.
    split; [done|]. split; [by apply NewProducer_on|by apply dlq_of_on].
  - rewrite ?bool_decide_false by done. destruct connect; [done|]. intros [= <-]. split; [done|].
    split; [by apply database_url|]. split; [by eexists _, _|].
    intros limit ff Hff. split; [|done]. split; [done|]. split; [|by apply dlq_of_on].
    intros H. specialize (Hff H). simpl. unfold newReader; simpl. by rewrite Hff.
  - by intros [= _ <-].
  - rewrite ?bool_decide_false by done. destruct connect; [done|]. intros [= _ <-]. split; [done|].
    split; [done|]. split; [done|]. split; [|done]. simpl. unfold or_default. case_match; bool_props; lia.
Qed.

(** A poll interval of zero is accepted by the configuration and crashes the relay:
    [time.NewTicker] panics on it, after the database and the producers are open. *)
Theorem zero_poll_interval_panics file env :
  let env' := Env.loadDotEnv file env in
  Env.String env' "DATABASE_URL" "" <> "" ->
  Env.Getenv env' "OUTBOX_RELAY_POLL_INTERVAL" = "0" ->
  relay_main file env None = Panic "non-positive interval for NewTicker".
Proof.
  intros env' Hdb Hp. unfold relay_main, Env.Load. fold env'. simpl.
  assert (Hurl : Env.String env' "DATABASE_URL" (Env.String env' "DATABASE_URL" "") <> "").
  { unfold Env.String at 1. case_bool_decide; done. }
  rewrite bool_decide_false by done. unfold OpenPostgres. cbn [pg_DatabaseURL].
  rewrite bool_decide_false by done.
  assert (Hd : Env.Duration env' "OUTBOX_RELAY_POLL_INTERVAL" (500 * Millisecond) = 0).
  { unfold Env.Duration, Env.parsed. by rewrite Hp. }
  by rewrite Hd.
Qed.
End Mains.

Definition an_environment : Env.environment :=
  {[ "DATABASE_URL" := "postgres://db"; "KAFKA_DLQ_TOPIC" := "tickets.dlq" ]}.

(** The relay of these settings; the dead letter producer has a client id of its own. *)
Definition a_default_relay : process :=
  PMain (PRelay (Relay.RelayConfig 50 (30 * Second) 10)
           (Relay.Producers (a_producer the_topic)
              (Some (NewProducer (MkProducerConfig ["localhost:9092"] "tickets.dlq" "outbox-relay-dlq"
                                                   (5 * Second)))))).

Lemma mains_start_the_system_witness :
  relay_main None an_environment None =
    Running (500 * Millisecond, a_default_relay) /\ start the_topic 10 true a_default_relay.
Proof.
  assert (E : relay_main None an_environment None = Running (500 * Millisecond, a_default_relay))
    by (vm_compute; reflexivity).
  split; [exact E|].
  assert (Hd : dlq_topic_of an_environment <> topic_of an_environment) by by vm_compute.
  destruct (mains_start_the_system None an_environment None Hd) as [Hr _].
  destruct (Hr _ _ E) as (_&_&_&_&Hs). exact (Hs true).
Defined.

Definition a_busy_environment : Env.environment :=
  {[ "DATABASE_URL" := "postgres://db"; "OUTBOX_RELAY_POLL_INTERVAL" := "0" ]}.

Lemma zero_poll_interval_panics_witness :
  relay_main None a_busy_environment None = Panic "non-positive interval for NewTicker".
Proof. apply (zero_poll_interval_panics None a_busy_environment); by vm_compute. Defined.
