(* ===== verification/Lifecycle.v ===== *)
(** * The life of the HTTP server (internal/shared/httpx/shutdown.go)

    ticket-service serves until it gets a signal; [WaitAndShutdown] then calls
    [http.Server.Shutdown] with a limit of ten seconds.  The server is a state machine
    ([on]): its connections run the handler, call by call, while the goroutine of [main]
    takes its steps and other processes change the world.  Between the signal and the call
    of [Shutdown] connections are still accepted, and a connection that is open may bring a
    request until it is closed; [Shutdown] closes the listener and then polls for idleness,
    as net/http does. *)

From S2P Require Import Prelude Effects GoString GoTime Runtime Kafka Events Postgres Outbox.
From S2P Require Import Processed Ticket Handler Router World System Concrete.

(** How the process ends: [Shutdown] found the server idle, its context ended at
    [deadline], or a signal that is not handled. *)
Inductive ending : Type :=
| Drained
| TimedOut (deadline : Z)
| Killed.

(** Where the goroutine of [main] is in [WaitAndShutdown]: before [signal.NotifyContext];
    waiting for [ctx.Done()]; before [stop()]; before [context.WithTimeout]; before
    [srv.Shutdown]; in its loop, with the time of the next poll and the interval after it. *)
Inductive phase : Type :=
| Starting
| Waiting
| Notified
| Stopped
| Limited (deadline : Z)
| Draining (deadline next base : Z)
| Exited (how : ending).

(** The longest interval between two polls, before the jitter. *)
Definition shutdownPollIntervalMax : Z := 500 * Millisecond.

Section Server.
Context {S : sig} {W : Type} `{!Exec S W}.

(** A connection, as net/http's [ConnState] has it: new since a time; active, reading a
    request or running the handler of the request of the given number; or idle. *)
Inductive connection : Type :=
| StateNew (since : Z)
| Reading
| Running (request : nat) (p : prog S (string * answer))
| StateIdle.

(** Requests are numbered in the order in which their handlers begin. *)
Record server : Type := Server {
  sv_phase : phase;
  sv_listening : bool;
  sv_now : Z;
  sv_signal : option Z;
  sv_conns : gmap nat connection;
  sv_requests : list http_request;
  sv_answered : gmap nat (string * answer)
}.

Definition set_phase (p : phase) (s : server) : server :=
  Server p (sv_listening s) (sv_now s) (sv_signal s) (sv_conns s) (sv_requests s) (sv_answered s).
Definition set_signal (s : server) : server :=
  Server (sv_phase s) (sv_listening s) (sv_now s) (Some (sv_now s)) (sv_conns s) (sv_requests s) (sv_answered s).
Definition set_conns (conns : gmap nat connection) (s : server) : server :=
  Server (sv_phase s) (sv_listening s) (sv_now s) (sv_signal s) conns (sv_requests s) (sv_answered s).
Definition close_listener (s : server) : server :=
  Server (sv_phase s) false (sv_now s) (sv_signal s) (sv_conns s) (sv_requests s) (sv_answered s).
Definition elapse (d : Z) (s : server) : server :=
  Server (sv_phase s) (sv_listening s) (sv_now s + Z.max 0 d) (sv_signal s) (sv_conns s)
         (sv_requests s) (sv_answered s).

(** What can happen: time passes; on a connection, and to it; to the listener; to the
    process; and a step of the goroutine of [main]. *)
Inductive event : Type :=
| Elapse (d : Z)
| Accept (i : nat)
| FirstByte (i : nat)
| Begin (i : nat) (ht : http_request)
| RunCall (i : nat) (ch : choice)
| Reply (i : nat)
| Hangup (i : nat)
| ListenError
| Signal
| Kill
| Step
| Poll (jitter : Z)
| Expire.

(** The server's handler and the time limit of its shutdown. *)
Context (handler : http_request -> prog S (string * answer)) (timeout : Z).

Definition in_shutdown (p : phase) : bool :=
  match p with Draining _ _ _ => true | _ => false end.

(** net/http: connections are accepted while the server listens; a request is read, its
    handler runs, and its answer is sent.  A connection is then kept for another request,
    but not once [Shutdown] has been called. *)
Definition serve (e : event) (w : W) (s : server) : option (W * server) :=
  let conns := sv_conns s in
  match e with
  | Accept i =>
      match sv_listening s, conns !! i with
      | true, None => Some (w, set_conns (<[i := StateNew (sv_now s)]> conns) s)
      | _, _ => None
      end
  | FirstByte i =>
      match conns !! i with
      | Some (StateNew _) | Some StateIdle => Some (w, set_conns (<[i := Reading]> conns) s)
      | _ => None
      end
  | Begin i ht =>
      match conns !! i with
      | Some Reading =>
          Some (w, Server (sv_phase s) (sv_listening s) (sv_now s) (sv_signal s)
                     (<[i := Running (length (sv_requests s)) (handler ht)]> conns)
                     (sv_requests s ++ [ht]) (sv_answered s))
      | _ => None
      end
  | RunCall i ch =>
      match conns !! i with
      | Some (Running n (Vis o k)) =>
          let '(w, r) := exec ch w o in Some (w, set_conns (<[i := Running n (k r)]> conns) s)
      | _ => None
      end
  | Reply i =>
      match conns !! i with
      | Some (Running n (Ret ra)) =>
          Some (w, Server (sv_phase s) (sv_listening s) (sv_now s) (sv_signal s)
                     (if in_shutdown (sv_phase s) then delete i conns else <[i := StateIdle]> conns)
                     (sv_requests s) (<[n := ra]> (sv_answered s)))
      | _ => None
      end
  | Hangup i =>
      match conns !! i with
      | Some (Running _ _) | None => None
      | Some _ => Some (w, set_conns (delete i conns) s)
      end
  | _ => None
  end.

(** ** [http.Server.Shutdown] *)

(** The connections a poll closes: the idle ones, and those that have been new for more
    than five seconds, in whole seconds. *)
Definition closes (now : Z) (c : connection) : bool :=
  match c with
  | StateIdle => true
  | StateNew since => since / Second <? now / Second - 5
  | Reading | Running _ _ => false
  end.

Definition closeIdleConns (s : server) : gmap nat connection :=
  filter (fun ic => closes (sv_now s) ic.2 = false) (sv_conns s).

(** The loop of [Shutdown]: a poll returns when it leaves no connection; otherwise the
    timer is set again, with a jitter of a tenth, and the interval is doubled. *)
Definition Shutdown (deadline next base jitter : Z) (s : server) : option server :=
  if next <=? sv_now s then
    let conns := closeIdleConns s in
    if bool_decide (conns = ∅) then Some (set_phase (Exited Drained) (set_conns conns s))
    else
      let interval := base + jitter mod (base / 10) in
      Some (set_phase (Draining deadline (sv_now s + interval) (Z.min (2 * base) shutdownPollIntervalMax))
                      (set_conns conns s))
  else None.

(** [WaitAndShutdown], to whose return [main] adds only its own: a step of its goroutine, and
    what a signal does in each of its phases.  The first poll of [Shutdown] is at once. *)
Definition WaitAndShutdown (e : event) (s : server) : option server :=
  match sv_phase s, e with
  | Starting, Step => Some (set_phase Waiting s)
  | Starting, Signal => Some (set_phase (Exited Killed) s)
  | Waiting, Signal => Some (set_phase Notified (set_signal s))
  | Notified, Signal => Some s
  | Notified, Step => Some (set_phase Stopped s)
  | Stopped, Step => Some (set_phase (Limited (sv_now s + timeout)) s)
  | Limited deadline, Step =>
      Some (set_phase (Draining deadline (sv_now s) Millisecond) (close_listener s))
  | Draining deadline next base, Poll jitter => Shutdown deadline next base jitter s
  | Draining deadline _ _, Expire =>
      if deadline <=? sv_now s then Some (set_phase (Exited (TimedOut deadline)) s) else None
  | (Stopped | Limited _ | Draining _ _ _), Signal => Some (set_phase (Exited Killed) s)
  | _, _ => None
  end.

(** The goroutine of [ListenAndServe]: an error of it is only logged. *)
Definition listen_failed (s : server) : option server :=
  if sv_listening s then Some (close_listener s) else None.

Definition on (e : event) (w : W) (s : server) : option (W * server) :=
  match sv_phase s with
  | Exited _ => None
  | _ =>
      match e with
      | Elapse d => Some (w, elapse d s)
      | ListenError => pair w <$> listen_failed s
      | Kill => Some (w, set_phase (Exited Killed) s)
      | Signal | Step | Poll _ | Expire => pair w <$> WaitAndShutdown e s
      | Accept _ | FirstByte _ | Begin _ _ | RunCall _ _ | Reply _ | Hangup _ => serve e w s
      end
  end.

Definition started (now : Z) : server := Server Starting true now None ∅ [] ∅.

(** The server's steps, and those of other processes on the world. *)
Inductive live : W * server -> W * server -> Prop :=
| live_event e w s w' s' : on e w s = Some (w', s') -> live (w, s) (w', s')
| live_others w w' s : live (w, s) (w', s).

(** ** The invariant *)

Definition pending (s : server) (n : nat) : Prop :=
  exists i p, sv_conns s !! i = Some (Running n p).

(** No poll is further away than the longest interval with its jitter. *)
Definition poll_bound : Z := 550 * Millisecond.

Definition phase_kept (s : server) : Prop :=
  match sv_phase s with
  | Starting | Waiting => True
  | Notified | Stopped => exists t, sv_signal s = Some t /\ t <= sv_now s
  | Limited deadline => exists t, sv_signal s = Some t /\ t + timeout <= deadline
  | Draining deadline next base =>
      (exists t, sv_signal s = Some t /\ t + timeout <= deadline) /\ sv_listening s = false /\
      next <= sv_now s + poll_bound /\ Millisecond <= base <= shutdownPollIntervalMax
  | Exited Drained => sv_conns s = ∅
  | Exited (TimedOut deadline) =>
      (exists t, sv_signal s = Some t /\ t + timeout <= deadline) /\ deadline <= sv_now s
  | Exited Killed => True
  end.

(** No request whose handler began is forgotten: it is running or answered. *)
Record kept (s : server) : Prop := {
  kept_requests n : (n < length (sv_requests s))%nat -> pending s n \/ is_Some (sv_answered s !! n);
  kept_phase : phase_kept s
}.

Lemma started_kept now : kept (started now).
Proof. split; simpl; [lia|done]. Qed.

(** A connection without a handler can change or go. *)
Lemma pending_others s conns n :
  (forall i m p, sv_conns s !! i = Some (Running m p) -> exists p', conns !! i = Some (Running m p')) ->
  pending s n -> pending (set_conns conns s) n.
Proof. intros H (i&p&Hi). destruct (H _ _ _ Hi) as [p' Hi']. by exists i, p'. Qed.

Lemma set_conns_kept conns s :
  (forall i m p, sv_conns s !! i = Some (Running m p) -> exists p', conns !! i = Some (Running m p')) ->
  (forall how, sv_phase s <> Exited how) -> kept s -> kept (set_conns conns s).
Proof.
  intros Hc Hp [Hr Hk]. split.
  - intros n Hn. destruct (Hr n Hn) as [Hpn|?]; [left; by eapply pending_others|by right].
  - unfold phase_kept in *. simpl. destruct (sv_phase s); try done. by destruct (Hp how).
Qed.

Lemma keep_running {s i c c'} :
  sv_conns s !! i = Some c -> (forall m p, c = Running m p -> exists p', c' = Running m p') ->
  forall j m p, sv_conns s !! j = Some (Running m p) ->
    exists p', <[i := c']> (sv_conns s) !! j = Some (Running m p').
Proof.
  intros Hi Hc j m p Hj. rewrite lookup_insert. case_decide; [subst|by eauto].
  rewrite Hi in Hj. injection Hj as ->. destruct (Hc m p eq_refl) as [p' ->]. by exists p'.
Qed.

Lemma serve_kept e w s w' s' :
  (forall how, sv_phase s <> Exited how) -> kept s -> serve e w s = Some (w', s') -> kept s'.
Proof.
  intros Hp Hk. unfold serve. destruct e as [d|i|i|i ht|i ch|i|i| | | | | |]; try done.
  - destruct (sv_listening s); [|done]. destruct (sv_conns s !! i) eqn:Ei; [done|]. intros [= _ <-].
    apply set_conns_kept; [|done..]. intros j m p Hj. exists p. by rewrite lookup_insert_ne by congruence.
  - destruct (sv_conns s !! i) as [[]|] eqn:Ei; try done; intros [= _ <-];
      (apply set_conns_kept; [by apply (keep_running Ei)|done..]).
  - destruct (sv_conns s !! i) as [[]|] eqn:Ei; try done. intros [= _ <-]. destruct Hk as [Hr Hk]. split.
    + simpl. intros n. rewrite length_app. simpl. intros Hn.
      destruct (decide (n = length (sv_requests s))) as [->|Hne].
      { left. exists i, (handler ht). apply lookup_insert_eq. }
      destruct (Hr n) as [(j&p&Hj)|?]; [lia| |by right].
      left. exists j, p. simpl. rewrite lookup_insert_ne; [done|congruence].
    + unfold phase_kept in *. simpl. destruct (sv_phase s); try done. by destruct (Hp how).
  - destruct (sv_conns s !! i) as [[| |n [|o k]|]|] eqn:Ei; try done.
    destruct (exec ch w o) as [w1 r]. intros [= _ <-].
    apply set_conns_kept; [|done..]. apply (keep_running Ei). intros m p [= <- _]. by eexists.
  - destruct (sv_conns s !! i) as [[| |n [ra|]|]|] eqn:Ei; try done. intros [= _ <-].
    destruct Hk as [Hr Hk]. split.
    + simpl. intros m Hm. rewrite lookup_insert. case_decide; [right; by subst|].
      destruct (Hr m Hm) as [(j&p&Hj)|?]; [left|by right]. exists j, p. simpl.
      assert (j <> i) by congruence. destruct (in_shutdown _); [by rewrite lookup_delete_ne|].
      by rewrite lookup_insert_ne.
    + unfold phase_kept in *. simpl. destruct (sv_phase s); try done. by destruct (Hp how).
  - destruct (sv_conns s !! i) as [[]|] eqn:Ei; try done; intros [= _ <-];
      (apply set_conns_kept; [|done..]; intros j m p Hj; exists p; by rewrite lookup_delete_ne by congruence).
Qed.

Lemma set_phase_kept p s : kept s -> phase_kept (set_phase p s) -> kept (set_phase p s).
Proof. by intros [Hr _]; split. Qed.

Lemma closed_keeps_running s j m p :
  sv_conns s !! j = Some (Running m p) -> exists p', closeIdleConns s !! j = Some (Running m p').
Proof. intros Hj. exists p. by apply map_lookup_filter_Some. Qed.

Lemma Shutdown_kept deadline next base jitter s s' :
  kept s -> sv_phase s = Draining deadline next base ->
  Shutdown deadline next base jitter s = Some s' -> kept s'.
Proof.
  intros Hk Hp. unfold Shutdown. destruct (next <=? sv_now s); [|done].
  assert (Hc : kept (set_conns (closeIdleConns s) s)).
  { apply set_conns_kept; [apply closed_keeps_running|by rewrite Hp|done]. }
  case_bool_decide as He; intros [= <-]; (apply set_phase_kept; [done|]); [exact He|].
  pose proof (kept_phase _ Hk) as H. unfold phase_kept in *. rewrite Hp in H. simpl.
  destruct H as (Ht&Hl&Hn&Hb). split; [done|]. split; [done|].
  pose proof (Z.mod_pos_bound jitter (base / 10)).
  unfold poll_bound, shutdownPollIntervalMax, Millisecond in *.
  assert (0 < base / 10) by (apply Z.div_str_pos; lia).
  assert (base / 10 <= 50000000) by (apply Z.div_le_upper_bound; lia). lia.
Qed.

Lemma WaitAndShutdown_kept e s s' : kept s -> WaitAndShutdown e s = Some s' -> kept s'.
Proof.
  intros Hk. pose proof (kept_phase _ Hk) as H. unfold WaitAndShutdown, phase_kept in *.
  destruct (sv_phase s) as [| | | |deadline|deadline next base|how] eqn:Hp; [..|done];
    destruct e as [d|i|i|i ht|i ch|i|i| | | | |jitter|]; try done;
    try (by intros [= <-]; apply set_phase_kept).
  - intros [= <-]. destruct Hk as [Hr _]. split; [done|]. exists (sv_now s). simpl. done.
  - by intros [= <-].
  - intros [= <-]. apply set_phase_kept; [done|]. destruct H as (t&Ht&Hle). exists t. simpl.
    split; [done|lia].
  - intros [= <-]. destruct Hk as [Hr _]. split; [done|]. unfold phase_kept. simpl.
    split; [done|]. split; [done|].
    unfold poll_bound, shutdownPollIntervalMax, Millisecond. lia.
  - by apply Shutdown_kept.
  - destruct (deadline <=? sv_now s) eqn:E; [|done]. intros [= <-]. apply set_phase_kept; [done|].
    bool_props. unfold phase_kept. simpl. by destruct H.
Qed.

Lemma elapse_kept d s : (forall how, sv_phase s <> Exited how) -> kept s -> kept (elapse d s).
Proof.
  intros Hp [Hr Hk]. split; [done|]. unfold phase_kept in *. simpl.
  destruct (sv_phase s) as [| | | | | |how]; try done; [..|by destruct (Hp how)].
  - destruct Hk as (t&?&?). exists t. split; [done|lia].
  - destruct Hk as (t&?&?). exists t. split; [done|lia].
  - destruct Hk as (?&?&?&?). repeat (split; [done|]). split; [lia|done].
Qed.

Lemma listen_failed_kept s s' : kept s -> listen_failed s = Some s' -> kept s'.
Proof.
  unfold listen_failed. destruct (sv_listening s) eqn:E; [|done]. intros [Hr Hk] [= <-].
  split; [done|]. unfold phase_kept in *. simpl. destruct (sv_phase s); try done.
  by destruct Hk as (?&?&?).
Qed.

Lemma on_kept e w s w' s' : kept s -> on e w s = Some (w', s') -> kept s'.
Proof.
  intros Hk Hon.
  assert (Hn : forall how, sv_phase s <> Exited how) by (intros how Hp; unfold on in Hon; by rewrite Hp in Hon).
  assert (Hopt : forall o : option server, (forall s1, o = Some s1 -> kept s1) ->
    pair w <$> o = Some (w', s') -> kept s').
  { intros [s1|] Ho; [|done]. intros [= _ <-]. by apply Ho. }
  assert (H : on e w s = match e with
      | Elapse d => Some (w, elapse d s)
      | ListenError => pair w <$> listen_failed s
      | Kill => Some (w, set_phase (Exited Killed) s)
      | Signal | Step | Poll _ | Expire => pair w <$> WaitAndShutdown e s
      | _ => serve e w s
      end).
  { unfold on. destruct (sv_phase s); try done. by destruct (Hn how). }
  rewrite H in Hon. clear H.
  destruct e; try (by eapply serve_kept);
    try (by eapply Hopt; [|exact Hon]; intros s1; apply WaitAndShutdown_kept).
  - injection Hon as _ <-. by apply elapse_kept.
  - eapply Hopt; [|exact Hon]. intros s1. by apply listen_failed_kept.
  - injection Hon as _ <-. by apply set_phase_kept.
Qed.

Lemma live_kept st st' : kept st.2 -> rtc live st st' -> kept st'.2.
Proof.
  intros Hk Hr. revert Hk. induction Hr as [|x y z Hs _ IH]; [done|]. intros Hk. apply IH.
  destruct Hs as [e w s w' s' He|]; [|done]. by eapply on_kept.
Qed.

(** A poll closes what is left when every connection is idle, or new and never used. *)
Lemma poll_drains deadline next base jitter s :
  next <= sv_now s ->
  (forall i c, sv_conns s !! i = Some c ->
     c = StateIdle \/ exists since, c = StateNew since /\ since + 6 * Second <= sv_now s) ->
  exists s', Shutdown deadline next base jitter s = Some s' /\ sv_phase s' = Exited Drained.
Proof.
  intros Hn Hc. unfold Shutdown. rewrite (proj2 (Z.leb_le _ _)) by done.
  rewrite bool_decide_true; [by eexists|]. apply map_empty. intros i.
  apply map_lookup_filter_None. right. intros c Hi. simpl.
  destruct (Hc i c Hi) as [->|(since&->&Hs)]; [done|]. simpl. intros E. bool_props.
  unfold Second in *. assert (since / 1000000000 + 6 <= sv_now s / 1000000000); [|lia].
  replace (since / 1000000000 + 6) with ((since + 6 * 1000000000) / 1000000000)
    by (by rewrite Z.div_add).
  by apply Z.div_le_mono.
Qed.
End Server.

(** ** Shutdown *)

(** The timeout [main] gives it. *)
Definition shutdownTimeout : Z := 10 * Second.

(** C21: Shutdown is graceful. No request whose handler has begun is dropped while the
    process runs: it is running or answered. When [Shutdown] ends because the server is
    idle, all have been answered and no connection is open; when it ends otherwise, and no
    second signal killed the process, at least the timeout has passed since the signal.
    While it waits no connection is accepted, the next poll is at most 0.55 s away, and a
    poll ends it as soon as each connection is idle or has brought no request for six
    seconds. *)
Theorem shutdown_is_graceful {S : sig} {W : Type} `{!Exec S W}
    (handler : http_request -> prog S (string * answer)) timeout w0 now w s :
  rtc (live handler timeout) (w0, started now) (w, s) ->
  (forall n, (n < length (sv_requests s))%nat ->
     (exists i p, sv_conns s !! i = Some (Running n p)) \/ is_Some (sv_answered s !! n)) /\
  match sv_phase s with
  | Exited Drained =>
      sv_conns s = ∅ /\ forall n, (n < length (sv_requests s))%nat -> is_Some (sv_answered s !! n)
  | Exited (TimedOut _) => exists t, sv_signal s = Some t /\ t + timeout <= sv_now s
  | Draining deadline next _ =>
      (exists t, sv_signal s = Some t /\ t + timeout <= deadline) /\
      (forall i, on handler timeout (Accept i) w s = None) /\
      next <= sv_now s + 550 * Millisecond /\
      forall jitter, next <= sv_now s ->
        (forall i c, sv_conns s !! i = Some c ->
           c = StateIdle \/ exists since, c = StateNew since /\ since + 6 * Second <= sv_now s) ->
        exists s', on handler timeout (Poll jitter) w s = Some (w, s') /\ sv_phase s' = Exited Drained
  | _ => True
  end.
Proof.
  intros Hr. destruct (live_kept handler timeout (w0, started now) (w, s) (started_kept timeout now) Hr) as [Hq Hk].
  simpl in Hq, Hk. split; [exact Hq|]. unfold phase_kept in Hk.
  destruct (sv_phase s) as [| | | |deadline|deadline next base|[|d|]] eqn:Hp; try done.
  - destruct Hk as (Ht&Hl&Hn&_). split; [done|]. split; [|split; [done|]].
    + intros i. unfold on. rewrite Hp. simpl. by rewrite Hl.
    + intros jitter Hnow Hc. destruct (poll_drains deadline next base jitter s Hnow Hc) as (s'&Hs&Hd).
      exists s'. unfold on, WaitAndShutdown. rewrite Hp, Hs. done.
  - split; [done|]. intros n Hn. destruct (Hq n Hn) as [(i&p&Hi)|?]; [|done].
    by rewrite Hk, lookup_empty in Hi.
  - destruct Hk as [(t&Ht&?) ?]. exists t. split; [done|lia].
Qed.

(** ** A server that cannot listen *)

Fixpoint replay {S : sig} {W : Type} `{!Exec S W} (handler : http_request -> prog S (string * answer))
    (timeout : Z) (es : list event) (w : W) (s : server) : option (W * server) :=
  match es with
  | [] => Some (w, s)
  | e :: es => ws ← on handler timeout e w s; replay handler timeout es ws.1 ws.2
  end.

Lemma replay_live {S : sig} {W : Type} `{!Exec S W} (handler : http_request -> prog S (string * answer))
    timeout es w s w' s' :
  replay handler timeout es w s = Some (w', s') -> rtc (live handler timeout) (w, s) (w', s').
Proof.
  revert w s. induction es as [|e es IH]; intros w s; cbn; [by intros [= <- <-]|].
  destruct (on handler timeout e w s) as [[w1 s1]|] eqn:E; [|done]. intros H.
  eapply rtc_l; [by apply live_event with e|by apply IH].
Qed.

(** A server whose port is taken lingers: the error of [ListenAndServe] is logged
    and [main] goes on waiting for a signal, so that the process stays, accepting
    nothing, however long no signal comes. *)
Theorem unbound_server_lingers {S : sig} {W : Type} `{!Exec S W}
    (handler : http_request -> prog S (string * answer)) timeout now w w' s' es :
  Signal ∉ es -> Kill ∉ es ->
  replay handler timeout (ListenError :: es) w (started now) = Some (w', s') ->
  (sv_phase s' = Starting \/ sv_phase s' = Waiting) /\ sv_conns s' = ∅ /\ sv_requests s' = [].
Proof.
  intros Hs Hk. cbn.
  assert (H : forall w s, (sv_phase s = Starting \/ sv_phase s = Waiting) -> sv_listening s = false ->
    sv_conns s = ∅ -> sv_requests s = [] -> replay handler timeout es w s = Some (w', s') ->
    (sv_phase s' = Starting \/ sv_phase s' = Waiting) /\ sv_conns s' = ∅ /\ sv_requests s' = []).
  { clear w. induction es as [|e es IH]; intros w s Hp Hl Hc Hr H; [by simplify_eq/=|].
    apply not_elem_of_cons in Hs as [Hse Hs]. apply not_elem_of_cons in Hk as [Hke Hk].
    cbn in H. destruct (on handler timeout e w s) as [[w1 s1]|] eqn:E; [|done]. cbn in H.
    eapply IH; [done|done| | | | |exact H]; unfold on, WaitAndShutdown, listen_failed, serve in E;
      rewrite Hl, Hc in E; destruct Hp as [Hp|Hp]; rewrite Hp in E; destruct e; simplify_eq/=;
      try (rewrite lookup_empty in E); simplify_eq/=; auto. }
  apply H; [by left|done..].
Qed.

(** ** Witnesses *)

Definition a_post : http_request := HttpRequest "POST" "/tickets" "/tickets" "/tickets" " r-1 " a_body.
Definition a_check : http_request := HttpRequest "GET" "/healthz" "/healthz" "/healthz" " r-2 " "".

(** A signal comes while a POST is handled, and a connection before [Shutdown] is called;
    both are served, and the process ends. *)
Definition a_shutdown : list event :=
  [Step; Accept 0; FirstByte 0; Begin 0 a_post] ++ replicate 5 (RunCall 0 (fine 1000 "t-1"))
  ++ [Signal; Step; Accept 1; Step; Step; Poll 0; Elapse (20 * Millisecond); Poll 0; FirstByte 1; Begin 1 a_check]
  ++ replicate 8 (RunCall 0 (fine 2000 "e-1")) ++ replicate 6 (RunCall 1 (fine 3000 ""))
  ++ [Reply 0; Reply 1; Elapse Second; Poll 0].

Definition shutdown_run : option (world * server (S := sys_sig)) :=
  replay ticket_service shutdownTimeout a_shutdown empty_world (started 0).

Lemma a_shutdown_ends : exists w s, shutdown_run = Some (w, s).
Proof.
  destruct shutdown_run as [[w s]|] eqn:E; [by exists w, s|].
  assert (H : is_Some shutdown_run) by (apply (bool_decide_unpack _); vm_compute; exact I).
  rewrite E in H. by destruct H.
Qed.

Lemma shutdown_is_graceful_witness :
  exists w s, shutdown_run = Some (w, s) /\ sv_phase s = Exited Drained /\
    length (sv_requests s) = 2%nat /\
    forall n, (n < 2)%nat -> is_Some (sv_answered s !! n).
Proof.
  destruct a_shutdown_ends as (w&s&Hrun). exists w, s. split; [exact Hrun|].
  assert (H : (fun ws => (sv_phase ws.2, length (sv_requests ws.2))) <$> shutdown_run = Some (Exited Drained, 2%nat))
    by (vm_compute; reflexivity).
  rewrite Hrun in H. injection H as Hp Hlen. split; [exact Hp|]. split; [exact Hlen|].
  pose proof (shutdown_is_graceful ticket_service shutdownTimeout empty_world 0 w s
    (replay_live _ _ _ _ _ _ _ Hrun)) as [_ H].
  rewrite Hp, Hlen in H. exact (proj2 H).
Defined.

Lemma unbound_server_lingers_witness :
  exists w s, replay ticket_service shutdownTimeout [ListenError; Step; Elapse (86400 * Second)] empty_world (started 0)
    = Some (w, s) /\ sv_phase s = Waiting.
Proof.
  assert (H : replay ticket_service shutdownTimeout [ListenError; Step; Elapse (86400 * Second)] empty_world (started 0)
    = Some (empty_world, Server Waiting false (0 + 86400 * Second) None ∅ [] ∅)) by reflexivity.
  eexists _, _. split; [exact H|].
  destruct (unbound_server_lingers ticket_service shutdownTimeout 0 empty_world _ _
    [Step; Elapse (86400 * Second)] ltac:(set_solver) ltac:(set_solver) H) as [[E|E] _]; [discriminate|exact E].
Defined.
