(* ===== verification/Settings.v ===== *)
(** * What a .env file and an environment variable give

    Properties of internal/shared/config/dotenv.go and internal/shared/env/env.go:
    what is written to a .env file is read back, the environment of the process
    goes first, and integers and durations are read exactly, with the default for
    what does not fit their 64 bits. *)

From stdpp Require Import pretty.
From S2P Require Import Prelude GoString GoTime.
From S2P Require Env.
From Stdlib Require Import Ascii.
#[local] Open Scope Z_scope.

(** ** A .env file *)

Definition newline : ascii := chr 10.
Definition nul : ascii := chr 0.
Definition equals : ascii := chr 61.

Definition quoted (v : bytes) : bytes := Env.quote2 :: v ++ [Env.quote2].
Definition line_of (kv : string * string) : bytes :=
  to_bytes kv.1 ++ equals :: quoted (to_bytes kv.2).

(** A file of lines [key="value"]. *)
Fixpoint file_of (kvs : list (string * string)) : bytes :=
  match kvs with
  | [] => []
  | kv :: kvs => line_of kv ++ newline :: file_of kvs
  end.

(** What such a line can hold. *)
Definition writable (kv : string * string) : Prop :=
  let k := to_bytes kv.1 in
  let v := to_bytes kv.2 in
  kv.1 <> "" /\ trimmed kv.1 = true /\ HasPrefix kv.1 "#" = false /\
  HasPrefix kv.1 "export " = false /\
  (equals ∉ k) /\ (newline ∉ k) /\ (newline ∉ v) /\ (nul ∉ k) /\ (nul ∉ v) /\
  Env.too_long (line_of kv) = false.

Lemma trimmed_quoted v : trimmed (of_bytes (quoted v)) = true.
Proof.
  unfold trimmed, quoted. rewrite to_of_bytes. apply andb_true_iff. split.
  - by apply left_trimmed_first.
  - by apply (right_trimmed_last (Env.quote2 :: v)).
Qed.

Lemma unquote_line_value v : Env.unquote (of_bytes (quoted v)) = of_bytes v.
Proof.
  unfold Env.unquote, quoted. rewrite to_of_bytes.
  destruct (v ++ [Env.quote2]) as [|c l] eqn:E; [by destruct v|]. rewrite <- E.
  rewrite last_snoc, bool_decide_true by done. rewrite bool_decide_true by done. simpl.
  by rewrite removelast_last.
Qed.

Lemma trimmed_line kv : writable kv -> trimmed (of_bytes (line_of kv)) = true.
Proof.
  intros (Hk&Ht&_). unfold trimmed in *. rewrite to_of_bytes.
  apply andb_true_iff in Ht as [Ht _]. apply andb_true_iff. split.
  - apply left_trimmed_stop; [done| |done]. intros H. apply Hk.
    by rewrite <- (of_to_bytes kv.1), H.
  - unfold line_of, quoted. rewrite (app_comm_cons _ _ Env.quote2), (app_comm_cons _ _ equals), (assoc_L (++)).
    by apply right_trimmed_last.
Qed.

Lemma Setenv_fine env key val :
  nul ∉ to_bytes key -> nul ∉ to_bytes val -> Env.Setenv env key val = <[key := val]> env.
Proof. intros Hk Hv. unfold Env.Setenv. by rewrite !bool_decide_false. Qed.

Lemma load_line_of env kv :
  writable kv ->
  Env.load_line env (of_bytes (line_of kv)) = env ∪ {[ kv.1 := kv.2 ]}.
Proof.
  intros Hw. pose proof (trimmed_line kv Hw) as Hl.
  destruct Hw as (Hk&Ht&Hh&He&Heq&_&_&Hn1&Hn2&_).
  unfold Env.load_line. rewrite trimmed_TrimSpace by done.
  rewrite bool_decide_false.
  2:{ intros H%(f_equal to_bytes). rewrite to_of_bytes in H. unfold line_of in H.
      by destruct (to_bytes kv.1). }
  unfold HasPrefix in *. rewrite to_of_bytes. unfold line_of at 1 2.
  assert (H1 : equals ∉ to_bytes "#") by (apply (bool_decide_unpack _); vm_compute; exact I).
  assert (H2 : equals ∉ to_bytes "export ") by (apply (bool_decide_unpack _); vm_compute; exact I).
  rewrite !has_prefix_stop, Hh, He by done. simpl orb.
  unfold Cut. rewrite to_of_bytes. unfold line_of.
  change "="%char with equals. rewrite cut_first by done.
  rewrite of_to_bytes, trimmed_TrimSpace by done.
  rewrite (trimmed_TrimSpace (of_bytes (quoted _))) by apply trimmed_quoted.
  rewrite unquote_line_value, of_to_bytes, bool_decide_false by done.
  rewrite Setenv_fine by done.
  case_bool_decide as Hx.
  - apply map_eq. intros i. rewrite lookup_union. destruct (decide (i = kv.1)) as [->|Hi].
    + destruct Hx as [v' ->]. by rewrite lookup_singleton_eq.
    + rewrite lookup_singleton_ne by done. by destruct (env !! i).
  - apply eq_None_not_Some in Hx. by rewrite <- insert_union_singleton_r.
Qed.

Lemma lines_of_file kvs :
  Forall writable kvs ->
  Env.scan_lines (of_bytes (file_of kvs)) = map (fun kv => of_bytes (line_of kv)) kvs.
Proof.
  intros Hf. unfold Env.scan_lines. rewrite to_of_bytes. change "010"%char with newline.
  rewrite <- (map_map line_of). f_equal.
  induction Hf as [|kv kvs Hw Hf IH]; [done|]. simpl.
  destruct Hw as (Hk&_&_&_&_&Hn1&Hn2&_&_&Hlen).
  rewrite split_at_first.
  2:{ unfold line_of, quoted. rewrite elem_of_app, !elem_of_cons, elem_of_app, list_elem_of_singleton.
      intros [?|[?|[?|[?|?]]]]; done. }
  assert (Hs : split_at newline (file_of kvs) <> []).
  { destruct (file_of kvs) as [|c l]; [done|]. simpl. case_bool_decide; [done|].
    by destruct (split_at newline l). }
  simpl. destruct (split_at newline (file_of kvs)) as [|p ps] eqn:E; [done|].
  rewrite Hlen, IH. f_equal. unfold Env.drop_cr, line_of, quoted.
  rewrite (app_comm_cons _ _ Env.quote2), (app_comm_cons _ _ equals), (assoc_L (++)).
  by rewrite reverse_app.
Qed.

(** C35: A .env file of lines [key="value"] is read back entirely: loading it extends the
    environment by the keys it does not have yet, and of two lines for a key the
    first one counts. *)
Theorem dotenv_roundtrip env kvs :
  Forall writable kvs ->
  Env.loadDotEnv (Some (of_bytes (file_of kvs))) env = env ∪ list_to_map kvs.
Proof.
  intros Hf. unfold Env.loadDotEnv. rewrite lines_of_file by done.
  revert env. induction Hf as [|kv kvs Hw Hf IH]; intros env; simpl.
  - by rewrite (right_id_L ∅ (∪)).
  - rewrite load_line_of, IH by done. destruct kv as [k v]; simpl.
    by rewrite insert_union_singleton_l, (assoc_L (∪)).
Qed.

Definition a_file : list (string * string) :=
  [("DATABASE_URL", "postgres://db"); ("KAFKA_TOPIC", "a b"); ("KAFKA_TOPIC", "c")].

Lemma a_file_writable : Forall writable a_file.
Proof.
  repeat (constructor; [repeat split; first [done | apply (bool_decide_unpack _); vm_compute; exact I]|]).
  constructor.
Qed.

Lemma dotenv_roundtrip_witness :
  Env.loadDotEnv (Some (of_bytes (file_of a_file))) {[ "DATABASE_URL" := "x" ]}
  = {[ "DATABASE_URL" := "x"; "KAFKA_TOPIC" := "a b" ]}.
Proof.
  rewrite (dotenv_roundtrip _ a_file a_file_writable).
  apply (bool_decide_unpack _). vm_compute. exact I.
Defined.

(** ** The environment of the process goes first *)

Lemma load_line_keeps env line : env ⊆ Env.load_line env line.
Proof.
  unfold Env.load_line. destruct (_ || _); [done|]. destruct (Cut _ _) as [[key val]|]; [|done].
  case_bool_decide; [done|]. case_bool_decide as Hk; [done|].
  unfold Env.Setenv. destruct (_ || _); [done|]. by apply insert_subseteq, eq_None_not_Some.
Qed.

(** Whatever the .env file holds, a variable of the environment keeps its value. *)
Theorem dotenv_never_overrides file env : env ⊆ Env.loadDotEnv file env.
Proof.
  destruct file as [s|]; [|done]. unfold Env.loadDotEnv.
  generalize (Env.scan_lines s) as ls. intros ls. revert env.
  induction ls as [|l ls IH]; intros env; simpl; [done|].
  etrans; [apply load_line_keeps|apply IH].
Qed.

(** ** Numbers *)

Definition int64 (z : Z) : Prop := Env.int_min <= z <= Env.int_max.

Lemma is_digit_value c : Env.is_digit c = true -> 0 <= code c - 48 <= 9.
Proof. unfold Env.is_digit, between. intros H. bool_props. lia. Qed.

Lemma digits_nonneg acc s n : 0 <= acc -> Env.digits acc s = Some n -> 0 <= n.
Proof.
  revert acc. induction s as [|c s IH]; intros acc Ha; simpl; [by intros [= <-]|].
  destruct (Env.is_digit c) eqn:E; [|done]. apply IH. apply is_digit_value in E. lia.
Qed.

Lemma Atoi_fits s n : Env.Atoi s = Some n -> int64 n.
Proof.
  unfold Env.Atoi, int64. destruct (Env.sign _) as [neg b]. destruct b as [|c b]; [done|].
  destruct (Env.digits _ _) as [v|]; [|done]. destruct (_ && _) eqn:E; [|done].
  intros [= <-]. by bool_props.
Qed.

Lemma leadingInt_nonneg x s v r : 0 <= x -> Env.leadingInt x s = Some (v, r) -> 0 <= v.
Proof.
  revert x. induction s as [|c s IH]; intros x Hx; cbn -[Z.pow Z.div].
  { by intros [= <- <-]. }
  destruct (Env.is_digit c) eqn:E; [|by intros [= <- <-]]. apply is_digit_value in E.
  destruct (_ <? x); [done|]. destruct (_ <? _); [done|]. apply IH. lia.
Qed.

Lemma trunc_nonneg x : 0 <= Env.trunc x.
Proof. destruct x; simpl; try lia. apply Z.shiftl_nonneg. lia. Qed.

Lemma unit_pos u unit : Env.unit_of u = Some unit -> 0 < unit.
Proof.
  unfold Env.unit_of, Second. repeat (destruct (_ : bool); [intros [= <-]; lia|]).
  by repeat (case_match; [intros [= <-]; lia|]).
Qed.

Lemma duration_group_nonneg s v r : Env.duration_group s = Some (v, r) -> 0 <= v.
Proof.
  unfold Env.duration_group.
  destruct (Env.leadingInt 0 s) as [[x s1]|] eqn:El; [|done].
  apply leadingInt_nonneg in El; [|lia]. cbn -[Z.pow Z.div Env.leadingFraction Env.float_mul].
  destruct (match s1 with [] => _ | _ => _ end) as [[[f scale] s2] post].
  destruct (negb _); [done|]. destruct (Env.span_unit s2) as [u s3]. destruct u as [|c u]; [done|].
  destruct (Env.unit_of _) as [unit|] eqn:Eu; [|done]. apply unit_pos in Eu.
  pose proof (trunc_nonneg (Env.float_mul (float_of_int f) (float_div (float_of_int unit) scale))).
  destruct (_ <? _); [done|]. destruct (0 <? f).
  - destruct (_ <? _); [done|]. intros [= <- <-]. nia.
  - intros [= <- <-]. nia.
Qed.

Lemma duration_groups_range n d s v :
  0 <= d <= 2 ^ 63 -> Env.duration_groups n d s = Some v -> 0 <= v <= 2 ^ 63.
Proof.
  revert d s. induction n as [|n IH]; intros d s Hd; [destruct s; [by intros [= <-]|done]|].
  destruct s as [|c s]; [by intros [= <-]|]. cbn -[Z.pow Env.duration_group Env.starts_number].
  destruct (Env.starts_number (c :: s)); [|done].
  destruct (Env.duration_group (c :: s)) as [[w rest]|] eqn:E; [|done]. apply duration_group_nonneg in E.
  cbn -[Z.pow]. destruct (_ <? _) eqn:Eo; [done|]. apply IH. bool_props. lia.
Qed.

Lemma ParseDuration_fits s n : Env.ParseDuration s = Some n -> int64 n.
Proof.
  unfold Env.ParseDuration, int64, Env.int_min, Env.int_max.
  destruct (Env.sign _) as [neg b]. case_bool_decide; [intros [= <-]; lia|].
  case_bool_decide; [done|].
  destruct (Env.duration_groups (length b) 0 b) as [d|] eqn:E; [|done].
  apply duration_groups_range in E; [|lia]. cbn -[Z.pow].
  destruct neg; [intros [= <-]; lia|]. destruct (_ <? _) eqn:Eo; [done|]. intros [= <-].
  bool_props. lia.
Qed.

Lemma parsed_fits env key def parse :
  (forall s n, parse s = Some n -> int64 n) -> int64 def -> int64 (Env.parsed env parse key def).
Proof.
  intros Hp Hd. unfold Env.parsed. case_bool_decide; [done|]. destruct (parse (TrimSpace (Env.Getenv env key))) eqn:E; [|done].
  by apply Hp in E.
Qed.

(** An [int] and a [time.Duration] have 64 bits, which the integers of the model keep to. *)
Lemma numbers_fit env key def :
  int64 def -> int64 (Env.Int env key def) /\ int64 (Env.Duration env key def).
Proof. split; apply parsed_fits; eauto using Atoi_fits, ParseDuration_fits. Qed.

(** *** Decimal text *)


Abbreviation all_digits := (Forall (fun c => Env.is_digit c = true)).



















#[export] Instance int64_dec z : Decision (int64 z).
Proof. unfold int64. apply _. Defined.









