(* ===== verification/Claims.v ===== *)
(** * Properties of the outbox store

    What a claim promises, how long it is exclusive, what resetting stuck rows
    does, and what the lag measures. *)

From S2P Require Import Prelude Effects GoTime Postgres Outbox Concrete.

(** Statements that other connections carry out. *)
Definition after {PG : Postgres} (t : table) (steps : list (choice * outbox_op)) : table :=
  foldl (fun t s => outbox_next s.1 t s.2) t steps.

(** A statement that leaves the row [id], claimed at [claimed_at], to its claimer:
    nobody gives the row back, and it is not yet taken for stuck. *)
Definition respects (id claimed_at : Z) (s : choice * outbox_op) : Prop :=
  match s.2 with
  | QResetStuck interval => ch_now s.1 - interval <= claimed_at
  | QMarkFailed i _ _ => i <> id
  | _ => True
  end.

(** The row is in the hands of its claimer, or settled. *)
Definition held (claimed_at : Z) (r : row) : Prop :=
  (r_status r = "processing" /\ r_processing_started_at r = Some claimed_at) \/
  r_status r = "sent" \/ r_status r = "failed".

Lemma held_not_due now at_ r : held at_ r -> is_due now r = false.
Proof.
  unfold is_due, is_status. intros [[H _]|[H|H]]; rewrite H; by rewrite bool_decide_false.
Qed.

(** When the limit allows, every candidate is claimed. *)
Lemma claim_all now limit locked (t t' : table) es id r :
  claim_spec now limit locked t t' es -> Z.of_nat (size t) <= limit ->
  (id, r) ∈ candidates now locked t -> id ∈ ids_of es.
Proof.
  intros Hc Hl Hin.
  assert (Hlen : (length (candidates now locked t) <= size t)%nat).
  { rewrite <- length_map_to_list. apply length_filter. }
  assert (Hsub : ids_of es ⊆+ (candidates now locked t).*1).
  { apply NoDup_submseteq; [apply (claim_nodup _ _ _ _ _ _ Hc)|].
    intros x (e&->&He)%list_elem_of_fmap.
    destruct (claim_rows _ _ _ _ _ _ Hc e He) as (re&Hre&Hd&Hn&_).
    apply list_elem_of_fmap. exists (ID e, re). split; [done|]. by apply elem_of_candidates. }
  apply submseteq_length_Permutation in Hsub as ->.
  - apply list_elem_of_fmap. by exists (id, r).
  - pose proof (claim_count _ _ _ _ _ _ Hc). unfold ids_of. rewrite length_fmap, List.length_map. lia.
Qed.

(** A claim that is carried out is answered, unless an attempts counter overflows. *)
Lemma claim_answers now limit locked ids (t : table) :
  0 <= limit -> map_Forall (fun _ r => r_attempts r < int4_max) t ->
  exists t' es, claim now limit locked ids t = (t', Ok es).
Proof.
  intros Hl Ha. unfold claim. rewrite (proj2 (Z.ltb_ge _ _) Hl).
  rewrite (proj2 (existsb_false_elem_of _ _)); [by eauto|].
  intros id _. destruct (t !! id) as [r|] eqn:Hr; [|done]. apply Z.leb_gt. by apply (Ha id).
Qed.

Section Claims.
Context {PG : Postgres}.

Lemma respects_held id claimed_at s r r' :
  respects id claimed_at s -> held claimed_at r -> stmt_write s.1 s.2 id r r' -> held claimed_at r'.
Proof.
  destruct s as [ch o]; destruct o; unfold respects; simpl; intros Hr Hh Hw; destruct_and?; subst;
    try done; try (right; by auto).
  - exfalso. unfold is_stuck, is_status in *. bool_props.
    destruct Hh as [[_ Hp]|[Hs|Hs]]; [|congruence..]. rewrite Hp in *. bool_props. lia.
  - by rewrite (held_not_due _ _ _ Hh) in *.
Qed.

Lemma after_held id claimed_at steps (t : table) r :
  Forall (respects id claimed_at) steps -> t !! id = Some r -> held claimed_at r ->
  exists r', after t steps !! id = Some r' /\ held claimed_at r'.
Proof.
  intros Hs. revert t r. induction Hs as [|s steps Hs _ IH]; intros t r Hr Hh; [by exists r|].
  unfold after; simpl. fold (after (outbox_next s.1 t s.2) steps).
  destruct (table_evolves_lookup _ _ _ _ (exec_evolves s.1 t s.2) Hr) as (r1&Hr1&_).
  apply (IH _ r1 Hr1).
  destruct (writes_lookup _ _ _ _ _ (exec_writes s.1 t s.2) Hr1) as (r0&Hr0&Hw). simplify_eq.
  destruct Hw as [->|Hw]; [done|]. by eapply respects_held.
Qed.

(** The claim that a run of [ClaimPending] answers. *)
Lemma run_ClaimPending or n (t t' : table) n' batch es :
  run or n t (Store.ClaimPending batch) = (t', n', Ok es) ->
  let limit := if batch <=? 0 then 50 else batch in
  claim (ch_now (or n (QClaim limit))) limit (ch_locked (or n (QClaim limit)))
        (ch_pick (or n (QClaim limit))) t = (t', Ok es).
Proof.
  intros Hr. simpl in *.
  destruct (exec (or n (QClaim _)) t (QClaim _)) as [t1 a] eqn:E.
  injection Hr as <- _ Ha. simpl in Ha. subst a.
  pose proof (outbox_exec_ok (or n (QClaim (if batch <=? 0 then 50 else batch))) t (QClaim (if batch <=? 0 then 50 else batch)) es) as H.
  unfold exec in E. simpl in E. unfold outbox_next in H. rewrite E in H. by apply H.
Qed.

(** C13: C13: [ClaimPending] answers a batch that meets the specification of a claim:
    distinct due rows that nobody else has locked, as many as the limit allows
    (50 when none is given) and none younger than one left behind, each marked
    [processing] with one more attempt, and no other row touched. A statement that
    is carried out does answer, unless an attempts counter would overflow. *)
Theorem ClaimPending_meets_spec or n (t : table) batch :
  let limit := if batch <=? 0 then 50 else batch in
  let ch := or n (QClaim limit) in
  (forall t' n' es, run or n t (Store.ClaimPending batch) = (t', n', Ok es) ->
     claim_spec (ch_now ch) limit (ch_locked ch) t t' es) /\
  (ch_out ch = Done -> map_Forall (fun _ r => r_attempts r < int4_max) t ->
     exists t' n' es, run or n t (Store.ClaimPending batch) = (t', n', Ok es)).
Proof.
  simpl. set (limit := if batch <=? 0 then 50 else batch).
  assert (Hl : 0 <= limit) by (unfold limit; case_match eqn:E; bool_props; lia).
  split.
  - intros t' n' es Hr. eapply claim_meets_spec. by apply run_ClaimPending in Hr.
  - intros Hd Ha. simpl. fold limit. unfold exec, outbox_exec; simpl. rewrite Hd. simpl.
    destruct (claim_answers (ch_now (or n (QClaim limit))) limit (ch_locked (or n (QClaim limit)))
      (ch_pick (or n (QClaim limit))) t Hl Ha) as (t'&es&->). eauto.
Qed.

(** C12: A claim is exclusive while it lasts: between the claim of a row and the end
    of its processing timeout no other [ClaimPending] answers with that row,
    whatever other relays do in between, unless its holder gives it back. *)
Theorem claim_is_exclusive or n (t t1 : table) n1 batch es e steps or' m t2 n2 batch' es' :
  run or n t (Store.ClaimPending batch) = (t1, n1, Ok es) -> e ∈ es ->
  Forall (respects (ID e) (ch_now (or n (QClaim (if batch <=? 0 then 50 else batch))))) steps ->
  run or' m (after t1 steps) (Store.ClaimPending batch') = (t2, n2, Ok es') ->
  ID e ∉ ids_of es'.
Proof.
  intros H1 He Hs H2 Hin.
  apply run_ClaimPending, claim_meets_spec in H1, H2.
  destruct (claim_rows _ _ _ _ _ _ H1 e He) as (r&Hr&_).
  destruct (after_held _ _ steps t1 (set_claimed
    (ch_now (or n (QClaim (if batch <=? 0 then 50 else batch)))) r) Hs) as (r'&Hr'&Hh).
  - rewrite (claim_table _ _ _ _ _ _ H1), Hr, bool_decide_true; [done|].
    by apply list_elem_of_fmap_2.
  - by left.
  - apply list_elem_of_fmap in Hin as (e'&Heq&He').
    destruct (claim_rows _ _ _ _ _ _ H2 e' He') as (r''&Hr''&Hd&_).
    rewrite <- Heq in Hr''. simplify_eq. by rewrite (held_not_due _ _ _ Hh) in Hd.
Qed.

(** C33: C26: [ResetStuck] releases exactly the rows whose processing started longer ago
    than the timeout (30s when none is given), as many as it reports: they can be
    claimed at once and keep their identity and attempts; others are unchanged. *)
Theorem ResetStuck_releases or n (t t' : table) n' d k :
  run or n t (Store.ResetStuck d) = (t', n', Ok k) ->
  let interval := interval_arg (if d <=? 0 then 30 * Second else d) in
  let now := ch_now (or n (QResetStuck interval)) in
  let stuck := fun r => r_status r = "processing" /\
    exists s, r_processing_started_at r = Some s /\ s < now - interval in
  (forall id r, t !! id = Some r ->
     (stuck r -> exists r', t' !! id = Some r' /\ row_evolves r r' /\
        r_attempts r' = r_attempts r /\ forall now', now <= now' -> is_due now' r' = true) /\
     (~ stuck r -> t' !! id = Some r)) /\
  exists ids, NoDup ids /\ k = Z.of_nat (length ids) /\
    forall id, id ∈ ids <-> exists r, t !! id = Some r /\ stuck r.
Proof.
  intros Hrun interval now stuck. simpl in Hrun.
  destruct (exec (or n _) t _) as [t1 a] eqn:E. injection Hrun as <- _ Ha. simpl in Ha. subst a.
  pose proof (outbox_exec_ok (or n (QResetStuck interval)) t (QResetStuck interval) k) as H.
  unfold exec in E. unfold outbox_next in H. fold interval in E. rewrite E in H.
  specialize (H eq_refl). simpl in H. injection H as H1 Hk. fold now in H1, Hk.
  assert (Hst : forall r, is_stuck now interval r = true <-> stuck r).
  { intros r. unfold is_stuck, is_status, stuck. rewrite andb_true_iff, bool_decide_eq_true.
    split; intros [Hs Hx]; (split; [done|]).
    - destruct (r_processing_started_at r) as [s|]; [|done]. exists s. by bool_props.
    - destruct Hx as (s&->&Hlt). by apply Z.ltb_lt. }
  split.
  - intros id r Hr. rewrite <- H1, lookup_update_where, Hr. simpl. split; intros Hx.
    + rewrite (proj2 (Hst r) Hx). exists (set_reset now r). repeat split; try done.
      intros now' Hle. unfold is_due, is_status. simpl. by apply Z.leb_le.
    + destruct (is_stuck now interval r) eqn:Es; [|done]. by destruct Hx; apply Hst.
  - exists (map_to_list (filter (fun kr => is_stuck now interval kr.2 = true) t)).*1.
    split; [apply NoDup_fst_map_to_list|]. split.
    + rewrite <- Hk. unfold count_where. by rewrite length_fmap, length_map_to_list.
    + intros id. rewrite list_elem_of_fmap. split.
      * intros ([i r]&->&Hin). apply elem_of_map_to_list, map_lookup_filter_Some in Hin as [Hr Hs].
        exists r. by rewrite <- Hst.
      * intros (r&Hr&Hs). exists (id, r). split; [done|].
        apply elem_of_map_to_list, map_lookup_filter_Some. by rewrite Hst.
Qed.

(** The oldest pending row decides. *)
Lemma oldest_pending_spec (t : table) :
  match oldest_pending t with
  | None => forall id r, t !! id = Some r -> r_status r <> "pending"
  | Some c =>
      (exists id r, t !! id = Some r /\ r_status r = "pending" /\ r_created_at r = c) /\
      forall id r, t !! id = Some r -> r_status r = "pending" -> c <= r_created_at r
  end.
Proof.
  unfold oldest_pending.
  apply (map_fold_weak_ind (fun acc (m : table) => match acc with
  | None => forall id r, m !! id = Some r -> r_status r <> "pending"
  | Some c =>
      (exists id r, m !! id = Some r /\ r_status r = "pending" /\ r_created_at r = c) /\
      forall id r, m !! id = Some r -> r_status r = "pending" -> c <= r_created_at r
  end)); [done|].
  intros i x m acc Hi IH. unfold is_status. case_bool_decide as Hp.
  - destruct acc as [c|].
    + destruct IH as [(id&r&Hr&Hpr&Hc) Hmin]. split.
      * destruct (Z.le_gt_cases c (r_created_at x)).
        -- exists id, r. rewrite lookup_insert_ne by congruence. repeat split; [done..|lia].
        -- exists i, x. rewrite lookup_insert_eq. repeat split; [done..|lia].
      * intros id' r' [[-> ->]|[_ Hr']]%lookup_insert_Some Hp'; [lia|].
        specialize (Hmin _ _ Hr' Hp'). lia.
    + split; [exists i, x; by rewrite lookup_insert_eq|].
      intros id' r' [[-> ->]|[_ Hr']]%lookup_insert_Some Hp'; [lia|].
      by destruct (IH _ _ Hr').
  - destruct acc as [c|].
    + destruct IH as [(id&r&Hr&Hpr&Hc) Hmin]. split.
      * exists id, r. by rewrite lookup_insert_ne by congruence.
      * intros id' r' [[-> ->]|[_ Hr']]%lookup_insert_Some Hp'; [done|eauto].
    + intros id' r' [[-> ->]|[_ Hr']]%lookup_insert_Some; [done|eauto].
Qed.

(** [LagSeconds], carried out, changes nothing and answers the age in seconds of the oldest
    pending row, and 0 when no row is pending. *)
Theorem LagSeconds_spec or n (t : table) :
  ch_out (or n QLag) = Done ->
  exists n' v, run or n t Store.LagSeconds = (t, n', Ok v) /\
    ((v = float_of_int 0 /\ forall id r, t !! id = Some r -> r_status r <> "pending") \/
     exists id r, t !! id = Some r /\ r_status r = "pending" /\
       v = epoch_seconds (ch_now (or n QLag)) (r_created_at r) /\
       forall id' r', t !! id' = Some r' -> r_status r' = "pending" ->
         r_created_at r <= r_created_at r').
Proof.
  intros Hd. pose proof (oldest_pending_spec t) as Ho. simpl. unfold exec, outbox_exec; simpl.
  rewrite Hd. simpl. destruct (oldest_pending t) as [c|]; simpl; (eexists _, _; split; [done|]).
  - right. destruct Ho as [(id&r&Hr&Hp&<-) Hmin]. exists id, r. by repeat split.
  - by left.
Qed.
End Claims.

(** ** Witnesses *)

(** Two due rows and one in processing since time 500. *)
Definition a_row (id : string) (created : Z) : row :=
  Row id "ticket" id "ticket.created" "{}" "pending" created None None 0 created None created None.
Definition some_rows : table :=
  {[ 1 := a_row "e-1" 10; 2 := a_row "e-2" 20; 3 := set_claimed 500 (a_row "e-3" 30) ]}.

Definition at_time (now : Z) : nat -> outbox_op -> choice := fun _ _ => fine now "".

Example ClaimPending_meets_spec_witness :
  exists t' n' es, run (at_time 1000) 0 some_rows (Store.ClaimPending 1) = (t', n', Ok es).
Proof.
  apply (ClaimPending_meets_spec (at_time 1000) 0 some_rows 1); [done|].
  apply (bool_decide_unpack _). vm_compute. exact I.
Defined.

Example claim_is_exclusive_witness :
  1 ∉ ids_of [returning 2 (set_claimed 3000 (a_row "e-2" 20))].
Proof.
  refine (claim_is_exclusive (at_time 1000) 0 some_rows _ _ 1
    [returning 1 (set_claimed 1000 (a_row "e-1" 10))] (returning 1 (set_claimed 1000 (a_row "e-1" 10)))
    [(fine 2000 "", QResetStuck 1500); (fine 2000 "", QMarkSent 3)] (at_time 3000) 0 _ _ 1
    [returning 2 (set_claimed 3000 (a_row "e-2" 20))] _ _ _ _).
  - vm_compute. reflexivity.
  - by left.
  - constructor; [unfold respects; simpl; lia|]. constructor; [exact I|constructor].
  - vm_compute. reflexivity.
Defined.

Example ResetStuck_releases_witness :
  exists r', (run (at_time (60 * Second)) 0 some_rows (Store.ResetStuck 0)).1.1 !! 3 = Some r' /\
    row_evolves (set_claimed 500 (a_row "e-3" 30)) r' /\ r_attempts r' = 1 /\
    forall now', 60 * Second <= now' -> is_due now' r' = true.
Proof.
  destruct (ResetStuck_releases (at_time (60 * Second)) 0 some_rows
    (run (at_time (60 * Second)) 0 some_rows (Store.ResetStuck 0)).1.1 1 0 1) as [H _];
    [vm_compute; reflexivity|].
  apply (H 3 (set_claimed 500 (a_row "e-3" 30))); [vm_compute; reflexivity|].
  split; [done|]. exists 500. by split.
Defined.

Example LagSeconds_spec_witness :
  exists n', run (at_time (2 * Second)) 0 some_rows Store.LagSeconds = (some_rows, n', Ok (epoch_seconds (2 * Second) 10)).
Proof.
  destruct (LagSeconds_spec (at_time (2 * Second)) 0 some_rows eq_refl) as (n'&v&Hr&_). exists n'. rewrite Hr.
  assert (H : (run (at_time (2 * Second)) 0 some_rows Store.LagSeconds).2 = Ok (epoch_seconds (2 * Second) 10))
    by (vm_compute; reflexivity).
  rewrite Hr in H. injection H as ->. reflexivity.
Defined.
