(* ===== verification/Producing.v ===== *)
(** * Properties of the Kafka producer

    How many copies of a message [Produce] can write, those that land late included,
    and what its answer means. *)

From S2P Require Import Prelude Effects GoString Runtime Kafka Events Postgres Outbox.
From S2P Require Import Processed Ticket Handler World System Safety Solo Concrete.

Section Producing.
Context {UT : UnicodeTables} {PG : Postgres}.
Local Abbreviation wpa := (wp (solo any)).

(** A producer whose writer, if it is open, is on its configured topic. *)
Definition on_topic (p : Producer) : Prop :=
  producer_on (fun t => t = pc_Topic (p_cfg p)) p.

(** [k] copies of a message more on the topic and [l] that may still land there, and nothing
    else changed in the logs. *)
Definition copies (topic : string) (m : message) (k l : nat) (w w' : world) : Prop :=
  (forall t, topic_log (w_broker w') t =
     topic_log (w_broker w) t ++ (if decide (topic = t) then replicate k m else [])) /\
  br_late (w_broker w') = br_late (w_broker w) ++ replicate l (topic, m).

Lemma copies_0 topic m w w' :
  (forall t, topic_log (w_broker w') t = topic_log (w_broker w) t) ->
  br_late (w_broker w') = br_late (w_broker w) -> copies topic m 0 0 w w'.
Proof.
  intros H1 H2. split; [|by rewrite H2, app_nil_r]. intros t. rewrite H1.
  case_decide; by rewrite app_nil_r.
Qed.

Lemma copies_trans topic m j k l n w1 w2 w3 :
  copies topic m j l w1 w2 -> copies topic m k n w2 w3 -> copies topic m (j + k) (l + n) w1 w3.
Proof.
  intros [H1 L1] [H2 L2]. split.
  - intros t. rewrite H2, H1, <- (assoc_L (++)). case_decide; [|done]. by rewrite replicate_add.
  - by rewrite L2, L1, <- (assoc_L (++)), replicate_add.
Qed.

(** One call of the writer: it tries [MaxAttempts] times at most. *)
Lemma wp_write_once p timeout m w :
  on_topic p ->
  wpa (write p timeout m) (fun err w' => exists k l, (k + l <= MaxAttempts)%nat /\
    (err = None -> 1 <= k)%nat /\ copies (pc_Topic (p_cfg p)) m k l w w') w.
Proof.
  intros [_ Hp]. unfold write. destruct (p_w p) as [wr|].
  2: { apply wp_ret. exists 0%nat, 0%nat. split; [unfold MaxAttempts; lia|]. split; [done|]. by apply copies_0. }
  apply wp_bind, wp_call. intros ch _. calls. apply wp_ret.
  assert (Hc : copies (pc_Topic (p_cfg p)) m (copies_now ch) (copies_late ch) w
                 (with_broker (write_message ch (wr_Topic wr) m (w_broker w)) w)).
  { rewrite (Hp wr) by done. split; [intros t; apply topic_log_write|done]. }
  unfold kafka_next, kafka_exec. destruct (ch_out ch) eqn:Eo; simpl.
  - exists (copies_now ch), (copies_late ch). split; [apply copies_bound|]. split; [|done].
    unfold copies_now. rewrite Eo. lia.
  - exists 0%nat, 0%nat. split; [unfold MaxAttempts; lia|]. split; [done|]. by apply copies_0.
  - exists (copies_now ch), (copies_late ch). split; [apply copies_bound|]. by split.
Qed.

Lemma wp_reset_writes_nothing p w m :
  on_topic p ->
  wpa (resetOnce p) (fun p' w' => on_topic p' /\ p_cfg p' = p_cfg p /\
    copies (pc_Topic (p_cfg p)) m 0 0 w w') w.
Proof.
  intros Hp. unfold resetOnce, Now. apply wp_bind, wp_call. intros ch _. calls. rewrite with_rt_id.
  case_match; [apply wp_ret; split; [done|]; split; [done|]; by apply copies_0|].
  assert (Hopen : forall w1, (forall t, topic_log (w_broker w1) t = topic_log (w_broker w) t) ->
    br_late (w_broker w1) = br_late (w_broker w) ->
    wpa (now ← Now; mret (MkProducer (Some (newWriter (p_cfg p))) (p_cfg p) now))
      (fun p' w' => on_topic p' /\ p_cfg p' = p_cfg p /\ copies (pc_Topic (p_cfg p)) m 0 0 w w') w1).
  { intros w1 Hw1 Hl1. apply wp_bind, wp_call. intros ch1 _. calls. rewrite with_rt_id. apply wp_ret.
    split; [split; [done|]; by intros wr [= <-]|]. split; [done|]. by apply copies_0. }
  destruct (p_w p) as [wr|]; [|by apply wp_bind, wp_ret, Hopen].
  apply wp_bind, wp_bind, wp_call. intros ch1 _. calls. apply wp_ret, Hopen; [intros t|];
    by destruct (kafka_next_cases ch1 (w_broker w) (KCloseWriter wr)) as [->| ->].
Qed.

Lemma wp_Produce_copies p key value timeout w :
  on_topic p ->
  wpa (Produce p key value timeout) (fun r w' => p_cfg r.1 = p_cfg p /\ on_topic r.1 /\
    exists k l, (k + l <= 2 * MaxAttempts)%nat /\ (r.2 = None -> 1 <= k)%nat /\
      copies (pc_Topic (p_cfg p)) (Message key value) k l w w') w.
Proof.
  intros Hp. unfold Produce. apply wp_bind.
  eapply wp_mono; [|by apply wp_write_once]. intros [e|] w1 (j&l&Hj&Hok&Hc).
  2: { apply wp_ret. split; [done|]. split; [done|]. exists j, l. split; [lia|]. by split. }
  destruct (shouldReset (Some e)).
  2: { apply wp_ret. split; [done|]. split; [done|]. exists j, l. split; [lia|]. by split. }
  apply wp_bind. eapply wp_mono; [|by apply (wp_reset_writes_nothing p w1 (Message key value))].
  intros p' w2 (Hp'&Hcfg&Hc2). apply wp_bind. eapply wp_mono; [|by apply wp_write_once].
  intros err w3 (k&l3&Hk&Hok3&Hc3). apply wp_ret. cbn [fst snd]. split; [done|]. split; [done|].
  rewrite Hcfg in Hc3. exists (j + (0 + k))%nat, (l + (0 + l3))%nat. split; [lia|]. split; [intros H; specialize (Hok3 H); lia|].
  eapply copies_trans; [done|]. by eapply copies_trans.
Qed.

(** C32: C32: [Produce] writes its message to the producer's topic and nowhere else, at least
    once when it answers no error, and in a bounded number of copies: it calls the writer
    twice at most, which tries each batch ten times at most, so there are never more than
    twenty copies, with those that may still land after the call has returned. The
    producer it leaves has the same configuration, and its writer is on the same topic. *)
Theorem Produce_writes_are_bounded p key value timeout w or n :
  on_topic p ->
  let '(w', _, r) := run or n w (Produce (S := sys_sig) p key value timeout) in
  p_cfg r.1 = p_cfg p /\ on_topic r.1 /\
  exists k l, (k + l <= 2 * MaxAttempts)%nat /\ (r.2 = None -> 1 <= k)%nat /\
    copies (pc_Topic (p_cfg p)) (Message key value) k l w w'.
Proof.
  intros Hp.
  pose proof (run_solo any _ _ _ or n (fun _ _ => I) (wp_Produce_copies p key value timeout w Hp)) as H.
  destruct (run or n w _) as [[w' m] r]. destruct H as (H1&H2&H3). by split.
Qed.
End Producing.

(** ** Witness: the first answer is lost, and the writer has written two copies by then; the
    second call writes one more, and one that lands later *)

Definition answer_lost : nat -> sys_op -> choice := fun i _ =>
  match i with
  | 0%nat => Choice (Lost (EMsg "read: i/o timeout")) 100 [] [] "" [] 0 false 0 2 0 false
  | _ => Choice Done 100 [] [] "" [] 0 false 0 0 1 false
  end.

Example Produce_writes_are_bounded_witness :
  let '(w', _, _) := run answer_lost 0 empty_world
    (Produce (S := sys_sig) (a_producer the_topic) "t-1" "{}" 0) in
  exists k l, (k + l <= 20)%nat /\ copies the_topic (Message "t-1" "{}") k l empty_world w'.
Proof.
  pose proof (Produce_writes_are_bounded (a_producer the_topic) "t-1" "{}" 0 empty_world
    answer_lost 0) as H.
  destruct (run answer_lost 0 empty_world _) as [[w' m] r].
  destruct H as (_&_&k&l&Hk&_&Hc); [by apply a_producer_on|]. by exists k, l.
Defined.

Example written_thrice :
  log_of the_topic (run answer_lost 0 empty_world
    (Produce (S := sys_sig) (a_producer the_topic) "t-1" "{}" 0)).1.1
  = replicate 3 (Message "t-1" "{}").
Proof. vm_compute. reflexivity. Qed.
