(* ===== verification/Delivery.v ===== *)
(** * Properties of the relay

    What a tick does when all goes well, what becomes of an event whose
    publication fails, that every claimed event is accounted for, and the
    backoff. *)

From S2P Require Import Prelude Effects GoString GoTime Runtime Kafka Events Postgres Outbox.
From S2P Require Import Processed Ticket Handler World System Safety Solo Concrete Claims.
From S2P Require Relay.

Section Delivery.
Context {UT : UnicodeTables} {J : Json} {PG : Postgres}.

(** ** A tick when all goes well *)

(** Every call is carried out and answered; stuck rows are reset at [t0] and the
    batch is claimed no earlier, no other transaction holding rows. *)
Definition healthy (t0 : Z) : env := fun o ch =>
  ch_out ch = Done /\
  match o with
  | OOutbox (QResetStuck _) => ch_now ch = t0
  | OOutbox (QClaim _) => t0 <= ch_now ch /\ ch_locked ch = []
  | _ => True
  end.

Definition ready (topic : string) (ps : Relay.producers) : Prop :=
  exists wr, p_w (Relay.producer ps) = Some wr /\ wr_Topic wr = topic.

Context (topic : string) (t0 : Z).
Local Abbreviation log_of := (log_of topic).
Local Abbreviation wph := (wp (solo (healthy t0))).

(** The message published for an event. *)
Definition message_of (e : Event) (m : message) : Prop :=
  m_key m = AggregateID e /\ marshal_envelope (Relay.envelope_of e) = Ok (m_value m).

(** The copies of the message of an event that a writer may leave. *)
Definition copies_of (e : Event) (ms : list message) : Prop :=
  exists m k, message_of e m /\ ms = replicate (S k) m /\ (S k <= MaxAttempts)%nat.

(** The events are appended to the topic in order and their rows are sent. *)
Definition delivered (es : list Event) (w w' : world) : Prop :=
  (exists mss, log_of w' = log_of w ++ concat mss /\ Forall2 copies_of es mss) /\
  forall id r, w_outbox w !! id = Some r ->
    (id ∉ ids_of es -> w_outbox w' !! id = Some r) /\
    (id ∈ ids_of es -> exists now, w_outbox w' !! id = Some (set_sent now r)).

Lemma delivered_nil w : delivered [] w w.
Proof.
  split; [exists []; by rewrite app_nil_r|]. intros id r Hr.
  split; [done|]. by intros ?%elem_of_nil.
Qed.

Lemma delivered_cons e es w1 w2 w3 :
  delivered [e] w1 w2 -> delivered es w2 w3 -> delivered (e :: es) w1 w3.
Proof.
  intros [(ms1&H1&F1) R1] [(ms2&H2&F2) R2]. split.
  - exists (ms1 ++ ms2). rewrite H2, H1, concat_app, (assoc_L (++)). split; [done|].
    change (e :: es) with ([e] ++ es). by apply Forall2_app.
  - intros id r Hr. destruct (R1 id r Hr) as [Ho Hs]. unfold ids_of in *. simpl in *. split.
    + intros [Hne Hn]%not_elem_of_cons. apply R2; [|done]. apply Ho. intros Hi.
      by apply list_elem_of_singleton in Hi.
    + intros Hi. destruct (decide (id ∈ [ID e])) as [He|He].
      * destruct (Hs He) as [now Hr2]. destruct (R2 _ _ Hr2) as [Ho' Hs'].
        destruct (decide (id ∈ map ID es)) as [Hes|Hes]; [|by exists now; apply Ho'].
        destruct (Hs' Hes) as [now' Hr3]. by exists now'.
      * apply R2; [by apply Ho|]. apply elem_of_cons in Hi as [->|Hi]; [|done].
        destruct He. by left.
Qed.

Lemma publish_delivers max ps e b w :
  ready topic ps -> marshal_envelope (Relay.envelope_of e) = Ok b ->
  wph (Relay.publish max ps e) (fun ps' w' => ps' = ps /\ delivered [e] w w') w.
Proof.
  intros (wr&Hw&Ht) Hb. unfold Relay.publish. rewrite Hb. apply wp_bind.
  apply (wp_Produce_done _ _ wr); [done|by intros ? ? [? _]|]. intros ch1 H1.
  apply wp_solo_vis. intros ch2 [H2 _]. apply wp_solo_vis. intros ch3 _. ops.
  apply wp_ret. split; [by destruct ps|]. unfold exec; simpl.
  unfold outbox_next, outbox_exec. rewrite H2. split; simpl.
  - exists [replicate (copies_now ch1) (Message (AggregateID e) b)]. unfold System.log_of; cbn.
    rewrite topic_log_write, decide_True, app_nil_r by done. split; [done|]. constructor; [|constructor].
    pose proof (copies_bound ch1). unfold copies_now in *. rewrite H1 in *.
    exists (Message (AggregateID e) b), (ch_copies ch1 `min` (MaxAttempts - 1))%nat.
    split; [done|]. split; [done|lia].
  - unfold w_outbox; simpl. intros id r Hr. unfold ids_of; simpl.
    rewrite list_elem_of_singleton, lookup_alter. case_decide as Hi.
    + subst. split; [done|]. intros _. exists (ch_now ch2). by rewrite Hr.
    + split; [done|]. intros ->. done.
Qed.

Lemma publish_all_delivers max ps es w :
  ready topic ps -> (forall e, e ∈ es -> exists b, marshal_envelope (Relay.envelope_of e) = Ok b) ->
  wph (for_fold es ps (Relay.publish max)) (fun ps' w' => ps' = ps /\ delivered es w w') w.
Proof.
  intros Hps. revert w. induction es as [|e es IH]; intros w HM.
  { apply wp_ret. split; [done|apply delivered_nil]. }
  destruct (HM e) as [b Hb]; [by left|]. apply wp_bind.
  eapply wp_mono; [|by apply (publish_delivers max ps e b w)]. intros ps1 w1 [-> H1].
  eapply wp_mono; [|apply IH; intros e' He'; apply HM; by right]. intros ps2 w2 [-> H2]. split; [done|]. by eapply delivered_cons.
Qed.

Definition timeout_of (cfg : Relay.relay_config) : Z :=
  interval_arg (if Relay.processingTimeout cfg <=? 0 then 30 * Second else Relay.processingTimeout cfg).
Definition limit_of (cfg : Relay.relay_config) : Z :=
  if Relay.batchSize cfg <=? 0 then 50 else Relay.batchSize cfg.

Definition released (cfg : Relay.relay_config) (t : table) : table :=
  update_where (is_stuck t0 (timeout_of cfg)) (set_reset t0) t.

(** Stuck rows are released, a batch is claimed and all of it is delivered. *)
Definition ticked cfg ps w (r : Relay.producers * option goerr) (w' : world) : Prop :=
  r = (ps, None) /\ exists w1 now es, t0 <= now /\ log_of w1 = log_of w /\
    claim_spec now (limit_of cfg) [] (released cfg (w_outbox w)) (w_outbox w1) es /\
    delivered es w1 w'.

Lemma limit_of_pos cfg : 0 <= limit_of cfg.
Proof. unfold limit_of. case_match eqn:E; bool_props; lia. Qed.

(** Every row can be encoded: its time is in the years 0 to 9999 and its payload is JSON. *)
Definition encodable (t : table) : Prop :=
  map_Forall (fun _ r => exists b, marshal_envelope (row_envelope r) = Ok b) t.

Lemma encodable_released cfg t : encodable t -> encodable (released cfg t).
Proof.
  intros H id r. unfold released. rewrite lookup_update_where. intros (r0&Hr0&->)%fmap_Some.
  specialize (H id r0 Hr0). by case_match.
Qed.

Lemma claimed_encodable now limit (t t' : table) es e :
  encodable t -> claim_spec now limit [] t t' es -> e ∈ es ->
  exists b, marshal_envelope (Relay.envelope_of e) = Ok b.
Proof.
  intros H Hc He. destruct (claim_rows _ _ _ _ _ _ Hc e He) as (r&Hr&_&_&_&Heq).
  destruct (H _ _ Hr) as [b Hb]. exists b. by rewrite Heq.
Qed.

Lemma claim_and_deliver cfg ps w0 w :
  ready topic ps -> encodable (w_outbox w) ->
  map_Forall (fun _ r => r_attempts r < int4_max) (w_outbox w) ->
  w_outbox w = released cfg (w_outbox w0) -> log_of w = log_of w0 ->
  wph (rows ← Outbox.Store.ClaimPending (Relay.batchSize cfg);
       match rows with
       | Err err => mret (ps, Some err)
       | Ok rows =>
           ps ← for_fold rows ps (Relay.publish (Relay.maxAttempts cfg));
           mret (ps, None)
       end) (ticked cfg ps w0) w.
Proof.
  intros Hps HM Ha Ho HL. apply wp_solo_vis. intros ch (Hd&Ht&Hk). ops. fold (limit_of cfg).
  unfold exec at 1 2; simpl. unfold outbox_next, outbox_exec. rewrite Hd. simpl. rewrite Hk.
  destruct (claim_answers (ch_now ch) (limit_of cfg) [] (ch_pick ch) (w_outbox w)) as (t'&es&Hc);
    [apply limit_of_pos|done|].
  rewrite Hc. simpl. apply wp_bind.
  apply claim_meets_spec in Hc.
  eapply wp_mono; [|apply publish_all_delivers; [done|intros e; by eapply claimed_encodable]].
  intros ps' w' [-> Hdel]. apply wp_ret.
  split; [done|]. exists (with_outbox t' w), (ch_now ch), es.
  split; [done|]. split; [done|]. split; [|done]. by rewrite <- Ho.
Qed.

Lemma wp_tick_healthy cfg ps w :
  ready topic ps -> encodable (w_outbox w) ->
  map_Forall (fun _ r => r_attempts r < int4_max) (w_outbox w) ->
  wph (Relay.tick cfg ps) (ticked cfg ps w) w.
Proof.
  intros Hps HM Ha. unfold Relay.tick. apply wp_solo_vis. intros ch [Hd Ht]. ops.
  unfold exec at 1 2; simpl. unfold outbox_next, outbox_exec. rewrite Hd. simpl. rewrite Ht.
  fold (timeout_of cfg). fold (released cfg (w_outbox w)).
  assert (Ha' : map_Forall (fun _ r => r_attempts r < int4_max) (released cfg (w_outbox w))).
  { intros id r. unfold released. rewrite lookup_update_where.
    intros (r0&Hr0&->)%fmap_Some. specialize (Ha id r0 Hr0). by case_match. }
  apply wp_solo_vis. intros ch' [Hd' _]. ops.
  unfold exec at 1 2; simpl. unfold outbox_next, outbox_exec. rewrite Hd'. simpl.
  destruct (oldest_pending _) as [c|]; simpl; apply wp_solo_vis; intros ch'' _; ops;
    by apply claim_and_deliver; try apply encodable_released.
Qed.

Lemma ticked_delivers cfg ps w r w' id x :
  ticked cfg ps w r w' -> Z.of_nat (size (w_outbox w)) <= limit_of cfg ->
  w_outbox w !! id = Some x -> is_due t0 x = true \/ is_stuck t0 (timeout_of cfg) x = true ->
  exists r' m, w_outbox w' !! id = Some r' /\ r_status r' = "sent" /\ row_evolves x r' /\
    m ∈ log_of w' /\ event_message x m.
Proof.
  intros (_&w1&now&es&Hnow&HL&Hc&[(mss&Hms&Hf) Hr]) Hl Hx Hor.
  assert (Hy : exists y, released cfg (w_outbox w) !! id = Some y /\ row_evolves x y /\
                         is_due now y = true).
  { unfold released. rewrite lookup_update_where, Hx. simpl.
    destruct (is_stuck t0 (timeout_of cfg) x) eqn:Es; (eexists; split; [done|]; split; [done|]).
    - unfold is_due, is_status; simpl. by apply Z.leb_le.
    - destruct Hor as [Hd|?]; [|done]. unfold is_due in *. bool_props. rewrite H. simpl.
      apply Z.leb_le. lia. }
  destruct Hy as (y&Hy&Hev&Hdue).
  assert (Hid : id ∈ ids_of es).
  { eapply (claim_all _ _ _ _ _ _ _ y); [done| |].
    - unfold released, update_where. by rewrite map_size_fmap.
    - apply elem_of_candidates. split; [done|]. split; [done|]. by apply not_elem_of_nil. }
  assert (Hz : w_outbox w1 !! id = Some (set_claimed now y)).
  { by rewrite (claim_table _ _ _ _ _ _ Hc), bool_decide_true, Hy. }
  destruct (proj2 (Hr _ _ Hz) Hid) as [now' Hsent].
  assert (Hev' : row_evolves x (set_sent now' (set_claimed now y))).
  { etrans; [done|]. split; [done|]. simpl. lia. }
  apply list_elem_of_fmap in Hid as (e&->&He).
  destruct (claim_rows _ _ _ _ _ _ Hc e He) as (y1&Hy1&_&_&_&Heq). assert (y1 = y) as -> by congruence.
  apply list_elem_of_lookup in He as [i He].
  destruct (Forall2_lookup_l _ _ _ _ _ Hf He) as (ms&Hm%list_elem_of_lookup_2&m&k&[Hk Hv]&->&_).
  exists (set_sent now' (set_claimed now y)), m. split; [done|]. split; [done|]. split; [done|].
  split.
  { rewrite Hms, elem_of_app. right. apply list_elem_of_In, in_concat. exists (replicate (S k) m).
    split; [by apply list_elem_of_In|by left]. }
  apply (event_message_evolves_r _ _ _ Hev). rewrite Heq in Hk, Hv. by split.
Qed.

(** C10: Progress. In a tick whose calls all succeed, on rows that can be encoded and
    with a batch that fits the table, every event that is due, and every event whose relay died longer ago than
    the processing timeout, is published to the topic and its row marked [sent];
    the tick reports no error. *)
Theorem tick_delivers cfg ps w or n :
  (forall i o, healthy t0 o (or i o)) -> ready topic ps ->
  encodable (w_outbox w) -> map_Forall (fun _ r => r_attempts r < int4_max) (w_outbox w) ->
  Z.of_nat (size (w_outbox w)) <= limit_of cfg ->
  let '(w', _, r) := run or n w (Relay.tick (S := sys_sig) cfg ps) in
  r = (ps, None) /\
  forall id x, w_outbox w !! id = Some x ->
    is_due t0 x = true \/ is_stuck t0 (timeout_of cfg) x = true ->
    exists r' m, w_outbox w' !! id = Some r' /\ r_status r' = "sent" /\ row_evolves x r' /\
      m ∈ log_of w' /\ event_message x m.
Proof.
  intros Hor Hps HM Ha Hl.
  pose proof (run_solo _ _ _ _ or n Hor (wp_tick_healthy cfg ps w Hps HM Ha)) as Hr.
  destruct (run or n w _) as [[w' m] r]. split; [apply Hr|].
  intros id x. by eapply ticked_delivers.
Qed.

(** ** A publication that fails *)

(** The topic refuses writes, with the error [er]; all else succeeds, and the clocks read
    times from [t1] to [t2]. *)
Context (er : goerr) (t1 t2 : Z).
Definition topic_down : env := fun o ch =>
  t1 <= ch_now ch <= t2 /\
  match o with
  | OKafka (KWrite wr _ _) =>
      ch_out ch = if bool_decide (wr_Topic wr = topic) then Refused er else Done
  | _ => ch_out ch = Done
  end.
Local Abbreviation wpd := (wp (solo topic_down)).

(** A producer that is open, on the topic. *)
Definition open_on_topic (p : Producer) : Prop := producer_on (is_topic topic) p /\ is_Some (p_w p).

Definition refused_write (w : world) (err : option goerr) (w' : world) : Prop :=
  w' = w /\ err = Some er.

Lemma wp_write_down p timeout m w :
  open_on_topic p -> wpd (write p timeout m) (refused_write w) w.
Proof.
  intros [[_ Hp] [wr Hw]]. unfold write. rewrite Hw. apply wp_solo_vis. intros ch Hch. ops.
  destruct Hch as [_ Hch]. rewrite bool_decide_true in Hch by by apply Hp.
  unfold exec; simpl. unfold kafka_next, kafka_exec.
  rewrite Hch. simpl. rewrite with_broker_id. by apply wp_ret.
Qed.

Lemma wp_resetOnce_down p w :
  open_on_topic p -> wpd (resetOnce p) (fun p' w' => w' = w /\ open_on_topic p') w.
Proof.
  intros [[Hc Hp] [wr Hw]]. unfold resetOnce. rewrite Hw. apply wp_solo_vis. intros ch _. ops.
  unfold exec; simpl. rewrite with_rt_id.
  case_match; [apply wp_ret; split; [done|]; split; [by split|by exists wr]|].
  apply wp_solo_vis. intros ch2 [_ H2]. ops. unfold exec; simpl.
  unfold kafka_next, kafka_exec. rewrite H2. simpl. rewrite with_broker_id.
  apply wp_solo_vis. intros ch3 _. ops. unfold exec; simpl. rewrite with_rt_id.
  apply wp_ret. split; [done|]. split; [|done]. split; [done|]. by intros wr' [= <-].
Qed.

Lemma wp_Produce_down p key value timeout w :
  open_on_topic p -> wpd (Produce p key value timeout) (fun r w' => refused_write w r.2 w') w.
Proof.
  intros Hp. unfold Produce. apply wp_bind.
  eapply wp_mono; [|by apply wp_write_down]. intros err w1 [-> ->].
  case_match; [|by apply wp_ret].
  apply wp_bind. eapply wp_mono; [|by apply wp_resetOnce_down]. intros p' w2 [-> Hp'].
  apply wp_bind. eapply wp_mono; [|by apply wp_write_down]. intros err w3 Herr. by apply wp_ret.
Qed.

(** The text that is stored of the error. *)
Definition kafka_error : string := "kafka: " +:+ Error er.

(** What becomes of the row and of the dead letter: statements are carried out between [t1]
    and [t2], and the retry is a backoff after a reading of the clock between them. *)
Record given_back (max : Z) (dlq : option Producer) (e : Event) (r : row) (w w' : world) : Prop := {
  gb_log : log_of w' = log_of w;
  gb_others id : id <> ID e -> w_outbox w' !! id = w_outbox w !! id;
  gb_row : exists now, t1 <= now <= t2 /\
    if (0 <? max) && (max <=? Attempts e) then
      w_outbox w' !! ID e = Some (set_dead now kafka_error r) /\
      forall d wr b, dlq = Some d -> p_w d = Some wr ->
        marshal_dead_envelope kafka_error (Relay.envelope_of e) = Ok b ->
        Message (AggregateID e) b ∈ topic_log (w_broker w') (wr_Topic wr)
    else exists now', t1 <= now' <= t2 /\
      w_outbox w' !! ID e =
        Some (set_retry now (pg_time (now' + Relay.backoff (Attempts e))) kafka_error r)
}.

Lemma outbox_after t rt w : w_outbox (with_rt rt (with_outbox t w)) = t.
Proof. done. Qed.

(** A statement on the row, and the metrics after it. *)
Lemma wp_mark_down {A} o (k : ans outbox_sig o -> prog sys_sig A) (Q : A -> world -> Prop) w :
  (forall ch a, t1 <= ch_now ch <= t2 ->
     wpd (k a) Q (with_outbox (outbox_stmt ch (w_outbox w) o).1 w)) ->
  wpd (Vis (OOutbox o : op sys_sig) k) Q w.
Proof.
  intros HQ. apply wp_solo_vis. intros ch [Ht Hch]. unfold exec; simpl.
  unfold outbox_next, outbox_exec. rewrite Hch. simpl. by apply HQ.
Qed.

Lemma wp_last_down {A} o (a : A) (Q : A -> world -> Prop) w :
  (forall rt, Q a (with_rt rt w)) -> wpd (Vis (ORuntime o : op sys_sig) (fun _ => Ret a)) Q w.
Proof. intros HQ. apply wp_solo_vis. intros ch _. unfold exec; simpl. by apply wp_ret. Qed.

Lemma wp_Produce_dlq_down d wr key value timeout w :
  producer_on (not_topic topic) d -> p_w d = Some wr ->
  wpd (Produce d key value timeout) (fun _ w' => exists ch, ch_out ch = Done /\
    w' = with_broker (write_message ch (wr_Topic wr) (Message key value) (w_broker w)) w) w.
Proof.
  intros [_ Hp] Hw. apply (wp_Produce_done _ _ wr); [done| |intros ch Hch; by exists ch].
  intros t ch [_ Hch]. by rewrite bool_decide_false in Hch by by apply Hp.
Qed.

Lemma wp_die ps e r msg w w1 :
  text_ok msg = true -> w_outbox w1 = w_outbox w -> w_outbox w !! ID e = Some r ->
  wpd (_ ← Outbox.Store.MarkDead (ID e) msg;
       Inc "outbox_dead_total" [EventType e];; mret (ps, true))
    (fun (x : Relay.producers * bool) w' => x.2 = true /\ w_broker w' = w_broker w1 /\
       (forall id, id <> ID e -> w_outbox w' !! id = w_outbox w !! id) /\
       exists now, t1 <= now <= t2 /\ w_outbox w' !! ID e = Some (set_dead now msg r)) w1.
Proof.
  intros Hm Hw1 Hr. apply wp_mark_down. intros ch a Hch. cbn [outbox_stmt]. rewrite Hm.
  apply wp_last_down. intros rt. rewrite outbox_after, Hw1. repeat split.
  - intros id Hid. by apply lookup_alter_ne.
  - exists (ch_now ch). split; [done|]. simpl. by rewrite lookup_alter_eq, Hr.
Qed.

(** The dead letter is written, when there is a producer for it. *)
Definition dead_lettered (ps : Relay.producers) (e : Event) (msg : string) (w w' : world) : Prop :=
  w_outbox w' = w_outbox w /\ log_of w' = log_of w /\
  forall d wr b, Relay.dlqProducer ps = Some d -> p_w d = Some wr ->
    marshal_dead_envelope msg (Relay.envelope_of e) = Ok b ->
    Message (AggregateID e) b ∈ topic_log (w_broker w') (wr_Topic wr).

Lemma wp_dead_letter_down ps e msg w :
  dlq_on topic (Relay.dlqProducer ps) ->
  (forall d, Relay.dlqProducer ps = Some d -> is_Some (p_w d)) ->
  wpd (match Relay.dlqProducer ps with
       | Some d =>
           match marshal_dead_envelope msg (Relay.envelope_of e) with
           | Ok b =>
               r ← Produce d (AggregateID e) b (5 * Second);
               mret (Relay.Producers (Relay.producer ps) (Some r.1))
           | Err _ => mret ps
           end
       | None => mret ps
       end) (fun _ => dead_lettered ps e msg w) w.
Proof.
  intros Hd Ho. destruct (Relay.dlqProducer ps) as [d|] eqn:Ed;
    [|apply wp_ret; repeat split; by rewrite Ed].
  destruct (marshal_dead_envelope _ _) as [b|] eqn:Eb;
    [|apply wp_ret; repeat split; by rewrite Eb].
  destruct (Ho d eq_refl) as [wr Hw]. apply wp_bind.
  eapply wp_mono; [|by apply (wp_Produce_dlq_down d wr)]. intros r1 w1 (ch&Hch&->). apply wp_ret.
  split; [done|]. split.
  - unfold System.log_of; cbn. rewrite topic_log_write, decide_False, app_nil_r; [done|].
    by apply (proj2 Hd).
  - rewrite Ed, Eb. intros d' wr' b' [= <-] Hw' [= <-]. simplify_eq. cbn.
    rewrite topic_log_write, decide_True by done. apply elem_of_app. right.
    unfold copies_now. rewrite Hch. by left.
Qed.

Lemma wp_give_back_down max ps e r w :
  dlq_on topic (Relay.dlqProducer ps) ->
  (forall d, Relay.dlqProducer ps = Some d -> is_Some (p_w d)) ->
  text_ok kafka_error = true -> w_outbox w !! ID e = Some r ->
  wpd (Relay.give_back max ps e (Relay.envelope_of e) kafka_error) (fun _ => given_back max (Relay.dlqProducer ps) e r w) w.
Proof.
  intros Hd Ho Hm Hr. unfold Relay.give_back, Relay.maybeDead. apply wp_bind.
  destruct (_ && _) eqn:Emax.
  - apply wp_bind. eapply wp_mono; [|by apply wp_dead_letter_down]. intros ps1 w1 (Hw1&HL&HD).
    eapply wp_mono; [|by apply (wp_die ps1 e r kafka_error w)]. intros [ps2 dead] w2 (Hdead&Hb&Hoth&now&Hnow&Hrow).
    simpl in Hdead. subst dead. simpl. apply wp_ret. split.
    + unfold System.log_of. rewrite Hb. exact HL.
    + done.
    + exists now. split; [done|]. rewrite Emax. split; [done|]. by rewrite Hb.
  - apply wp_ret. simpl. apply wp_solo_vis. intros ch [Hnow _]. ops. unfold exec; simpl. rewrite with_rt_id.
    apply wp_mark_down. intros ch' a Hch'. cbn [outbox_stmt]. rewrite Hm.
    apply wp_last_down. intros rt. split; [done| |].
    + intros id Hid. rewrite outbox_after. by apply lookup_alter_ne.
    + exists (ch_now ch'). split; [done|]. rewrite Emax. exists (ch_now ch). split; [done|].
      rewrite outbox_after. simpl. by rewrite lookup_alter_eq, Hr.
Qed.

(** C11: When Kafka refuses an event of the topic, the event is not lost: nothing is
    appended to the topic, no other row is touched, and its row goes back to
    [pending] with the text of that error and a retry the backoff of its attempts after
    the time of the failure - or, once the limit on attempts is reached, to [failed], with
    a dead letter that holds the error and the envelope when a dead letter producer is
    configured. *)
Theorem publish_gives_back max ps e w or n r b :
  (forall i o, topic_down o (or i o)) -> text_ok kafka_error = true ->
  open_on_topic (Relay.producer ps) ->
  dlq_on topic (Relay.dlqProducer ps) ->
  (forall d, Relay.dlqProducer ps = Some d -> is_Some (p_w d)) ->
  w_outbox w !! ID e = Some r -> marshal_envelope (Relay.envelope_of e) = Ok b ->
  let '(w', _, _) := run or n w (Relay.publish (S := sys_sig) max ps e) in
  given_back max (Relay.dlqProducer ps) e r w w'.
Proof.
  intros Hor Htx Hp Hd Ho Hr Hb.
  assert (Hwp : wpd (Relay.publish max ps e) (fun _ => given_back max (Relay.dlqProducer ps) e r w) w).
  { unfold Relay.publish. rewrite Hb. apply wp_bind.
    eapply wp_mono; [|by apply wp_Produce_down]. intros [p1 err] w1 [-> Herr].
    simpl in Herr. subst err. simpl.
    by apply (wp_give_back_down max (Relay.Producers p1 (Relay.dlqProducer ps))). }
  pose proof (run_solo _ _ _ _ or n Hor Hwp) as H. by destruct (run or n w _) as [[w' m] ps'].
Qed.
End Delivery.

(** ** Accounting *)

Section Accounting.
Context {UT : UnicodeTables} {J : Json} {PG : Postgres}.

(** Events of a type published, put back and given up, by the relay's counters. *)
Definition accounted (ty : string) (w : world) : Z :=
  counter (w_rt w) "outbox_published_total" [ty] + counter (w_rt w) "outbox_failed_total" [ty]
  + counter (w_rt w) "outbox_dead_total" [ty].

Definition is_total (name : string) : Prop :=
  name ∈ ["outbox_published_total"; "outbox_failed_total"; "outbox_dead_total"].

Lemma wp_Inc_total {A} name ty (a : A) (Q : A -> world -> Prop) w :
  is_total name ->
  (forall w', (forall ty', accounted ty' w' = accounted ty' w + (if decide (ty = ty') then 1 else 0)) ->
     Q a w') ->
  wp (solo any) (Vis (ORuntime (RAdd name [ty] 1) : op sys_sig) (fun _ => Ret a)) Q w.
Proof.
  intros Hn HQ. apply wp_solo_vis. intros ch _. apply wp_ret, HQ. intros ty'.
  unfold exec, accounted, counter; simpl.
  apply elem_of_cons in Hn as [->|[->|[->|[]%elem_of_nil]%elem_of_cons]%elem_of_cons];
    rewrite !lookup_insert; repeat case_decide; simplify_eq; unfold counter; simpl; lia.
Qed.

Lemma outbox_keeps_rt ch o w : w_rt (exec ch w (OOutbox o)).1 = w_rt w.
Proof. done. Qed.

Lemma wp_Produce_rt p key value timeout w :
  wp (solo any) (Produce p key value timeout) (fun _ w' => w_rt w' = w_rt w) w.
Proof.
  eapply wp_mono; [|apply (wp_only any _ _ w_rt _ _ (only_Produce _ p key value timeout (any_producer p)))].
  - by intros r w' [_ ?].
  - intros o ch w' Ho _. by apply (produces_frame (fun _ => True)).
Qed.

Lemma accounted_rt ty w w' : w_rt w' = w_rt w -> accounted ty w' = accounted ty w.
Proof. unfold accounted. by intros ->. Qed.

(** The event is accounted for once. *)
Definition counted (e : Event) (w w' : world) : Prop :=
  forall ty, accounted ty w' = accounted ty w + (if decide (EventType e = ty) then 1 else 0).

Lemma counted_rt e w w1 w' : w_rt w1 = w_rt w -> counted e w1 w' -> counted e w w'.
Proof. intros HR H ty. by rewrite H, (accounted_rt _ _ _ HR). Qed.

(** The statement on the row and the counter that end the handling of an event. *)
Lemma wp_settle_event {A} o name e (a : A) w :
  is_total name ->
  wp (solo any) (Vis (OOutbox o : op sys_sig) (fun _ => Vis (ORuntime (RAdd name [EventType e] 1) : op sys_sig)
    (fun _ => Ret a))) (fun _ => counted e w) w.
Proof.
  intros Hn. apply wp_solo_vis. intros ch _. apply wp_Inc_total; [done|].
  intros w' Hw'. by apply (counted_rt e w (exec ch w (OOutbox o)).1).
Qed.

Lemma wp_maybeDead_counts ps e env' max msg w :
  wp (solo any) (Relay.maybeDead ps e env' max msg)
    (fun x w' => if (x : Relay.producers * bool).2 then counted e w w' else w_rt w' = w_rt w) w.
Proof.
  unfold Relay.maybeDead. destruct (_ && _); [|by apply wp_ret]. apply wp_bind.
  assert (Hend : forall ps1 w1, w_rt w1 = w_rt w ->
    wp (solo any) (_ ← Outbox.Store.MarkDead (ID e) msg;
      Inc "outbox_dead_total" [EventType e];; mret (ps1, true))
      (fun x w' => if (x : Relay.producers * bool).2 then counted e w w' else w_rt w' = w_rt w) w1).
  { intros ps1 w1 Hw1. apply wp_solo_vis. intros ch _. apply wp_Inc_total; [in_list|].
    intros w' Hw'. apply (counted_rt e w (exec ch w1 (OOutbox (QMarkDead (ID e) msg))).1); [done|].
    exact Hw'. }
  destruct (Relay.dlqProducer ps) as [d|]; [|by apply wp_ret, Hend].
  destruct (marshal_dead_envelope _ _) as [b|]; [|by apply wp_ret, Hend].
  apply wp_bind. eapply wp_mono; [|apply wp_Produce_rt]. intros r w1 Hw1.
  by apply wp_ret, Hend.
Qed.

Lemma wp_give_back_counts max ps e env' msg w :
  wp (solo any) (Relay.give_back max ps e env' msg) (fun _ => counted e w) w.
Proof.
  unfold Relay.give_back. apply wp_bind. eapply wp_mono; [|apply wp_maybeDead_counts].
  intros [ps1 []] w1 Hw1; simpl in *; [by apply wp_ret|].
  apply wp_solo_vis. intros ch _. ops.
  eapply wp_mono; [|apply (wp_settle_event _ "outbox_failed_total"); in_list].
  intros ps2 w2. apply counted_rt. done.
Qed.

Lemma wp_publish_counts max ps e w :
  wp (solo any) (Relay.publish max ps e) (fun _ => counted e w) w.
Proof.
  unfold Relay.publish. destruct (marshal_envelope _) as [b|err]; [|apply wp_give_back_counts].
  apply wp_bind. eapply wp_mono; [|apply wp_Produce_rt]. intros [p [err|]] w1 Hw1; simpl.
  - eapply wp_mono; [|apply wp_give_back_counts]. intros ps2 w2. by apply counted_rt.
  - eapply wp_mono; [|apply (wp_settle_event _ "outbox_published_total"); in_list].
    intros ps2 w2. by apply counted_rt.
Qed.

(** C31: No claimed event goes unaccounted: over a batch, whatever fails, the counters
    of published, failed and dead events together grow, for each event type, by the
    number of events of that type. *)
Theorem batch_is_accounted max ps es w or n ty :
  let '(w', _, _) := run or n w (for_fold (S := sys_sig) es ps (Relay.publish max)) in
  accounted ty w' = accounted ty w + Z.of_nat (length (filter (fun e => EventType e = ty) es)).
Proof.
  assert (Hwp : wp (solo any) (for_fold es ps (Relay.publish max)) (fun _ w' =>
    accounted ty w' = accounted ty w + Z.of_nat (length (filter (fun e => EventType e = ty) es))) w).
  { revert ps w. induction es as [|e es IH]; intros ps w; [apply wp_ret; simpl; lia|].
    apply wp_bind. eapply wp_mono; [|apply wp_publish_counts]. intros ps1 w1 H1.
    eapply wp_mono; [|apply IH]. intros ps2 w2 H2. simpl in *. rewrite H2, (H1 ty).
    rewrite filter_cons. case_decide; simpl; lia. }
  pose proof (run_solo any _ _ _ or n (fun _ _ => I) Hwp) as H.
  by destruct (run or n w _) as [[w' m] ps'].
Qed.

(** The backoff of the relay starts at half a second, never decreases, doubles
    from two seconds on until it would exceed a minute, and stays at a minute: the
    shift is bounded, so no number of attempts makes it overflow. *)
Theorem relay_backoff_bounds a :
  500 * Millisecond <= Relay.backoff a <= 60 * Second /\
  Relay.backoff a <= Relay.backoff (a + 1) /\
  (2 <= a < 6 -> Relay.backoff (a + 1) = 2 * Relay.backoff a) /\
  (7 <= a -> Relay.backoff a = 60 * Second).
Proof.
  assert (Hsmall : forall b, b <= 1 -> Relay.backoff b = 500 * Millisecond).
  { intros b Hb. unfold Relay.backoff. by rewrite (proj2 (Z.leb_le _ _) Hb). }
  assert (Hbig : forall b, 7 <= b -> Relay.backoff b = 60 * Second).
  { intros b Hb. unfold Relay.backoff. rewrite (proj2 (Z.leb_gt _ _)) by lia.
    by rewrite Z.min_r by lia. }
  destruct (decide (a <= 0)); [rewrite !Hsmall by lia; unfold Millisecond, Second; lia|].
  destruct (decide (7 <= a)); [rewrite !Hbig by lia; unfold Millisecond, Second; lia|].
  assert (Ha : a = 1 \/ a = 2 \/ a = 3 \/ a = 4 \/ a = 5 \/ a = 6) by lia.
  destruct Ha as [->|[->|[->|[->|[->| ->]]]]];
    repeat match goal with |- context [Relay.backoff ?b] => evaluate (Relay.backoff b) end;
    unfold Millisecond, Second; lia.
Qed.
End Accounting.

(** ** Witnesses *)

Definition two_rows_world : world :=
  with_outbox {[ 1 := a_row "e-1" 10; 2 := set_claimed 500 (a_row "e-2" 20) ]} empty_world.
Definition the_cfg : Relay.relay_config := Relay.RelayConfig 50 (30 * Second) 10.
Definition the_producers : Relay.producers :=
  Relay.Producers (a_producer the_topic) (Some (a_producer "tickets.dlq")).
Definition all_well : nat -> sys_op -> choice := fun _ _ => fine (60 * Second) "".

Example tick_delivers_witness :
  (run all_well 0 two_rows_world (Relay.tick (S := sys_sig) the_cfg the_producers)).2
    = (the_producers, None) /\
  exists r' m,
    w_outbox (run all_well 0 two_rows_world (Relay.tick (S := sys_sig) the_cfg the_producers)).1.1
      !! 2 = Some r' /\ r_status r' = "sent" /\
    row_evolves (set_claimed 500 (a_row "e-2" 20)) r' /\
    m ∈ log_of the_topic
      (run all_well 0 two_rows_world (Relay.tick (S := sys_sig) the_cfg the_producers)).1.1 /\
    event_message (set_claimed 500 (a_row "e-2" 20)) m.
Proof.
  pose proof (tick_delivers the_topic (60 * Second) the_cfg the_producers two_rows_world
    all_well 0) as H.
  destruct (run all_well 0 two_rows_world _) as [[w' n'] r]. simpl.
  destruct H as [Hr H].
  - intros i o. split; [done|]. by destruct o as [|[]| | | |].
  - exists (newWriter (MkProducerConfig ["localhost:9092"] the_topic "outbox-relay" (5 * Second))).
    by split.
  - apply map_Forall_insert_2; [eexists; vm_compute; reflexivity|].
    apply map_Forall_singleton. eexists. vm_compute. reflexivity.
  - apply (bool_decide_unpack _). vm_compute. exact I.
  - vm_compute. discriminate.
  - split; [done|]. apply (H 2); [vm_compute; reflexivity|]. right. vm_compute. reflexivity.
Defined.

(** The topic refuses a write and the dead letter topic accepts it. *)
Definition no_space : nat -> sys_op -> choice := fun _ o =>
  match o with
  | OKafka (KWrite wr _ _) =>
      if bool_decide (wr_Topic wr = the_topic) then failing 100 (Refused (EMsg "no space left"))
      else fine 100 ""
  | _ => fine 100 ""
  end.

Example publish_gives_back_witness :
  given_back the_topic (EMsg "no space left") 100 100 1 (Some (a_producer "tickets.dlq"))
    (returning 2 (set_claimed 500 (a_row "e-2" 20))) (set_claimed 500 (a_row "e-2" 20))
    two_rows_world
    (run no_space 0 two_rows_world (Relay.publish (S := sys_sig) 1 the_producers
       (returning 2 (set_claimed 500 (a_row "e-2" 20))))).1.1.
Proof.
  pose proof (publish_gives_back the_topic (EMsg "no space left") 100 100 1 the_producers
    (returning 2 (set_claimed 500 (a_row "e-2" 20))) two_rows_world no_space 0
    (set_claimed 500 (a_row "e-2" 20))
    (default "" (match marshal_envelope (Relay.envelope_of
       (returning 2 (set_claimed 500 (a_row "e-2" 20)))) with Ok b => Some b | Err _ => None end))) as H.
  destruct (run no_space 0 two_rows_world _) as [[w' n'] r]. simpl. apply H.
  - intros i o. unfold topic_down, no_space. destruct o as [| | |[]| |]; try done. by case_bool_decide.
  - vm_compute. reflexivity.
  - split; [by apply a_producer_on|by eexists].
  - by apply a_producer_on.
  - intros d [= <-]. by eexists.
  - vm_compute. reflexivity.
  - reflexivity.
Defined.
