(* ===== verification/Redelivery.v ===== *)
(** * Properties of the consumer

    Handling an event twice notifies once, the retries of a message are bounded -
    but not for every message -, a turn whose calls succeed consumes its message, what
    becomes of one that cannot be decoded, and what the loops do between messages. *)

From S2P Require Import Prelude Effects GoString Runtime Kafka Events Postgres Outbox.
From S2P Require Import Processed Ticket Handler World System Safety Solo Concrete.
From S2P Require Consumer.
Import Consumer.

Section Redelivery.
Context {UT : UnicodeTables} {J : Json} {PG : Postgres}.
Local Abbreviation wpa := (wp (solo any)).

(** ** StartProcessing *)

(** The event as [handleMessage] stores it. *)
Definition stored_event (e : Envelope) : ProcessedEvent :=
  MkProcessedEvent (env_EventID e) (env_EventType e) (env_Aggregate e) (env_AggregateID e)
                   (env_Payload e).

(** What an answer of [StartProcessing] says of the row. *)
Lemma start_answers now e (t t' : ptable) st a :
  start_stmt now e t = (t', Ok (st, a)) ->
  exists u p, uuid_in (pv_EventID e) = Some u /\ t' !! u = Some p /\ pe_status p = st /\
    pe_attempts p = a /\
    match t !! u with
    | Some q => p = set_started now q
    | None => st = "processing" /\ a = 1
    end.
Proof.
  unfold start_stmt. destruct (uuid_in (pv_EventID e)) as [u|]; [|done].
  destruct (jsonb_in (pv_Payload e)) as [pl|]; [|done]. destruct (_ && _ && _); [|done].
  set (r' := match t !! u with None => _ | Some r => _ end).
  destruct (int4_max <? _); [done|]. intros [= <- <- <-].
  exists u, r'. split; [done|]. split; [apply lookup_insert_eq|]. split; [done|]. split; [done|].
  unfold r'. by destruct (t !! u).
Qed.

(** A final row is left as it is, but for the time it was last seen. *)
Lemma start_final ch e (t : ptable) u p :
  uuid_in (pv_EventID e) = Some u -> t !! u = Some p -> final (pe_status p) = true ->
  (notify_next ch t (QStart e) !! u = Some p \/
   notify_next ch t (QStart e) !! u = Some (set_started (ch_now ch) p)) /\
  forall st a, (notify_exec ch t (QStart e)).2 = Ok (st, a) -> final st = true.
Proof.
  intros Hu Hp Hf. split.
  - destruct (notify_next_cases ch t (QStart e)) as [->| ->]; [by left|]. simpl.
    unfold start_stmt. rewrite Hu. destruct (jsonb_in _) as [pl|]; [|by left].
    destruct (_ && _ && _); [|by left]. rewrite Hp.
    destruct (int4_max <? _); [by left|]. right. apply lookup_insert_eq.
  - intros st a Hok%notify_exec_ok. simpl in Hok.
    apply start_answers in Hok as (u'&p'&Hu'&_&Hs&_&Hm). simplify_eq. rewrite Hp in Hm. subst p'.
    unfold set_started. simpl. by rewrite Hf.
Qed.

Lemma set_started_final now p :
  final (pe_status p) = true ->
  pe_status (set_started now p) = pe_status p /\ pe_attempts (set_started now p) = pe_attempts p.
Proof. intros Hf. unfold set_started. simpl. by rewrite Hf. Qed.

Lemma wp_start (E : env) e (Q : Started -> world -> Prop) w :
  (forall ch, E (ONotify (QStart e)) ch ->
     match (notify_exec ch (w_processed w) (QStart e)).2 with
     | Err err => Q (MkStarted false 0 "" (Some err))
     | Ok (st, a) => Q (MkStarted (negb (final st)) a st None)
     end (with_processed (notify_next ch (w_processed w) (QStart e)) w)) ->
  wp (solo E) (Processed.Store.StartProcessing e) Q w.
Proof.
  intros H. apply wp_solo_vis. intros ch Hch. specialize (H ch Hch). rewrite exec_notify. ops.
  cbn [fst snd]. destruct (notify_exec ch (w_processed w) (QStart e)).2 as [[st a]|err]; [|exact H].
  unfold final in H. cbn. destruct (_ || _); exact H.
Qed.

(** ** Handling an event twice *)

(** The event of the message is settled: its row is [done] or [failed]. *)
Definition settled (value : string) (w : world) : Prop :=
  exists e u p, unmarshal_envelope value = (e, None) /\ uuid_in (env_EventID e) = Some u /\
    w_processed w !! u = Some p /\ final (pe_status p) = true.

Lemma handled_settles cfg value ty a w :
  wpa (handleMessage cfg value ty a) (fun h w' => h_err h = None -> settled value w') w.
Proof.
  unfold handleMessage. destruct (unmarshal_envelope value) as [e [err|]] eqn:He; [by apply wp_ret|].
  fold (stored_event e). apply wp_bind, wp_start. intros ch _.
  destruct (notify_exec ch (w_processed w) (QStart (stored_event e))).2 as [[st a']|err] eqn:E;
    cbn -[notify_next]; [|by apply wp_ret].
  pose proof (notify_exec_ok _ _ _ _ E) as Hok. simpl in Hok.
  apply start_answers in Hok as (u&p&Hu&Hp&Hs&_&_). simpl in Hu.
  destruct (final st) eqn:Ef; cbn -[notify_next].
  { apply wp_ret. intros _. exists e, u, p. split; [done|]. split; [done|]. split; [done|].
    by rewrite Hs. }
  apply wp_solo_vis. intros ch1 _. destruct (matchForceFail _ _).
  { apply wp_solo_vis. intros ch2 _. by apply wp_ret. }
  apply wp_solo_vis. intros ch2 _. rewrite exec_notify. ops. cbn [fst snd].
  destruct (notify_exec ch2 _ (QDone (env_EventID e))).2 as [[]|err] eqn:E2; simpl;
    [|apply wp_solo_vis; intros ch3 _; by apply wp_ret].
  apply wp_ret. intros _. pose proof (notify_exec_ok _ _ _ _ E2) as Hok2. simpl in Hok2.
  unfold update_event in Hok2. rewrite Hu in Hok2. injection Hok2 as Hn.
  exists e, u, (set_done (ch_now ch2) p). split; [done|]. split; [done|]. split; [|done].
  simpl. rewrite <- Hn, lookup_alter_eq, Hp. done.
Qed.

(** Handling a settled event does nothing but look. *)
Lemma settled_is_skipped cfg value ty a w e u p :
  unmarshal_envelope value = (e, None) -> uuid_in (env_EventID e) = Some u ->
  w_processed w !! u = Some p -> final (pe_status p) = true ->
  wpa (handleMessage cfg value ty a) (fun _ w' =>
    w_rt w' = w_rt w /\ w_broker w' = w_broker w /\
    exists p', w_processed w' !! u = Some p' /\ pe_status p' = pe_status p /\
      pe_attempts p' = pe_attempts p) w.
Proof.
  intros He Hu Hp Hf. unfold handleMessage. rewrite He.
  fold (stored_event e). apply wp_bind, wp_start. intros ch _. destruct (start_final ch (stored_event e) _ u p Hu Hp Hf) as [Hrow Hfin].
  assert (Hw : exists p', notify_next ch (w_processed w) (QStart (stored_event e)) !! u = Some p' /\
    pe_status p' = pe_status p /\ pe_attempts p' = pe_attempts p).
  { destruct Hrow as [Hr|Hr]; eexists; (split; [exact Hr|]); [done|by apply set_started_final]. }
  destruct (notify_exec ch (w_processed w) (QStart (stored_event e))).2 as [[st a']|err];
    cbn -[notify_next]; [|by apply wp_ret].
  rewrite (Hfin st a' eq_refl). by apply wp_ret.
Qed.

(** C8: No second notification. When [handleMessage] has
    returned nil, handling the same message again - after a crash before the commit,
    a rebalance, or a second publication of the event - notifies nobody, writes
    nothing to Kafka and leaves the event settled with its status and attempts. *)
Theorem redelivery_is_silent cfg cfg' value ty a ty' a' w or n or' n' :
  let '(w1, _, h) := run or n w (handleMessage (S := sys_sig) cfg value ty a) in
  let '(w2, _, _) := run or' n' w1 (handleMessage (S := sys_sig) cfg' value ty' a') in
  h_err h = None ->
  settled value w1 /\ notified w2 = notified w1 /\ w_broker w2 = w_broker w1 /\
  forall u p, (exists e, unmarshal_envelope value = (e, None) /\ uuid_in (env_EventID e) = Some u) ->
    w_processed w1 !! u = Some p ->
    exists p', w_processed w2 !! u = Some p' /\ pe_status p' = pe_status p /\
      pe_attempts p' = pe_attempts p.
Proof.
  pose proof (run_solo any _ _ _ or n (fun _ _ => I) (handled_settles cfg value ty a w)) as H1.
  destruct (run or n w _) as [[w1 n1] h].
  destruct (run or' n' w1 _) as [[w2 n2] h2] eqn:E2. intros Hh.
  destruct (H1 Hh) as (e&u&p&He&Hu&Hp&Hf).
  pose proof (run_solo any _ _ _ or' n' (fun _ _ => I)
    (settled_is_skipped cfg' value ty' a' w1 e u p He Hu Hp Hf)) as H2.
  rewrite E2 in H2. destruct H2 as (Hrt&Hb&p'&Hp'&Hs&Ha).
  split; [by exists e, u, p|]. split; [unfold notified; by rewrite Hrt|]. split; [done|].
  intros u0 p0 (e0&He0&Hu0) Hp0. assert (e0 = e) as -> by congruence.
  assert (u0 = u) as -> by congruence. assert (p0 = p) as -> by congruence. eauto.
Qed.

(** ** The inner loop *)

(** [handle_turn] repeated on the same message, at most [fuel] times. *)
Fixpoint handle_turns (cfg : consumer_config) (fuel : nat) (pc : consumer_pc)
    : prog sys_sig (option consumer_pc) :=
  match fuel, pc with
  | Datatypes.S fuel, PcHandle st offset msg evType attempt =>
      r ← handle_turn cfg st offset msg evType attempt;
      match r with
      | Some pc => handle_turns cfg fuel pc
      | None => mret None
      end
  | _, _ => mret (Some pc)
  end.

(** Still in the inner loop. *)
Definition retrying (o : option consumer_pc) : bool :=
  match o with Some (PcHandle _ _ _ _ _) => true | _ => false end.

Definition attempts_of (u : string) (w : world) : option Z := pe_attempts <$> w_processed w !! u.

(** Only [StartProcessing] counts attempts. *)
Definition not_start (o : sys_op) : Prop :=
  match o with ONotify (QStart _) => False | _ => True end.

Lemma not_start_keeps u o ch w :
  not_start o -> attempts_of u (exec ch w o).1 = attempts_of u w.
Proof.
  destruct o as [o|o|o|o|o|o]; try done. intros Hns. rewrite exec_notify.
  unfold attempts_of. cbn [fst w_processed with_processed].
  destruct (notify_next_cases ch (w_processed w) o) as [->| ->]; [done|].
  assert (Hupd : forall id f, (forall q, pe_attempts (f q) = pe_attempts q) ->
    pe_attempts <$> (update_event id f (w_processed w)).1 !! u = pe_attempts <$> w_processed w !! u).
  { intros id f Hf. unfold update_event. destruct (uuid_in id) as [v|]; [|done]. simpl.
    rewrite lookup_alter. case_decide; [|done]. subst.
    destruct (w_processed w !! u); [|done]. simpl. by rewrite Hf. }
  destruct o as [e|id|id msg|id msg]; simpl; [done|by apply Hupd|..];
    destruct (text_ok msg); done || by apply Hupd.
Qed.

(** A turn of the inner loop, after the handling of the message, goes on with the
    same message only when its attempts are not used up. *)
Definition goes_on (cfg : consumer_config) (st : consumer_state) (off : place) (msg : message)
    (h : handled) (o : option consumer_pc) : Prop :=
  match o with
  | Some (PcHandle st' off' msg' ty a) =>
      h_err h <> None /\ st' = st /\ off' = off /\ msg' = msg /\ ty = h_eventType h /\ a = h_attempt h /\
      (0 < maxAttempts cfg -> a < maxAttempts cfg)
  | _ => True
  end.

Definition after_handling (cfg : consumer_config) (st : consumer_state) (off : place) (msg : message)
    (h : handled) : prog sys_sig (option consumer_pc) :=
  match h_err h with
  | None =>
      Inc "notify_processed_total" [h_eventType h; "ok"];;
      r ← CommitMessages (consumer st) off;
      match r with
      | Err _ => c ← Reopen (consumer st); now ← Now; mret (Some (PcFetch (set_reopened st c now)))
      | Ok _ => committed;; mret (Some (PcFetch st))
      end
  | Some err =>
      let reason := classify err in
      Inc "notify_errors_total" [h_eventType h; reason];;
      if bool_decide (reason = "unmarshal") then
        st ← produce_dlq st msg err;
        commit_dead st off (h_eventType h);;
        mret (Some (PcFetch st))
      else if (0 <? maxAttempts cfg) && (maxAttempts cfg <=? h_attempt h) then
        st ← produce_dlq st msg err;
        _ ← Processed.Store.MarkDead (extractEventID (m_value msg)) (Error err);
        commit_dead st off (h_eventType h);;
        mret (Some (PcFetch st))
      else
        stop ← AfterOrDone (backoff (h_attempt h));
        if (stop : bool) then shutdown st;; mret None
        else mret (Some (PcHandle st off msg (h_eventType h) (h_attempt h)))
  end.

Lemma handle_turn_eq cfg st off msg ty a :
  handle_turn (S := sys_sig) cfg st off msg ty a =
    (h ← handleMessage cfg (m_value msg) ty a; after_handling cfg st off msg h).
Proof. done. Qed.

Lemma only_committed (P : op sys_sig -> Prop) :
  (forall o, P (ORuntime o)) -> only P (fun _ => True) (committed (S := sys_sig)).
Proof. intros HP. split; [done|]. intros r. split; [done|]. intros now. by split. Qed.

Lemma only_commit_dead st off ty :
  only not_start (fun _ => True) (commit_dead (S := sys_sig) st off ty).
Proof.
  only_call. intros [u|err] _; [|by split].
  eapply only_bind; [by apply only_committed|]. by split.
Qed.

Lemma only_produce_dlq st msg err :
  only not_start (fun _ => True) (produce_dlq (S := sys_sig) st msg err).
Proof.
  unfold produce_dlq. destruct (dlqProducer st) as [d|]; [|done].
  eapply only_bind; [|done].
  eapply only_mono; [| |apply (only_Produce (fun _ => True)), any_producer]; [|done].
  intros o. by destruct o as [| |[]| | |].
Qed.

Lemma only_after_handling cfg st off msg h :
  only not_start (goes_on cfg st off msg h) (after_handling cfg st off msg h).
Proof.
  unfold after_handling. destruct (h_err h) as [err|] eqn:Eh.
  - only_call. intros _ _. case_bool_decide.
    { eapply only_bind; [apply only_produce_dlq|]. intros st' _.
      by eapply only_bind; [apply only_commit_dead|]. }
    destruct (_ && _) eqn:E.
    { eapply only_bind; [apply only_produce_dlq|]. intros st' _.
      only_call. intros _ _.
      by eapply only_bind; [apply only_commit_dead|]. }
    only_call. intros [|] _.
    { by eapply only_bind; [by apply only_consumer_shutdown|]. }
    split; [by rewrite Eh|]. do 5 (split; [done|]). intros Hm.
    apply andb_false_iff in E as [E|E]; bool_props; lia.
  - only_call. intros _ _. only_call. intros [u|err] _.
    + by eapply only_bind; [apply only_committed|].
    + repeat (split; [done|]; let r := fresh in intros r). done.
Qed.

(** The rest of [handleMessage] does not count attempts either. *)
Definition store_answers : env := fun o ch =>
  match o with ONotify (QStart _) => ch_out ch = Done | _ => True end.

(** The message can be stored, under the key [u]. *)
Definition storable (value : string) (u : string) : Prop :=
  exists e, unmarshal_envelope value = (e, None) /\ uuid_in (env_EventID e) = Some u /\
    is_Some (jsonb_in (env_Payload e)) /\
    text_ok (env_EventType e) && text_ok (env_Aggregate e) && text_ok (env_AggregateID e) = true.

Lemma start_counts now e (t : ptable) u :
  uuid_in (env_EventID e) = Some u -> is_Some (jsonb_in (env_Payload e)) ->
  text_ok (env_EventType e) && text_ok (env_Aggregate e) && text_ok (env_AggregateID e) = true ->
  default 0 (pe_attempts <$> t !! u) < int4_max ->
  exists t' st a, start_stmt now (stored_event e) t = (t', Ok (st, a)) /\
    pe_attempts <$> t' !! u = Some a /\
    (final st = true \/ a = default 0 (pe_attempts <$> t !! u) + 1).
Proof.
  intros Hu [pl Hpl] Ht Ha. unfold start_stmt. simpl. rewrite Hu, Hpl, Ht.
  destruct (t !! u) as [q|]; simpl in *.
  - unfold set_started at 1. simpl. rewrite (proj2 (Z.ltb_ge _ _)) by (case_match; lia).
    eexists _, _, _. split; [done|]. rewrite lookup_insert_eq. split; [done|]. simpl.
    destruct (final (pe_status q)) eqn:E; [left|right]; done.
  - eexists _, _, _. split; [done|]. rewrite lookup_insert_eq. by split; [|right].
Qed.

Lemma handle_counts cfg value ty a w u :
  storable value u -> default 0 (attempts_of u w) < int4_max ->
  wp (solo store_answers) (handleMessage cfg value ty a) (fun h w' =>
    h_err h = None \/
    (h_attempt h = default 0 (attempts_of u w) + 1 /\ attempts_of u w' = Some (h_attempt h))) w.
Proof.
  intros (e&He&Hu&Hpl&Ht) Ha. unfold handleMessage. rewrite He. fold (stored_event e).
  apply wp_bind, wp_start. intros ch Hch. simpl in Hch.
  destruct (start_counts (ch_now ch) e (w_processed w) u Hu Hpl Ht Ha) as (t'&st&a'&Hs&Ha'&Hor).
  assert (HE : notify_exec ch (w_processed w) (QStart (stored_event e)) = (t', Ok (st, a'))).
  { unfold notify_exec. by rewrite Hch. }
  unfold notify_next. rewrite HE. cbn [fst snd].
  set (w1 := with_processed t' w). destruct (final st) eqn:Ef; cbn; [by apply wp_ret; left|].
  destruct Hor as [?| ->]; [done|].
  eapply wp_mono; [|apply (wp_only _ not_start (fun h => h_attempt h =
    default 0 (attempts_of u w) + 1) (attempts_of u))].
  - intros h w' [Hh Hw']. right. split; [done|]. by rewrite Hw', Hh.
  - split; [done|]. intros x. cbn. destruct (matchForceFail _ _); [by split|].
    split; [done|]. intros [[]|err]; cbn; [done|by split].
  - intros o ch' w' Ho _. by apply not_start_keeps.
Qed.

Lemma turn_counts cfg st off msg ty a w u :
  storable (m_value msg) u -> default 0 (attempts_of u w) < int4_max ->
  wp (solo store_answers) (handle_turn cfg st off msg ty a) (fun o w' =>
    match o with
    | Some (PcHandle _ _ msg' _ a') => msg' = msg /\ (0 < maxAttempts cfg -> a' < maxAttempts cfg) /\
        a' = default 0 (attempts_of u w) + 1 /\ attempts_of u w' = Some a'
    | _ => True
    end) w.
Proof.
  intros Hs Ha. rewrite handle_turn_eq. apply wp_bind.
  eapply wp_mono; [|by apply (handle_counts cfg _ ty a w u)]. intros h w1 Hh.
  eapply wp_mono; [|apply (wp_only _ not_start (goes_on cfg st off msg h) (attempts_of u));
    [apply only_after_handling|]].
  - intros [[st'|st' off' msg' ty' a']|] w2 [Hg Hw2]; [done| |done].
    destruct Hg as (Hne&_&_&->&_&->&Hlt). destruct Hh as [?|[Heq Hw1]]; [done|].
    split; [done|]. split; [done|]. split; [done|]. by rewrite Hw2.
  - intros o ch w2 Ho _. by apply not_start_keeps.
Qed.

Lemma turns_are_bounded cfg fuel st off msg ty a w u :
  storable (m_value msg) u -> 0 < maxAttempts cfg <= int4_max ->
  default 0 (attempts_of u w) < int4_max -> (0 < fuel)%nat ->
  maxAttempts cfg - default 0 (attempts_of u w) <= Z.of_nat fuel ->
  wp (solo store_answers) (handle_turns cfg fuel (PcHandle st off msg ty a))
    (fun o _ => retrying o = false) w.
Proof.
  intros Hs Hm. revert st off ty a w.
  induction fuel as [|fuel IH]; intros st off ty a w Ha Hf Hle; [lia|]. apply wp_bind.
  eapply wp_mono; [|by apply (turn_counts cfg st off msg ty a w u)].
  intros [[st'|st' off' msg' ty' a']|] w1 Hw1; [by destruct fuel| |done].
  destruct Hw1 as (->&Hlt&Heq&Hw1). apply IH; rewrite ?Hw1; simpl; lia.
Qed.

(** C20: Retries are bounded. With a limit on attempts, and as long as Postgres carries
    out [StartProcessing], a message that can be stored is handled at most as many
    times as the limit before the inner loop ends - committed, given up, or stopped by
    a shutdown - whatever else fails. *)
Theorem retries_are_bounded cfg st off msg ty a w u or n :
  (forall i o, store_answers o (or i o)) -> storable (m_value msg) u ->
  0 < maxAttempts cfg <= int4_max -> 0 <= default 0 (attempts_of u w) < int4_max ->
  let '(_, _, o) := run or n w
    (handle_turns cfg (Z.to_nat (maxAttempts cfg)) (PcHandle st off msg ty a)) in
  retrying o = false.
Proof.
  intros Hor Hs Hm Ha.
  assert (Hwp : wp (solo store_answers) (handle_turns cfg (Z.to_nat (maxAttempts cfg))
    (PcHandle st off msg ty a)) (fun o _ => retrying o = false) w).
  { apply (turns_are_bounded cfg _ st off msg ty a w u); lia || done. }
  pose proof (run_solo _ _ _ _ or n Hor Hwp) as H. by destruct (run or n w _) as [[w' m] o].
Qed.

(** ** Poison pills *)

(** JSON that decodes to an envelope which Postgres cannot store. *)
Definition unstorable (value : string) : Prop :=
  exists e, unmarshal_envelope value = (e, None) /\
    (uuid_in (env_EventID e) = None \/ jsonb_in (env_Payload e) = None).

Lemma unstorable_start now e (t : ptable) :
  uuid_in (env_EventID e) = None \/ jsonb_in (env_Payload e) = None ->
  exists err, start_stmt now (stored_event e) t = (t, Err err).
Proof.
  unfold start_stmt. simpl. destruct (uuid_in _), (jsonb_in _); intros [?|?]; by eauto.
Qed.

Lemma unstorable_fails (E : env) cfg value ty a w :
  unstorable value ->
  wp (solo E) (handleMessage cfg value ty a) (fun h w' =>
    w_broker w' = w_broker w /\ h_attempt h = a /\ exists err, h_err h = Some (wrap "db_start" err)) w.
Proof.
  intros (e&He&Hbad). unfold handleMessage. rewrite He. fold (stored_event e).
  apply wp_bind, wp_start. intros ch _.
  destruct (unstorable_start (ch_now ch) e (w_processed w) Hbad) as [err Hs].
  destruct (notify_exec ch (w_processed w) (QStart (stored_event e))).2 as [[st a']|err'] eqn:E1.
  - apply notify_exec_ok in E1. simpl in E1. rewrite Hs in E1. done.
  - cbn. apply wp_ret. split; [done|]. split; [done|]. by exists err'.
Qed.

Definition never_cancelled : env := fun _ ch => ch_cancel ch = false.

Lemma poison_turn cfg st off msg ty w :
  unstorable (m_value msg) ->
  wp (solo never_cancelled) (handle_turn cfg st off msg ty 0) (fun o w' =>
    w_broker w' = w_broker w /\ exists ty', o = Some (PcHandle st off msg ty' 0)) w.
Proof.
  intros Hbad. rewrite handle_turn_eq. apply wp_bind.
  eapply wp_mono; [|by apply unstorable_fails]. intros h w1 (Hb&Ha&err&Herr).
  unfold after_handling. rewrite Herr, Ha. apply wp_solo_vis. intros ch _.
  assert (Hmax : (0 <? maxAttempts cfg) && (maxAttempts cfg <=? 0) = false).
  { apply andb_false_iff. destruct (Z.ltb_spec 0 (maxAttempts cfg)); [right; lia|by left]. }
  cbn. rewrite Hmax. apply wp_solo_vis. intros ch' Hc. cbn. rewrite Hc. apply wp_ret.
  split; [exact Hb|]. by eexists.
Qed.

(** C37: A poison pill blocks the consumer for ever. A message that is valid JSON but
    whose event id is no UUID (or whose payload is no JSON Postgres accepts) is never
    committed and never sent to the dead letters, for any limit on attempts and any
    number of turns: [StartProcessing] fails, so its attempts stay 0. *)
Theorem poison_pill_blocks cfg fuel st off msg ty w or n :
  (forall i o, never_cancelled o (or i o)) -> unstorable (m_value msg) ->
  let '(w', _, o) := run or n w (handle_turns cfg fuel (PcHandle st off msg ty 0)) in
  w_broker w' = w_broker w /\ exists ty', o = Some (PcHandle st off msg ty' 0).
Proof.
  intros Hor Hbad.
  assert (Hwp : wp (solo never_cancelled) (handle_turns cfg fuel (PcHandle st off msg ty 0))
    (fun o w' => w_broker w' = w_broker w /\ exists ty', o = Some (PcHandle st off msg ty' 0)) w).
  { revert ty w. induction fuel as [|fuel IH]; intros ty w; [apply wp_ret; by split; [|eexists]|].
    apply wp_bind. eapply wp_mono; [|by apply poison_turn]. intros o w1 (Hb&ty'&->).
    rewrite <- Hb. apply IH. }
  pose proof (run_solo _ _ _ _ or n Hor Hwp) as H. by destruct (run or n w _) as [[w' m] o].
Qed.

(** ** Messages that cannot be decoded *)

Definition carried_out : env := fun _ ch => ch_out ch = Done.

(** What a turn leaves of a message that cannot be decoded: copies of its dead letter, and
    its offset committed. *)
Definition lost (st : consumer_state) (at_ : place) (msg : message) (wr : Writer) (err : goerr)
    (w w' : world) : Prop :=
  (exists k, (S k <= MaxAttempts)%nat /\
     topic_log (w_broker w') (wr_Topic wr) = topic_log (w_broker w) (wr_Topic wr) ++
       replicate (S k) (Message (m_key msg) (wrapDLQ (m_value msg) (wrap "unmarshal" err)))) /\
  exists from, br_committed (w_broker w') !!
    (rd_Topic (c_r (consumer st)), rd_GroupID (c_r (consumer st)), pl_partition at_) =
      Some (from, S (pl_offset at_)).

(** A message that cannot be decoded is committed, and its dead letter is what [wrapDLQ]
    makes of it. *)
Lemma undecodable_turn cfg st at_ msg ty a w or n d wr e err :
  (forall i o, carried_out o (or i o)) -> dlqProducer st = Some d -> p_w d = Some wr ->
  unmarshal_envelope (m_value msg) = (e, Some err) ->
  let '(w', _, o) := run or n w (handle_turn (S := sys_sig) cfg st at_ msg ty a) in
  o = Some (PcFetch st) /\ lost st at_ msg wr err w w'.
Proof.
  intros Hor Hd Hw He.
  assert (Hwp : wp (solo carried_out) (handle_turn cfg st at_ msg ty a) (fun o w' =>
    o = Some (PcFetch st) /\ lost st at_ msg wr err w w') w).
  { rewrite handle_turn_eq. unfold handleMessage. rewrite He. apply wp_bind, wp_ret.
    unfold after_handling. cbn [h_err h_eventType]. apply wp_solo_vis. intros ch _. unfold exec; simpl.
    apply wp_bind. unfold produce_dlq. rewrite Hd. apply wp_bind.
    apply (wp_Produce_done _ _ wr); [done|by intros|]. intros ch1 H1.
    apply wp_ret. cbn [fst]. replace (set_dlq st (Some d)) with st by (destruct st; simpl in *; by subst).
    apply wp_solo_vis. intros ch2 H2. ops. unfold exec; simpl. unfold kafka_next, kafka_exec.
    rewrite H2. simpl. do 4 (apply wp_solo_vis; intros ? _). apply wp_ret.
    unfold exec; cbn -[commit write_message]. split; [done|]. split.
    - pose proof (copies_bound ch1). unfold copies_now in *. rewrite H1 in *.
      exists (ch_copies ch1 `min` (MaxAttempts - 1))%nat. split; [lia|].
      etrans; [exact (topic_log_write ch1 (wr_Topic wr) _ (w_broker w) (wr_Topic wr))|].
      rewrite decide_True by done. unfold copies_now. by rewrite H1.
    - eexists. apply lookup_insert_eq. }
  pose proof (run_solo _ _ _ _ or n Hor Hwp) as H. by destruct (run or n w _) as [[w' m] o].
Qed.

(** ** A message that can be stored *)

(** The event is settled already. *)
Definition already (u : string) (w : world) : bool :=
  match w_processed w !! u with Some p => final (pe_status p) | None => false end.

(** Its row is final in the end, and it is notified unless it had been settled before. *)
Definition consumed (e : Envelope) (u : string) (w w' : world) : Prop :=
  already u w' = true /\
  notified w' = notified w ++ (if already u w then [] else [env_EventID e]).

Lemma start_final_iff now e (t t' : ptable) st a u :
  uuid_in (pv_EventID e) = Some u -> start_stmt now e t = (t', Ok (st, a)) ->
  (exists p, t' !! u = Some p /\ pe_status p = st) /\
  final st = match t !! u with Some q => final (pe_status q) | None => false end.
Proof.
  intros Hu Hs. apply start_answers in Hs as (u'&p&Hu'&Hp&Hst&_&Hm). simplify_eq.
  split; [by exists p|]. destruct (t !! u) as [q|]; [subst p|by destruct Hm as [-> _]].
  unfold set_started; simpl. by destruct (final (pe_status q)) eqn:E.
Qed.

Lemma handle_consumes cfg value ty a w e u :
  unmarshal_envelope value = (e, None) -> storable value u ->
  default 0 (attempts_of u w) < int4_max -> matchForceFail cfg (env_EventType e) = false ->
  wp (solo carried_out) (handleMessage cfg value ty a) (fun h w' =>
    h_err h = None /\ w_broker w' = w_broker w /\ consumed e u w w') w.
Proof.
  intros He (e'&He'&Hu&Hpl&Ht) Ha Hf. assert (e' = e) as -> by congruence.
  unfold handleMessage. rewrite He. fold (stored_event e).
  apply wp_bind, wp_start. intros ch Hch.
  destruct (start_counts (ch_now ch) e (w_processed w) u Hu Hpl Ht Ha) as (t'&st&a'&Hs&_).
  assert (HE : notify_exec ch (w_processed w) (QStart (stored_event e)) = (t', Ok (st, a'))).
  { unfold notify_exec. by rewrite Hch. }
  destruct (start_final_iff _ (stored_event e) _ _ _ _ u Hu Hs) as [(p&Hp&Hst) Hfin].
  unfold notify_next. rewrite HE. cbn [fst snd].
  assert (Hal : already u w = final st) by (unfold already; by rewrite Hfin).
  unfold consumed. rewrite Hal.
  destruct (final st) eqn:Ef; cbn.
  { apply wp_ret. split; [done|]. split; [done|]. unfold already. cbn. rewrite Hp, Hst, Ef.
    by rewrite app_nil_r. }
  apply wp_solo_vis. intros ch1 _. rewrite Hf. apply wp_solo_vis. intros ch2 H2. rewrite exec_notify. ops.
  unfold notify_next, notify_exec. rewrite H2. cbn. unfold update_event. rewrite Hu. cbn.
  apply wp_ret. split; [done|]. split; [done|]. split; [|done].
  unfold already. cbn. by rewrite lookup_alter_eq, Hp.
Qed.

(** C22: Progress of the consumer. A message that can be decoded and stored, and is
    not made to fail by the configuration, is consumed in one turn of the inner loop whose
    calls succeed: its event is notified, once, unless it was settled before; it is settled
    then, the offset of the message is committed, no topic changes, and the consumer goes
    on with the next message. *)
Theorem message_is_consumed cfg st at_ msg ty a w or n e u :
  (forall i o, carried_out o (or i o)) ->
  unmarshal_envelope (m_value msg) = (e, None) -> storable (m_value msg) u ->
  default 0 (attempts_of u w) < int4_max -> matchForceFail cfg (env_EventType e) = false ->
  let '(w', _, o) := run or n w (handle_turn (S := sys_sig) cfg st at_ msg ty a) in
  o = Some (PcFetch st) /\ consumed e u w w' /\ br_topics (w_broker w') = br_topics (w_broker w) /\
  exists from, br_committed (w_broker w') !!
    (rd_Topic (c_r (consumer st)), rd_GroupID (c_r (consumer st)), pl_partition at_) =
      Some (from, Datatypes.S (pl_offset at_)).
Proof.
  intros Hor He Hs Ha Hf.
  assert (Hwp : wp (solo carried_out) (handle_turn cfg st at_ msg ty a) (fun o w' =>
    o = Some (PcFetch st) /\ consumed e u w w' /\ br_topics (w_broker w') = br_topics (w_broker w) /\
    exists from, br_committed (w_broker w') !!
      (rd_Topic (c_r (consumer st)), rd_GroupID (c_r (consumer st)), pl_partition at_) =
        Some (from, Datatypes.S (pl_offset at_))) w).
  { rewrite handle_turn_eq. apply wp_bind. eapply wp_mono; [|by apply (handle_consumes cfg _ ty a w e u)].
    intros h w1 (Hh&Hb&Hc). unfold after_handling. rewrite Hh. apply wp_solo_vis. intros ch _.
    apply wp_solo_vis. intros ch2 H2. ops. rewrite exec_kafka. unfold kafka_next, kafka_exec. rewrite H2.
    cbn [fst snd kafka_call settle]. do 3 (apply wp_solo_vis; intros ? _). apply wp_ret.
    split; [done|]. split; [exact Hc|]. split; [by rewrite <- Hb|]. eexists. apply lookup_insert_eq. }
  pose proof (run_solo _ _ _ _ or n Hor Hwp) as H. by destruct (run or n w _) as [[w' m] o].
Qed.

(** The backoff of the consumer starts at a fifth of a second, never decreases,
    doubles from two seconds on until it would exceed half a minute, and stays there. *)
Theorem consumer_backoff_bounds a :
  200 * Millisecond <= backoff a <= 30 * Second /\
  backoff a <= backoff (a + 1) /\
  (2 <= a < 5 -> backoff (a + 1) = 2 * backoff a) /\
  (6 <= a -> backoff a = 30 * Second).
Proof.
  assert (Hsmall : forall b, b <= 1 -> backoff b = 200 * Millisecond).
  { intros b Hb. unfold backoff. by rewrite (proj2 (Z.leb_le _ _) Hb). }
  assert (Hbig : forall b, 7 <= b -> backoff b = 30 * Second).
  { intros b Hb. unfold backoff. rewrite (proj2 (Z.leb_gt _ _)) by lia.
    by rewrite Z.min_r by lia. }
  destruct (decide (a <= 0)); [rewrite !Hsmall by lia; unfold Millisecond, Second; lia|].
  destruct (decide (7 <= a)); [rewrite !Hbig by lia; unfold Millisecond, Second; lia|].
  assert (Ha : a = 1 \/ a = 2 \/ a = 3 \/ a = 4 \/ a = 5 \/ a = 6) by lia.
  destruct Ha as [->|[->|[->|[->|[->| ->]]]]];
    repeat match goal with |- context [backoff ?b] => evaluate (backoff b) end;
    unfold Millisecond, Second; lia.
Qed.

(** ** Between messages *)

(** The consumer keeps its configuration when it is reopened. *)
Definition same_source (st st' : consumer_state) : Prop :=
  c_cfg (consumer st') = c_cfg (consumer st) /\
  (consumer st' = consumer st \/ c_r (consumer st') = newReader (c_cfg (consumer st))) /\
  dlqProducer st' = dlqProducer st.

Lemma same_source_kept st n : same_source st (set_streak st n).
Proof. split; [done|]. split; [by left|done]. Qed.

Lemma set_streak_same st : set_streak st (timeoutStreak st) = st.
Proof. by destruct st. Qed.

Lemma same_source_reopened st t :
  same_source st (set_reopened st (MkConsumer (newReader (c_cfg (consumer st))) (c_cfg (consumer st))) t).
Proof. split; [done|]. split; [by right|done]. Qed.

(** Calls that touch neither the database nor the topics. *)
Definition quiet (o : sys_op) : Prop :=
  match o with OKafka (KCloseReader _ | KCloseWriter _) | ORuntime _ => True | _ => False end.

Definition durable (w : world) : tables * ptable * broker := (w_db w, w_processed w, w_broker w).

Lemma quiet_keeps o ch w : quiet o -> durable (exec ch w o).1 = durable w.
Proof.
  destruct o as [| | |o|o|]; [done..| |done|done]. intros Ho. unfold exec, durable; simpl.
  by destruct o; try done; edestruct kafka_next_cases as [E|E]; rewrite E.
Qed.

Definition fetched_nothing (st : consumer_state) (o : option consumer_pc) : Prop :=
  match o with
  | None => True
  | Some (PcFetch st') => 0 <= timeoutStreak st' < reopenAfterTimeouts /\ same_source st st'
  | Some (PcHandle _ _ _ _ _) => False
  end.

Lemma only_reopen {A} P R (c : Consumer) (k : Consumer -> prog sys_sig A) :
  P (OKafka (KCloseReader (c_r c))) ->
  only P R (k (MkConsumer (newReader (c_cfg c)) (c_cfg c))) -> only P R (Reopen c ≫= k).
Proof. intros HP Hk. by split. Qed.

Definition after_timeout (st : consumer_state) : prog sys_sig (option consumer_pc) :=
  let st := set_streak st (timeoutStreak st + 1) in
  if reopenAfterTimeouts <=? timeoutStreak st then
    now ← Now;
    st ← (if 30 * Second <? Since now (lastReopenAt st) then
            c ← Reopen (consumer st);
            now ← Now;
            mret (set_reopened st c now)
          else mret st);
    Sleep (200 * Millisecond);;
    mret (Some (PcFetch (set_streak st 0)))
  else mret (Some (PcFetch st)).

Definition after_failure (st : consumer_state) : prog sys_sig (option consumer_pc) :=
  stopped ← CtxDone;
  if (stopped : bool) then mret (Some (PcFetch st))
  else
    c ← Reopen (consumer st);
    now ← Now;
    Sleep (500 * Millisecond);;
    mret (Some (PcFetch (set_streak (set_reopened st c now) 0))).

Lemma only_after_timeout st :
  0 <= timeoutStreak st < reopenAfterTimeouts ->
  only quiet (fetched_nothing st) (after_timeout st).
Proof.
  intros Hst. unfold after_timeout. cbn [set_streak timeoutStreak]. case_match eqn:E; bool_props.
  - only_call. intros now _. eapply only_bind with (R := same_source st).
    + case_match; [|apply same_source_kept].
      apply only_reopen; [done|]. only_call. intros now' _. exact (same_source_reopened st now').
    + intros st' Hs. only_call. intros _ _. by split.
  - split; [unfold reopenAfterTimeouts in *; simpl; lia|apply same_source_kept].
Qed.

Lemma only_after_failure st :
  0 <= timeoutStreak st < reopenAfterTimeouts ->
  only quiet (fetched_nothing st) (after_failure st).
Proof.
  intros Hst. only_call. intros [] _.
  { split; [done|]. rewrite <- (set_streak_same st) at 2. apply same_source_kept. }
  apply only_reopen; [done|]. only_call. intros now _. only_call. intros _ _.
  split; [done|exact (same_source_reopened st now)].
Qed.

Lemma fetched_entry b rd rebalanced i c at_ m :
  fetch b rd rebalanced i = Ok (c, at_, m) ->
  entries b (rd_Topic rd) !! pl_offset at_ = Some (pl_partition at_, m).
Proof.
  unfold fetch. cbv zeta. set (rd' := if rebalanced then _ else _).
  assert (Ht : rd_Topic rd' = rd_Topic rd) by (by unfold rd'; destruct rebalanced).
  clearbody rd'. rewrite Ht. destruct (entries b (rd_Topic rd) !! i) as [[p m']|] eqn:E; [|done].
  destruct (position b rd' p i) as [f n]. destruct (_ && _); [|done]. by intros [= _ <- <-].
Qed.

(** One turn of the outer loop, whatever happens: the streak of timeouts stays
    below the twelve at which the reader is reopened, a reopened reader has the same
    configuration, nothing is written, and a message that is handed on is the one at
    its offset in the topic, with its attempts and type reset. *)
Theorem fetch_turn_spec st w or n :
  0 <= timeoutStreak st < reopenAfterTimeouts ->
  let '(w', _, o) := run or n w (fetch_turn (S := sys_sig) st) in
  w_db w' = w_db w /\ w_processed w' = w_processed w /\ w_broker w' = w_broker w /\
  match o with
  | None => True
  | Some (PcFetch st') => 0 <= timeoutStreak st' < reopenAfterTimeouts /\ same_source st st'
  | Some (PcHandle st' off msg ty a) =>
      timeoutStreak st' = 0 /\ c_cfg (consumer st') = c_cfg (consumer st) /\ ty = "unknown" /\ a = 0 /\
      entries (w_broker w) (rd_Topic (c_r (consumer st))) !! pl_offset off = Some (pl_partition off, msg)
  end.
Proof.
  intros Hst.
  assert (Hwp : wp (solo any) (fetch_turn (S := sys_sig) st) (fun o w' => durable w' = durable w /\
    match o with
    | Some (PcHandle st' off msg ty a) =>
        timeoutStreak st' = 0 /\ c_cfg (consumer st') = c_cfg (consumer st) /\ ty = "unknown" /\ a = 0 /\
        entries (w_broker w) (rd_Topic (c_r (consumer st))) !! pl_offset off = Some (pl_partition off, msg)
    | o => fetched_nothing st o
    end) w).
  { unfold fetch_turn, CtxDone, FetchMessage. apply wp_bind, wp_call. intros ch _. calls.
    rewrite with_rt_id. destruct (ch_cancel ch).
    { apply wp_bind. eapply wp_mono; [|eapply (wp_only any quiet (fun _ => True) durable)];
        [|by apply only_consumer_shutdown|intros; by apply quiet_keeps].
      intros u w' [_ Hw']. by apply wp_ret. }
    apply wp_bind, wp_bind, wp_call. intros ch1 _. calls. apply wp_ret.
    assert (Hb : kafka_next ch1 (w_broker w) (KFetch (c_r (consumer st)) fetchTimeout) = w_broker w).
    { by destruct (kafka_next_cases ch1 (w_broker w) (KFetch (c_r (consumer st)) fetchTimeout))
        as [-> | ->]. }
    rewrite Hb, with_broker_id.
    destruct (kafka_exec ch1 (w_broker w) _).2 as [[[c off] msg]|err] eqn:E.
    - apply kafka_exec_ok in E. rewrite Hb in E. injection E as E.
      apply fetched_entry in E. apply wp_solo_vis. intros ch2 _. apply wp_ret. by repeat split.
    - assert (Hq : only quiet (fetched_nothing st)
        (if errors_Is err DeadlineExceeded || errors_Is err Canceled then after_timeout st
         else after_failure st)).
      { case_match; [by apply only_after_timeout|by apply only_after_failure]. }
      eapply wp_mono; [|apply (wp_only any quiet (fetched_nothing st) durable _ _ Hq)].
      + intros o w' [Ho Hw']. split; [done|]. by destruct o as [[]|].
      + intros o ch2 w' Ho _. by apply quiet_keeps. }
  pose proof (run_solo _ _ _ _ or n (fun _ _ => I) Hwp) as H.
  destruct (run or n w _) as [[w' m] o]. destruct H as [Hd Ho]. injection Hd as Hd1 Hd2 Hd3.
  repeat (split; [done|]). by destruct o as [[]|].
Qed.
End Redelivery.

(** ** Witnesses *)

Definition an_envelope (id payload : string) : Envelope :=
  MkEnvelope id "ticket.created" 0 "ticket" "t-1" "" payload.
Definition encoded (e : Envelope) : string :=
  match marshal_envelope e with Ok b => b | Err _ => "" end.
Definition a_config : consumer_config := ConsumerCfg false "" 3.
Definition a_state : consumer_state :=
  CState (NewConsumer (MkConsumerConfig ["localhost:9092"] the_topic "notification-service" "first" 0 0))
         (Some (a_producer "tickets.dlq")) 0 zero_time.
Definition all_fine : nat -> sys_op -> choice := fun _ _ => fine 100 "".

Example redelivery_is_silent_witness :
  let value := encoded (an_envelope "e-1" "{}") in
  let '(w1, _, _) := run all_fine 0 empty_world (handleMessage (S := sys_sig) a_config value "" 0) in
  let '(w2, _, _) := run all_fine 7 w1 (handleMessage (S := sys_sig) a_config value "" 0) in
  settled value w1 /\ notified w2 = notified w1 /\ w_broker w2 = w_broker w1.
Proof.
  intros value.
  pose proof (redelivery_is_silent a_config a_config value "" 0 "" 0 empty_world all_fine 0 all_fine 7)
    as H.
  destruct (run all_fine 0 empty_world _) as [[w1 n1] h] eqn:E1.
  assert (Hh : h_err h = None).
  { change h with (w1, n1, h).2. rewrite <- E1. vm_compute. reflexivity. }
  destruct (run all_fine 7 w1 _) as [[w2 n2] h2].
  destruct (H Hh) as (H1&H2&H3&_). split; [exact H1|]. split; [exact H2|exact H3].
Defined.

(** A consumer whose [MarkDone] is always refused. *)
Definition done_refused : nat -> sys_op -> choice := fun _ o =>
  match o with
  | ONotify (QDone _) => failing 100 (Refused (EMsg "deadlock"))
  | _ => fine 100 ""
  end.

Example retries_are_bounded_witness :
  retrying (run done_refused 0 empty_world (handle_turns a_config 3
    (PcHandle a_state (Place 0 0) (Message "t-1" (encoded (an_envelope "e-1" "{}"))) "unknown" 0))).2 = false.
Proof.
  pose proof (retries_are_bounded a_config a_state (Place 0 0)
    (Message "t-1" (encoded (an_envelope "e-1" "{}"))) "unknown" 0 empty_world "e-1" done_refused 0) as H.
  change (Z.to_nat (maxAttempts a_config)) with 3%nat in H.
  destruct (run done_refused 0 empty_world _) as [[w' m] o]. apply H.
  - intros i o'. by destruct o' as [| |[]| | |].
  - exists (an_envelope "e-1" "{}"). split; [vm_compute; reflexivity|].
    split; [reflexivity|]. split; [by eexists|reflexivity].
  - vm_compute. split; [reflexivity|discriminate].
  - vm_compute. split; [discriminate|reflexivity].
Defined.

(** An event without an id. *)
Definition bad_id : string := "".

Example poison_pill_blocks_witness :
  let msg := Message "t-1" (encoded (an_envelope bad_id "{}")) in
  let r := run all_fine 0 empty_world
    (handle_turns a_config 20 (PcHandle a_state (Place 0 0) msg "unknown" 0)) in
  w_broker r.1.1 = w_broker empty_world /\ exists ty', r.2 = Some (PcHandle a_state (Place 0 0) msg ty' 0).
Proof.
  intros msg r. subst r.
  pose proof (poison_pill_blocks a_config 20 a_state (Place 0 0) msg "unknown" empty_world all_fine 0) as H.
  destruct (run all_fine 0 empty_world _) as [[w' m] o]. apply H; [done|].
  exists (an_envelope bad_id "{}"). split; [vm_compute; reflexivity|]. left. vm_compute. reflexivity.
Defined.

Example fetch_turn_spec_witness :
  let r := run all_fine 0 pipeline_world (fetch_turn (S := sys_sig) a_state) in
  w_broker r.1.1 = w_broker pipeline_world /\
  match r.2 with
  | Some (PcHandle _ off msg _ _) =>
      entries_of the_topic pipeline_world !! pl_offset off = Some (pl_partition off, msg)
  | _ => True
  end.
Proof.
  intros r. subst r.
  pose proof (fetch_turn_spec a_state pipeline_world all_fine 0) as H.
  destruct (run all_fine 0 pipeline_world _) as [[w' m] o].
  destruct H as (_&_&Hb&Ho); [vm_compute; split; [discriminate|reflexivity]|].
  split; [done|]. destruct o as [[]|]; [done| |done]. apply Ho.
Defined.

Example message_is_consumed_witness :
  let msg := Message "t-1" (encoded (an_envelope "e-1" "{}")) in
  let r := run all_fine 0 empty_world
    (handle_turn (S := sys_sig) a_config a_state (Place 0 7) msg "unknown" 0) in
  notified r.1.1 = ["e-1"] /\
  exists from, br_committed (w_broker r.1.1) !! (the_topic, "notification-service", 0%nat) = Some (from, 8%nat).
Proof.
  intros msg r. subst r.
  pose proof (message_is_consumed a_config a_state (Place 0 7) msg "unknown" 0 empty_world all_fine 0
    (an_envelope "e-1" "{}") "e-1") as H.
  destruct (run all_fine 0 empty_world _) as [[w' m] o]. destruct H as (_&[_ Hn]&_&Hc).
  - done.
  - vm_compute. reflexivity.
  - exists (an_envelope "e-1" "{}"). split; [vm_compute; reflexivity|].
    split; [reflexivity|]. split; [by eexists|reflexivity].
  - vm_compute. reflexivity.
  - reflexivity.
  - split; [exact Hn|exact Hc].
Defined.
