(* ===== verification/Api.v ===== *)
(** * Properties of the ticket API

    Validation; what a store promises to the handlers ([StoreLaws]), which both the
    in-memory and the Postgres store keep; and the handlers proved against that
    interface. *)

From S2P Require Import Prelude Effects GoString Runtime Kafka Events Postgres Outbox Json.
From S2P Require Import Processed Ticket Handler World System Solo Concrete.

(** ** The environment: UUIDs are non-empty and without surrounding spaces, and the
    errors of a connection are not the sentinels of a missing row. *)

Definition sane (ch : choice) : Prop :=
  ch_uuid ch <> "" /\ trimmed (ch_uuid ch) = true /\
  match ch_out ch with
  | Done => True
  | Refused e | Lost e => errors_Is e ErrNoRows = false /\ errors_Is e ErrNotFound = false
  end.
Definition sane_env {S : sig} (_ : op S) (ch : choice) : Prop := sane ch.
Definition done_env {S : sig} (_ : op S) (ch : choice) : Prop := ch_out ch = Done.

(** ** What a store promises *)

(** The same ticket as far as the caller chose it; Postgres may round the times. *)
Definition same_content (t t' : Ticket) : Prop :=
  t_ID t' = t_ID t /\ t_Title t' = t_Title t /\ t_Description t' = t_Description t /\
  t_Status t' = t_Status t.

Class StoreLaws (S : sig) (W : Type) {EX : Exec S W} {SR : Sub runtime_sig S} {TS : TicketStore S} : Type := {
  lookup_ticket : W -> string -> option Ticket;
  runtime_keeps ch w (o : runtime_op) : lookup_ticket (exec ch w (inj_op o)).1 = lookup_ticket w;
  runtime_answers ch w :
    prj_ans RUuid (exec ch w (inj_op (RUuid : op runtime_sig))).2 = ch_uuid ch;
  Create_spec rid t w : t_ID t <> "" ->
    wp (solo sane_env) (store_Create rid t) (fun r w' =>
      (forall id, id <> t_ID t -> lookup_ticket w' id = lookup_ticket w id) /\
      match r with
      | Ok t' => lookup_ticket w' (t_ID t) = Some t' /\ same_content t t'
      | Err _ => True
      end) w;
  Get_spec id w :
    wp (solo sane_env) (store_Get id) (fun r w' =>
      lookup_ticket w' = lookup_ticket w /\
      match r with
      | Ok t => lookup_ticket w id = Some t
      | Err e => errors_Is e ErrNotFound = true -> lookup_ticket w id = None
      end) w;
  Get_present id t w : lookup_ticket w id = Some t ->
    wp (solo done_env) (store_Get id) (fun r _ => r = Ok t) w
}.

(** ** The handlers against the interface *)

Section Handlers.
Context {JD : JsonDecoder} {S : sig} {W : Type} {EX : Exec S W} {SR : Sub runtime_sig S}.
Context {TS : TicketStore S} {SL : StoreLaws S W}.
Local Abbreviation wpe := (wp (solo sane_env)).

Lemma wp_runtime {A} (E : op S -> choice -> Prop) (o : runtime_op) (k : ans runtime_sig o -> prog S A)
    (Q : A -> W -> Prop) w :
  (forall w' r, lookup_ticket w' = lookup_ticket w -> wp (solo E) (k r) Q w') ->
  wp (solo E) (call (o : op runtime_sig) ≫= k) Q w.
Proof. intros H. apply wp_bind, wp_call. intros ch _. apply H, runtime_keeps. Qed.

Lemma wp_uuid {A} (k : string -> prog S A) (Q : A -> W -> Prop) w :
  (forall w' u, u <> "" -> trimmed u = true -> lookup_ticket w' = lookup_ticket w -> wpe (k u) Q w') ->
  wpe (NewString ≫= k) Q w.
Proof.
  intros H. unfold NewString. apply wp_bind, wp_call. intros ch (Hu&Ht&_).
  rewrite runtime_answers. apply H; [done|done|apply runtime_keeps].
Qed.

(** The response to a POST. *)
Definition created (r : request) (w w' : W) (rs : response) : Prop :=
  match rs_body rs with
  | PTicket t =>
      rs_status rs = 201 /\ rq_Method r = "POST" /\ lookup_ticket w' (t_ID t) = Some t /\
      t_ID t <> "" /\ trimmed (t_ID t) = true /\ t_Status t = "open" /\
      exists req rest, decode_request (MaxBytesReader (rq_Body r) 1048576) = Ok (req, rest) /\
        decode_end rest = Some EOF /\ Validate req = None /\
        t_Title t = TrimSpace (req_Title req) /\ t_Description t = TrimSpace (req_Description req)
  | PError code msg rid =>
      rid = rq_RequestID r /\
      ((rs_status rs = 405 /\ code = "method_not_allowed" /\ rq_Method r <> "POST" /\
        lookup_ticket w' = lookup_ticket w) \/
       (rs_status rs = 400 /\ code = "validation_error" /\ rq_Method r = "POST" /\
        lookup_ticket w' = lookup_ticket w) \/
       (rs_status rs = 500 /\ code = "internal_error" /\ msg = "internal error"))
  | PText _ => False
  end.

Lemma wp_CreateTicket r w : wpe (CreateTicket r) (fun rs w' => created r w w' rs) w.
Proof.
  unfold CreateTicket. case_bool_decide as Hm; cbn [negb].
  2: { apply wp_ret. split; [done|]. by left. }
  assert (Hbad : forall msg, created r w w (WriteErrorR r 400 "validation_error" msg)).
  { intros msg. split; [done|]. right. by left. }
  destruct (decode_request _) as [[req rest]|err] eqn:Hd; [|apply wp_ret, Hbad].
  case_bool_decide as He; cbn [negb]; [|apply wp_ret, Hbad].
  destruct (Validate req) as [err|] eqn:Hv; [apply wp_ret, Hbad|].
  apply wp_runtime. intros w1 c1 H1. apply wp_runtime. intros w2 c2 H2.
  apply wp_uuid. intros w3 u Hu Ht H3. apply wp_bind.
  eapply wp_mono; [|by apply Create_spec]. intros [t|err] w4 [Hoth Ho]; apply wp_ret.
  - destruct Ho as (Hl&Hid&Hti&Hde&Hst). simpl in *. unfold created; simpl. rewrite Hid.
    repeat (split; [done|]). by exists req, rest.
  - split; [done|]. right. by right.
Qed.

(** The response to a GET. *)
Definition found (r : request) (id : string) (w : W) (rs : response) : Prop :=
  match rs_body rs with
  | PTicket t => rs_status rs = 200 /\ rq_Method r = "GET" /\ lookup_ticket w (TrimSpace id) = Some t
  | PError code _ rid =>
      rid = rq_RequestID r /\
      ((rs_status rs = 405 /\ code = "method_not_allowed" /\ rq_Method r <> "GET") \/
       (rs_status rs = 404 /\ code = "not_found" /\
        (TrimSpace id = "" \/ lookup_ticket w (TrimSpace id) = None)) \/
       (rs_status rs = 500 /\ code = "internal_error"))
  | PText _ => False
  end.

Lemma wp_GetTicket r id w :
  wpe (GetTicket r id) (fun rs w' => lookup_ticket w' = lookup_ticket w /\ found r id w rs) w.
Proof.
  unfold GetTicket. case_bool_decide as Hm; cbn [negb].
  2: { apply wp_ret. repeat split. by left. }
  case_bool_decide as Hi.
  { apply wp_ret. repeat split. right. left. by repeat split; left. }
  apply wp_bind. eapply wp_mono; [|by apply Get_spec]. intros [t|err] w1 [Hw Ho].
  - by apply wp_ret.
  - destruct (errors_Is err ErrNotFound); apply wp_ret; (split; [done|]; split; [done|]; right);
      [left|by right]. repeat split. right. auto.
Qed.

(** What the body of a POST comes to: a message for the client, or a request to carry out. *)
Inductive asks (r : request) : string + CreateTicketRequest -> Prop :=
| asks_undecoded err :
    decode_request (MaxBytesReader (rq_Body r) 1048576) = Err err ->
    asks r (inl (if errors_Is err EOF then "empty body" else "invalid json"))
| asks_more req rest :
    decode_request (MaxBytesReader (rq_Body r) 1048576) = Ok (req, rest) ->
    decode_end rest <> Some EOF -> asks r (inl "invalid json")
| asks_invalid req rest err :
    decode_request (MaxBytesReader (rq_Body r) 1048576) = Ok (req, rest) ->
    decode_end rest = Some EOF -> Validate req = Some err -> asks r (inl (Error err))
| asks_for req rest :
    decode_request (MaxBytesReader (rq_Body r) 1048576) = Ok (req, rest) ->
    decode_end rest = Some EOF -> Validate req = None -> asks r (inr req).

Lemma asks_one r : exists v, asks r v /\ forall v', asks r v' -> v' = v.
Proof.
  destruct (decode_request (MaxBytesReader (rq_Body r) 1048576)) as [[req rest]|err] eqn:E.
  2: { eexists. split; [by apply asks_undecoded|]. intros v' [err' E'| | |]; [|congruence..].
       rewrite E in E'. by injection E' as ->. }
  destruct (decide (decode_end rest = Some EOF)) as [He|He].
  2: { eexists. split; [by eapply asks_more|]. intros v' []; congruence. }
  destruct (Validate req) as [err|] eqn:Ev.
  - eexists. split; [by eapply asks_invalid|]. intros v' []; congruence.
  - eexists. split; [by eapply asks_for|]. intros v' []; congruence.
Qed.

(** The ticket made of a request: open, with a drawn id and the trimmed texts. *)
Definition made_of (req : CreateTicketRequest) (t : Ticket) : Prop :=
  t_ID t <> "" /\ trimmed (t_ID t) = true /\ t_Status t = "open" /\
  t_Title t = TrimSpace (req_Title req) /\ t_Description t = TrimSpace (req_Description req).

(** A call to the runtime in a run. *)
Lemma run_runtime {A} (or : nat -> op S -> choice) n (w : W) (o : runtime_op)
    (k : ans runtime_sig o -> prog S A) :
  run or n w (call (o : op runtime_sig) ≫= k) =
    let wr := exec (or n (inj_op (o : op runtime_sig))) w (inj_op (o : op runtime_sig)) in
    run or (Datatypes.S n) wr.1 (k (prj_ans (o : op runtime_sig) wr.2)).
Proof. cbn. by destruct (exec _ w _). Qed.

(** C23: POST /tickets, against any store. Another method is answered 405 and a body that
    does not decode, is followed by more, or does not validate 400 with its message; both
    touch nothing. A valid request is handed to the store as one open ticket with a drawn
    id and the trimmed texts: the answer is 201 with the stored ticket exactly when the
    store creates it, and 500 without details exactly when it fails; no other ticket
    changes. *)
Theorem CreateTicket_spec r (w : W) or n :
  (forall i o, sane_env o (or i o)) ->
  let '(w', m, rs) := run or n w (CreateTicket r) in
  let failed status code msg := rs = Response status (PError code msg (rq_RequestID r)) in
  (rq_Method r <> "POST" -> w' = w /\ failed 405 "method_not_allowed" "method not allowed") /\
  (rq_Method r = "POST" ->
     (forall msg, asks r (inl msg) -> w' = w /\ failed 400 "validation_error" msg) /\
     (forall req, asks r (inr req) -> exists w1 n1 t,
        lookup_ticket w1 = lookup_ticket w /\ made_of req t /\
        let '(w2, n2, created) := run or n1 w1 (store_Create (rq_RequestID r) t) in
        w' = w2 /\ m = n2 /\
        (forall id, id <> t_ID t -> lookup_ticket w' id = lookup_ticket w id) /\
        match created with
        | Ok t' => rs = Response 201 (PTicket t') /\ lookup_ticket w' (t_ID t) = Some t' /\ same_content t t'
        | Err _ => failed 500 "internal_error" "internal error"
        end)).
Proof.
  intros Hor. destruct (run or n w (CreateTicket r)) as [[w' m] rs] eqn:E. cbv zeta.
  unfold CreateTicket in E. split.
  { intros Hm. rewrite bool_decide_false in E by done. by injection E as <- _ <-. }
  intros Hm. rewrite bool_decide_true in E by done. cbn [negb] in E. split.
  - intros msg Ha. inversion Ha as [err Hd|req rest Hd He|req rest err Hd He Hv|]; subst; rewrite Hd in E.
    + by injection E as <- _ <-.
    + rewrite bool_decide_false in E by done. by injection E as <- _ <-.
    + rewrite bool_decide_true in E by done. cbn [negb] in E. rewrite Hv in E. by injection E as <- _ <-.
  - intros req Ha. inversion Ha as [| | |req' rest Hd He Hv]; subst. rewrite Hd in E.
    rewrite bool_decide_true in E by done. cbn [negb] in E. rewrite Hv in E.
    unfold Now, NewString in E. rewrite (run_runtime or n w RNow) in E. cbv zeta in E.
    rewrite (run_runtime or _ _ RNow) in E. cbv zeta in E.
    rewrite (run_runtime or _ _ RUuid) in E. cbv zeta in E.
    set (ch0 := or n _) in E. set (ch1 := or (Datatypes.S n) _) in E.
    set (ch2 := or (Datatypes.S (Datatypes.S n)) _) in E.
    rewrite runtime_answers in E.
    set (w1 := (exec ch0 w _).1) in E. set (w2 := (exec ch1 w1 _).1) in E. set (w3 := (exec ch2 w2 _).1) in E.
    assert (Hl : lookup_ticket w3 = lookup_ticket w).
    { unfold w3, w2, w1. by rewrite !runtime_keeps. }
    destruct (Hor (Datatypes.S (Datatypes.S n)) (inj_op (RUuid : op runtime_sig))) as (Hne&Htr&_).
    fold ch2 in Hne, Htr. set (t := MkTicket _ _ _ _ _ _) in E.
    exists w3, (Datatypes.S (Datatypes.S (Datatypes.S n))), t.
    split; [done|]. split; [done|]. rewrite run_bind in E.
    pose proof (run_solo _ _ _ _ or (Datatypes.S (Datatypes.S (Datatypes.S n))) Hor
      (Create_spec (rq_RequestID r) t w3 Hne)) as Hc.
    destruct (run or _ w3 (store_Create (rq_RequestID r) t)) as [[w4 n4] created].
    destruct Hc as [Hoth Hc].
    destruct created as [t'|err]; injection E as <- <- <-; (split; [done|]; split; [done|]);
      (split; [intros id Hid; by rewrite Hoth, Hl|]); done.
Qed.

(** C24: GET /tickets/{id}, against any store: 200 comes with the stored ticket of the
    trimmed id, 404 only when there is none; nothing is changed. *)
Theorem GetTicket_spec r id (w : W) or n :
  (forall i o, sane_env o (or i o)) ->
  let '(w', _, rs) := run or n w (GetTicket r id) in
  lookup_ticket w' = lookup_ticket w /\ found r id w rs.
Proof.
  intros Hor. pose proof (run_solo _ _ _ _ or n Hor (wp_GetTicket r id w)) as H.
  by destruct (run or n w _) as [[w' m] rs].
Qed.

(** A GET of a stored ticket that the store carries out. *)
Lemma wp_GetTicket_stored g t (w : W) :
  rq_Method g = "GET" -> t_ID t <> "" -> trimmed (t_ID t) = true ->
  lookup_ticket w (t_ID t) = Some t ->
  wp (solo done_env) (GetTicket g (t_ID t)) (fun rs _ => rs = Response 200 (PTicket t)) w.
Proof.
  intros Hg Hne Htr Hl. unfold GetTicket. rewrite bool_decide_true by done. cbn [negb].
  rewrite (trimmed_TrimSpace _ Htr), bool_decide_false by done. apply wp_bind.
  eapply wp_mono; [|by apply Get_present]. intros x w' ->. by apply wp_ret.
Qed.

(** Round trip. A ticket answered by POST is answered, field for field, by a GET of
    its id, when the store carries the GET out. *)
Theorem post_then_get r g (w : W) or n or' n' t :
  (forall i o, sane_env o (or i o)) -> (forall i o, done_env o (or' i o)) -> rq_Method g = "GET" ->
  let '(w1, _, rs) := run or n w (CreateTicket r) in
  let '(_, _, rs') := run or' n' w1 (GetTicket g (t_ID t)) in
  rs_body rs = PTicket t -> rs' = Response 200 (PTicket t).
Proof.
  intros Hor Hor' Hg. pose proof (run_solo _ _ _ _ or n Hor (wp_CreateTicket r w)) as H.
  destruct (run or n w _) as [[w1 n1] rs].
  destruct (run or' n' w1 _) as [[w2 n2] rs'] eqn:E. intros Hb.
  unfold created in H. rewrite Hb in H. destruct H as (_&_&Hl&Hne&Htr&_).
  pose proof (run_solo _ _ _ _ or' n' Hor' (wp_GetTicket_stored g t w1 Hg Hne Htr Hl)) as H'.
  by rewrite E in H'.
Qed.
End Handlers.

(** ** Validation *)

(** C34: A request is valid exactly when its trimmed title has 3 to 200 bytes and its
    trimmed description at most 5000. *)
Theorem Validate_spec r :
  Validate r = None <->
  3 <= len (TrimSpace (req_Title r)) <= 200 /\ len (TrimSpace (req_Description r)) <= 5000.
Proof.
  unfold Validate. case_bool_decide as He.
  { rewrite He. split; [done|]. intros [[H _] _]. by vm_compute in H. }
  split.
  - repeat case_match; bool_props; done.
  - intros [[H1 H2] H3]. rewrite (proj2 (Z.ltb_ge _ _)) by lia.
    rewrite (proj2 (Z.ltb_ge _ _)) by lia. by rewrite (proj2 (Z.ltb_ge _ _)) by lia.
Qed.

(** [n] letters of the Cyrillic alphabet, each of two bytes. *)
Definition cyrillic (n : nat) : string :=
  of_bytes (concat (replicate n [chr 208; chr 175])).

(** The limits on the title, said to be in characters, are in bytes: a title of 101
    Cyrillic letters is refused as longer than 200 characters, and one of two letters
    passes for at least 3. *)
Theorem title_is_measured_in_bytes :
  length (runes (cyrillic 101)) = 101%nat /\
  Validate (MkCreateTicketRequest (cyrillic 101) "") =
    Some (EValidation "title must be at most 200 characters") /\
  length (runes (cyrillic 2)) = 2%nat /\
  Validate (MkCreateTicketRequest (cyrillic 2) "") = None.
Proof. vm_compute. repeat split. Qed.

(** ** The in-memory store keeps the promise *)

Inductive memory_api_op : Type :=
| ARuntime (o : runtime_op)
| AMemory (o : memory_op).

Definition memory_api_ans (o : memory_api_op) : Type :=
  match o with ARuntime o => ans runtime_sig o | AMemory o => ans memory_sig o end.

Canonical Structure memory_api : sig := Sig memory_api_op memory_api_ans.

#[export] Instance sub_memory_runtime : Sub runtime_sig memory_api :=
  {| inj_op := ARuntime : op runtime_sig -> op memory_api; prj_ans o r := r |}.
#[export] Instance sub_memory : Sub memory_sig memory_api :=
  {| inj_op := AMemory : op memory_sig -> op memory_api; prj_ans o r := r |}.

#[export] Instance memory_api_exec : Exec memory_api (runtime * tickets) := fun ch w o =>
  match o with
  | ARuntime o => (((runtime_exec ch w.1 o).1, w.2), (runtime_exec ch w.1 o).2)
  | AMemory o => ((w.1, (memory_exec ch w.2 o).1), (memory_exec ch w.2 o).2)
  end.

#[export] Instance memory_laws : StoreLaws memory_api (runtime * tickets).
Proof.
  refine {| lookup_ticket w id := (w.2 : tickets) !! id |}.
  - done.
  - done.
  - intros rid t w Ht. apply wp_call. intros ch _. unfold exec; simpl.
    unfold InMemoryStore.Create. rewrite bool_decide_false by done. simpl. split.
    + intros id Hid. by rewrite lookup_insert_ne.
    + by rewrite lookup_insert_eq.
  - intros id w. apply wp_call. intros ch _. unfold exec; simpl. unfold InMemoryStore.Get.
    by destruct (w.2 !! id).
  - intros id t w Ht. apply wp_call. intros ch _. unfold exec; simpl. unfold InMemoryStore.Get.
    by rewrite Ht.
Defined.

(** ** The Postgres store keeps it too *)

Section PostgresApi.
Context {J : Json} {PG : Postgres}.

(** Carried out, refused, or carried out with the answer lost. *)
Lemma ticket_exec_cases ch (d : tables) o :
  ticket_exec ch d o = ticket_stmt ch d o \/
  exists e, (ch_out ch = Refused e \/ ch_out ch = Lost e) /\ (ticket_exec ch d o).2 = Err e /\
    (ticket_next ch d o = d \/ ticket_next ch d o = (ticket_stmt ch d o).1).
Proof.
  unfold ticket_next, ticket_exec, settle. destruct (ch_out ch) as [|e|e]; simpl; [by left|..];
    right; exists e; auto.
Qed.

(** The tables but for the sequence, which no rollback takes back. *)
Definition same_tables (d d' : tables) : Prop :=
  db_tickets d' = db_tickets d /\ db_outbox d' = db_outbox d.

(** What [Create] does to the tables: nothing, or one new ticket with the content
    asked for together with one new pending outbox row that carries it. *)
Inductive inserted (rid : string) (t : Ticket) (d d' : tables) : option Ticket -> Prop :=
| ins_nothing : same_tables d d' -> inserted rid t d d' None
| ins_both t' id ev payload p now :
    same_content t t' -> text_ok (t_ID t') = true ->
    db_tickets d !! t_ID t' = None -> db_outbox d !! id = None ->
    marshal_payload (MkTicketPayload (t_ID t') (t_Title t') (t_Status t') (t_CreatedAt t') rid) = Ok p ->
    jsonb_in p = Some payload ->
    db_tickets d' = <[t_ID t' := t']> (db_tickets d) ->
    db_outbox d' = <[id := Row ev "ticket" (t_ID t') EventTypeTicketCreated payload "pending" now
                             None None 0 now None now None]> (db_outbox d) ->
    inserted rid t d d' (Some t').

Lemma ticket_keeps ch (d : tables) o :
  (forall tx, o <> QCommit tx) -> same_tables d (ticket_next ch d o).
Proof.
  intros Hc. destruct (ticket_next_cases ch d o) as [->| ->]; [done|].
  destruct o as [|tx t|tx a aid ty p|tx|tx|id|]; simpl; try done; [|by destruct (Hc tx)].
  unfold insert_outbox. by repeat case_match.
Qed.

Lemma insert_ticket_fresh now t (d : tables) tx out :
  insert_ticket (MkTx now [] []) t d = Ok (tx, out) ->
  tx = MkTx now [out] [] /\ same_content t out /\ text_ok (t_ID out) = true /\
  db_tickets d !! t_ID out = None.
Proof.
  unfold insert_ticket. destruct (_ && _ && _ && _) eqn:E; [|done].
  destruct (_ || _) eqn:Ec; [done|]. intros [= <- <-]. bool_props.
  apply orb_false_iff in Ec as [Ec _]. bool_props. apply eq_None_not_Some in Ec. done.
Qed.

Lemma insert_outbox_row uuid now out ty p (d d' : tables) tx :
  insert_outbox uuid (MkTx now [out] []) "ticket" (t_ID out) ty p d = (d', Ok tx) ->
  exists id ev payload, jsonb_in p = Some payload /\
    tx = MkTx now [out] [(id, Row ev "ticket" (t_ID out) ty payload "pending" now
                                 None None 0 now None now None)].
Proof.
  unfold insert_outbox. destruct (_ && _); [|done].
  destruct (jsonb_in p) as [pl|]; [|by destruct (uuid_in uuid)].
  destruct (uuid_in uuid) as [u|]; [|done]. case_match; [done|]. intros [= _ <-]. eauto.
Qed.

Lemma commit_one tx out id r (d d' : tables) res :
  tx_tickets tx = [out] -> tx_outbox tx = [(id, r)] -> commit_tx tx d = (d', res) ->
  (d' = d /\ res = Err pg_duplicate) \/
  (res = Ok () /\ db_tickets d !! t_ID out = None /\ db_outbox d !! id = None /\
   db_tickets d' = <[t_ID out := out]> (db_tickets d) /\
   db_outbox d' = <[id := r]> (db_outbox d)).
Proof.
  intros Ht Ho. unfold commit_tx, tx_conflicts. rewrite Ht, Ho. simpl.
  rewrite !orb_false_r. destruct (_ || _) eqn:E; intros [= <- <-]; [by left|right].
  rewrite !orb_false_iff in E. destruct E as (H1&H2&_). bool_props.
  apply eq_None_not_Some in H1, H2. done.
Qed.

Lemma exec_ticket ch w o :
  exec ch w (OTicket o : op sys_sig) =
    (with_db (ticket_next ch (w_db w) o) w, (ticket_exec ch (w_db w) o).2).
Proof. done. Qed.

Local Abbreviation wpa := (wp (solo any)).
Local Abbreviation atomically rid t w := (fun (r : result Ticket) w' =>
  exists o, inserted rid t (w_db w) (w_db w') o /\ forall t', r = Ok t' -> o = Some t').

Lemma same_tables_trans d1 d2 d3 : same_tables d1 d2 -> same_tables d2 d3 -> same_tables d1 d3.
Proof. intros [??] [??]. split; congruence. Qed.

Lemma wp_rollback_any rid t w tx err w1 :
  same_tables (w_db w) (w_db w1) ->
  wpa (PostgresStore.rollback tx err) (atomically rid t w) w1.
Proof.
  intros Hs. apply wp_solo_vis. intros ch _. apply wp_ret. exists None. split; [|done].
  apply ins_nothing. eapply same_tables_trans; [done|]. by apply ticket_keeps.
Qed.

Lemma wp_commit rid t w w1 now out id ev payload p :
  same_tables (w_db w) (w_db w1) -> same_content t out -> text_ok (t_ID out) = true ->
  marshal_payload (MkTicketPayload (t_ID out) (t_Title out) (t_Status out) (t_CreatedAt out) rid) = Ok p ->
  jsonb_in p = Some payload ->
  wpa (r ← call (QCommit (MkTx now [out] [(id, Row ev "ticket" (t_ID out) EventTypeTicketCreated payload
                     "pending" now None None 0 now None now None)]) : op ticket_sig);
       match r with Err err => mret (Err err) | Ok _ => mret (Ok out) end) (atomically rid t w) w1.
Proof.
  intros [Hs1 Hs2] Hc Hx Hm Hp. apply wp_bind, wp_call. intros ch _. ops. rewrite exec_ticket.
  cbn [fst snd]. set (tx := MkTx _ _ _). destruct (commit_tx tx (w_db w1)) as [d' res] eqn:Ec.
  assert (Hboth : res = Ok () -> inserted rid t (w_db w) d' (Some out)).
  { intros ->. apply (commit_one tx out id _ _ _ _ eq_refl eq_refl) in Ec as [[_ ?]|(_&H1&H2&H3&H4)];
      [done|]. rewrite Hs1 in H1, H3. rewrite Hs2 in H2, H4. by eapply ins_both. }
  assert (Hnone : inserted rid t (w_db w) (w_db w1) None) by by apply ins_nothing.
  assert (Hafter : inserted rid t (w_db w) d' (Some out) \/ inserted rid t (w_db w) d' None).
  { destruct res as [[]|e]; [left; by apply Hboth|right].
    apply (commit_one tx out id _ _ _ _ eq_refl eq_refl) in Ec as [[-> _]|[? _]]; done. }
  destruct (ticket_exec ch (w_db w1) (QCommit tx)).2 as [[]|err] eqn:E.
  - apply ticket_exec_ok in E. simpl in E. rewrite Ec in E. injection E as Hn ->. apply wp_ret.
    exists (Some out). split; [|congruence]. rewrite <- Hn. by apply Hboth.
  - apply wp_ret. simpl. destruct (ticket_next_cases ch (w_db w1) (QCommit tx)) as [->| ->]; simpl.
    + by exists None.
    + rewrite Ec. destruct Hafter; by eexists.
Qed.

Lemma wp_Create rid t w : wpa (PostgresStore.Create rid t) (atomically rid t w) w.
Proof.
  unfold PostgresStore.Create.
  assert (Herr : forall err w1, same_tables (w_db w) (w_db w1) -> atomically rid t w (Err err) w1).
  { intros err w1 Hs. exists None. split; [by apply ins_nothing|done]. }
  assert (Hstep : forall ch w1 o, (forall tx, o <> QCommit tx) -> same_tables (w_db w) (w_db w1) ->
    same_tables (w_db w) (w_db (with_db (ticket_next ch (w_db w1) o) w1))).
  { intros ch w1 o Ho Hs. eapply same_tables_trans; [done|]. by apply ticket_keeps. }
  apply wp_bind, wp_call. intros ch1 _. ops. rewrite exec_ticket. cbn [fst snd].
  pose proof (Hstep ch1 w QBegin ltac:(done) ltac:(done)) as H1.
  destruct (ticket_exec ch1 _ QBegin).2 as [tx1|err] eqn:E1; [|by apply wp_ret, Herr].
  apply ticket_exec_ok in E1. injection E1 as _ <-. revert H1. generalize (with_db (ticket_next ch1 (w_db w) QBegin) w) as w1. intros w1 H1.
  apply wp_bind, wp_call. intros ch2 _. ops. rewrite exec_ticket. cbn [fst snd].
  pose proof (Hstep ch2 w1 (QInsertTicket (MkTx (ch_now ch1) [] []) t) ltac:(done) H1) as H2.
  destruct (ticket_exec ch2 _ _).2 as [[tx2 out]|err] eqn:E2; [|by apply wp_rollback_any].
  apply ticket_exec_ok in E2. injection E2 as _ E2.
  apply insert_ticket_fresh in E2 as (->&Hc&Hx&_). revert H2.
  generalize (with_db (ticket_next ch2 (w_db w1) (QInsertTicket (MkTx (ch_now ch1) [] []) t)) w1) as w2.
  intros w2 H2. destruct (marshal_payload _) as [p|err] eqn:Hm; [|by apply wp_rollback_any].
  apply wp_bind, wp_call. intros ch3 _. ops. rewrite exec_ticket. cbn [fst snd].
  set (o := QInsertOutbox _ _ _ _ _). pose proof (Hstep ch3 w2 o ltac:(done) H2) as H3.
  destruct (ticket_exec ch3 _ o).2 as [tx3|err] eqn:E3; [|by apply wp_rollback_any].
  apply ticket_exec_ok in E3. simpl in E3.
  apply insert_outbox_row in E3 as (id&ev&payload&Hp&->). by eapply wp_commit.
Qed.

(** C9: The Postgres [Create] is atomic, whatever fails: either no ticket and no outbox
    row is added, or exactly one new ticket with the requested content and exactly one
    new pending row that carries it; an answer without error means the latter. *)
Theorem Create_is_atomic rid t w or n :
  let '(w', _, r) := run or n w (PostgresStore.Create (S := sys_sig) rid t) in
  exists o, inserted rid t (w_db w) (w_db w') o /\ forall t', r = Ok t' -> o = Some t'.
Proof.
  pose proof (run_solo any _ _ _ or n (fun _ _ => I) (wp_Create rid t w)) as H.
  by destruct (run or n w _) as [[w' m] r].
Qed.

Definition stored_ticket (w : world) (id : string) : option Ticket :=
  if text_ok id then w_tickets w !! id else None.

#[export] Instance postgres_laws : StoreLaws sys_sig world.
Proof.
  refine {| lookup_ticket := stored_ticket |}.
  - done.
  - done.
  - intros rid t w Ht. eapply (wp_env _ any); [done|].
    eapply wp_mono; [|apply wp_Create]. intros r w' (o&Ho&Hr). unfold stored_ticket, w_tickets.
    destruct Ho as [[Hs _]|t' id ev payload p now Hc Hx Hn _ _ _ Hs _]; rewrite Hs; split.
    + done.
    + destruct r as [t'|e]; [by discriminate (Hr t' eq_refl)|done].
    + intros id' Hid. destruct Hc as [Hid' _]. case_match; [|done].
      rewrite lookup_insert_ne; [done|congruence].
    + destruct r as [t''|e]; [|done]. specialize (Hr t'' eq_refl). injection Hr as <-.
      destruct Hc as [Hid Hc]. rewrite <- Hid, Hx, lookup_insert_eq. split; [done|by split].
  - intros id w. unfold store_Get; simpl. unfold PostgresStore.Get. apply wp_bind, wp_call.
    intros ch (_&_&Hch). ops. rewrite exec_ticket. cbn [fst snd].
    assert (Hl : forall w', w_tickets w' = w_tickets w -> stored_ticket w' = stored_ticket w).
    { intros w' Hw'. unfold stored_ticket. by rewrite Hw'. }
    assert (Hw : stored_ticket (with_db (ticket_next ch (w_db w) (QGetTicket id)) w) = stored_ticket w).
    { apply Hl. by destruct (ticket_keeps ch (w_db w) (QGetTicket id)) as [? _]. }
    unfold ticket_exec, settle. unfold settle in Hch.
    destruct (ch_out ch) as [|e|e]; simpl.
    + unfold stored_ticket. destruct (text_ok id) eqn:Ex.
      * unfold w_tickets at 3 4. destruct (db_tickets (w_db w) !! id) as [t|] eqn:Et.
        -- apply wp_ret. by split.
        -- apply wp_ret. by split.
      * by apply wp_ret.
    + destruct Hch as [H1 H2]. rewrite H1. apply wp_ret. split; [exact Hw|congruence].
    + destruct Hch as [H1 H2]. rewrite H1. apply wp_ret. split; [exact Hw|congruence].
  - intros id t w Ht. unfold store_Get; simpl. unfold PostgresStore.Get. apply wp_bind, wp_call.
    intros ch Hch. ops. rewrite exec_ticket. cbn [fst snd]. unfold ticket_exec. rewrite Hch. simpl.
    unfold stored_ticket, w_tickets in Ht. destruct (text_ok id); [|done]. rewrite Ht. by apply wp_ret.
Defined.
End PostgresApi.

(** ** Witnesses *)

Definition drawn : choice := fine 1000 "t-1".
Definition a_post : request := Request "POST" "/tickets" (of_bytes (text "{'title':' Printer is broken '}")) "r-1".
Definition a_get : request := Request "GET" "/tickets/t-1" "" "r-2".
Definition answered : Ticket := MkTicket "t-1" "Printer is broken" "" "open" 1000 1000.

Lemma drawn_sane {S : sig} (i : nat) (o : op S) : sane_env o drawn.
Proof. split; [done|]. by split. Qed.

Lemma a_post_asks : asks a_post (inr (MkCreateTicketRequest " Printer is broken " "")).
Proof. apply (asks_for _ _ (Body "" EOF)); vm_compute; reflexivity. Qed.

Example CreateTicket_spec_witness :
  exists w', (run (fun _ _ => drawn) 0 empty_world (CreateTicket (S := sys_sig) a_post)).1.1 = w' /\
    lookup_ticket w' "t-1" = Some answered /\
    (run (fun _ _ => drawn) 0 empty_world (CreateTicket (S := sys_sig) a_post)).2 =
      Response 201 (PTicket answered).
Proof.
  pose proof (CreateTicket_spec (S := sys_sig) (W := world) a_post empty_world (fun _ _ => drawn) 0
    drawn_sane) as H.
  assert (Hrs : (run (fun _ _ => drawn) 0 empty_world (CreateTicket (S := sys_sig) a_post)).2 =
    Response 201 (PTicket answered)) by (vm_compute; reflexivity).
  destruct (run _ 0 empty_world _) as [[w' m] rs]. exists w'. split; [reflexivity|].
  cbn [snd] in Hrs. subst rs. cbn [fst snd]. split; [|reflexivity].
  destruct (proj2 (proj2 H eq_refl) _ a_post_asks) as (w1&n1&t&_&_&Ht).
  destruct (run _ n1 w1 _) as [[w2 n2] created]. destruct Ht as (_&_&_&Ht).
  destruct created as [t'|err]; [|discriminate Ht]. destruct Ht as (Hr&Hl&Hid&_).
  injection Hr as <-. rewrite <- Hid in Hl. exact Hl.
Defined.

Example GetTicket_spec_witness :
  found a_get "t-9" (MkRuntime ∅ ∅ [], ∅ : tickets)
    (Response 404 (PError "not_found" "not found" "r-2")).
Proof.
  pose proof (GetTicket_spec (S := memory_api) (W := runtime * tickets) a_get "t-9"
    (MkRuntime ∅ ∅ [], ∅ : tickets) (fun _ _ => drawn) 0 drawn_sane) as H.
  destruct (run _ 0 (MkRuntime ∅ ∅ [], ∅ : tickets) _) as [[w' m] rs] eqn:E.
  assert (Hrs : rs = Response 404 (PError "not_found" "not found" "r-2")).
  { change rs with (w', m, rs).2. rewrite <- E. vm_compute. reflexivity. }
  rewrite <- Hrs. apply H.
Defined.

Example post_then_get_witness :
  (run (fun _ _ => drawn) 5
     (run (fun _ _ => drawn) 0 (MkRuntime ∅ ∅ [], ∅ : tickets) (CreateTicket (S := memory_api) a_post)).1.1
     (GetTicket (S := memory_api) a_get "t-1")).2 = Response 200 (PTicket answered).
Proof.
  pose proof (post_then_get (S := memory_api) (W := runtime * tickets) a_post a_get
    (MkRuntime ∅ ∅ [], ∅ : tickets) (fun _ _ => drawn) 0 (fun _ _ => drawn) 5 answered drawn_sane
    (fun _ _ => eq_refl) eq_refl) as H.
  destruct (run _ 0 (MkRuntime ∅ ∅ [], ∅ : tickets) _) as [[w1 m] rs] eqn:E. cbn [fst].
  assert (Hrs : rs_body rs = PTicket answered).
  { change rs with (w1, m, rs).2. rewrite <- E. vm_compute. reflexivity. }
  change (t_ID answered) with "t-1" in H.
  destruct (run _ 5 w1 _) as [[w2 m'] rs']. exact (H Hrs).
Defined.
