(* ===== verification/Http.v ===== *)
(** * Properties of the HTTP server: routing, request ids, metrics

    The handlers behind the router of internal/shared/httpx, against the interfaces of
    the store ([StoreLaws]) and of the metrics registry ([Registry]). *)

From stdpp Require Import pretty.
From S2P Require Import Prelude Effects GoString Utf8 Runtime Kafka Events Postgres Outbox.
From S2P Require Import Processed Ticket Handler Router Metrics World System Solo Concrete Api.
From Stdlib Require Import Ascii.
#[local] Open Scope Z_scope.

(** ** What the metrics middleware may rely on *)

Abbreviation counter_map := (gmap (string * list string) Z).
Definition incr (name : string) (labels : list string) (m : counter_map) : counter_map :=
  <[(name, labels) := default 0 (m !! (name, labels)) + 1]> m.

Definition is_add (o : runtime_op) : bool := match o with RAdd _ _ _ => true | _ => false end.

(** Counters change by [Inc] only; the store does not touch them. *)
Class Registry (S : sig) (W : Type) {EX : Exec S W} {SR : Sub runtime_sig S} {TS : TicketStore S} : Type := {
  counters : W -> counter_map;
  Inc_counts ch w name labels :
    counters (exec ch w (inj_op (RAdd name labels 1 : op runtime_sig))).1 = incr name labels (counters w);
  runtime_quiet ch w (o : runtime_op) : is_add o = false ->
    counters (exec ch w (inj_op (o : op runtime_sig))).1 = counters w;
  random_answers ch w :
    prj_ans RRand16 (exec ch w (inj_op (RRand16 : op runtime_sig))).2 =
      (if (length (ch_rand ch) =? 16)%nat then Ok (ch_rand ch) else Err (EMsg "rand"));
  Create_quiet rid t w :
    wp (solo (fun _ _ => True)) (store_Create rid t) (fun _ w' => counters w' = counters w) w;
  Get_quiet id w :
    wp (solo (fun _ _ => True)) (store_Get id) (fun _ w' => counters w' = counters w) w
}.

(** ** Paths *)

Lemma cleanPath_rooted p :
  head p = Some slash ->
  cleanPath p =
    if bool_decide (last p = Some slash) && negb (bool_decide (Clean p = [slash]))
    then Clean p ++ [slash] else Clean p.
Proof.
  destruct p as [|c p]; [done|]. intros [= ->]. unfold cleanPath.
  by rewrite (bool_decide_true (slash = slash)).
Qed.

Lemma clean_id esc :
  esc <> [] -> esc <> to_bytes "." -> esc <> to_bytes ".." -> slash ∉ esc ->
  cleanPath (to_bytes "/tickets/" ++ esc) = to_bytes "/tickets/" ++ esc.
Proof.
  intros Hne H1 H2 Hs.
  assert (Hp : to_bytes "/tickets/" ++ esc = [] ++ slash :: to_bytes "tickets" ++ slash :: esc) by done.
  assert (Ht : slash ∉ to_bytes "tickets") by (apply (bool_decide_unpack _); vm_compute; exact I).
  assert (Hc : Clean (to_bytes "/tickets/" ++ esc) = to_bytes "/tickets/" ++ esc).
  { unfold Clean. rewrite Hp, split_at_first, split_at_first, split_at_none by first [done | set_solver].
    simpl. by rewrite !bool_decide_false by done. }
  rewrite cleanPath_rooted, Hc by done.
  rewrite (bool_decide_false (last _ = _)); [done|].
  rewrite last_app. destruct (last esc) as [c|] eqn:E.
  - intros [= ->]. apply Hs. by apply last_Some_elem_of.
  - by apply last_None in E.
Qed.

Lemma segments_id esc :
  esc <> [] -> slash ∉ esc ->
  segments (to_bytes "/tickets/" ++ esc) = [to_bytes "tickets"; pathUnescape esc].
Proof.
  intros Hne Hs.
  assert (Ht : slash ∉ to_bytes "tickets") by (apply (bool_decide_unpack _); vm_compute; exact I).
  change (to_bytes "/tickets/" ++ esc) with (slash :: to_bytes "tickets" ++ slash :: esc).
  unfold segments. rewrite split_at_first, split_at_none by done.
  destruct esc as [|c esc]; [done|]. simpl. done.
Qed.

(** A path [/tickets/{esc}] of one more segment, as it was sent. *)
Definition path_of (esc : bytes) : string := of_bytes (to_bytes "/tickets/" ++ esc).
Definition one_segment (esc : bytes) : Prop :=
  esc <> [] /\ esc <> to_bytes "." /\ esc <> to_bytes ".." /\ (slash ∉ esc).

Lemma findHandler_id ht esc :
  one_segment esc -> ht_EscapedPath ht = path_of esc -> findHandler ht = ToHandler TicketsId.
Proof.
  intros (Hne&H1&H2&Hs) He. unfold findHandler, find_in. rewrite He. unfold path_of. rewrite to_of_bytes.
  rewrite clean_id, segments_id by done. rewrite (bool_decide_true (_ ++ _ = _)) by done.
  by destruct (bool_decide (ht_Method ht = "CONNECT")).
Qed.

Lemma contains_slash s : slash ∉ s -> contains s [slash] = false.
Proof.
  induction s as [|c s IH]; [done|]. intros [Hc Hs]%not_elem_of_cons. simpl.
  rewrite bool_decide_false by done. by apply IH.
Qed.

Lemma TrimPrefix_id esc : TrimPrefix (path_of esc) "/tickets/" = of_bytes esc.
Proof. unfold TrimPrefix, HasPrefix, path_of. by rewrite to_of_bytes. Qed.

(** ** The wrapping handlers *)

(** The id of a request: its header, or 16 random bytes in hexadecimal, or zeros. *)
Definition id_of (ht : http_request) (rid : string) : Prop :=
  if bool_decide (TrimSpace (ht_RequestID ht) = "")
  then len rid = 32 else rid = TrimSpace (ht_RequestID ht).

Definition inner (ht : http_request) (rid : string) : request :=
  Request (ht_Method ht) (ht_Path ht) (ht_Body ht) rid.

(** ** The labels of a request *)

Lemma pretty_N_ascii x s :
  Forall (fun c => code c < 128) (to_bytes s) ->
  Forall (fun c => code c < 128) (to_bytes (pretty_N_go x s)).
Proof.
  revert s. induction (N.lt_wf_0 x) as [x _ IH]; intros s Hs.
  assert (x = 0 \/ 0 < x)%N as [->|Hx] by lia; [done|]. rewrite pretty_N_go_step by done.
  apply IH; [by apply N.div_lt|]. simpl. constructor; [|done].
  unfold pretty_N_char. by repeat case_match.
Qed.

Lemma Itoa_valid z : valid_utf8 (Itoa z) = true.
Proof.
  apply ascii_valid.
  assert (HN : forall n, Forall (fun c => code c < 128) (to_bytes (pretty (N.pos n)))).
  { intros n. unfold pretty, pretty_N. case_decide; [done|]. by apply pretty_N_ascii. }
  destruct z as [|p|p]; unfold Itoa, pretty, pretty_Z.
  - by repeat constructor.
  - apply HN.
  - simpl. constructor; [done|apply HN].
Qed.

Lemma total_labels_ok route method status :
  label_values_ok HttpMetrics.reqTotal [route; method; Itoa status] = valid_utf8 route && valid_utf8 method.
Proof. unfold label_values_ok. simpl. by rewrite Itoa_valid, !andb_true_r. Qed.

Lemma latency_labels_ok route method :
  label_values_ok HttpMetrics.reqLatency [route; method] = valid_utf8 route && valid_utf8 method.
Proof. unfold label_values_ok. simpl. by rewrite andb_true_r. Qed.

(** What reaches the client of what the mux answered. *)
Definition delivered (ht : http_request) (ah : answer * option string) : answer :=
  if bool_decide (ht_Path ht = "/metrics") ||
     (valid_utf8 (default (ht_Path ht) ah.2) && valid_utf8 (ht_Method ht))
  then ah.1 else Aborted.

Section Server.
Context {JD : JsonDecoder} {S : sig} {W : Type} {EX : Exec S W} {SR : Sub runtime_sig S}.
Context {TS : TicketStore S} {SL : StoreLaws S W}.
Context (readyz : option (prog S (option goerr))) (promhttp : request -> prog S answer).

(** The holder the mux finds in its context. *)
Definition under (ht : http_request) (holder : option string) : Prop :=
  ht_Path ht = "/metrics" \/ holder = Some (ht_Path ht).

Lemma wp_Middleware_delivers E ht rid (next : routed) (Q : answer -> W -> Prop) w :
  (forall holder w1, under ht holder -> lookup_ticket w1 = lookup_ticket w ->
     wp (solo E) (next holder) (fun ah w2 =>
       forall w3, lookup_ticket w3 = lookup_ticket w2 -> Q (delivered ht ah) w3) w1) ->
  wp (solo E) (Middleware (inner ht rid) next) Q w.
Proof.
  intros H. unfold Middleware. cbn [rq_Path rq_Method inner]. unfold delivered in H.
  case_bool_decide as Hm; cbn [orb] in H.
  - apply wp_bind. eapply wp_mono; [|by apply H; [left|]]. intros [a h] w1 HQ. apply wp_ret. by apply HQ.
  - apply wp_runtime. intros w1 _ H1. apply wp_bind. eapply wp_mono; [|by apply H; [right|]].
    intros [a h] w2 HQ. cbn [fst snd] in HQ.
    destruct (aborted a) eqn:Ea.
    { destruct a; try done. apply wp_ret. specialize (HQ w2 eq_refl). by destruct (_ && _). }
    apply wp_runtime. intros w3 _ H3. cbv zeta. unfold WithLabelValues.
    rewrite total_labels_ok, latency_labels_ok.
    destruct (_ && _); [|by apply wp_ret, HQ].
    apply wp_runtime. intros w4 _ H4. apply wp_runtime. intros w5 _ H5.
    destruct (500 <=? status_of a).
    + apply wp_runtime. intros w6 _ H6. apply wp_ret, HQ. congruence.
    + apply wp_ret, HQ. congruence.
Qed.

(** The wrapping handlers leave the store as the mux left it, and deliver what it
    answered, unless the labels make them panic. *)
Lemma wp_ServeHTTP E ht (Q : string * answer -> W -> Prop) w :
  (forall rid w1 holder, under ht holder -> lookup_ticket w1 = lookup_ticket w ->
     wp (solo E) (mux readyz promhttp ht (inner ht rid) holder) (fun ah w2 =>
       forall w3, lookup_ticket w3 = lookup_ticket w2 -> Q (rid, delivered ht ah) w3) w1) ->
  wp (solo E) (ServeHTTP readyz promhttp ht) Q w.
Proof.
  intros H. unfold ServeHTTP, RequestID.
  assert (Hrest : forall rid w1, lookup_ticket w1 = lookup_ticket w ->
    wp (solo E) (a ← AccessLog (Middleware (inner ht rid) (mux readyz promhttp ht (inner ht rid)));
                 mret (rid, a)) Q w1).
  { intros rid w1 H1. unfold AccessLog. apply wp_bind. apply wp_runtime. intros w2 _ H2.
    apply wp_bind. eapply wp_mono; [|apply (wp_Middleware_delivers E ht rid _
      (fun a w3 => forall w4, lookup_ticket w4 = lookup_ticket w3 -> Q (rid, a) w4))].
    - intros a w3 HQ. destruct (aborted a) eqn:Ea; [destruct a; try done; apply wp_ret, wp_ret; by apply HQ|].
      apply wp_runtime. intros w4 _ H4. apply wp_ret, wp_ret. by apply HQ.
    - intros holder w3 Hu H3. eapply wp_mono; [|apply H; [done|congruence]]. intros ah w4 HQ w5 H5 w6 H6.
      apply HQ. congruence. }
  apply wp_bind. case_bool_decide; [|by apply wp_ret, Hrest].
  unfold newRequestID. apply wp_runtime. intros w1 r H1. by apply wp_ret, Hrest.
Qed.

Lemma wp_POST_stored ht w :
  ht_RequestURI ht <> "*" -> findHandler ht = ToHandler Tickets ->
  wp (solo sane_env) (ServeHTTP readyz promhttp ht) (fun ra w' => forall t,
    ra.2 = Answer (Response 201 (PTicket t)) ->
    lookup_ticket w' (t_ID t) = Some t /\ t_ID t <> "" /\ trimmed (t_ID t) = true) w.
Proof.
  intros Hu Hf. apply wp_ServeHTTP. intros rid w1 holder _ H1. unfold mux.
  rewrite bool_decide_false, Hf by done. unfold WithRoute. apply wp_bind, wp_bind.
  eapply wp_mono; [|apply wp_CreateTicket]. intros rs w2 Hc. apply wp_ret, wp_ret.
  intros w3 H3 t. unfold delivered. cbn [fst snd]. destruct (_ || _); [|done].
  intros [= ->]. unfold created in Hc. simpl in Hc.
  destruct Hc as (_&_&Hl&Hne&Htr&_). by rewrite H3.
Qed.

Lemma wp_GET_stored ht t w :
  ht_RequestURI ht <> "*" -> ht_Method ht = "GET" ->
  (exists esc, one_segment esc /\ ht_EscapedPath ht = path_of esc) ->
  ht_Path ht = path_of (to_bytes (t_ID t)) -> slash ∉ to_bytes (t_ID t) ->
  t_ID t <> "" -> trimmed (t_ID t) = true -> lookup_ticket w (t_ID t) = Some t ->
  wp (solo done_env) (ServeHTTP readyz promhttp ht) (fun ra w' =>
    ra.2 = Answer (Response 200 (PTicket t))) w.
Proof.
  intros Hu Hm (esc&Hesc&He) Hp Hs Hne Htr Hl. apply wp_ServeHTTP. intros rid w1 holder Hun H1.
  unfold mux. rewrite bool_decide_false by done. rewrite (findHandler_id ht esc) by done.
  unfold WithRoute, ticket_handler. simpl rq_Path. rewrite Hp, TrimPrefix_id, of_to_bytes.
  rewrite bool_decide_false by done. unfold Contains. rewrite contains_slash by done. simpl orb.
  cbv iota. apply wp_bind, wp_bind.
  eapply wp_mono; [|apply wp_GetTicket_stored; [done|exact Hne|exact Htr|by rewrite H1]].
  intros rs w2 ->. apply wp_ret, wp_ret. intros w3 _. unfold delivered. cbn [fst snd].
  destruct Hun as [Hun| ->]; [by rewrite bool_decide_true|].
  rewrite Hm. cbn [default]. by destruct (bool_decide _).
Qed.

(** C25: Round trip over HTTP. A ticket the server answers to a POST of /tickets is
    answered, field for field, to a GET of /tickets/{id}, however the id is escaped in
    the path, when the store carries the GET out. *)
Theorem create_then_fetch ht ht' (w : W) or n or' n' t :
  (forall i o, sane_env o (or i o)) -> (forall i o, done_env o (or' i o)) ->
  ht_RequestURI ht <> "*" -> findHandler ht = ToHandler Tickets ->
  ht_RequestURI ht' <> "*" -> ht_Method ht' = "GET" ->
  (exists esc, one_segment esc /\ ht_EscapedPath ht' = path_of esc) ->
  ht_Path ht' = path_of (to_bytes (t_ID t)) -> slash ∉ to_bytes (t_ID t) ->
  let '(w1, _, (_, a)) := run or n w (ServeHTTP readyz promhttp ht) in
  let '(_, _, (_, a')) := run or' n' w1 (ServeHTTP readyz promhttp ht') in
  a = Answer (Response 201 (PTicket t)) -> a' = Answer (Response 200 (PTicket t)).
Proof.
  intros Hor Hor' Hu Hf Hu' Hm He Hp Hs.
  pose proof (run_solo _ _ _ _ or n Hor (wp_POST_stored ht w Hu Hf)) as H.
  destruct (run or n w _) as [[w1 n1] [rid a]].
  destruct (run or' n' w1 _) as [[w2 n2] [rid' a']] eqn:E. intros Ha.
  destruct (H t Ha) as (Hl&Hne&Htr).
  pose proof (run_solo _ _ _ _ or' n' Hor' (wp_GET_stored ht' t w1 Hu' Hm He Hp Hs Hne Htr Hl)) as H'.
  by rewrite E in H'.
Qed.
End Server.

(** ** Every request is counted *)

(** The route label of a request: the path itself where no route is set. *)
Definition route_of (ht : http_request) : string :=
  if bool_decide (ht_RequestURI ht = "*") then ht_Path ht
  else match findHandler ht with
       | ToHandler Healthz => "/healthz"
       | ToHandler Readyz => "/readyz"
       | ToHandler Tickets => "/tickets"
       | ToHandler TicketsId => "/tickets/:id"
       | _ => ht_Path ht
       end.

(** An error of the API carries the id of its request. *)
Definition carries (rid : string) (a : answer) : Prop :=
  match a with
  | Answer rs => match rs_body rs with PError _ _ id => id = rid | _ => True end
  | _ => True
  end.

Section Counting.
Context {JD : JsonDecoder} {S : sig} {W : Type} {EX : Exec S W} {SR : Sub runtime_sig S}.
Context {TS : TicketStore S} {R : Registry S W}.
Context (readyz : option (prog S (option goerr))) (promhttp : request -> prog S answer).
Local Abbreviation wpt := (wp (solo (fun _ _ => True))).

(** What the server is given counts nothing and does not panic. *)
Definition check_quiet : Prop := forall check, readyz = Some check ->
  forall w, wpt check (fun _ w' => counters w' = counters w) w.
Definition promhttp_quiet : Prop :=
  forall r w, wpt (promhttp r) (fun a w' => counters w' = counters w /\ aborted a = false) w.

Lemma wp_quiet {A} (o : runtime_op) (k : ans runtime_sig o -> prog S A) (Q : A -> W -> Prop) w :
  is_add o = false -> (forall w' r, counters w' = counters w -> wpt (k r) Q w') ->
  wpt (call (o : op runtime_sig) ≫= k) Q w.
Proof. intros Ho H. apply wp_bind, wp_call. intros ch _. apply H, runtime_quiet, Ho. Qed.

Lemma wp_Inc {A} name labels (k : unit -> prog S A) (Q : A -> W -> Prop) w :
  (forall w' r, counters w' = incr name labels (counters w) -> wpt (k r) Q w') ->
  wpt (Inc name labels ≫= k) Q w.
Proof. intros H. apply wp_bind, wp_call. intros ch _. apply H, Inc_counts. Qed.

(** A handler that counts nothing and answers [r]. *)
Definition handles (r : request) (p : prog S answer) : Prop :=
  forall w, wpt p (fun a w' => counters w' = counters w /\ carries (rq_RequestID r) a /\
                             aborted a = false) w.

Lemma CreateTicket_handles r : handles r (rs ← CreateTicket r; mret (Answer rs)).
Proof.
  intros w. apply wp_bind.
  apply wp_mono with (Q := fun rs w' => counters w' = counters w /\
    carries (rq_RequestID r) (Answer rs) /\ aborted (Answer rs) = false);
    [intros; by apply wp_ret|].
  unfold CreateTicket. case_bool_decide; cbn [negb]; [|by apply wp_ret].
  destruct (decode_request _) as [[req rest]|err]; [|by apply wp_ret].
  case_bool_decide; cbn [negb]; [|by apply wp_ret]. destruct (Validate req); [by apply wp_ret|].
  apply wp_quiet; [done|]. intros w1 t1 H1. apply wp_quiet; [done|]. intros w2 t2 H2.
  apply wp_quiet; [done|]. intros w3 id H3. apply wp_bind.
  eapply wp_mono; [|apply Create_quiet]. intros [t|err] w4 H4; apply wp_ret; split; [congruence|done|congruence|done].
Qed.

Lemma ticket_handles r : handles r (ticket_handler r).
Proof.
  intros w. unfold ticket_handler. cbv zeta. destruct (_ || _); [by apply wp_ret|].
  apply wp_bind. unfold GetTicket.
  case_bool_decide; cbn [negb]; [|by repeat apply wp_ret].
  cbv zeta. case_bool_decide; [by repeat apply wp_ret|]. apply wp_bind.
  eapply wp_mono; [|apply Get_quiet]. intros [t|err] w1 H1; [by repeat apply wp_ret|].
  destruct (errors_Is err ErrNotFound); by repeat apply wp_ret.
Qed.

Lemma readyz_handles r : check_quiet -> handles r (readyz_handler readyz).
Proof.
  intros Hc w. unfold readyz_handler. destruct readyz as [check|] eqn:E; [|by apply wp_ret].
  apply wp_bind. eapply wp_mono; [|by apply (Hc check)]. intros [err|] w1 H1; by apply wp_ret.
Qed.

Lemma wp_mux ht rid holder w :
  check_quiet -> promhttp_quiet ->
  wpt (mux readyz promhttp ht (inner ht rid) holder) (fun ah w' =>
    counters w' = counters w /\
    (holder = Some (ht_Path ht) -> ah.2 = Some (route_of ht)) /\
    (findHandler ht <> ToHandler Metrics -> carries rid ah.1) /\ aborted ah.1 = false) w.
Proof.
  intros Hc Hp. unfold mux, route_of. case_bool_decide; [by repeat apply wp_ret|].
  assert (Hh : forall route p, handles (inner ht rid) p ->
    wpt (WithRoute route p holder) (fun ah w' => counters w' = counters w /\
      (holder = Some (ht_Path ht) -> ah.2 = Some route) /\
      (findHandler ht <> ToHandler Metrics -> carries rid ah.1) /\ aborted ah.1 = false) w).
  { intros route p Hr. apply wp_bind. eapply wp_mono; [|apply Hr]. intros a w1 (H1&Ha&Hn).
    apply wp_ret. split; [done|]. split; [by intros ->|done]. }
  destruct (findHandler ht) as [[| | | |]|path|] eqn:E; [|apply Hh..| |].
  - apply wp_bind. eapply wp_mono; [|apply Hp]. intros a w1 [H1 Ha]. by apply wp_ret.
  - intros w1. by apply wp_ret.
  - by apply readyz_handles.
  - apply (CreateTicket_handles (inner ht rid)).
  - apply ticket_handles.
  - by repeat apply wp_ret.
  - by repeat apply wp_ret.
Qed.

(** One request in the counters. *)
Definition counted (ht : http_request) (status : Z) (m m' : counter_map) : Prop :=
  forall name labels,
    default 0 (m' !! (name, labels)) = default 0 (m !! (name, labels)) +
      if bool_decide (ht_Path ht <> "/metrics") &&
         (bool_decide ((name, labels) = ("http_requests_total", [route_of ht; ht_Method ht; Itoa status]))
          || bool_decide ((name, labels) = ("http_request_duration_seconds", [route_of ht; ht_Method ht]))
          || (bool_decide ((name, labels) = ("http_requests_5xx_total", [])) && (500 <=? status)))
      then 1 else 0.

Lemma lookup_incr name labels key m :
  default 0 (incr name labels m !! key) =
    default 0 (m !! key) + if bool_decide (key = (name, labels)) then 1 else 0.
Proof.
  unfold incr. case_bool_decide as H.
  - subst key. by rewrite lookup_insert_eq.
  - rewrite lookup_insert_ne by done. lia.
Qed.

Lemma counted_incr ht status m :
  ht_Path ht <> "/metrics" ->
  let m2 := incr "http_request_duration_seconds" [route_of ht; ht_Method ht]
              (incr "http_requests_total" [route_of ht; ht_Method ht; Itoa status] m) in
  counted ht status m (if 500 <=? status then incr "http_requests_5xx_total" [] m2 else m2).
Proof.
  intros Hp m2 name labels. rewrite bool_decide_true by done. cbn [andb].
  destruct (500 <=? status); subst m2; rewrite !lookup_incr;
    repeat case_bool_decide; simplify_eq; simpl; lia.
Qed.

(** The labels of a request: it is measured, or its path is that of the metrics. *)
Definition measurable (ht : http_request) : bool :=
  bool_decide (ht_Path ht = "/metrics") || (valid_utf8 (route_of ht) && valid_utf8 (ht_Method ht)).

Lemma wp_Middleware ht rid w :
  check_quiet -> promhttp_quiet ->
  wpt (Middleware (inner ht rid) (mux readyz promhttp ht (inner ht rid))) (fun a w' =>
    aborted a = negb (measurable ht) /\
    (findHandler ht <> ToHandler Metrics -> carries rid a) /\
    if measurable ht then counted ht (status_of a) (counters w) (counters w')
    else counters w' = counters w) w.
Proof.
  intros Hc Hp. unfold Middleware, measurable. simpl rq_Path. case_bool_decide as Hm; cbn [orb].
  - apply wp_bind. eapply wp_mono; [|by apply wp_mux]. intros [a h] w1 (H1&_&Ha&Hn).
    apply wp_ret. split; [done|]. split; [done|]. intros name labels.
    rewrite H1, bool_decide_false by (by intros ?). simpl. lia.
  - apply wp_quiet; [done|]. intros w1 start H1. apply wp_bind.
    eapply wp_mono; [|by apply wp_mux]. intros [a h] w2 (H2&Hh&Ha&Hn). specialize (Hh eq_refl). cbn [fst snd] in *. subst h.
    rewrite Hn. apply wp_quiet; [done|]. intros w3 now H3. cbv zeta. cbn [default rq_Method inner].
    unfold WithLabelValues. rewrite total_labels_ok, latency_labels_ok.
    destruct (_ && _); [|apply wp_ret; split; [done|]; split; [done|congruence]].
    apply wp_Inc. intros w4 _ H4. apply wp_Inc. intros w5 _ H5.
    pose proof (counted_incr ht (status_of a) (counters w) Hm) as Hi. cbv zeta in Hi.
    rewrite H1 in H2. rewrite H2 in H3. rewrite H3 in H4. rewrite H4 in H5.
    destruct (500 <=? status_of a).
    + apply wp_Inc. intros w6 _ H6. rewrite H5 in H6. apply wp_ret. cbn [negb]. by rewrite H6.
    + apply wp_ret. cbn [negb]. by rewrite H5.
Qed.

Lemma len_newID ch : len (newID (if (length (ch_rand ch) =? 16)%nat then Ok (ch_rand ch) else Err (EMsg "rand"))) = 32.
Proof.
  destruct (_ =? _)%nat eqn:E; [|done]. apply Nat.eqb_eq in E.
  enough (H : forall b, len (hex_encode b) = 2 * Z.of_nat (length b)) by (simpl; rewrite H, E; done).
  intros b. unfold len, hex_encode. rewrite to_of_bytes.
  induction b as [|c b IH]; [done|]. cbn [flat_map app length]. lia.
Qed.

Lemma wp_server ht w :
  check_quiet -> promhttp_quiet ->
  wpt (ServeHTTP readyz promhttp ht) (fun '(rid, a) w' =>
    aborted a = negb (measurable ht) /\
    id_of ht rid /\ (findHandler ht <> ToHandler Metrics -> carries rid a) /\
    if measurable ht then counted ht (status_of a) (counters w) (counters w')
    else counters w' = counters w) w.
Proof.
  intros Hc Hp. unfold ServeHTTP, RequestID.
  assert (Hrest : forall rid w1, id_of ht rid -> counters w1 = counters w ->
    wpt (a ← AccessLog (Middleware (inner ht rid) (mux readyz promhttp ht (inner ht rid)));
         mret (rid, a)) (fun '(rid, a) w' =>
      aborted a = negb (measurable ht) /\
      id_of ht rid /\ (findHandler ht <> ToHandler Metrics -> carries rid a) /\
      if measurable ht then counted ht (status_of a) (counters w) (counters w')
      else counters w' = counters w) w1).
  { intros rid w1 Hid H1. unfold AccessLog. apply wp_bind. apply wp_quiet; [done|].
    intros w2 start H2. apply wp_bind. eapply wp_mono; [|by apply wp_Middleware].
    intros a w3 (Hn&Ha&H3). rewrite H2, H1 in H3.
    destruct (aborted a) eqn:Ea; [apply wp_ret, wp_ret; by destruct a|].
    apply wp_quiet; [done|]. intros w4 now H4. apply wp_ret, wp_ret. rewrite <- H4 in H3.
    split; [by rewrite Ea|done]. }
  apply wp_bind. unfold id_of in *. case_bool_decide; [|by apply wp_ret, Hrest].
  unfold newRequestID. apply wp_bind, wp_call. intros ch _. rewrite random_answers.
  apply wp_ret, Hrest; [apply len_newID|by apply runtime_quiet].
Qed.

(** C28: Every request but those of /metrics is counted exactly once, under its route,
    its method and the status it is answered, in the latency histogram, and, when the
    status is 500 or more, as a server error; and every answer carries the id of its
    request - the X-Request-Id header without surrounding spaces or a new id of 32
    characters - in its header and in the body of an API error.  The exception are
    requests whose label values are not valid UTF-8, such as a path without a route that
    is not: they are aborted by a panic of the metrics library, and not counted. *)
Theorem requests_are_counted ht w or n :
  check_quiet -> promhttp_quiet ->
  let '(w', _, (rid, a)) := run or n w (ServeHTTP readyz promhttp ht) in
  aborted a = negb (measurable ht) /\
  id_of ht rid /\ (findHandler ht <> ToHandler Metrics -> carries rid a) /\
  if measurable ht then counted ht (status_of a) (counters w) (counters w')
  else counters w' = counters w.
Proof.
  intros Hc Hp. pose proof (run_solo _ _ _ _ or n (fun _ _ => I) (wp_server ht w Hc Hp)) as H.
  by destruct (run or n w _) as [[w' m] [rid a]].
Qed.
End Counting.

(** ** Both stores leave the counters alone *)

#[export] Instance memory_registry : Registry memory_api (runtime * tickets).
Proof.
  refine {| counters w := rt_counters w.1 |}.
  - done.
  - by intros ch w [].
  - done.
  - intros rid t w. by apply wp_call.
  - intros id w. by apply wp_call.
Defined.

Section PostgresRegistry.
Context {J : Json} {PG : Postgres}.

Definition ticket_call (o : sys_op) : Prop := match o with OTicket _ => True | _ => False end.

Lemma only_ticket_calls rid t : only ticket_call (fun _ => True) (PostgresStore.Create (S := sys_sig) rid t).
Proof.
  assert (Hrb : forall tx err, only (S := sys_sig) ticket_call (fun _ : result Ticket => True)
                                 (PostgresStore.rollback tx err)) by by repeat split.
  unfold PostgresStore.Create. only_call. intros [tx|err] _; [|done].
  only_call. intros [[tx1 out]|err] _; [|apply Hrb].
  destruct (marshal_payload _) as [p|err]; [|apply Hrb].
  only_call. intros [tx2|err] _; [|apply Hrb]. only_call. by intros [u|err] _.
Qed.

Lemma ticket_call_quiet ch w (o : op sys_sig) :
  ticket_call o -> rt_counters (w_rt (exec ch w o).1) = rt_counters (w_rt w).
Proof. by destruct o. Qed.

#[export] Instance postgres_registry : Registry sys_sig world.
Proof.
  refine {| counters w := rt_counters (w_rt w) |}.
  - done.
  - by intros ch w [].
  - done.
  - intros rid t w. eapply wp_mono; [|eapply wp_only with (f := fun w => rt_counters (w_rt w))];
      [by intros a w' [_ H]|apply only_ticket_calls|intros; by apply ticket_call_quiet].
  - intros id w. eapply wp_mono; [|eapply (wp_only _ ticket_call (fun _ => True) (fun w => rt_counters (w_rt w)))];
      [by intros a w' [_ H]| |intros; by apply ticket_call_quiet].
    apply only_bind with (R := fun _ => True); [by split|]. intros [t|err] _; [done|].
    by destruct (errors_Is err ErrNoRows).
Defined.
End PostgresRegistry.

(** ** Witnesses *)

Definition no_metrics {S : sig} (r : request) : prog S answer := mret (Answer (Response 200 (PText ""))).

Definition a_post_request : http_request :=
  HttpRequest "POST" "/tickets" "/tickets" "/tickets" " r-1 " a_body.
Definition a_get_request : http_request :=
  HttpRequest "GET" "/tickets/t%2D1" "/tickets/t%2D1" "/tickets/t-1" "" "".

Definition fresh : runtime * tickets := (MkRuntime ∅ ∅ [], ∅).

Lemma requests_are_counted_witness :
  let '(w', _, (rid, a)) :=
    run (fun _ _ => drawn) 0 fresh (ServeHTTP (S := memory_api) None no_metrics a_post_request) in
  aborted a = false /\ rid = "r-1" /\ status_of a = 201 /\
  default 0 (counters w' !! ("http_requests_total", ["/tickets"; "POST"; "201"])) = 1.
Proof.
  pose proof (requests_are_counted (S := memory_api) (W := runtime * tickets) None no_metrics
    a_post_request fresh (fun _ _ => drawn) 0 ltac:(done) ltac:(done)) as H.
  destruct (run _ 0 fresh _) as [[w' m] [rid a]] eqn:E. destruct H as (Hn&Hid&_&Hc).
  split; [exact Hn|]. split; [exact Hid|].
  assert (Hs : status_of a = 201).
  { change a with (w', m, (rid, a)).2.2. rewrite <- E. vm_compute. reflexivity. }
  split; [exact Hs|]. rewrite Hs in Hc.
  rewrite (Hc "http_requests_total" ["/tickets"; "POST"; "201"]). vm_compute. reflexivity.
Defined.

Lemma create_then_fetch_witness :
  (run (fun _ _ => drawn) 20
     (run (fun _ _ => drawn) 0 fresh (ServeHTTP (S := memory_api) None no_metrics a_post_request)).1.1
     (ServeHTTP (S := memory_api) None no_metrics a_get_request)).2.2
  = Answer (Response 200 (PTicket answered)).
Proof.
  assert (Hseg : exists esc, one_segment esc /\ ht_EscapedPath a_get_request = path_of esc).
  { exists (to_bytes "t%2D1"). split; [|done]. repeat split; [done..|].
    apply (bool_decide_unpack _). vm_compute. exact I. }
  assert (Hid : slash ∉ to_bytes (t_ID answered)).
  { apply (bool_decide_unpack _). vm_compute. exact I. }
  pose proof (create_then_fetch (S := memory_api) (W := runtime * tickets) None no_metrics
    a_post_request a_get_request fresh (fun _ _ => drawn) 0 (fun _ _ => drawn) 20 answered
    drawn_sane (fun _ _ => eq_refl) ltac:(done) eq_refl ltac:(done) eq_refl Hseg eq_refl Hid) as H.
  destruct (run _ 0 fresh _) as [[w1 m] [rid a]] eqn:E. cbn [fst].
  assert (Ha : a = Answer (Response 201 (PTicket answered))).
  { change a with (w1, m, (rid, a)).2.2. rewrite <- E. vm_compute. reflexivity. }
  destruct (run _ 20 w1 _) as [[w2 m'] [rid' a']]. exact (H Ha).
Defined.
