(* ===== verification/Stores.v ===== *)
(** * The two stores are interchangeable

    ticket-service on its in-memory store and on Postgres: the same requests get the
    same answers when Postgres carries the statements out and accepts the texts.  The
    proof relates the two instances of the same server, call by call. *)

From S2P Require Import Prelude Effects GoString Utf8 Runtime Kafka Events Metrics Postgres Outbox Json.
From S2P Require Import Processed Ticket Handler Router World System Safety Solo Concrete Api.

(** What the environment of one request provides: the time, the UUIDs of the ticket and
    of its event, and the random bytes of the request id. *)
Record draw : Type := Draw {
  d_now : Z;
  d_uuid : string;
  d_event : string;
  d_rand : bytes
}.

Definition draws (d : draw) (ch : choice) : Prop :=
  ch_out ch = Done /\ ch_now ch = d_now d /\ ch_rand ch = d_rand d.

Definition memory_env (d : draw) (_ : op memory_api) (ch : choice) : Prop :=
  draws d ch /\ ch_uuid ch = d_uuid d.

Definition postgres_env (d : draw) (o : op sys_sig) (ch : choice) : Prop :=
  draws d ch /\
  ch_uuid ch = match o with OTicket (QInsertOutbox _ _ _ _ _) => d_event d | _ => d_uuid d end.

(** The rows of the outbox were numbered by the sequence, and their events are known. *)
Definition numbered (evs : list string) (db : tables) : Prop :=
  (forall id, is_Some (db_outbox db !! id) -> id <= db_seq db) /\
  (forall ev, ev ∈ event_ids (db_outbox db) -> ev ∈ evs).

Lemma numbered_more ev evs db : numbered evs db -> numbered (ev :: evs) db.
Proof. intros [Hs He]. split; [done|]. intros ev' Hev'. right. by apply He. Qed.

Section Same.
Context {J : Json} {JD : JsonDecoder} {PG : Postgres} {PH : Prometheus}.

(** Both programs, from tickets [m], give the same value and leave the same tickets. *)
Definition same {A} (d : draw) (evs : list string) (m : tickets) (p1 : prog memory_api A)
    (p2 : prog sys_sig A) (Q : A -> tickets -> Prop) (evs' : list string) : Prop :=
  exists a m', Q a m' /\
    (forall w, w.2 = m -> wp (solo (memory_env d)) p1 (fun a' w' => a' = a /\ w'.2 = m') w) /\
    (forall w, w_tickets w = m -> numbered evs (w_db w) ->
       wp (solo (postgres_env d)) p2
          (fun a' w' => a' = a /\ w_tickets w' = m' /\ numbered evs' (w_db w')) w).

Lemma same_ret {A} d evs m (a : A) (Q : A -> tickets -> Prop) :
  Q a m -> same d evs m (mret a) (mret a) Q evs.
Proof. intros HQ. exists a, m. split; [done|]. split; intros; by apply wp_ret. Qed.

Lemma same_bind {A B} d evs m p1 p2 (f1 : A -> prog memory_api B) f2 Q1 evs1 Q evs2 :
  same d evs m p1 p2 Q1 evs1 ->
  (forall a m1, Q1 a m1 -> same d evs1 m1 (f1 a) (f2 a) Q evs2) ->
  same d evs m (p1 ≫= f1) (p2 ≫= f2) Q evs2.
Proof.
  intros (a&m1&Ha&H1&H2) Hf. destruct (Hf a m1 Ha) as (b&m2&Hb&F1&F2).
  exists b, m2. split; [done|]. split.
  - intros w Hw. apply wp_bind. eapply wp_mono; [|by apply H1]. intros a' w' [-> Hw']. by apply F1.
  - intros w Hw Hn. apply wp_bind. eapply wp_mono; [|by apply H2].
    intros a' w' (->&Hw'&Hn'). by apply F2.
Qed.

Lemma same_more {A} d evs m p1 p2 (Q : A -> tickets -> Prop) ev :
  same d evs m p1 p2 Q evs -> same d evs m p1 p2 Q (ev :: evs).
Proof.
  intros (a&m1&Ha&H1&H2). exists a, m1. split; [done|]. split; [done|].
  intros w Hw Hn. eapply wp_mono; [|by apply H2]. intros a' w' (->&Hw'&Hn').
  split; [done|]. split; [done|by apply numbered_more].
Qed.

(** The clock, the ids, the random bytes and the metrics are those of the draw. *)
Lemma same_runtime {A} d evs m (o : runtime_op) (a : ans runtime_sig o)
    (k1 : ans runtime_sig o -> prog memory_api A) k2 Q evs' :
  (forall ch rt, draws d ch -> ch_uuid ch = d_uuid d -> (runtime_exec ch rt o).2 = a) ->
  same d evs m (k1 a) (k2 a) Q evs' ->
  same d evs m (call (o : op runtime_sig) ≫= k1) (call (o : op runtime_sig) ≫= k2) Q evs'.
Proof.
  intros Ho Hk.
  apply (same_bind d evs m _ _ k1 k2 (fun a' m' => a' = a /\ m' = m) evs Q evs'); [|by intros a' m' [-> ->]].
  exists a, m. split; [done|]. split.
  - intros w Hw. apply wp_call. intros ch [Hd Hu]. split; [exact (Ho ch w.1 Hd Hu)|exact Hw].
  - intros w Hw Hn. apply wp_call. intros ch [Hd Hu]. split; [exact (Ho ch (w_rt w) Hd Hu)|by split].
Qed.

(** ** The stores *)

Lemma event_ids_insert (t : table) id r ev :
  t !! id = None -> ev ∈ event_ids (<[id := r]> t) -> ev = r_event_id r \/ ev ∈ event_ids t.
Proof.
  intros Hn. unfold event_ids. rewrite !list_elem_of_fmap. intros (kr&->&Hin).
  apply elem_of_map_to_list' in Hin. rewrite lookup_insert in Hin.
  case_decide as Heq; [left; congruence|right]. exists kr. split; [done|].
  by apply elem_of_map_to_list'.
Qed.

(** What Postgres must accept of a ticket. *)
Definition storable (rid : string) (t : Ticket) : Prop :=
  text_ok (t_ID t) = true /\ text_ok (t_Title t) = true /\ text_ok (t_Description t) = true /\
  text_ok (t_Status t) = true /\ pg_time (t_CreatedAt t) = t_CreatedAt t /\
  pg_time (t_UpdatedAt t) = t_UpdatedAt t /\
  exists p pl, marshal_payload (MkTicketPayload (t_ID t) (t_Title t) (t_Status t) (t_CreatedAt t) rid) = Ok p /\
    jsonb_in p = Some pl.

Context (Hconst : text_ok "ticket" = true /\ text_ok EventTypeTicketCreated = true).

Lemma done_stmt ch w (o : ticket_op) : ch_out ch = Done ->
  exec ch w (OTicket o : op sys_sig) =
    (with_db (ticket_stmt ch (w_db w) o).1 w, (ticket_stmt ch (w_db w) o).2).
Proof. intros Hd. rewrite exec_ticket. unfold ticket_next, ticket_exec. by rewrite Hd. Qed.

(** The next row of the outbox. *)
Definition next_row (now : Z) (ev payload : string) (t : Ticket) : row :=
  Row ev "ticket" (t_ID t) EventTypeTicketCreated payload "pending" now None None 0 now None now None.

Lemma wp_Create_done d evs rid t ev w :
  storable rid t -> uuid_in (d_event d) = Some ev -> ev ∉ evs ->
  w_tickets w !! t_ID t = None -> numbered evs (w_db w) ->
  wp (solo (postgres_env d)) (PostgresStore.Create rid t) (fun r w' =>
    r = Ok t /\ w_tickets w' = <[t_ID t := t]> (w_tickets w) /\ numbered (ev :: evs) (w_db w')) w.
Proof.
  intros (Hi&Hti&Hde&Hst&Hcr&Hup&p&pl&Hp&Hpl) Hev Hnew Hfresh [Hseq Hevs].
  destruct Hconst as [Hc1 Hc2]. unfold PostgresStore.Create.
  assert (Hno : db_outbox (w_db w) !! (db_seq (w_db w) + 1) = None).
  { apply eq_None_not_Some. intros Hs. specialize (Hseq _ Hs). lia. }
  assert (Hne : ev ∉ event_ids (db_outbox (w_db w))) by (intros Hin; by apply Hnew, Hevs).
  apply wp_bind, wp_call. intros ch1 [(Hd1&_) _]. ops. rewrite done_stmt by done. cbn [ticket_stmt fst snd].
  apply wp_bind, wp_call. intros ch2 [(Hd2&_) _]. ops. rewrite done_stmt by done. cbn [ticket_stmt fst snd].
  unfold insert_ticket. rewrite Hi, Hti, Hde, Hst. cbn [andb].
  change (db_tickets (w_db (with_db (w_db w) w))) with (w_tickets w). rewrite Hfresh.
  rewrite bool_decide_false by by intros []. cbn [orb tx_tickets fmap list_fmap].
  rewrite bool_decide_false by apply not_elem_of_nil. rewrite Hcr, Hup.
  assert (Et : MkTicket (t_ID t) (t_Title t) (t_Description t) (t_Status t) (t_CreatedAt t)
                 (t_UpdatedAt t) = t) by by destruct t.
  rewrite Et, Hp.
  apply wp_bind, wp_call. intros ch3 [(Hd3&_) Hu3]. ops. rewrite done_stmt by done. cbn [ticket_stmt fst snd].
  unfold insert_outbox. rewrite Hc1, Hi, Hc2, Hpl. cbn [andb]. ops. cbn in Hu3. rewrite Hu3, Hev.
  cbn [w_db with_db tx_outbox fmap list_fmap].
  rewrite !bool_decide_false; [|apply not_elem_of_nil|done]. cbn [orb tx_now tx_tickets].
  apply wp_bind, wp_call. intros ch4 [(Hd4&_) _]. ops. rewrite done_stmt by done. cbn [ticket_stmt fst snd].
  unfold commit_tx, tx_conflicts. cbn [tx_tickets tx_outbox existsb fst snd w_db with_db db_tickets db_outbox].
  unfold w_tickets in Hfresh. rewrite Hfresh, Hno. cbn [r_event_id].
  rewrite (bool_decide_false (ev ∈ _)), !bool_decide_false by first [done|by intros []].
  cbn [orb fst snd foldr]. apply wp_ret. split; [done|]. split; [done|].
  split; cbn [w_db with_db db_outbox db_seq fst snd].
  - intros id. rewrite lookup_insert. case_decide; [lia|]. intros Hs. specialize (Hseq _ Hs). lia.
  - intros ev' Hin. apply event_ids_insert in Hin as [->|Hin]; [by left|right; by apply Hevs|done].
Qed.

Lemma same_Create d evs m rid t ev :
  storable rid t -> t_ID t <> "" -> uuid_in (d_event d) = Some ev -> ev ∉ evs -> m !! t_ID t = None ->
  same d evs m (store_Create rid t) (store_Create rid t)
    (fun r m' => r = Ok t /\ m' = <[t_ID t := t]> m) (ev :: evs).
Proof.
  intros Hs Hid Hev Hnew Hf. exists (Ok t), (<[t_ID t := t]> m). split; [done|]. split.
  - intros w Hw. apply wp_call. intros ch _. unfold exec; simpl. unfold InMemoryStore.Create.
    by rewrite bool_decide_false, Hw by done.
  - intros w <- Hn. by apply wp_Create_done.
Qed.

Lemma same_Get d evs m id :
  text_ok id = true ->
  same d evs m (store_Get id) (store_Get id)
    (fun r m' => r = (match m !! id with Some t => Ok t | None => Err ErrNotFound end) /\ m' = m) evs.
Proof.
  intros Ht. eexists _, m. split; [done|]. split.
  - intros w Hw. apply wp_call. intros ch _. unfold exec; simpl. unfold InMemoryStore.Get.
    rewrite Hw. by destruct (m !! id).
  - intros w <- Hn. unfold store_Get; simpl. unfold PostgresStore.Get. apply wp_bind, wp_call.
    intros ch [(Hd&_) _]. ops. rewrite done_stmt by done. cbn [ticket_stmt fst snd]. rewrite Ht.
    unfold w_tickets. destruct (db_tickets (w_db w) !! id) as [t|] eqn:E; by apply wp_ret.
Qed.

(** ** The handlers *)

(** A request Postgres answers like the in-memory store: the ids are new and its texts can
    be stored, at the precision of a [timestamptz]. *)
Record accepted (d : draw) (rid : string) (ht : http_request) : Prop := {
  ac_uuid : d_uuid d <> "";
  ac_get : text_ok (TrimSpace (TrimPrefix (ht_Path ht) "/tickets/")) = true;
  ac_post req rest : decode_request (MaxBytesReader (ht_Body ht) 1048576) = Ok (req, rest) ->
    Validate req = None ->
    storable rid (MkTicket (d_uuid d) (TrimSpace (req_Title req)) (TrimSpace (req_Description req))
                           "open" (d_now d) (d_now d))
}.

Definition request_of (ht : http_request) (rid : string) : request :=
  Request (ht_Method ht) (ht_Path ht) (ht_Body ht) rid.

Definition adds (d : draw) (m m' : tickets) : Prop :=
  forall id, is_Some (m' !! id) -> is_Some (m !! id) \/ id = d_uuid d.

Section Handlers.
Context (d : draw) (evs : list string) (m : tickets) (ht : http_request) (rid ev : string).
Context (Hac : accepted d rid ht) (Hev : uuid_in (d_event d) = Some ev) (Hnew : ev ∉ evs).
Context (Hfresh : m !! d_uuid d = None).
Let r := request_of ht rid.

Lemma adds_nothing : adds d m m.
Proof. intros id Hid. by left. Qed.

Lemma same_CreateTicket :
  same d evs m (CreateTicket r) (CreateTicket r) (fun _ m' => adds d m m') (ev :: evs).
Proof.
  unfold CreateTicket. pose proof adds_nothing as H0.
  destruct (negb _); [by apply same_more, same_ret|].
  destruct (decode_request _) as [[req rest]|err] eqn:Ed; [|by apply same_more, same_ret].
  destruct (negb _); [by apply same_more, same_ret|].
  destruct (Validate req) as [err|] eqn:Ev; [by apply same_more, same_ret|].
  apply (same_runtime _ _ _ RNow (d_now d)); [by intros ch rt (_&?&_) _|].
  apply (same_runtime _ _ _ RNow (d_now d)); [by intros ch rt (_&?&_) _|].
  apply (same_runtime _ _ _ RUuid (d_uuid d)); [by intros ch rt _ ?|].
  eapply same_bind; [apply same_Create; [exact (ac_post _ _ _ Hac req rest Ed Ev)|exact (ac_uuid _ _ _ Hac)|done..]|].
  intros res m' [-> ->]. apply same_ret. intros id. rewrite lookup_insert. case_decide; [by right|by left].
Qed.

Lemma same_ticket_handler :
  same d evs m (ticket_handler r) (ticket_handler r) (fun _ m' => adds d m m') evs.
Proof.
  unfold ticket_handler. cbv zeta. pose proof adds_nothing as H0. destruct (_ || _); [by apply same_ret|].
  apply (same_bind d evs m _ _ _ _ (fun _ m' => adds d m m') evs); [|by intros a m' Hm'; apply same_ret].
  unfold GetTicket. destruct (negb _); [by apply same_ret|].
  cbv zeta. case_bool_decide; [by apply same_ret|].
  eapply same_bind; [apply same_Get, (ac_get _ _ _ Hac)|]. intros t m' [_ ->].
  destruct t as [t|err]; [by apply same_ret|].
  by destruct (errors_Is err ErrNotFound); apply same_ret.
Qed.

Lemma same_mux holder :
  same d evs m (mux None promhttp ht r holder) (mux (Some ping) promhttp ht r holder)
    (fun _ m' => adds d m m') (ev :: evs).
Proof.
  pose proof adds_nothing as H0.
  assert (Hw : forall route (p1 : prog memory_api answer) p2,
    same d evs m p1 p2 (fun _ m' => adds d m m') (ev :: evs) ->
    same d evs m (WithRoute route p1 holder) (WithRoute route p2 holder) (fun _ m' => adds d m m') (ev :: evs)).
  { intros route p1 p2 Hp. eapply same_bind; [exact Hp|]. intros a m' Hm'. by apply same_ret. }
  unfold mux. case_bool_decide; [by apply same_more, same_ret|].
  destruct (findHandler ht) as [[]|path|]; try by apply same_more, same_ret.
  - apply Hw, same_more. unfold readyz_handler.
    exists (Answer (Response 200 (PText "ready"))), m. split; [done|]. split.
    + intros w Hw1. by apply wp_ret.
    + intros w Hw2 Hn. unfold ping. apply wp_bind, wp_bind, wp_call. intros ch [(Hd&_) _]. ops.
      rewrite done_stmt by done. cbn [ticket_stmt fst snd]. by apply wp_ret, wp_ret.
  - apply Hw. eapply same_bind; [apply same_CreateTicket|]. intros a m' Hm'. by apply same_ret.
  - apply Hw, same_more. apply same_ticket_handler.
Qed.

Lemma same_Middleware :
  same d evs m (Middleware r (mux None promhttp ht r)) (Middleware r (mux (Some ping) promhttp ht r))
    (fun _ m' => adds d m m') (ev :: evs).
Proof.
  unfold Middleware. case_bool_decide.
  { eapply same_bind; [apply same_mux|]. intros [a h] m' Hm'. by apply same_ret. }
  apply (same_runtime _ _ _ RNow (d_now d)); [by intros ch rt (_&?&_) _|].
  eapply same_bind; [apply same_mux|]. intros [a h] m' Hm'. destruct (aborted a); [by apply same_ret|].
  apply (same_runtime _ _ _ RNow (d_now d)); [by intros ch rt (_&?&_) _|]. cbv zeta.
  assert (Hl : forall mt labels p1 p2,
    same d (ev :: evs) m' p1 p2 (fun (_ : answer) m' => adds d m m') (ev :: evs) ->
    same d (ev :: evs) m' (WithLabelValues mt labels p1) (WithLabelValues mt labels p2)
      (fun _ m' => adds d m m') (ev :: evs)).
  { intros mt labels p1 p2 Hp. unfold WithLabelValues. destruct (label_values_ok mt labels); [|by apply same_ret].
    by apply (same_runtime _ _ _ (RAdd (mt_name mt) labels 1) ()). }
  apply Hl, Hl. destruct (500 <=? status_of a); [|by apply same_ret].
  apply (same_runtime _ _ _ (RAdd "http_requests_5xx_total" [] 1) ()); [done|]. by apply same_ret.
Qed.
End Handlers.

(** The request id: the header, or drawn. *)
Definition rid_of (d : draw) (ht : http_request) : string :=
  let rid := TrimSpace (ht_RequestID ht) in
  if bool_decide (rid = "")
  then newID (if (length (d_rand d) =? 16)%nat then Ok (d_rand d) else Err (EMsg "rand")) else rid.

Lemma same_server d evs m ht ev :
  accepted d (rid_of d ht) ht -> uuid_in (d_event d) = Some ev -> ev ∉ evs -> m !! d_uuid d = None ->
  same d evs m (ServeHTTP None promhttp ht) (ticket_service ht) (fun _ m' => adds d m m') (ev :: evs).
Proof.
  intros Hac Hev Hnew Hfresh. unfold ticket_service, ServeHTTP, RequestID.
  assert (Hrest : same d evs m
      (a ← AccessLog (Middleware (request_of ht (rid_of d ht)) (mux None promhttp ht (request_of ht (rid_of d ht))));
       mret (rid_of d ht, a))
      (a ← AccessLog (Middleware (request_of ht (rid_of d ht)) (mux (Some ping) promhttp ht (request_of ht (rid_of d ht))));
       mret (rid_of d ht, a)) (fun _ m' => adds d m m') (ev :: evs)).
  { eapply (same_bind _ _ _ _ _ _ _ (fun _ m' => adds d m m')); [|by intros a m' Hm'; apply same_ret].
    unfold AccessLog. apply (same_runtime _ _ _ RNow (d_now d)); [by intros ch rt (_&?&_) _|].
    eapply same_bind; [by apply same_Middleware|]. intros a m' Hm'. destruct (aborted a); [by apply same_ret|].
    apply (same_runtime _ _ _ RNow (d_now d)); [by intros ch rt (_&?&_) _|]. by apply same_ret. }
  unfold rid_of in *. case_bool_decide.
  - eapply (same_bind _ _ _ _ _ _ _ (fun rid m' => rid = rid_of d ht /\ m' = m) evs).
    + unfold newRequestID, rid_of. rewrite bool_decide_true by done.
      apply (same_runtime _ _ _ RRand16 (if (length (d_rand d) =? 16)%nat then Ok (d_rand d) else Err (EMsg "rand"))).
      * intros ch rt (_&_&Hr) _. simpl. by rewrite Hr.
      * by apply same_ret.
    + intros rid m' [-> ->]. unfold rid_of. rewrite bool_decide_true by done. exact Hrest.
  - eapply (same_bind _ _ _ _ _ _ _ (fun rid m' => rid = TrimSpace (ht_RequestID ht) /\ m' = m) evs);
      [by apply same_ret|]. intros rid m' [-> ->]. exact Hrest.
Qed.
End Same.

(** ** Sequences of requests *)

Fixpoint serve_all {S : sig} {W : Type} `{!Exec S W} (server : http_request -> prog S (string * answer))
    (or : draw -> nat -> op S -> choice) (w : W) (rs : list (draw * http_request))
    : W * list (string * answer) :=
  match rs with
  | [] => (w, [])
  | (d, ht) :: rs =>
      let '(w1, _, a) := run (or d) 0 w (server ht) in
      let '(w2, answers) := serve_all server or w1 rs in
      (w2, a :: answers)
  end.

(** The draws of a sequence of requests: ticket ids that are new, and canonical event
    ids that are. *)
Definition fresh_draws {PG : Postgres} (m : tickets) (evs : list string) (ds : list draw) : Prop :=
  NoDup (map d_uuid ds) /\ (forall d, d ∈ ds -> m !! d_uuid d = None) /\
  exists new, map (fun d => uuid_in (d_event d)) ds = map Some new /\ NoDup new /\
    forall ev, ev ∈ new -> ev ∉ evs.

Lemma fresh_draws_step {PG : Postgres} m m' evs d ds ev :
  fresh_draws m evs (d :: ds) -> uuid_in (d_event d) = Some ev -> adds d m m' ->
  fresh_draws m' (ev :: evs) ds.
Proof.
  intros (Hu&Hm&new&Hn&Hnd&Hev) He Ha. destruct new as [|ev' new]; [done|].
  cbn [map] in *. apply NoDup_cons in Hu as [Hu Hu']. apply NoDup_cons in Hnd as [Hn1 Hn2].
  injection Hn as Hn0 Hn. assert (ev' = ev) as -> by congruence.
  split; [done|]. split.
  - intros d' Hd'. apply eq_None_not_Some. intros Hs. destruct (Ha _ Hs) as [Hs'|Heq].
    + rewrite Hm in Hs' by by right. by destruct Hs'.
    + apply Hu. rewrite <- Heq. by apply list_elem_of_fmap_2.
  - exists new. split; [done|]. split; [done|]. intros ev' Hin. apply not_elem_of_cons.
    split; [by intros ->|]. apply Hev. by right.
Qed.

(** C15: The two stores are interchangeable. From the same tickets, ticket-service gives
    the same answers to the same requests - every path, every error and every ticket, id
    for id - on its in-memory store and on Postgres, and keeps the same tickets: whenever
    Postgres carries its statements out, can store the texts of the requests, is given
    new ids and loses nothing of the times. *)
Theorem stores_are_interchangeable {J : Json} {JD : JsonDecoder} {PG : Postgres} {PH : Prometheus}
    or1 or2 evs (rs : list (draw * http_request)) w1 w2 :
  (forall d i o, memory_env d o (or1 d i o)) -> (forall d i o, postgres_env d o (or2 d i o)) ->
  text_ok "ticket" = true /\ text_ok EventTypeTicketCreated = true ->
  w_tickets w2 = w1.2 -> numbered evs (w_db w2) -> fresh_draws w1.2 evs (map fst rs) ->
  (forall d ht, (d, ht) ∈ rs -> accepted d (rid_of d ht) ht) ->
  let '(w1', answers1) := serve_all (S := memory_api) (ServeHTTP None promhttp) or1 w1 rs in
  let '(w2', answers2) := serve_all (S := sys_sig) ticket_service or2 w2 rs in
  answers1 = answers2 /\ w_tickets w2' = w1'.2.
Proof.
  intros Ho1 Ho2 Hc. revert evs w1 w2.
  induction rs as [|[d ht] rs IH]; intros evs w1 w2 Hw Hn Hf Hac; [by split|].
  pose proof Hf as (_&Hm&new&Hnew&_&Hev). cbn [map fst] in Hm, Hnew.
  destruct new as [|ev new]; [done|]. injection Hnew as He _.
  destruct (same_server Hc d evs w1.2 ht ev) as (a&m'&Ha&H1&H2);
    [apply Hac; by left|done|apply Hev; by left|apply Hm; by left|].
  pose proof (run_solo (memory_env d) _ _ w1 (or1 d) 0 (Ho1 d) (H1 w1 eq_refl)) as R1.
  pose proof (run_solo (postgres_env d) _ _ w2 (or2 d) 0 (Ho2 d) (H2 w2 Hw Hn)) as R2.
  cbn [serve_all].
  destruct (run (or1 d) 0 w1 _) as [[w1' n1] a1]. destruct (run (or2 d) 0 w2 _) as [[w2' n2] a2].
  destruct R1 as [-> Hm1]. destruct R2 as (->&Hm2&Hn2).
  specialize (IH (ev :: evs) w1' w2'). destruct (serve_all _ or1 w1' rs) as [w1'' as1].
  destruct (serve_all _ or2 w2' rs) as [w2'' as2].
  destruct IH as [-> Hw'']; [congruence|done| | |by split].
  - rewrite Hm1. by eapply fresh_draws_step.
  - intros d' ht' Hin. apply Hac. by right.
Qed.

(** ** Where they differ *)

(** A ticket whose title Postgres cannot store is never created there. *)
Lemma wp_Create_refused {J : Json} {PG : Postgres} rid t w :
  text_ok (t_Title t) = false ->
  wp (solo any) (PostgresStore.Create (S := sys_sig) rid t) (fun r _ => exists e, r = Err e) w.
Proof.
  intros Ht. unfold PostgresStore.Create. apply wp_bind, wp_call. intros ch1 _. ops.
  rewrite exec_ticket. cbn [fst snd].
  destruct (ticket_exec ch1 _ QBegin).2 as [tx|e]; [|apply wp_ret; by eexists].
  apply wp_bind, wp_call. intros ch2 _. ops. rewrite exec_ticket. cbn [fst snd].
  destruct (ticket_exec ch2 _ (QInsertTicket tx t)).2 as [[tx' out]|e] eqn:E.
  - exfalso. apply ticket_exec_ok in E. simpl in E. injection E as _ E. unfold insert_ticket in E.
    rewrite Ht, andb_false_r in E. done.
  - unfold PostgresStore.rollback. apply wp_bind, wp_call. intros ch3 _. apply wp_ret. by eexists.
Qed.

(** A title Postgres cannot store - one with the character U+0000, which JSON can
    spell - passes the validation: the in-memory store creates the ticket, and on Postgres
    the same request is answered 500, as an internal error, whatever the server does. *)
Theorem unstorable_title_differs {J : Json} {JD : JsonDecoder} {PG : Postgres}
    r req rest w1 w2 or1 or2 n :
  (forall i o, ch_uuid (or1 i o) <> "") ->
  rq_Method r = "POST" -> decode_request (MaxBytesReader (rq_Body r) 1048576) = Ok (req, rest) ->
  decode_end rest = Some EOF -> Validate req = None -> text_ok (TrimSpace (req_Title req)) = false ->
  let '(_, _, rs1) := run or1 n w1 (CreateTicket (S := memory_api) r) in
  let '(_, _, rs2) := run or2 n w2 (CreateTicket (S := sys_sig) r) in
  (exists t, rs1 = Response 201 (PTicket t) /\ t_Title t = TrimSpace (req_Title req)) /\
  rs2 = WriteErrorR r 500 "internal_error" "internal error".
Proof.
  intros Hu Hm Hd He Hv Ht.
  assert (H1 : wp (solo (fun (_ : op memory_api) ch => ch_uuid ch <> "")) (CreateTicket r) (fun rs _ =>
    exists t, rs = Response 201 (PTicket t) /\ t_Title t = TrimSpace (req_Title req)) w1).
  { unfold CreateTicket. rewrite Hm, Hd, bool_decide_true by done. cbn [negb].
    rewrite bool_decide_true, Hv by done. cbn [negb].
    do 2 (apply wp_bind, wp_call; intros ? _).
    apply wp_bind, wp_call. intros chu Hch. apply wp_bind, wp_call. intros chc _.
    apply wp_ret. unfold exec; simpl. unfold InMemoryStore.Create.
    rewrite bool_decide_false by exact Hch. by eexists. }
  assert (H2 : wp (solo any) (CreateTicket r) (fun rs _ =>
    rs = WriteErrorR r 500 "internal_error" "internal error") w2).
  { unfold CreateTicket. rewrite Hm, Hd, bool_decide_true by done. cbn [negb].
    rewrite bool_decide_true, Hv by done. cbn [negb].
    do 3 (apply wp_bind, wp_call; intros ? _). apply wp_bind.
    eapply wp_mono; [|by apply wp_Create_refused]. intros res w' [e ->]. by apply wp_ret. }
  pose proof (run_solo _ _ _ w1 or1 n Hu H1) as R1.
  pose proof (run_solo any _ _ w2 or2 n (fun _ _ => I) H2) as R2.
  destruct (run or1 n w1 _) as [[w1' n1] rs1]. by destruct (run or2 n w2 _) as [[w2' n2] rs2].
Qed.

(** ** Witnesses *)

Definition nul_request : request :=
  Request "POST" "/tickets" (of_bytes (text "{'title':'a\u0000b'}")) "r-1".

Lemma unstorable_title_differs_witness :
  (run (fun _ _ => drawn) 0 (MkRuntime ∅ ∅ [], ∅ : tickets) (CreateTicket (S := memory_api) nul_request)).2
    = Response 201 (PTicket (MkTicket "t-1" (of_bytes (map chr [97; 0; 98])) "" "open" 1000 1000)) /\
  rs_status (run (fun _ _ => drawn) 0 empty_world (CreateTicket (S := sys_sig) nul_request)).2 = 500.
Proof.
  assert (Hd : exists rest, decode_request (MaxBytesReader (rq_Body nul_request) 1048576) =
    Ok (MkCreateTicketRequest (of_bytes (map chr [97; 0; 98])) "", rest) /\ decode_end rest = Some EOF).
  { exists (Body "" EOF). split; vm_compute; reflexivity. }
  destruct Hd as (rest&Hd&He).
  pose proof (unstorable_title_differs nul_request _ rest (MkRuntime ∅ ∅ [], ∅ : tickets) empty_world
    (fun _ _ => drawn) (fun _ _ => drawn) 0 ltac:(done) eq_refl Hd He
    ltac:(vm_compute; reflexivity) ltac:(vm_compute; reflexivity)) as H.
  split; [vm_compute; reflexivity|].
  destruct (run _ 0 (MkRuntime ∅ ∅ [], ∅ : tickets) _) as [[w1 n1] rs1].
  destruct (run _ 0 empty_world _) as [[w2 n2] rs2]. destruct H as [_ ->]. reflexivity.
Defined.

Definition first_draw : draw := Draw 1000 "t-1" "e-1" [].
Definition second_draw : draw := Draw 2000 "t-2" "e-2" [].
Definition post_then_fetch : list (draw * http_request) :=
  [(first_draw, HttpRequest "POST" "/tickets" "/tickets" "/tickets" "r-1" a_body);
   (second_draw, HttpRequest "GET" "/tickets/t-1" "/tickets/t-1" "/tickets/t-1" "r-2" "")].

Definition drawn_memory (d : draw) (_ : nat) (o : op memory_api) : choice :=
  Choice Done (d_now d) [] [] (d_uuid d) (d_rand d) 0 false 0 0 0 false.
Definition drawn_postgres (d : draw) (_ : nat) (o : op sys_sig) : choice :=
  Choice Done (d_now d) [] []
    (match o with OTicket (QInsertOutbox _ _ _ _ _) => d_event d | _ => d_uuid d end) (d_rand d) 0 false 0 0 0 false.

Lemma stores_are_interchangeable_witness :
  let answers := (serve_all (S := sys_sig) ticket_service drawn_postgres empty_world post_then_fetch).2 in
  (serve_all (S := memory_api) (ServeHTTP None promhttp) drawn_memory (MkRuntime ∅ ∅ [], ∅)
     post_then_fetch).2 = answers /\
  map (fun a => status_of a.2) answers = [201; 200].
Proof.
  assert (Hn : numbered [] (w_db empty_world)).
  { split; [intros id; simpl; rewrite lookup_empty; by intros []|].
    intros ev Hin. by apply elem_of_nil in Hin. }
  assert (Hf : fresh_draws ∅ [] (map fst post_then_fetch)).
  { split; [apply (bool_decide_unpack _); vm_compute; exact I|]. split; [intros; apply lookup_empty|].
    exists ["e-1"; "e-2"]. split; [done|]. split; [apply (bool_decide_unpack _); vm_compute; exact I|].
    intros ev _ Hin. by apply elem_of_nil in Hin. }
  assert (Hac : forall d ht, (d, ht) ∈ post_then_fetch -> accepted d (rid_of d ht) ht).
  { intros d ht Hin. apply elem_of_cons in Hin as [[= -> ->]|Hin]; [|apply list_elem_of_singleton in Hin as [= -> ->]];
      split; [done|done| |done|done|]; intros req rest Hd; [|vm_compute in Hd; discriminate].
    vm_compute in Hd. injection Hd as <- _. intros _. repeat split. eexists _, _. split; reflexivity. }
  pose proof (stores_are_interchangeable drawn_memory drawn_postgres [] post_then_fetch
    (MkRuntime ∅ ∅ [], ∅) empty_world (fun _ _ _ => conj (conj eq_refl (conj eq_refl eq_refl)) eq_refl)
    (fun _ _ _ => conj (conj eq_refl (conj eq_refl eq_refl)) eq_refl) (conj eq_refl eq_refl)
    eq_refl Hn Hf Hac) as H.
  cbv zeta. destruct (serve_all _ drawn_memory _ _) as [w1 as1].
  assert (Hs : map (fun a => status_of a.2)
    (serve_all (S := sys_sig) ticket_service drawn_postgres empty_world post_then_fetch).2 = [201; 200])
    by (vm_compute; reflexivity).
  destruct (serve_all _ drawn_postgres _ _) as [w2 as2]. destruct H as [-> _]. split; [reflexivity|exact Hs].
Defined.
