(* ===== verification/Wire.v ===== *)
(** * Properties of the JSON on the wire

    With the JSON of Codec.v: what a consumer decodes from the topic, what becomes of a
    message it cannot decode, and which bodies of a request are accepted. *)

From S2P Require Import Prelude Effects GoString Utf8 Rfc3339 Json JsonText JsonString Runtime.
From S2P Require Import Kafka Events Postgres Outbox Processed Ticket Handler Codec CodecLaws.
From S2P Require Import Router World System Safety Follows Solo Redelivery Api.
From S2P Require Relay Consumer.
From Stdlib Require Import Ascii.
#[local] Open Scope Z_scope.

#[local] Existing Instances go_json go_json_laws go_decoder.

(** The envelope as it is read back. *)
Definition received (e : Envelope) {JT : JsonTexts} : Envelope :=
  MkEnvelope (env_EventID e) (env_EventType e) (env_OccurredAt e) (env_Aggregate e)
             (env_AggregateID e) (env_RequestID e) (payload_text (env_Payload e)).

(** C16: Round trip of the envelope. What the relay encodes the consumer decodes, field by
    field - the time to the nanosecond, every string of valid UTF-8 whatever characters
    it holds, the payload as the same JSON without its white space. *)
Theorem envelope_roundtrip {JT : JsonTexts} e b :
  marshal_envelope e = Ok b -> strings_valid e -> valid_utf8 (env_RequestID e) = true ->
  env_Payload e = "" \/ shallow (env_Payload e) = true ->
  unmarshal_envelope b = (received e, None).
Proof.
  intros Hb Hs Hr Hp. simpl in Hb. unfold marshal in Hb.
  destruct (envelope_value e) as [v|] eqn:Ev; [|done]. injection Hb as <-.
  destruct (envelope_decodes e v Hs Ev Hp) as (rid&Hd&Hrid). simpl. rewrite Hd. unfold received.
  by rewrite (Hrid Hr).
Qed.

(** C14: What a consumer reads from the topic is the outbox, row by row: every message of
    the topic decodes without an error into the fields of a row. *)
Theorem topic_decodes_to_rows {UT : UnicodeTables} {JT : JsonTexts} {PG : Postgres} {PH : Prometheus}
    {PL : PostgresLaws PG} topic max_attempts from_first w (pl : pool (S := sys_sig) (N := process)) m :
  reachable body (start topic max_attempts from_first) empty_world (w, pl) -> m ∈ log_of topic w ->
  exists id r rid, w_outbox w !! id = Some r /\
    unmarshal_envelope (m_value m) =
      (MkEnvelope (r_event_id r) (r_event_type r) (r_created_at r) (r_aggregate r)
                  (r_aggregate_id r) rid (payload_text (r_payload r)), None).
Proof.
  intros Hr Hm. pose proof (reachable_inv _ _ _ _ _ Hr) as HI.
  destruct (inv_log _ _ _ _ HI m Hm) as (id&r&Hrow&_&Hv).
  destruct (inv_row_text _ _ _ _ HI id r Hrow) as (Hu&Ht1&Ht2&Ht3).
  simpl in Hv. unfold marshal in Hv. destruct (envelope_value (row_envelope r)) as [v|] eqn:Ev; [|done].
  injection Hv as Hv. destruct (envelope_decodes (row_envelope r) v) as (rid&Hd&_); [|done| |].
  - repeat split; simpl; eauto using uuid_in_utf8, text_ok_utf8.
  - right. destruct (inv_row _ _ _ _ HI id r Hrow) as (t&_&_&_&_&rid&p&Hp&Hj).
    eapply jsonb_in_shallow; [exact Hj|]. by eapply payload_shallow.
  - exists id, r, rid. split; [done|]. simpl. rewrite <- Hv. exact Hd.
Qed.

(** ** Messages that cannot be decoded *)

(** The dead letter of a message: the message itself where it is JSON, nothing where not. *)
Definition dead_letter {JT : JsonTexts} (err value : string) : string :=
  match compact max_depth (to_bytes value) with
  | Some c => of_bytes (object [(key "error", string_value err); (key "value", c)])
  | None => ""
  end.

(** C38: A message that cannot be decoded is committed, and its dead letter carries the
    error and the message, in as many copies as the writer leaves - unless it is not JSON: then the encoding of the raw value
    fails, [wrapDLQ] drops that error, and what the dead letter topic receives is the key
    with no bytes of the message. *)
Theorem undecodable_is_lost {UT : UnicodeTables} {JT : JsonTexts} {PG : Postgres}
    cfg st at_ msg ty a w or n d wr e err :
  (forall i o, carried_out o (or i o)) -> Consumer.dlqProducer st = Some d -> p_w d = Some wr ->
  m_value msg <> "" -> unmarshal_envelope (m_value msg) = (e, Some err) ->
  let '(w', _, o) := run or n w (Consumer.handle_turn (S := sys_sig) cfg st at_ msg ty a) in
  o = Some (Consumer.PcFetch st) /\
  (exists k, (S k <= MaxAttempts)%nat /\
     topic_log (w_broker w') (wr_Topic wr) = topic_log (w_broker w) (wr_Topic wr) ++
       replicate (S k) (Message (m_key msg)
         (dead_letter (Error (Consumer.wrap "unmarshal" err)) (m_value msg)))) /\
  exists from, br_committed (w_broker w') !!
    (rd_Topic (c_r (Consumer.consumer st)), rd_GroupID (c_r (Consumer.consumer st)), pl_partition at_) =
      Some (from, S (pl_offset at_)).
Proof.
  intros Hor Hd Hw Hne He.
  pose proof (undecodable_turn cfg st at_ msg ty a w or n d wr e err Hor Hd Hw He) as H.
  destruct (run or n w _) as [[w' m] o]. destruct H as (H1&(k&Hk&H2)&H3). split; [done|]. split; [|done].
  exists k. split; [done|]. rewrite H2. do 3 f_equal. unfold Consumer.wrapDLQ, dead_letter. simpl.
  unfold raw_value. rewrite bool_decide_false by done. by destruct (compact _ _).
Qed.

(** ** The body of a POST *)

Section Body.
Context {JT : JsonTexts}.









(** *** What the members of an object say, whatever they are *)










End Body.

(** ** Witnesses *)

From S2P Require Import Concrete.

(** An envelope with characters of every kind, and a payload with white space. *)
Definition an_odd_envelope : Envelope :=
  MkEnvelope "e-1" "ticket.created" (1709210096 * Second + 120500000) "ticket"
    (of_bytes (text "<'\>" ++ map chr [0; 10; 208; 175; 226; 128; 168])) ""
    (of_bytes (text "{ 'title' : '<b>' }")).

Lemma envelope_roundtrip_witness :
  exists b, marshal_envelope an_odd_envelope = Ok b /\
    unmarshal_envelope b = (MkEnvelope "e-1" "ticket.created" (1709210096 * Second + 120500000) "ticket"
      (of_bytes (text "<'\>" ++ map chr [0; 10; 208; 175; 226; 128; 168])) ""
      (of_bytes (text "{'title':'\u003cb\u003e'}")), None).
Proof.
  assert (Hb : exists b, marshal_envelope an_odd_envelope = Ok b) by (eexists; vm_compute; reflexivity).
  destruct Hb as [b Hb]. exists b. split; [exact Hb|].
  assert (Hr : received an_odd_envelope = MkEnvelope "e-1" "ticket.created" (1709210096 * Second + 120500000)
    "ticket" (of_bytes (text "<'\>" ++ map chr [0; 10; 208; 175; 226; 128; 168])) ""
    (of_bytes (text "{'title':'\u003cb\u003e'}"))) by (vm_compute; reflexivity).
  rewrite <- Hr. apply (envelope_roundtrip an_odd_envelope b Hb).
  - vm_compute. repeat split.
  - reflexivity.
  - right. vm_compute. reflexivity.
Defined.

Lemma topic_decodes_to_rows_witness :
  exists m, m ∈ log_of the_topic pipeline_world /\
    exists id r, w_outbox pipeline_world !! id = Some r /\ event_of m = r_event_id r.
Proof.
  assert (Hm : exists m, m ∈ log_of the_topic pipeline_world).
  { destruct (log_of the_topic pipeline_world) as [|m l] eqn:E; [vm_compute in E; discriminate|].
    exists m. by left. }
  destruct Hm as [m Hm]. exists m. split; [exact Hm|].
  destruct (topic_decodes_to_rows the_topic 10 true _ _ m pipeline_reachable Hm) as (id&r&rid&Hr&Hd).
  exists id, r. split; [exact Hr|]. exact (f_equal (fun x => env_EventID (fst x)) Hd).
Defined.

Lemma undecodable_is_lost_witness :
  let r := run all_fine 0 empty_world
    (Consumer.handle_turn (S := sys_sig) a_config a_state (Place 0 4) (Message "t-1" "garbage") "unknown" 0) in
  Message "t-1" "" ∈ topic_log (w_broker r.1.1) "tickets.dlq" /\
  exists from, br_committed (w_broker r.1.1) !! (the_topic, "notification-service", 0%nat) = Some (from, 5%nat).
Proof.
  intros r. subst r.
  pose proof (undecodable_is_lost a_config a_state (Place 0 4) (Message "t-1" "garbage") "unknown" 0 empty_world
    all_fine 0 (a_producer "tickets.dlq")
    (newWriter (MkProducerConfig ["localhost:9092"] "tickets.dlq" "outbox-relay" (5 * Second)))
    zero_Envelope (EMsg "invalid character")) as H.
  destruct (run all_fine 0 empty_world _) as [[w' m] o].
  destruct H as (_&(k&_&H1)&H2); [done|done|done|done|vm_compute; reflexivity|].
  split; [|exact H2]. cbn [fst snd wr_Topic newWriter pc_Topic] in *. rewrite H1. apply elem_of_app. right.
  replace (dead_letter _ _) with "" by (vm_compute; reflexivity). by left.
Defined.


