(* ===== verification/Bodies.v ===== *)
(** * The bodies of HTTP responses (internal/ticket/handler.go, errors.go)

    What [json.NewEncoder(w).Encode] writes for a ticket and for an error, and that a
    client which decodes it gets back what the handler answered. *)

From S2P Require Import Prelude Effects GoString Utf8 Rfc3339 Json JsonText JsonString Runtime Events.
From S2P Require Import Postgres Outbox Ticket Handler Codec CodecLaws.
From Stdlib Require Import Ascii.
#[local] Open Scope Z_scope.

(** ** Encode: the value and a newline, or, when it cannot be encoded, nothing *)

Definition optional (name s : string) : list (bytes * bytes) :=
  if bool_decide (s = "") then [] else [(key name, string_value s)].

Definition Encode (v : result bytes) : string :=
  match v with Ok b => of_bytes (b ++ [chr 10]) | Err _ => "" end.

Definition error_value (code message request_id : string) : bytes :=
  object [(key "error",
           object ([(key "code", string_value code); (key "message", string_value message)]
                   ++ optional "request_id" request_id))].

Section Bodies.
Context {JT : JsonTexts}.

Definition ticket_value (t : Ticket) : result bytes :=
  match time_value (t_CreatedAt t), time_value (t_UpdatedAt t) with
  | Ok created, Ok updated =>
      Ok (object ([(key "id", string_value (t_ID t)); (key "title", string_value (t_Title t))]
                  ++ optional "description" (t_Description t)
                  ++ [(key "status", string_value (t_Status t)); (key "created_at", created);
                      (key "updated_at", updated)]))
  | Err err, _ | _, Err err => Err err
  end.

Definition body_text (p : payload) : string :=
  match p with
  | PTicket t => Encode (ticket_value t)
  | PError code message request_id => Encode (Ok (error_value code message request_id))
  | PText s => s
  end.

(** ** A client that decodes with the same tags *)

Inductive ticket_field : Type := FID | FTitle | FDescription | FStatus | FCreatedAt | FUpdatedAt.

Definition ticket_keys : list (string * ticket_field) :=
  [("id", FID); ("title", FTitle); ("description", FDescription); ("status", FStatus);
   ("created_at", FCreatedAt); ("updated_at", FUpdatedAt)].

Definition set_ticket (f : ticket_field) (src : bytes) (t : Ticket) : stored Ticket :=
  let 'MkTicket id title descr status created updated := t in
  match f with
  | FID => stored_map (fun v => MkTicket v title descr status created updated) (to_string src)
  | FTitle => stored_map (fun v => MkTicket id v descr status created updated) (to_string src)
  | FDescription => stored_map (fun v => MkTicket id title v status created updated) (to_string src)
  | FStatus => stored_map (fun v => MkTicket id title descr v created updated) (to_string src)
  | FCreatedAt => stored_map (fun v => MkTicket id title descr status v updated) (to_time src)
  | FUpdatedAt => stored_map (fun v => MkTicket id title descr status created v) (to_time src)
  end.

Definition assign_ticket (k : string) (src : bytes) (t : Ticket) : option (stored Ticket) :=
  (fun f => set_ticket f src t) <$> field_named ticket_keys k.



Definition read_ticket (s : string) : Ticket * option goerr := Unmarshal assign_ticket s zero_Ticket.

(** *** An error: its object inside the object of the response *)

Definition api_error : Type := string * string * string.

Definition assign_api_error (k : string) (src : bytes) (e : api_error) : option (stored api_error) :=
  let '(code, message, rid) := e in
  (fun f : nat =>
     match f with
     | 0%nat => stored_map (fun v => (v, message, rid)) (to_string src)
     | 1%nat => stored_map (fun v => (code, v, rid)) (to_string src)
     | _ => stored_map (fun v => (code, message, v)) (to_string src)
     end) <$> field_named [("code", 0%nat); ("message", 1%nat); ("request_id", 2%nat)] k.

Definition assign_error (k : string) (src : bytes) (e : api_error) : option (stored api_error) :=
  (fun _ : unit =>
     match decode_struct false assign_api_error src e with
     | (e, None) => Stored e
     | (_, Some err) => Stopped err
     end) <$> field_named [("error", ())] k.

Definition read_error (s : string) : api_error * option goerr := Unmarshal assign_error s ("", "", "").

(** ** Round trips *)

(** An object on a line of its own is decoded member by member. *)
Lemma Unmarshal_line {A} (assign : string -> bytes -> A -> option (stored A)) fs (a : A) :
  fs <> [] -> fields_ok (max_depth - 1) fs ->
  Unmarshal assign (of_bytes (object fs ++ [chr 10])) a = decode_members false assign (map as_member fs) a None.
Proof.
  intros Hne Hok. unfold Unmarshal, compact. rewrite to_of_bytes, object_read by done.
  rewrite bool_decide_true by done. unfold decode_struct, object_members, object at 1.
  cbn [app]. rewrite skip_ws_stop by done. change (isc 123 open_brace) with true. cbv iota.
  rewrite <- (assoc_L (++)). cbn [app].
  destruct (commas_dark fs [close_brace; chr 10] Hne) as [l Hl]. rewrite Hl, skip_ws_stop by done.
  change (isc 125 quote_mark) with false. cbv iota. rewrite <- Hl.
  rewrite members_read; [done|done|done|].
  unfold fuel_of, object. cbn [app length]. repeat (rewrite length_app; cbn [app length]). lia.
Qed.

Definition ticket_text_ok (t : Ticket) : Prop :=
  valid_utf8 (t_ID t) = true /\ valid_utf8 (t_Title t) = true /\
  valid_utf8 (t_Description t) = true /\ valid_utf8 (t_Status t) = true.

Lemma optional_ok d name s : forallb plain_char (key name) = true -> fields_ok d (optional name s).
Proof.
  intros Hn. unfold optional. case_bool_decide; [constructor|].
  apply Forall_cons. split; [split; [done|apply string_is_value]|constructor].
Qed.

(** A field that is left out is read as the empty string it was. *)
Lemma decode_optional {A} (assign : string -> bytes -> A -> option (stored A)) name s ms a a' saved :
  unquote (key name) = name -> assign name (string_value s) a = Some (Stored a') ->
  (s = "" -> a' = a) ->
  decode_members false assign (map as_member (optional name s) ++ ms) a saved
    = decode_members false assign ms a' saved.
Proof.
  intros Hk Ha Hs. unfold optional. case_bool_decide as Hd; cbn [map app].
  - by rewrite (Hs Hd).
  - apply decode_step. by rewrite Hk.
Qed.

Lemma ticket_roundtrip t :
  ticket_text_ok t -> is_ok (ticket_value t) = true -> read_ticket (body_text (PTicket t)) = (t, None).
Proof.
  destruct t as [id title descr status created updated]. intros (H1&H2&H3&H4) Hok. unfold body_text, ticket_value in *.
  cbn [t_ID t_Title t_Description t_Status t_CreatedAt t_UpdatedAt] in *. unfold time_value in *.
  destruct (format_rfc3339 created) as [cb|] eqn:Ec; [|done].
  destruct (format_rfc3339 updated) as [ub|] eqn:Eu; [|done]. clear Hok.
  pose proof (time_is_value (max_depth - 1) _ _ Ec) as Hc.
  pose proof (time_is_value (max_depth - 1) _ _ Eu) as Hu.
  unfold read_ticket, Encode. rewrite Unmarshal_line; [|done|].
  2: { unfold fields_ok. rewrite !Forall_app. split; [by_fields ltac:(fail)|].
       split; [by apply optional_ok|]. by_fields ltac:(first [exact Hc|exact Hu]). }
  rewrite !map_app. cbn [map app]. unfold zero_Ticket.
  assert (Hset : forall k f src a a', field_named ticket_keys k = Some f -> unquote (key k) = k ->
    set_ticket f src a = Stored a' -> assign_ticket (unquote (key k)) src a = Some (Stored a')).
  { intros k f src a a' Hf -> Ha. unfold assign_ticket. rewrite Hf. simpl. by rewrite Ha. }
  erewrite decode_step by (eapply Hset; [by vm_compute|by vm_compute|];
    cbn [set_ticket]; by rewrite to_string_value).
  erewrite decode_step by (eapply Hset; [by vm_compute|by vm_compute|];
    cbn [set_ticket]; by rewrite to_string_value).
  erewrite decode_optional; [|by vm_compute| |].
  2: { unfold assign_ticket. replace (field_named ticket_keys "description") with (Some FDescription)
         by (vm_compute; reflexivity). cbn [fmap option_fmap option_map set_ticket].
       by rewrite to_string_value. }
  2: { by intros ->. }
  erewrite decode_step by (eapply Hset; [by vm_compute|by vm_compute|];
    cbn [set_ticket]; by rewrite to_string_value).
  erewrite decode_step by (eapply Hset; [by vm_compute|by vm_compute|];
    cbn [set_ticket]; by rewrite (to_time_value _ _ Ec)).
  erewrite decode_step by (eapply Hset; [by vm_compute|by vm_compute|];
    cbn [set_ticket]; by rewrite (to_time_value _ _ Eu)).
  done.
Qed.

Lemma error_fields_ok d code message rid :
  fields_ok d ([(key "code", string_value code); (key "message", string_value message)]
               ++ optional "request_id" rid).
Proof.
  unfold fields_ok. rewrite Forall_app. split; [by_fields ltac:(fail)|by apply optional_ok].
Qed.

Lemma error_roundtrip code message rid :
  valid_utf8 code = true -> valid_utf8 message = true -> valid_utf8 rid = true ->
  read_error (body_text (PError code message rid)) = ((code, message, rid), None).
Proof.
  intros H1 H2 H3. unfold read_error, body_text, Encode, error_value.
  set (fs := [(key "code", string_value code); (key "message", string_value message)]
             ++ optional "request_id" rid).
  assert (Hne : fs <> []) by done.
  rewrite Unmarshal_line; [|done|].
  2: { constructor; [split; [by vm_compute|]|constructor].
       apply object_is_value; [done|done|apply error_fields_ok]. }
  cbn [map]. erewrite decode_step; [by cbn [decode_members]|].
  rewrite (eq_refl : unquote (key "error") = "error"). unfold assign_error.
  replace (field_named [("error", ())] "error") with (Some ()) by (vm_compute; reflexivity).
  cbn [fmap option_fmap option_map]. unfold decode_struct.
  rewrite object_members_object by first [done|apply error_fields_ok].
  assert (Hset : forall k f src a a', field_named [("code", 0%nat); ("message", 1%nat); ("request_id", 2%nat)] k = Some f ->
    unquote (key k) = k -> assign_api_error k src a = a' -> assign_api_error (unquote (key k)) src a = a').
  { by intros k f src a a' _ -> <-. }
  subst fs. rewrite map_app. cbn [map app].
  erewrite decode_step by (eapply Hset; [by vm_compute|by vm_compute|]; cbn; rewrite to_string_value by done; done).
  erewrite decode_step by (eapply Hset; [by vm_compute|by vm_compute|]; cbn; rewrite to_string_value by done; done).
  rewrite <- (app_nil_r (map as_member _)).
  erewrite decode_optional; [done|by vm_compute| |].
  - cbn. rewrite to_string_value by done. done.
  - by intros ->.
Qed.

(** C26: Round trip of an answer. A client that decodes the body of a response gets the
    ticket the handler answered, field for field - its times to the nanosecond, its
    texts with whatever characters they hold, a description that was left out as empty -
    and of an error its code, its message and the id of its request. *)
Theorem bodies_roundtrip :
  (forall t, ticket_text_ok t -> is_ok (ticket_value t) = true ->
     read_ticket (body_text (PTicket t)) = (t, None)) /\
  (forall code message rid,
     valid_utf8 code = true -> valid_utf8 message = true -> valid_utf8 rid = true ->
     read_error (body_text (PError code message rid)) = ((code, message, rid), None)).
Proof.
  split; [exact ticket_roundtrip|exact error_roundtrip].
Qed.
End Bodies.

(** ** Witness *)

From S2P Require Import Concrete.

(** A title with a quote, a tag and a character beyond ASCII, and no description. *)
Definition an_odd_ticket : Ticket :=
  MkTicket "t-1" (of_bytes (text "a'<b>" ++ map chr [208; 175])) "" "open"
           (1709210096 * Second + 120500000) (1709210096 * Second).

Lemma bodies_roundtrip_witness :
  read_ticket (body_text (PTicket an_odd_ticket)) = (an_odd_ticket, None) /\
  read_error (body_text (PError "not_found" "not found" "")) = ("not_found", "not found", "", None).
Proof.
  split.
  - apply (proj1 bodies_roundtrip); [by repeat split|by vm_compute].
  - apply (proj2 bodies_roundtrip); reflexivity.
Defined.
