(* ===== verification/Anomalies.v ===== *)
(** * Behaviours that at-least-once delivery admits but the code could avoid

    Runs of the system, computed: statements without a guard on the status let a
    late process undo what another one, or it itself, has settled. *)

From S2P Require Import Prelude Effects GoString Runtime Kafka Events Postgres Outbox.
From S2P Require Import Processed Ticket Handler World System Concrete.
From S2P Require Relay Consumer.

Definition follow_all (s : world * pool (S := sys_sig) (N := process))
    (ds : list (directive (N := process))) : world * pool :=
  foldl (follow body) s ds.

Lemma follow_all_steps s ds :
  Forall (may_start (start the_topic 10 true)) ds ->
  rtc (step body (start the_topic 10 true)) s (follow_all s ds).
Proof. apply follow_steps. Qed.

Ltac starts :=
  repeat (constructor; [by (apply a_relay_starts || apply a_consumer_starts || exact I)|]); constructor.

(** ** A sent row goes back to pending

    The first relay claims the row and stalls; after the processing timeout the second
    relay resets it, claims it, publishes it and marks it sent; then the first one's
    write fails and it puts the row back. *)

Definition two_relays_1 : list (directive (N := process)) :=
  take 16 pipeline
  ++ [DStart 1 a_relay] ++ replicate 5 (DRun 1 (fine 3000 ""))
  ++ [DStart 2 a_relay] ++ replicate 8 (DRun 2 (fine (40 * Second) "")).
Definition two_relays_2 : list (directive (N := process)) :=
  [DRun 1 (failing (41 * Second) (Refused (EMsg "no space left")))]
  ++ replicate 3 (DRun 1 (fine (42 * Second) "")).

Definition stalled : world * pool := run_schedule two_relays_1.
Definition reopened : world * pool := follow_all stalled two_relays_2.

(** C39: C37: [MarkFailed] has no guard on the status, so a relay that lost its claim can
    reopen a row that another relay has published and marked sent: from a reachable
    state with the row [sent] and its message in the topic, a state is reached in which
    the row is [pending] again, to be published once more. *)
Theorem sent_row_is_reopened :
  exists s s' r r', reachable body (start the_topic 10 true) empty_world s /\
    rtc (step body (start the_topic 10 true)) s s' /\
    w_outbox s.1 !! 1 = Some r /\ r_status r = "sent" /\
    w_outbox s'.1 !! 1 = Some r' /\ r_status r' = "pending" /\
    length (log_of the_topic s'.1) = 1%nat.
Proof.
  destruct (w_outbox stalled.1 !! 1) as [r|] eqn:E1; [|vm_compute in E1; discriminate].
  destruct (w_outbox reopened.1 !! 1) as [r'|] eqn:E2; [|vm_compute in E2; discriminate].
  exists stalled, reopened, r, r'.
  split; [apply schedule_reachable; unfold two_relays_1; starts|].
  split; [apply follow_all_steps; starts|].
  vm_compute in E1, E2. simplify_eq. vm_compute. repeat split.
Qed.

(** ** A done event is notified again

    The answer of [MarkDone] is lost: the event is [done], but the consumer takes the
    error for a failure, [MarkFailed] sets the row back to [processing], and the retry
    notifies a second time. *)

Definition published : list (directive (N := process)) := take 25 pipeline.
Definition done_1 : list (directive (N := process)) :=
  published ++ [DStart 2 a_consumer] ++ replicate 6 (DRun 2 (fine 4000 ""))
  ++ [DRun 2 (failing 4000 (Lost (EMsg "driver: bad connection")))].
Definition done_2 : list (directive (N := process)) := replicate 6 (DRun 2 (fine 5000 "")).

Definition done_lost : world * pool := run_schedule done_1.
Definition notified_again : world * pool := follow_all done_lost done_2.

(** C40: A lost answer to [MarkDone] costs a second notification: [MarkFailed] has no
    guard on the status, so from a reachable state in which the event is [done] and
    notified once, the same consumer reaches a state in which it is [processing] and
    notified twice, the topic holding its message once. *)
Theorem done_event_is_notified_again :
  exists s s' p p', reachable body (start the_topic 10 true) empty_world s /\
    rtc (step body (start the_topic 10 true)) s s' /\
    w_processed s.1 !! "e-1" = Some p /\ pe_status p = "done" /\ notified s.1 = ["e-1"] /\
    w_processed s'.1 !! "e-1" = Some p' /\ pe_status p' = "processing" /\
    notified s'.1 = ["e-1"; "e-1"] /\ length (log_of the_topic s'.1) = 1%nat.
Proof.
  destruct (w_processed done_lost.1 !! "e-1") as [p|] eqn:E1; [|vm_compute in E1; discriminate].
  destruct (w_processed notified_again.1 !! "e-1") as [p'|] eqn:E2; [|vm_compute in E2; discriminate].
  exists done_lost, notified_again, p, p'.
  split; [apply schedule_reachable; unfold done_1, published; starts|].
  split; [apply follow_all_steps; starts|].
  vm_compute in E1, E2. simplify_eq. vm_compute. repeat split.
Qed.
