(* ===== verification/Pipeline.v ===== *)
(** * Properties of the whole pipeline

    What holds in every reachable state of any number of concurrent requests,
    relays and consumers, with crashes, failed calls, lost answers, arbitrary
    clocks and arbitrary redelivery. *)

From S2P Require Import Prelude Effects GoString Runtime Kafka Events Postgres Outbox.
From S2P Require Import Processed Ticket Handler Router World System Safety Follows Concrete.

Section Pipeline.
Context {UT : UnicodeTables} {J : Json} {JD : JsonDecoder} {PG : Postgres} {PH : Prometheus}.
Context {JL : JsonLaws J} {PL : PostgresLaws PG}.
Context (topic : string) (max_attempts : Z) (from_first : bool) (w : world) (pl : pool (S := sys_sig) (N := process)).
Context (Hreach : reachable body (start topic max_attempts from_first) empty_world (w, pl)).

(** C1: Transactional outbox. Every ticket in the database has exactly one row in
    the outbox, of type [ticket.created] and with the ticket as its payload, and
    every outbox row belongs to a ticket. *)
Theorem tickets_have_one_event :
  (forall tid t, w_tickets w !! tid = Some t ->
     exists id r, w_outbox w !! id = Some r /\ row_of_ticket r t /\
       forall id' r', w_outbox w !! id' = Some r' -> r_aggregate_id r' = tid -> id' = id) /\
  (forall id r, w_outbox w !! id = Some r ->
     exists t, w_tickets w !! r_aggregate_id r = Some t /\ row_of_ticket r t).
Proof.
  pose proof (reachable_inv _ _ _ _ _ Hreach) as HI. split; [|by apply (inv_row _ _ _ _ HI)].
  intros tid t Ht. destruct (inv_ticket _ _ _ _ HI tid t Ht) as (Htid&id&r&Hr&Ha).
  exists id, r. split; [done|]. destruct (inv_row _ _ _ _ HI id r Hr) as (t'&Ht'&Hrow). split.
  - congruence.
  - intros id' r' Hr' Ha'. eapply (inv_row_inj _ _ _ _ HI); [done..|congruence].
Qed.

(** C2: No event is lost by the relay. A row marked [sent] has its envelope in the
    Kafka topic, keyed by its ticket. *)
Theorem sent_is_published id r :
  w_outbox w !! id = Some r -> r_status r = "sent" ->
  exists m, m ∈ log_of topic w /\ event_message r m.
Proof. exact (inv_sent _ _ _ _ (reachable_inv _ _ _ _ _ Hreach) id r). Qed.

(** C5: No event is made up. Every message of the topic is the envelope of an
    outbox row, whose ticket was committed. *)
Theorem published_has_ticket m :
  m ∈ log_of topic w ->
  exists id r t, w_outbox w !! id = Some r /\ event_message r m /\
    w_tickets w !! m_key m = Some t /\ row_of_ticket r t.
Proof.
  pose proof (reachable_inv _ _ _ _ _ Hreach) as HI. intros Hm.
  destruct (inv_log _ _ _ _ HI m Hm) as (id&r&Hr&He).
  destruct (inv_row _ _ _ _ HI id r Hr) as (t&Ht&Hrow). exists id, r, t.
  by rewrite (proj1 He).
Qed.

(** C7: A row is given up only when its attempts are used up: [failed] means that
    a retry limit is set and has been reached. *)
Theorem failed_is_exhausted id r :
  w_outbox w !! id = Some r -> r_status r = "failed" -> 0 < max_attempts <= r_attempts r.
Proof. exact (inv_failed _ _ _ _ (reachable_inv _ _ _ _ _ Hreach) id r). Qed.

(** C3: At-least-once delivery. What a consumer group has committed has been notified:
    when the committed offset of a partition is [n], so that the group will never be sent
    an earlier message of it again, then the event of every message of the partition
    before [n] has been notified - from the offset [f] on at which the group began to read
    the partition, which is the first one where the consumers start at the first offset. *)
Theorem committed_was_notified group p f n :
  br_committed (w_broker w) !! (topic, group, p) = Some (f, n) ->
  (n <= length (entries_of topic w))%nat /\ (from_first = true -> f = 0%nat) /\
  forall i m, (f <= i < n)%nat -> entries_of topic w !! i = Some (p, m) -> event_of m ∈ notified w.
Proof.
  intros Hc. destruct (inv_committed _ _ _ _ (reachable_inv _ _ _ _ _ Hreach) group p _ Hc) as (Hn&Hcov&Hf).
  split; [exact Hn|]. split; [exact Hf|exact Hcov].
Qed.

(** C6: An event that [processed_events] records as [done] or [failed], so that its
    next delivery is skipped, has been notified. *)
Theorem final_was_notified e p :
  w_processed w !! e = Some p -> final (pe_status p) = true -> e ∈ notified w.
Proof. exact (inv_final _ _ _ _ (reachable_inv _ _ _ _ _ Hreach) e p). Qed.

(** C4: End to end, nobody is notified of something that did not happen: every
    notification is for an event whose ticket is in the database. *)
Theorem notified_has_ticket e :
  e ∈ notified w ->
  exists id r t, w_outbox w !! id = Some r /\ r_event_id r = e /\
    w_tickets w !! r_aggregate_id r = Some t /\ row_of_ticket r t.
Proof.
  pose proof (reachable_inv _ _ _ _ _ Hreach) as HI. intros He.
  destruct (inv_notified _ _ _ _ HI e He) as (id&r&Hr&<-).
  destruct (inv_row _ _ _ _ HI id r Hr) as (t&Ht&Hrow). by exists id, r, t.
Qed.

(** C17: The API answers 201 (and 200) only with tickets that are committed, in the
    form in which they are stored, and whose event is in the outbox. *)
Theorem answered_is_committed rid rs t :
  (rid, Answer rs) ∈ w_responses w -> rs_body rs = PTicket t ->
  w_tickets w !! t_ID t = Some t /\
  exists id r, w_outbox w !! id = Some r /\ r_aggregate_id r = t_ID t.
Proof.
  pose proof (reachable_inv _ _ _ _ _ Hreach) as HI. intros Hrs Hb.
  pose proof (inv_responses _ _ _ _ HI rid rs t Hrs Hb) as Ht. split; [done|].
  by destruct (inv_ticket _ _ _ _ HI _ _ Ht).
Qed.

(** C19: Well-formed tables. Every outbox row is in one of its four states with the
    columns of that state, its attempts within the column's range; likewise every
    row of [processed_events] in one of its three. *)
Theorem rows_are_wf :
  (forall id r, w_outbox w !! id = Some r -> row_wf r) /\
  (forall e p, w_processed w !! e = Some p -> prow_wf p).
Proof.
  pose proof (reachable_inv _ _ _ _ _ Hreach) as HI.
  split; [apply (inv_rows_wf _ _ _ _ HI)|apply (inv_processed_wf _ _ _ _ HI)].
Qed.

(** C18: Nothing recorded is lost later. From a reachable state on, every row keeps
    its identity and its attempts never decrease, every ticket stays as it is,
    and the topic and the notifications only grow at their ends. *)
Theorem history_is_kept w' pl' :
  rtc (step body (start topic max_attempts from_first)) (w, pl) (w', pl') ->
  (forall id r, w_outbox w !! id = Some r ->
     exists r', w_outbox w' !! id = Some r' /\ row_evolves r r') /\
  w_tickets w ⊆ w_tickets w' /\
  log_of topic w `prefix_of` log_of topic w' /\ notified w `prefix_of` notified w'.
Proof.
  intros Hs. pose proof (reachable_grows topic max_attempts from_first _ _ Hreach Hs) as HG.
  pose proof (grows_log _ _ _ HG) as HL. destruct HG as [Ho Ht HE Hn]. auto.
Qed.
End Pipeline.

(** ** Witnesses: the runs of [Concrete] *)

Example tickets_have_one_event_witness :
  exists id r, w_outbox pipeline_world !! id = Some r /\ row_of_ticket r the_ticket /\
    forall id' r', w_outbox pipeline_world !! id' = Some r' -> r_aggregate_id r' = "t-1" -> id' = id.
Proof.
  apply (proj1 (tickets_have_one_event the_topic 10 true pipeline_world _ pipeline_reachable)).
  vm_compute. reflexivity.
Defined.

Example sent_is_published_witness :
  exists m, m ∈ log_of the_topic pipeline_world /\ event_message the_row m.
Proof.
  apply (sent_is_published the_topic 10 true pipeline_world _ pipeline_reachable 1 the_row);
    vm_compute; reflexivity.
Defined.

Example published_has_ticket_witness :
  let m := Message "t-1" (default "" (m_value <$> head (log_of the_topic pipeline_world))) in
  exists id r t, w_outbox pipeline_world !! id = Some r /\ event_message r m /\
    w_tickets pipeline_world !! "t-1" = Some t /\ row_of_ticket r t.
Proof.
  apply (published_has_ticket the_topic 10 true pipeline_world _ pipeline_reachable).
  vm_compute. constructor.
Defined.

Example failed_is_exhausted_witness : 0 < 1 <= r_attempts the_failed_row.
Proof.
  apply (failed_is_exhausted the_topic 1 true exhausted_world _ exhausted_reachable 1 the_failed_row);
    vm_compute; reflexivity.
Defined.

Example committed_was_notified_witness :
  exists m, entries_of the_topic pipeline_world !! 0%nat = Some (0%nat, m) /\
    event_of m = "e-1" /\ event_of m ∈ notified pipeline_world.
Proof.
  destruct (committed_was_notified the_topic 10 true pipeline_world _ pipeline_reachable
              "notification-service" 0 0 1) as (_&_&H).
  { rewrite pipeline_committed. apply lookup_singleton_eq. }
  destruct (entries_of the_topic pipeline_world !! 0%nat) as [[p m]|] eqn:E; vm_compute in E; [|discriminate].
  injection E as <- <-. eexists. split; [reflexivity|]. split; [vm_compute; reflexivity|].
  apply (H 0%nat); [split; [apply le_n|apply le_n]|vm_compute; reflexivity].
Defined.

Example final_was_notified_witness : "e-1" ∈ notified pipeline_world.
Proof.
  apply (final_was_notified the_topic 10 true pipeline_world _ pipeline_reachable "e-1" the_processed);
    vm_compute; reflexivity.
Defined.

Example notified_has_ticket_witness :
  exists id r t, w_outbox pipeline_world !! id = Some r /\ r_event_id r = "e-1" /\
    w_tickets pipeline_world !! r_aggregate_id r = Some t /\ row_of_ticket r t.
Proof.
  apply (notified_has_ticket the_topic 10 true pipeline_world _ pipeline_reachable).
  rewrite pipeline_notified. constructor.
Defined.

Example answered_is_committed_witness :
  w_tickets pipeline_world !! "t-1" = Some the_ticket /\
  exists id r, w_outbox pipeline_world !! id = Some r /\ r_aggregate_id r = "t-1".
Proof.
  apply (answered_is_committed the_topic 10 true pipeline_world _ pipeline_reachable
           "r-1" (Response 201 (PTicket the_ticket)) the_ticket); [|reflexivity].
  vm_compute. constructor.
Defined.

Example history_is_kept_witness :
  (forall id r, w_outbox early.1 !! id = Some r ->
     exists r', w_outbox pipeline_world !! id = Some r' /\ row_evolves r r') /\
  w_tickets early.1 ⊆ w_tickets pipeline_world /\
  log_of the_topic early.1 `prefix_of` log_of the_topic pipeline_world /\
  notified early.1 `prefix_of` notified pipeline_world.
Proof.
  exact (history_is_kept the_topic 10 true early.1 early.2 early_reachable _ _ early_later).
Defined.

Example rows_are_wf_witness : row_wf the_row /\ prow_wf the_processed.
Proof.
  pose proof (rows_are_wf the_topic 10 true pipeline_world _ pipeline_reachable) as [Ho Hp].
  split; [apply (Ho 1)|apply (Hp "e-1")]; vm_compute; reflexivity.
Defined.
