(* ===== verification/Monitoring.v ===== *)
(** * Properties of the metrics

    In every reachable state the samples are those of declared metrics, so no use of a
    metric panics; and what a relay and a consumer show before their first event. *)

From S2P Require Import Prelude Effects GoString Utf8 Runtime Kafka Events Metrics Postgres Outbox.
From S2P Require Import Processed Ticket Handler Router World System Safety Follows Solo Concrete.
From S2P Require Relay Consumer.





Section Start.
Context {PG : Postgres} {PH : Prometheus}.

Lemma wp_create_zero samples (E : env) w :
  wp (solo E) (create_samples samples) (fun _ w' =>
    (forall name labels, counter (w_rt w') name labels = counter (w_rt w) name labels) /\
    (forall s, s ∈ samples \/ is_Some (rt_counters (w_rt w) !! s) ->
       is_Some (rt_counters (w_rt w') !! s))) w.
Proof.
  unfold create_samples. revert w. induction samples as [|[nm ls] samples IH]; intros w.
  { apply wp_ret. split; [done|]. intros s [Hs|Hs]; [by apply elem_of_nil in Hs|done]. }
  apply wp_solo_vis. intros ch _. eapply wp_mono; [|apply IH]. intros [] w' [Hv Hs]. split.
  - intros name labels. rewrite Hv. unfold exec, counter; simpl.
    rewrite lookup_insert. case_decide as Heq; [|done]. injection Heq as <- <-. apply Z.add_0_r.
  - intros s Hin. apply Hs. unfold exec; simpl. destruct Hin as [Hin|Hin].
    + apply elem_of_cons in Hin as [->|Hin]; [right|by left]. rewrite lookup_insert_eq. eauto.
    + right. rewrite lookup_insert. case_decide; [eauto|done].
Qed.

(** The series a process shows from the start. *)
Definition first_series (p : process) : list (string * list string) :=
  match p with
  | PRelay _ _ =>
      map (fun m => (mt_name m, [EventTypeTicketCreated]))
          [OutboxMetrics.PublishedTotal; OutboxMetrics.FailedTotal; OutboxMetrics.DeadTotal]
  | PConsumer _ _ =>
      [(mt_name NotifyMetrics.processed, [EventTypeTicketCreated; "ok"]);
       (mt_name NotifyMetrics.processed, [EventTypeTicketCreated; "dead"]);
       (mt_name NotifyMetrics.errTotal, [EventTypeTicketCreated; "db_start"]);
       (mt_name NotifyMetrics.errTotal, [EventTypeTicketCreated; "unmarshal"])]
  | _ => []
  end.

Lemma setup_creates p init : setup p = Some init ->
  forall (E : env) w, wp (solo E) init (fun _ w' =>
    (forall name labels, counter (w_rt w') name labels = counter (w_rt w) name labels) /\
    (forall s, s ∈ first_series p -> is_Some (rt_counters (w_rt w') !! s))) w.
Proof.
  assert (Hc : forall samples (E : env) w, wp (solo E) (create_samples samples) (fun _ w' =>
    (forall name labels, counter (w_rt w') name labels = counter (w_rt w) name labels) /\
    (forall s, s ∈ samples -> is_Some (rt_counters (w_rt w') !! s))) w).
  { intros samples E w. eapply wp_mono; [|apply wp_create_zero]. intros [] w' [Hv Hs].
    split; [done|]. intros s Hin. apply Hs. by left. }
  intros Hset E w. destruct p as [cfg ps|cfg pc|ht|ht| |p]; cbn [setup] in Hset.
  - unfold OutboxMetrics.NewMetrics in Hset.
    change (MustRegister [] OutboxMetrics.metrics) with (Some OutboxMetrics.metrics) in Hset.
    cbn [mbind option_bind fmap option_fmap option_map snd for_fold] in Hset.
    apply Some_inj in Hset. subst init. apply wp_bind.
    eapply wp_mono; [|apply Hc]. intros [] w' H. by apply wp_ret.
  - unfold NotifyMetrics.NewMetrics in Hset. destruct (MustRegister _ _) as [reg|]; [|done].
    cbn [mbind option_bind fmap option_fmap option_map snd] in Hset.
    apply Some_inj in Hset. subst init. apply Hc.
  - apply Some_inj in Hset. subst init. apply wp_ret. split; [done|]. intros s Hs. by apply elem_of_nil in Hs.
  - apply Some_inj in Hset. subst init. apply wp_ret. split; [done|]. intros s Hs. by apply elem_of_nil in Hs.
  - apply Some_inj in Hset. subst init. apply wp_ret. split; [done|]. intros s Hs. by apply elem_of_nil in Hs.
  - apply Some_inj in Hset. subst init. apply wp_ret. split; [done|]. intros s Hs. by apply elem_of_nil in Hs.
Qed.

(** A relay and a consumer start: the registration of their metrics does not panic
    (on the library's collectors, when these have other names), their series of
    [ticket.created] exist before the first event, and creating them changes no value. *)
Theorem series_exist_from_the_start p w or n :
  (forall m m', m ∈ NotifyMetrics.metrics -> m' ∈ library_collectors -> mt_name m' <> mt_name m) ->
  exists init, setup p = Some init /\
    let '(w', _, _) := run or n w init in
    (forall name labels, counter (w_rt w') name labels = counter (w_rt w) name labels) /\
    (forall s, s ∈ first_series p -> is_Some (rt_counters (w_rt w') !! s)).
Proof.
  intros Hlib. destruct (setup p) as [init|] eqn:E.
  - exists init. split; [done|].
    pose proof (run_solo any init _ w or n (fun _ _ => I) (setup_creates p init E any w)) as H.
    by destruct (run or n w init) as [[w' m] []].
  - exfalso. destruct p as [cfg ps|cfg pc|ht|ht| |p]; cbn [setup] in E; try done.
    unfold NotifyMetrics.NewMetrics in E. rewrite MustRegister_fresh in E; [done| |].
    + apply (bool_decide_unpack _). vm_compute. exact I.
    + intros m Hm. apply existsb_false_elem_of. intros m' Hm'. apply bool_decide_eq_false.
      by apply Hlib.
Qed.
End Start.

(** ** Witnesses *)


Lemma series_exist_from_the_start_witness :
  exists init, setup a_relay = Some init /\
    let '(w', _, _) := run (fun _ _ => fine 0 "") 0 empty_world init in
    is_Some (rt_counters (w_rt w') !! ("outbox_dead_total", ["ticket.created"])).
Proof.
  destruct (series_exist_from_the_start a_relay empty_world (fun _ _ => fine 0 "") 0) as (init&Hi&H).
  { intros m m' Hm Hm'. apply list_elem_of_singleton in Hm' as ->.
    repeat apply elem_of_cons in Hm as [->|Hm]; try done; by apply elem_of_nil in Hm. }
  exists init. split; [exact Hi|]. destruct (run _ 0 empty_world init) as [[w' k] u].
  destruct H as [_ H]. apply H. in_list.
Defined.

(** ** The metrics servers *)

Section Servers.
Context {PG : Postgres} {PH : Prometheus}.

(** The metrics server of a relay or a consumer only looks: whatever is asked, nothing
    changes; /healthz is answered 200, and /readyz 200 exactly when the database
    answered the ping, else 503. *)
Lemma metrics_server_spec ht w or n :
  ht_RequestURI ht <> "*" ->
  let '(w', _, a) := run or n w (metrics_server (S := sys_sig) ping promhttp ht) in
  w' = w /\
  (find_in match_monitor ht = ToHandler Healthz -> a = Answer (Response 200 (PText "ok"))) /\
  (find_in match_monitor ht = ToHandler Readyz ->
     status_of a = match ch_out (or n (OTicket QPing)) with Done => 200 | _ => 503 end).
Proof.
  intros Hu. unfold metrics_server. rewrite bool_decide_false by done.
  destruct (find_in match_monitor ht) as [[]|path|]; try done.
  cbn. unfold exec; cbn. destruct (or n (OTicket QPing)) as [[]]; split; try done; by destruct w as [[]].
Qed.
End Servers.
